(* ===== verification/_CoqProject ===== *)
-Q . S2P
Prelude.v
Misc.v
SocketUtils.v
Logging.v
Zygiskd.v
RootImpl.v
Daemon.v
Protocol.v
WaitStatus.v
MonitorState.v
MonitorSocket.v
MonitorSigchld.v
Monitor.v
MonitorLive.v
EventLoop.v
MountInfo.v
Unmount.v
Files.v
Maps.v
MntNs.v
Elf.v
Remote.v
SoList.v
Inject.v
Main.v
Jni.v
JniEnv.v
JniRefs.v
JniOwner.v
JniArrays.v
JniHelper.v
ArtMethod.v
ArtInit.v
Context.v
ContextSpec.v
Loading.v
Companion.v
Installed.v
Denylist.v
HookLock.v
Hooks.v
HooksSpec.v
Hiding.v
Api.v
