(* ===== verification/Prelude.v ===== *)
(** * ReZygisk: a verification of the loader

    ReZygisk injects code into Android's zygote.  Its loader (src/loader/src) has three
    programs.  The _monitor_ (ptracer/monitor.cpp) traces init, notices every zygote that init
    starts, starts the daemon, and hands the stopped zygote to a tracer; it is controlled, and
    told about the daemon, over a datagram socket.  The _tracer_ (ptracer/ptracer.cpp,
    ptracer/utils.cpp) loads the injector library into the zygote by remote calls.  The
    _injector_ (injector/) then lives in the zygote and hooks its fork, loads the modules in
    each child, closes descriptors and undoes mounts.  Both talk to the daemon zygiskd
    (zygiskd/, in Rust) through common/daemon.cpp and common/socket_utils.cpp.

    ** Files

    - [Prelude]: bytes, C strings and machine words; the program monad [prog]; the relational
      calculi [Moves], [Halts] and [Returns] with their tactics; lemmas every file shares.
    - [Misc]: common/misc.cpp and include/misc.hpp ([parse_int], [split_str], [join_str], ...).
    - [SocketUtils]: common/socket_utils.cpp over a stream that arrives in arbitrary pieces,
      interrupted by EINTR, with descriptors as ancillary data.
    - [Logging]: common/logging.cpp and the loop of the daemon that receives the lines.
    - [Zygiskd]: the replies of zygiskd/src/zygiskd.rs, the flag word of constants.rs and the
      choice of the root implementation.
    - [RootImpl]: the probes and questions of zygiskd/src/root_impl (KernelSU, Magisk, APatch) over
      the answers of the kernel, of the managers and of their files.
    - [Daemon]: common/daemon.cpp, every request with its error paths.
    - [Protocol]: [Daemon] against the replies of [Zygiskd].
    - [WaitStatus]: the wait status macros and [parse_status].
    - [MonitorState], [MonitorSocket], [MonitorSigchld], [Monitor]: monitor.cpp; its globals and
      status file, the two event handlers, and the loop that runs them.  [MonitorLive]: progress
      of the loop.  [EventLoop]: the loop with its epoll instance and descriptors.
    - [Files]: the owners of files, directories and heap blocks (common/files.cpp,
      include/files.hpp, include/misc.hpp) with the buffer of [file_readline].
    - [MountInfo]: [file_readline] and [parse_mount_info] of common/files.cpp.
    - [Unmount]: injector/unmount.cpp.
    - [Maps]: [MapInfo::Scan] of ptracer/utils.cpp on the text of a maps file; [MntNs]:
      [switch_mnt_ns] of the same file.
    - [Elf]: [ElfImg] of common/elf_util.cpp and include/elf_util.h.
    - [Remote]: memory, registers, remote calls and symbol look-up of ptracer/utils.cpp, on
      x86-64, x86, AArch64 and ARM.
    - [SoList]: include/solist.hpp, the linker's list of libraries.
    - [Inject]: [inject_on_main] and [trace_zygote] of ptracer/ptracer.cpp.
    - [Main]: the command line, ptracer/main.cpp, over the monitor, the tracer and the client.
    - [Jni]: the replacement methods and tables of injector/jni_hooks.hpp and the argument
      structures of injector/module.hpp.
    - [JniEnv]: the Java environment; [JniRefs], [JniOwner], [JniArrays], [JniHelper]:
      injector/jni_helper.hpp, its scoped references and guarded calls, who owns a reference,
      arrays, and the wrappers.
    - [ArtMethod]: injector/art_method.hpp; [ArtInit]: its [Init] call by call over the wrappers.
    - [Context]: [ZygiskContext] and [ZygiskModule] of injector/hook.cpp and module.hpp;
      [ContextSpec]: the theorems about it.
    - [Loading]: common/dl.cpp and the loading of the modules the daemon sends.
    - [Companion]: the loop of the daemon over its connections and its companion processes
      (zygiskd/src/zygiskd.rs, companion.rs, dl.rs), joined with [Daemon] and [MonitorSocket].
    - [Installed]: [load_modules], [get_arch] and [create_library_fd] of zygiskd/src/zygiskd.rs,
      joined with [Daemon], [Loading] and [Companion].
    - [Denylist]: from the answer of the root implementation to the clean-up of an application,
      over [RootImpl], [Zygiskd], [Daemon], [Context] and [Unmount].
    - [HookLock]: the requests that hold [hook_info_lock], from several threads.
    - [Hooks]: installing and removing the hooks (injector/hook.cpp, entry.cpp, jni_hooks.hpp);
      [HooksSpec]: the hooked methods in the zygote.
    - [Hiding]: the changes of [run_modules_post] to the mappings of the process.
    - [Api]: the table of functions of include/api.hpp and injector/module.hpp, which joins
      [Context], [Hooks] and [Daemon].

    ** How the code is modelled

    A C++ routine is a [prog S A]: a function from a state [S] to an outcome and a state.  The
    state holds the globals the routine uses, the scripted answers of the kernel and of other
    processes (results of [recv], [waitpid], [fork], [read], ...; a script that has run out
    answers as its comment says), and a log of what the routine asked them to do.  An outcome is
    a value ([Ret]), the end of the process ([Exit]), undefined behaviour or an uncaught
    exception ([Crash], with its cause), or exhausted fuel.  Definitions keep the names of the
    source and can be run.  The state records are [sock] and [logger] (streams), [dworld] (the
    client of the daemon), [mon] (the monitor), [cli] (the command line, which holds the two
    before and the processes it may trace), [tproc] (a traced process), [nsproc] (descriptors and
    namespaces), [ElfImg] and [so_state] (images and the linker's list), [art] (method layout),
    [zygote] (the context and its process), [hooks] (the hooks around it), [host] (the modules'
    tables around both), [jworld] (the Java environment), [scopes] (scoped variables over it),
    [artw] (the environment with the method layout), [lworld] (the monitor with its descriptors),
    [proc] (descriptors and linker calls), [cworld] (the daemon and its companions), [os] (what the daemon asks
    of its system), [mworld] (memory files and their seals), [fworld] (open streams and heap
    blocks) and [cstate] (threads around a lock).  A [Result] of the daemon is [rres], with panics beside the errors.
    Integers are [Z] with their wrap-around written out; buffers are lists of bytes with their
    sizes; sets of descriptors and processes are [gset], memories are [gmap].  Logging inside
    other routines is left out except where its arguments can fail.  Ptrace, regular expressions,
    the dynamic linker, the Java virtual machine, the root managers and lsplt are outside of the
    repository: they are scripts or parameters.  Of epoll and of the JNI, the rules their
    documentation states are written out ([epoll_wait], [jcall]), and what they answer is a script.

    Interfaces between files are classes: [Reads] and [Sends] state what the socket layer
    promises to the client of the daemon, to the protocol and to the log; [Linker] states what
    the linker's list needs of an ELF image.

    ** What the theorems show

    - Monitor: it refines an abstract machine of tracing state and attachment of init
      ([init_monitor_refines]); commands without a payload are each served once, in order, up to
      the first message with one, which is undefined behaviour ([HandleEvent_drains]); the whole
      function with its descriptors does what the loop over ready handlers says and gives
      everything back ([init_monitor_full_refines]); requests to exit and to stop are served
      ([MonitorLive]); a zygote is handed over exactly as the tracer needs it
      ([zygote_handed_over]); the restart guard, the invariant of its bookkeeping, termination,
      the status file, and that init is always resumed.
    - Tracer: the command the monitor runs tells the daemon of the restart and traces the process
      it handed over ([main_traces_handed_over]) and the control words reach the monitor's socket
      ([main_ctl_sends]); the text of a maps file is read back ([Scan_text_show]); a change of the
      mount namespace can be undone ([switch_mnt_ns_back]); remote calls follow each calling
      convention as long as the arguments fit the registers ([remote_call_spec]); the entry point is found ([locate_entry_spec]); a
      successful injection leaves registers and entry as they were ([inject_on_main_transparent]).
    - Injector, hooks: what is hooked is unhooked, in the right order, before the library is
      unloaded, and a library whose native methods could not all be restored stays
      ([hooks_life_cycle]); native methods get their original code back ([jni_hooks_restored]);
      over any sequence of successful forks a zygote runs no module and keeps its hooks
      ([zygote_keeps_hooks]); each table entry has the type of its signature and forwards every
      argument, but for the array of descriptors that [sanitize_fds] replaces ([tables_typed],
      [forwarded_spec]); the code pointer of a method is found ([GetData_code],
      [Init_jni_refines]).
    - Injector, Java: a guarded call leaves no exception and no reference but its result
      ([JNI_SafeInvoke_spec]); scoped references neither leak nor are deleted twice
      ([scoped_refs_balanced]); every wrapper calls the function its name stands for with its
      arguments ([wrappers_forward]); what is written to an array arrives ([array_writes_arrive])
      unless the destructor is left to do it ([array_destructor_drops]).
    - Injector, modules: libraries become modules and their descriptors are closed
      ([modules_loaded]); the table of a module agrees with its declaration
      ([registered_table_typed]) and calls through it do what the context says
      ([entry_impl_refines]); requests of several threads are as if made one after the other, a
      commit in two parts ([requests_linearizable]), and all finish ([requests_finish]).
    - Injector, children: after a fork only descriptors that were open before or are exempted stay
      open ([nativeForkAndSpecialize_child], [nativeForkSystemServer_child], [sanitize_fds_spec]),
      whatever the modules do; PLT hook requests; an application on the denylist of the selected
      root implementation has every mount of that implementation removed, and nothing else but its
      module directory and what is on the device of its modules ([denylisted_app_cleaned], from
      the question to the daemon to the calls of umount); the library disappears from the linker's
      list and from the mappings ([hide_libraries_hides], [remap_jit_cache_view]).
    - Symbols: the three look-ups of an ELF image together agree with a search in its symbol
      tables ([getSymbAddress_equiv]), and the hash chain ends on any file
      ([GnuLookup_terminates]).
    - Communication: what is written is read back under any fragmentation ([wire_roundtrip]), each
      request gets what the daemon sent ([Protocol]), log lines arrive ([log_reaches_daemon]); an
      absent daemon is harmless.
    - Files: [file_readline] with its buffer gives the callback the lines of the text and frees
      the buffer on every path ([file_readline_refines]).
    - Daemon: a root implementation is selected exactly when it is supported and the only one
      found ([setup_selects]); of the installed modules exactly those whose file can be made are
      sent, as sealed copies of their libraries ([installed_modules_sealed]), and the number a
      module gets in the loader reaches the companion that runs its own library
      ([module_gets_own_companion]); a module's companion runs the library of that module, the
      daemon holds at most one for it, and one that is dropped runs on outside of any slot until
      it notices ([companions_isolated]); the loader gets the stream of a companion exactly when
      the companion has the other end ([ConnectCompanion_protocol]); what the daemon sends to the
      monitor is well-formed and, but for the announcement, served there
      ([daemon_messages_understood]); a connection without an action ends the daemon
      ([stray_connection_ends_daemon]).
    - Defects the model exposes, each with the theorem or example that exhibits it: a datagram
      that is never consumed, null and dangling pointers, a daemon whose exit is missed, a
      duplicated monitor, a zygote left attached, peer groups that are misread, an unchecked
      module, a failed fork that makes the zygote remove its hooks, an unchecked mmap, a path that
      stays visible on 32-bit devices, a log text used as a format, an array whose destructor
      drops what was written, a table that is freed after it was cleared, a loop that spins
      without its epoll instance, another that spins without children, memory received into after
      it was freed, a daemon and a companion that a departed client ends.

    ** Fuel and bounds

    Loops over a vector or a script are structural.  Fuel bounds the loops that depend on the
    environment: [xread] and [xwrite] (as many rounds as the script has answers, proved enough by
    [xread_xwrite_total]), the control socket ([HandleEvent_drains] gives the number of rounds),
    the child handler (more than the reports and signals of the script, proved enough by
    [HandleEvent_terminates] where waiting comes to an end; [childless_monitor_spins] is the case
    where it does not), the walk over the auxiliary vector ([locate_entry_spec] gives the number
    of steps), the chains of the hash tables (GNU: the size of the file, proved enough by
    [GnuLookup_terminates]; System V: a parameter, more than the number of symbols in
    [getSymbAddress_equiv]), the linker's list (its length in [hide_libraries_hides]), the log
    receiver and [file_readline] (the bytes received), [split_str] (the length of the string), the
    loop over epoll (more than the reports of the kernel, in [init_monitor_full_refines]).  The
    event loop of [Monitor] runs over the script of wake-ups.  Whether a run ends without
    exhausting fuel is part of each statement that claims a result.

    ** What is not modelled

    Left out, since they hold no executable statements: the concepts and forwarding declarations of
    jni_helper.hpp, native_bridge_callbacks.h and the type declarations of api.hpp.  Of the daemon,
    the paths, permissions and SELinux contexts of its socket files are left out: they are calls to
    the kernel whose effect no other part observes.  The shell scripts and the web interface are in
    other languages and only start the programs above.  Threads of the daemon are taken one after
    the other: the lock of a module is held for a whole request.  The linker's list ([SoList]) is
    proved against the class [Linker], and the images of [Elf] against their files; that the memory
    of the running linker is laid out as its file says belongs to the system. *)

From Stdlib Require Import ZArith Lia Ascii String.
From stdpp Require Import base tactics relations strings list gmap numbers.

Declare Scope mach_scope.
Delimit Scope mach_scope with mach.
Open Scope Z_scope.

(** ** Bytes and C strings *)

(** A byte, and a C buffer or [std::string] as the list of its bytes. *)
Abbreviation byte := ascii.
Abbreviation bytes := (list ascii).

Definition NUL : byte := Ascii.zero.
Definition txt (s : string) : bytes := list_ascii_of_string s.

Definition Z_of_byte (b : byte) : Z := Z.of_N (N_of_ascii b).
Definition byte_of_Z (z : Z) : byte := ascii_of_N (Z.to_N (z mod 256)).

(** The C string stored at the start of a buffer: the bytes before the first NUL. *)
Fixpoint cstr (b : bytes) : bytes :=
  match b with
  | [] => []
  | c :: b => if bool_decide (c = NUL) then [] else c :: cstr b
  end.

Definition no_nul (b : bytes) : Prop := NUL ∉ b.

Fixpoint starts_with (p s : bytes) : bool :=
  match p, s with
  | [], _ => true
  | _ :: _, [] => false
  | a :: p, b :: s => bool_decide (a = b) && starts_with p s
  end.

Definition ends_with (p s : bytes) : bool := starts_with (reverse p) (reverse s).

(** [std::string_view::find]: the first position at which [p] occurs in [s]. *)
Fixpoint find_sub (p s : bytes) : option nat :=
  if starts_with p s then Some O
  else match s with
       | [] => None
       | _ :: s => S <$> find_sub p s
       end.

(** [strstr(s, p) != NULL]. *)
Definition contains (p s : bytes) : bool := bool_decide (is_Some (find_sub p s)).

(** ** Machine words *)

(** The value of [z] in an unsigned, and in a two's complement, word of [w] bits. *)
Definition wrapu (w z : Z) : Z := z mod 2 ^ w.
Definition wraps (w z : Z) : Z :=
  let m := z mod 2 ^ w in if m <? 2 ^ (w - 1) then m else m - 2 ^ w.

Abbreviation u8 := (wrapu 8).
Abbreviation u32 := (wrapu 32).
Abbreviation i32 := (wraps 32).

Notation "x &&& y" := (Z.land x y) (at level 40, left associativity) : mach_scope.
Notation "x ||| y" := (Z.lor x y) (at level 50, left associativity) : mach_scope.
Notation "x ^^^ y" := (Z.lxor x y) (at level 49, left associativity) : mach_scope.
Notation "x <<< y" := (Z.shiftl x y) (at level 39, left associativity) : mach_scope.
Notation "x >>> y" := (Z.shiftr x y) (at level 39, left associativity) : mach_scope.

(** Little-endian layout of an integer in memory or on a socket. *)
Fixpoint le_bytes (n : nat) (z : Z) : bytes :=
  match n with
  | O => []
  | S n => byte_of_Z z :: le_bytes n (z / 256)
  end.

Fixpoint le_val (b : bytes) : Z :=
  match b with
  | [] => 0
  | c :: b => Z_of_byte c + 256 * le_val b
  end.

(** ** File descriptors *)

Fixpoint lowest (fuel : nat) (i : Z) (fds : gset Z) : Z :=
  match fuel with
  | O => i
  | S fuel => if bool_decide (i ∈ fds) then lowest fuel (i + 1) fds else i
  end.

(** The descriptor the kernel hands out next. *)
Definition lowest_fd (fds : gset Z) : Z := lowest (S (size fds)) 0 fds.

(** ** The program monad

    A C++ routine acts on a state [S] (its globals, the scripted answers of the
    kernel, the log of what it asked the kernel to do) and either returns, ends the
    process, or runs out of the model's fuel. *)

Inductive crash_kind : Set :=
| NullDeref        (* a null pointer is dereferenced *)
| BadAlloc         (* [std::length_error] or [std::bad_alloc] escapes *)
| OutOfBounds      (* a [memcpy]/[strcat] leaves its object *)
| Uninit           (* a variable that was never written is used *)
| UseAfterFree     (* an object that was deleted is used *)
| PendingException (* a JNI function is called while an exception is pending *)
| BadCall.         (* a function is called through a pointer to another type *)

Inductive outcome (A : Type) : Type :=
| Ret (a : A)
| Exit (code : Z)
| Crash (why : crash_kind)
| OutOfFuel.
Arguments Ret {A} _.
Arguments Exit {A} _.
Arguments Crash {A} _.
Arguments OutOfFuel {A}.

Definition prog (S A : Type) : Type := S → outcome A * S.

#[global] Instance prog_ret {S} : MRet (prog S) := λ A a s, (Ret a, s).

#[global] Instance prog_bind {S} : MBind (prog S) := λ A B f m s,
  match m s with
  | (Ret a, s') => f a s'
  | (Exit c, s') => (Exit c, s')
  | (Crash w, s') => (Crash w, s')
  | (OutOfFuel, s') => (OutOfFuel, s')
  end.

Section prog_ops.
Context {S : Type}.

Definition get : prog S S := λ s, (Ret s, s).
Definition put (s : S) : prog S unit := λ _, (Ret tt, s).
Definition modify (f : S → S) : prog S unit := λ s, (Ret tt, f s).
Definition gets {A} (f : S → A) : prog S A := λ s, (Ret (f s), s).
Definition exit {A} (code : Z) : prog S A := λ s, (Exit code, s).
Definition crash {A} (why : crash_kind) : prog S A := λ s, (Crash why, s).
Definition no_fuel {A} : prog S A := λ s, (OutOfFuel, s).

Definition when (b : bool) (m : prog S unit) : prog S unit :=
  if b then m else mret tt.

(** A range-based [for] over a vector. *)
Fixpoint for_each {A} (l : list A) (f : A → prog S unit) : prog S unit :=
  match l with
  | [] => mret tt
  | a :: l => f a ;; for_each l f
  end.
End prog_ops.

(** ** Automation *)

Create HintDb rezygisk.

(** Split the first [if], [match] or boolean test of the goal. *)
Ltac split_match :=
  match goal with
  | |- context [ if ?b then _ else _ ] => destruct b eqn:?
  | |- context [ match ?x with _ => _ end ] => destruct x eqn:?
  end.

(** Turn boolean tests in the context into propositions. *)
Ltac bool_to_prop :=
  repeat match goal with
  | H : bool_decide _ = true |- _ => apply bool_decide_eq_true in H
  | H : bool_decide _ = false |- _ => apply bool_decide_eq_false in H
  | H : _ && _ = true |- _ => apply andb_prop in H as [? ?]
  | H : _ && _ = false |- _ => apply andb_false_iff in H
  | H : _ || _ = false |- _ => apply orb_false_iff in H as [? ?]
  | H : _ || _ = true |- _ => apply orb_true_iff in H
  | H : negb _ = true |- _ => apply negb_true_iff in H
  | H : negb _ = false |- _ => apply negb_false_iff in H
  | H : (_ =? _) = true |- _ => apply Z.eqb_eq in H
  | H : (_ =? _) = false |- _ => apply Z.eqb_neq in H
  | H : (_ <? _) = true |- _ => apply Z.ltb_lt in H
  | H : (_ <? _) = false |- _ => apply Z.ltb_ge in H
  | H : (_ <=? _) = true |- _ => apply Z.leb_le in H
  | H : (_ <=? _) = false |- _ => apply Z.leb_gt in H
  end.

(** Run a monadic program symbolically on its state. *)
Ltac run_prog :=
  repeat (unfold mbind, mret, prog_bind, prog_ret, get, put, modify, gets, exit, crash,
            no_fuel, when in *; simpl in *).

(** ** Lemmas on bytes *)

Lemma byte_of_Z_of_byte b : byte_of_Z (Z_of_byte b) = b.
Proof.
  unfold byte_of_Z, Z_of_byte.
  rewrite Z.mod_small, N2Z.id by (pose proof (N_ascii_bounded b); lia).
  apply ascii_N_embedding.
Qed.

Lemma Z_of_byte_range b : 0 <= Z_of_byte b < 256.
Proof. unfold Z_of_byte. pose proof (N_ascii_bounded b). lia. Qed.

Lemma Z_of_byte_of_Z z : Z_of_byte (byte_of_Z z) = z mod 256.
Proof.
  unfold byte_of_Z, Z_of_byte.
  pose proof (Z.mod_pos_bound z 256 ltac:(lia)).
  rewrite N_ascii_embedding by lia. lia.
Qed.

Lemma length_le_bytes n z : length (le_bytes n z) = n.
Proof. revert z. induction n; intros; simpl; [done | by rewrite IHn]. Qed.

Lemma le_val_bytes n z : le_val (le_bytes n z) = z mod 256 ^ Z.of_nat n.
Proof.
  revert z. induction n as [|n IH]; intros z; simpl le_val; simpl le_bytes.
  - by rewrite Z.mod_1_r.
  - rewrite IH, Z_of_byte_of_Z, Nat2Z.inj_succ, Z.pow_succ_r by lia.
    rewrite Z.rem_mul_r by lia. lia.
Qed.

Lemma le_val_bytes_id n z : 0 <= z < 256 ^ Z.of_nat n → le_val (le_bytes n z) = z.
Proof. intros. rewrite le_val_bytes. by apply Z.mod_small. Qed.

Lemma le_val_range b : 0 <= le_val b < 256 ^ Z.of_nat (length b).
Proof.
  induction b as [|c b IH]; simpl le_val; simpl length; [simpl; lia|].
  rewrite Nat2Z.inj_succ, Z.pow_succ_r by lia.
  pose proof (Z_of_byte_range c). lia.
Qed.

Lemma le_bytes_val b : le_bytes (length b) (le_val b) = b.
Proof.
  induction b as [|c b IH]; [done|]. simpl.
  pose proof (Z_of_byte_range c).
  replace ((Z_of_byte c + 256 * le_val b) / 256) with (le_val b)
    by (rewrite (Z.mul_comm 256), Z.div_add, Z.div_small; lia).
  rewrite IH. f_equal.
  rewrite <- (byte_of_Z_of_byte c) at 2. unfold byte_of_Z at 1.
  rewrite (Z.mul_comm 256), Z_mod_plus_full. done.
Qed.

Lemma cstr_nul s r : no_nul s → cstr (s ++ NUL :: r) = s.
Proof.
  unfold no_nul. induction s as [|c s IH]; intros H; simpl.
  - done.
  - rewrite not_elem_of_cons in H. destruct H as [H1 H2].
    rewrite bool_decide_eq_false_2 by congruence. by rewrite IH.
Qed.

Lemma cstr_no_nul b : no_nul (cstr b).
Proof.
  unfold no_nul. induction b as [|c b IH]; simpl; [set_solver|].
  case_bool_decide; [set_solver|]. rewrite not_elem_of_cons. split; congruence.
Qed.

Lemma cstr_id s : no_nul s → cstr s = s.
Proof.
  unfold no_nul. induction s as [|c s IH]; simpl; [done|].
  rewrite not_elem_of_cons. intros [H1 H2].
  rewrite bool_decide_eq_false_2 by congruence. by rewrite IH.
Qed.

Lemma cstr_length b : (length (cstr b) <= length b)%nat.
Proof. induction b; simpl; [lia|]. case_bool_decide; simpl; lia. Qed.

Lemma starts_with_spec p s : starts_with p s = true ↔ p `prefix_of` s.
Proof.
  revert s. induction p as [|a p IH]; intros s; simpl.
  - split; [intros; apply prefix_nil | done].
  - destruct s as [|b s]; [split; [done|]; intros H; by apply prefix_nil_not in H|].
    rewrite andb_true_iff, bool_decide_eq_true, IH. split.
    + intros [-> H]. by apply prefix_cons.
    + intros H. split; [by eapply prefix_cons_inv_1 | by eapply prefix_cons_inv_2].
Qed.

Lemma ends_with_spec p s : ends_with p s = true ↔ p `suffix_of` s.
Proof. unfold ends_with. rewrite starts_with_spec. symmetry. apply suffix_prefix_reverse. Qed.

Lemma starts_with_app p s : starts_with p (p ++ s) = true.
Proof. rewrite starts_with_spec. by exists s. Qed.

Lemma find_sub_Some p s n :
  find_sub p s = Some n → s = take n s ++ p ++ drop (n + length p) s.
Proof.
  revert n. induction s as [|c s IH]; intros n; simpl.
  - destruct (starts_with p []) eqn:E; [|done]. intros [= <-].
    apply starts_with_spec, prefix_nil_inv in E. by subst.
  - destruct (starts_with p (c :: s)) eqn:E.
    + intros [= <-]. apply starts_with_spec in E as [k ->].
      simpl. rewrite drop_app_length. done.
    + destruct (find_sub p s) as [m|] eqn:F; [|done].
      intros [= <-]. simpl. f_equal. by apply IH.
Qed.

Lemma find_sub_bound p s n : find_sub p s = Some n → (n + length p <= length s)%nat.
Proof.
  revert n. induction s as [|c s IH]; intros n; simpl; split_match; try done.
  - intros [= <-]. apply starts_with_spec, prefix_length in Heqb. simpl in *. lia.
  - intros [= <-]. apply starts_with_spec, prefix_length in Heqb. simpl in *. lia.
  - destruct (find_sub p s) eqn:E; [|done]. intros [= <-]. specialize (IH _ eq_refl). lia.
Qed.

Lemma find_sub_None p s : find_sub p s = None → ∀ l r, s ≠ l ++ p ++ r.
Proof.
  induction s as [|c s IH]; simpl; intros H l r.
  - destruct (starts_with p []) eqn:E; [done|]. intros Hs.
    destruct l; [|done]. destruct p; done.
  - destruct (starts_with p (c :: s)) eqn:E; [done|].
    destruct (find_sub p s) eqn:F; [done|]. intros Hs. destruct l as [|x l].
    + simpl in Hs. rewrite Hs in E. by rewrite starts_with_app in E.
    + injection Hs as -> Hs. by eapply IH.
Qed.

Lemma find_sub_first p s n m :
  find_sub p s = Some n → (m < n)%nat → starts_with p (drop m s) = false.
Proof.
  revert n m. induction s as [|c s IH]; intros n m; simpl.
  - destruct (starts_with p []); [intros [= <-]; lia | done].
  - destruct (starts_with p (c :: s)) eqn:E; [intros [= <-]; lia|].
    destruct (find_sub p s) as [k|] eqn:F; [|done]. intros [= <-] Hm.
    destruct m; [done|]. simpl. apply (IH k); [done | lia].
Qed.

#[export] Hint Resolve length_le_bytes cstr_no_nul Z_of_byte_range : rezygisk.

(** ** Lemmas on machine words *)

Lemma wrapu_range w z : 0 <= w → 0 <= wrapu w z < 2 ^ w.
Proof. intros. apply Z.mod_pos_bound. lia. Qed.

Lemma wrapu_small w z : 0 <= z < 2 ^ w → wrapu w z = z.
Proof. apply Z.mod_small. Qed.

Lemma wraps_range w z : 0 < w → - 2 ^ (w - 1) <= wraps w z < 2 ^ (w - 1).
Proof.
  intros Hw. unfold wraps. assert (2 ^ w = 2 * 2 ^ (w - 1)) as E.
  { rewrite <- Z.pow_succ_r by lia. f_equal. lia. }
  pose proof (Z.mod_pos_bound z (2 ^ w) ltac:(lia)).
  destruct (Z.ltb_spec (z mod 2 ^ w) (2 ^ (w - 1))); lia.
Qed.

Lemma wraps_small w z : 0 < w → - 2 ^ (w - 1) <= z < 2 ^ (w - 1) → wraps w z = z.
Proof.
  intros Hw Hz. unfold wraps. assert (2 ^ w = 2 * 2 ^ (w - 1)) as E.
  { rewrite <- Z.pow_succ_r by lia. f_equal. lia. }
  destruct (Z.leb_spec 0 z).
  - rewrite Z.mod_small by lia. destruct (Z.ltb_spec z (2 ^ (w - 1))); lia.
  - replace (z mod 2 ^ w) with (z + 2 ^ w).
    + destruct (Z.ltb_spec (z + 2 ^ w) (2 ^ (w - 1))); lia.
    + rewrite <- (Z_mod_plus_full z 1), Z.mul_1_l, Z.mod_small; lia.
Qed.

#[export] Hint Resolve wrapu_range wraps_range : rezygisk.

(** ** Lemmas on descriptors *)

Lemma lowest_spec fuel i fds :
  (∀ j, i <= j < lowest fuel i fds → j ∈ fds) ∧ i <= lowest fuel i fds <= i + Z.of_nat fuel ∧
  (lowest fuel i fds < i + Z.of_nat fuel → lowest fuel i fds ∉ fds).
Proof.
  revert i. induction fuel as [|fuel IH]; intros i; cbn [lowest].
  - split_and!; intros; lia.
  - case_bool_decide as E.
    + destruct (IH (i + 1)) as (H1 & H2 & H3). split_and!; try lia.
      * intros j Hj. destruct (decide (j = i)) as [->|]; [done|]. apply H1. lia.
      * intros. apply H3. lia.
    + split_and!; intros; (lia || done).
Qed.

Lemma lowest_fd_fresh fds : lowest_fd fds ∉ fds ∧ 0 <= lowest_fd fds.
Proof.
  unfold lowest_fd. destruct (lowest_spec (S (size fds)) 0 fds) as (H1 & H2 & H3).
  split; [|lia]. apply H3. set (r := lowest (S (size fds)) 0 fds) in *.
  assert (Z.to_nat r <= size fds)%nat; [|lia].
  assert (list_to_set (Z.of_nat <$> seq 0 (Z.to_nat r)) ⊆ fds) as Hs.
  { intros x. rewrite elem_of_list_to_set, list_elem_of_fmap. intros (n & -> & Hn%elem_of_seq).
    apply H1. lia. }
  apply subseteq_size in Hs. rewrite size_list_to_set in Hs.
  - by rewrite length_fmap, length_seq in Hs.
  - apply NoDup_fmap_2; [apply _ | apply NoDup_seq].
Qed.

(** ** Lemmas on programs *)

Section prog_laws.
Context {S : Type}.

Lemma prog_bind_ret {A B} (a : A) (f : A → prog S B) s : (mret a ≫= f) s = f a s.
Proof. reflexivity. Qed.

Lemma bind_run {A B} (m : prog S A) (f : A → prog S B) s a s' :
  m s = (Ret a, s') → (m ≫= f) s = f a s'.
Proof. unfold mbind, prog_bind. by intros ->. Qed.

Lemma bind_inv {A B} (m : prog S A) (f : A → prog S B) s b s' :
  (m ≫= f) s = (Ret b, s') → ∃ a s1, m s = (Ret a, s1) ∧ f a s1 = (Ret b, s').
Proof. unfold mbind, prog_bind. destruct (m s) as [[] s1]; try done. eauto. Qed.

Lemma prog_bind_assoc {A B C} (m : prog S A) (f : A → prog S B) (g : B → prog S C) s :
  ((m ≫= f) ≫= g) s = (m ≫= (λ a, f a ≫= g)) s.
Proof. unfold mbind, prog_bind. destruct (m s) as [[] ?]; done. Qed.

Lemma for_each_app {A} (l k : list A) (f : A → prog S unit) s :
  for_each (l ++ k) f s = (for_each l f ;; for_each k f) s.
Proof.
  revert s. induction l as [|a l IH]; intros s; [done|]. simpl.
  unfold mbind, prog_bind in *. destruct (f a s) as [[] s']; [|done..].
  by rewrite IH.
Qed.

(** A loop whose body never stops the process and keeps [I] runs to its end. *)
Lemma for_each_inv {A} (I : S → Prop) (l : list A) (f : A → prog S unit) s :
  I s →
  (∀ a s, a ∈ l → I s → ∃ s', f a s = (Ret tt, s') ∧ I s') →
  ∃ s', for_each l f s = (Ret tt, s') ∧ I s'.
Proof.
  revert s. induction l as [|a l IH]; intros s Hs Hf; simpl.
  - by exists s.
  - destruct (Hf a s) as (s1 & E & H1); [set_solver | done |].
    unfold mbind, prog_bind. rewrite E.
    apply IH; [done|]. intros. apply Hf; set_solver.
Qed.
End prog_laws.

(** Run the first statement of a program: one whose effect is known by [E], or one that
    computes on its own. *)
Ltac step_with E := rewrite (bind_run _ _ _ _ _ E); cbv beta.
Ltac step := erewrite bind_run by reflexivity; cbv beta.

(** ** Relating the states before and after a program

    [Moves R p s]: running [p] from [s] leads to a state related to [s] by the preorder
    [R], whatever the outcome.  One lemma per program construct; [walk] applies them. *)

Definition Moves {S A} (R : S → S → Prop) (p : prog S A) (s : S) : Prop := R s (p s).2.

Section moves.
Context {S : Type} (R : S → S → Prop) `{!PreOrder R}.

Lemma moves_ret {A} (a : A) s : Moves R (mret a) s.
Proof. unfold Moves. simpl. reflexivity. Qed.

Lemma moves_exit {A} c s : Moves R (exit (A := A) c) s.
Proof. unfold Moves. simpl. reflexivity. Qed.

Lemma moves_crash {A} w s : Moves R (crash (A := A) w) s.
Proof. unfold Moves. simpl. reflexivity. Qed.

Lemma moves_no_fuel {A} s : Moves R (no_fuel (A := A)) s.
Proof. unfold Moves. simpl. reflexivity. Qed.

Lemma moves_modify f s : R s (f s) → Moves R (modify f) s.
Proof. done. Qed.

Lemma moves_to {A} (p : prog S A) s o s' : p s = (o, s') → R s s' → Moves R p s.
Proof. unfold Moves. by intros ->. Qed.

Lemma moves_ext {A} (p q : prog S A) s : p s = q s → Moves R q s → Moves R p s.
Proof. unfold Moves. by intros ->. Qed.

Lemma moves_put s s' : R s s' → Moves R (put s') s.
Proof. done. Qed.

Lemma moves_get_bind {A} (f : S → prog S A) s : Moves R (f s) s → Moves R (get ≫= f) s.
Proof. done. Qed.

Lemma moves_bind {A B} (m : prog S A) (f : A → prog S B) s :
  Moves R m s → (∀ a s', m s = (Ret a, s') → Moves R (f a) s') → Moves R (m ≫= f) s.
Proof.
  unfold Moves, mbind, prog_bind. intros H1 H2. destruct (m s) as [[a | | |] s']; simpl in *; try done.
  transitivity s'; [done | by apply H2].
Qed.

Lemma moves_when b (m : prog S unit) s : (b = true → Moves R m s) → Moves R (when b m) s.
Proof. destruct b; [by intros H; apply H | intros _; apply moves_ret]. Qed.

Lemma moves_for_each {A} (l : list A) (f : A → prog S unit) s :
  (∀ a s, a ∈ l → Moves R (f a) s) → Moves R (for_each l f) s.
Proof.
  revert s. induction l as [|a l IH]; intros s H; simpl; [apply moves_ret|].
  apply moves_bind; [apply H; set_solver|]. intros ? s' _. apply IH. intros. apply H. set_solver.
Qed.

Lemma moves_mono {A} (R' : S → S → Prop) (p : prog S A) s :
  (∀ s s', R s s' → R' s s') → Moves R p s → Moves R' p s.
Proof. unfold Moves. auto. Qed.

Lemma moves_and {A} (R1 R2 : S → S → Prop) (p : prog S A) s :
  Moves R1 p s → Moves R2 p s → Moves (λ s s', R1 s s' ∧ R2 s s') p s.
Proof. done. Qed.

Lemma moves_run {A} (p : prog S A) s o s' : p s = (o, s') → Moves R p s → R s s'.
Proof. unfold Moves. by intros ->. Qed.
End moves.

#[export] Hint Resolve moves_ret moves_exit moves_crash moves_no_fuel : rezygisk.
#[global] Opaque Moves.

(** Walk through a program, splitting its tests, until only its primitive state changes and
    the calls to other programs are left. *)
Ltac walk :=
  repeat (cbv beta zeta;
    lazymatch goal with
    | |- Moves _ (mret _) _ => apply moves_ret; apply _
    | |- Moves _ (exit _) _ => apply moves_exit; apply _
    | |- Moves _ (crash _) _ => apply moves_crash; apply _
    | |- Moves _ no_fuel _ => apply moves_no_fuel; apply _
    | |- Moves _ (mbind _ get) _ => apply moves_get_bind
    | |- Moves _ (when _ _) _ => apply moves_when; [apply _ | intros ?]
    | |- Moves _ (mbind _ _) _ => apply moves_bind; [apply _ | | intros ? ? ?]
    | |- Moves _ (if ?b then _ else _) _ => destruct b eqn:?
    | |- Moves _ (match ?x with _ => _ end) _ => destruct x eqn:?
    end).

(** The preorder of an invariant. *)
Definition keeps {S} (I : S → Prop) (s s' : S) : Prop := I s → I s'.

#[export] Instance keeps_preorder {S} (I : S → Prop) : PreOrder (keeps I).
Proof. split; unfold keeps; repeat intro; auto. Qed.

(** ** Programs that do not run out of fuel *)

Definition Halts {S A} (p : prog S A) (s : S) : Prop := (p s).1 ≠ OutOfFuel.

Section halts.
Context {S : Type}.

Lemma halts_pure {A} (p : prog S A) s o s' : p s = (o, s') → o ≠ OutOfFuel → Halts p s.
Proof. unfold Halts. by intros ->. Qed.

Lemma halts_get_bind {A} (f : S → prog S A) s : Halts (f s) s → Halts (get ≫= f) s.
Proof. done. Qed.

Lemma halts_bind {A B} (m : prog S A) (f : A → prog S B) s :
  Halts m s → (∀ a s', m s = (Ret a, s') → Halts (f a) s') → Halts (m ≫= f) s.
Proof.
  unfold Halts, mbind, prog_bind. intros H1 H2. destruct (m s) as [[a | | |] s']; simpl in *; try done.
  by apply H2.
Qed.

Lemma halts_when b (m : prog S unit) s : (b = true → Halts m s) → Halts (when b m) s.
Proof. destruct b; [by intros H; apply H | done]. Qed.
End halts.

#[global] Opaque Halts.

Ltac walk_halts :=
  repeat (cbv beta zeta;
    lazymatch goal with
    | |- Halts (mret _) _ => by eapply halts_pure
    | |- Halts (exit _) _ => by eapply halts_pure
    | |- Halts (crash _) _ => by eapply halts_pure
    | |- Halts (modify _) _ => by eapply halts_pure
    | |- Halts (put _) _ => by eapply halts_pure
    | |- Halts (mbind _ get) _ => apply halts_get_bind
    | |- Halts (when _ _) _ => apply halts_when; intros ?
    | |- Halts (mbind _ _) _ => apply halts_bind; [| intros ? ? ?]
    | |- Halts (if ?b then _ else _) _ => destruct b eqn:?
    | |- Halts (match ?x with _ => _ end) _ => destruct x eqn:?
    end).

(** ** Programs that return

    [Returns R p s]: [p] returns from [s], in a state related to [s] by the preorder [R]. *)

Definition Returns {S A} (R : S → S → Prop) (p : prog S A) (s : S) : Prop :=
  ∃ a s', p s = (Ret a, s') ∧ R s s'.

Section returns.
Context {S : Type} (R : S → S → Prop) `{!PreOrder R}.

Lemma returns_ret {A} (a : A) s : Returns R (mret a) s.
Proof. by exists a, s. Qed.

Lemma returns_modify f s : R s (f s) → Returns R (modify f) s.
Proof. by exists tt, (f s). Qed.

Lemma returns_run {A} (p : prog S A) s a s' : p s = (Ret a, s') → R s s' → Returns R p s.
Proof. by exists a, s'. Qed.

Lemma returns_get_bind {A} (f : S → prog S A) s : Returns R (f s) s → Returns R (get ≫= f) s.
Proof. done. Qed.

Lemma returns_bind {A B} (m : prog S A) (f : A → prog S B) s :
  Returns R m s → (∀ a s', m s = (Ret a, s') → R s s' → Returns R (f a) s') →
  Returns R (m ≫= f) s.
Proof.
  intros (a & s1 & E & H1) H2. destruct (H2 a s1 E H1) as (b & s2 & E2 & H).
  exists b, s2. rewrite (bind_run _ _ _ _ _ E). split; [done | by transitivity s1].
Qed.

Lemma returns_when b (m : prog S unit) s : (b = true → Returns R m s) → Returns R (when b m) s.
Proof. destruct b; [by intros H; apply H | intros _; apply returns_ret]. Qed.

Lemma returns_for_each {A} (l : list A) (f : A → prog S unit) s :
  (∀ a s', a ∈ l → R s s' → Returns R (f a) s') → Returns R (for_each l f) s.
Proof.
  revert s. induction l as [|a l IH]; intros s H; cbn [for_each]; [apply returns_ret|].
  apply returns_bind; [apply H; [by left | reflexivity]|]. intros ? s' _ Hs. apply IH.
  intros b s2 Hb H2. apply H; [by right | by transitivity s'].
Qed.
End returns.

#[global] Opaque Returns.

Ltac walk_returns :=
  repeat (cbv beta zeta;
    lazymatch goal with
    | |- Returns _ (mret _) _ => apply returns_ret; apply _
    | |- Returns _ (mbind _ get) _ => apply returns_get_bind
    | |- Returns _ (when _ _) _ => apply returns_when; [apply _ | intros ?]
    | |- Returns _ (mbind _ _) _ => apply returns_bind; [apply _ | | intros ? ? ? ?]
    | |- Returns _ (if ?b then _ else _) _ => destruct b eqn:?
    | |- Returns _ (match ?x with _ => _ end) _ => destruct x eqn:?
    end).
