(* ===== verification/Misc.v ===== *)
(** * Misc: the helpers of [common/misc.cpp] and [include/misc.hpp]

    [parse_int], [split_str], [join_str] and [align_to], with what they compute on
    well-formed input: the decimal value without overflow, the pieces between the
    delimiters, and the cases in which [split_str] does not terminate; the order of string
    keys, and what [new_daemon_thread] reports. *)

From Stdlib Require Import ZArith Lia Ascii.
From stdpp Require Import base tactics strings list numbers.
From S2P Require Import Prelude.

(** ** Integers *)

(** One iteration of the loop over the characters: [val = val * 10 + c - '0'] on [int]. *)
Definition is_digit (c : byte) : bool :=
  (48 <=? Z_of_byte c) && (Z_of_byte c <=? 57).

Fixpoint parse_int_loop (s : bytes) (val : Z) : Z :=
  match s with
  | [] => val
  | c :: s =>
      if bool_decide (c = NUL) then val
      else if negb (is_digit c) then -1
      else parse_int_loop s (i32 (val * 10 + Z_of_byte c - 48))
  end.

Definition parse_int (s : bytes) : Z := parse_int_loop s 0.

(** The number a sequence of decimal digits denotes. *)
Definition dec_val (s : bytes) (acc : Z) : Z :=
  foldl (λ v c, v * 10 + (Z_of_byte c - 48)) acc s.

(** The decimal digits of a number, as the kernel prints a file descriptor. *)
Fixpoint dec_digits (fuel : nat) (n : Z) : bytes :=
  match fuel with
  | O => []
  | S fuel =>
      (if n <? 10 then [] else dec_digits fuel (n / 10)) ++ [byte_of_Z (48 + n mod 10)]
  end.

Definition print_dec (n : Z) : bytes := dec_digits 20 n.

(** [align_to] on an integer type that does not overflow. *)
Definition align_to (v a : Z) : Z := (v + a - 1) ÷ a * a.

(** ** Splitting and joining *)

(** The loop of [split_str]; the state of the loop is the rest of the string from [pos].
    It stops when the rest is empty; [find] succeeds at once on an empty delimiter, so
    the loop needs fuel. *)
Fixpoint split_loop (fuel : nat) (s delim : bytes) : option (list bytes) :=
  match s with
  | [] => Some []
  | _ =>
      match fuel with
      | O => None
      | S fuel =>
          match find_sub delim s with
          | None => Some [s]
          | Some n => (take n s ::.) <$> split_loop fuel (drop (n + length delim) s) delim
          end
      end
  end.

Definition split_str (s delim : bytes) : option (list bytes) :=
  split_loop (length s) s delim.

Definition join_step (delim ret s : bytes) : bytes :=
  (if bool_decide (ret = []) then ret else ret ++ delim) ++ s.

Definition join_str (l : list bytes) (delim : bytes) : bytes :=
  foldl (join_step delim) [] l.

(** ** Lemmas *)

Lemma dec_val_app s t acc : dec_val (s ++ t) acc = dec_val t (dec_val s acc).
Proof. apply foldl_app. Qed.

Lemma is_digit_not_nul c : is_digit c = true → c ≠ NUL.
Proof. intros H ->. done. Qed.

Lemma digit_range c : is_digit c = true → 0 <= Z_of_byte c - 48 <= 9.
Proof. unfold is_digit. intros H. bool_to_prop. lia. Qed.

Lemma dec_val_mono s acc :
  Forall (λ c, is_digit c = true) s → 0 <= acc → acc <= dec_val s acc.
Proof.
  revert acc. induction s as [|c s IH]; intros acc Hs Hacc; [done|].
  inv Hs. pose proof (digit_range c ltac:(done)).
  change (dec_val (c :: s) acc) with (dec_val s (acc * 10 + (Z_of_byte c - 48))).
  specialize (IH (acc * 10 + (Z_of_byte c - 48)) ltac:(done) ltac:(lia)). lia.
Qed.

Lemma parse_int_loop_digits s rest acc :
  Forall (λ c, is_digit c = true) s → 0 <= acc → dec_val s acc < 2 ^ 31 →
  parse_int_loop (s ++ rest) acc = parse_int_loop rest (dec_val s acc).
Proof.
  revert acc. induction s as [|c s IH]; intros acc Hs Hacc Hb; [done|].
  inv Hs. pose proof (digit_range c ltac:(done)).
  assert (acc * 10 + (Z_of_byte c - 48) <= dec_val (c :: s) acc) as Hm
    by (apply (dec_val_mono s); [done | lia]).
  simpl parse_int_loop.
  rewrite bool_decide_eq_false_2 by (by apply is_digit_not_nul).
  match goal with H : is_digit c = true |- _ => rewrite H end. simpl.
  rewrite wraps_small by lia.
  replace (acc * 10 + Z_of_byte c - 48) with (acc * 10 + (Z_of_byte c - 48)) by lia.
  apply IH; [done | lia | done].
Qed.

Lemma parse_int_loop_bad s c rest acc :
  Forall (λ c, is_digit c = true) s → is_digit c = false → c ≠ NUL →
  parse_int_loop (s ++ c :: rest) acc = -1.
Proof.
  revert acc. induction s as [|d s IH]; intros acc Hs Hc Hn; simpl.
  - rewrite bool_decide_eq_false_2 by done. by rewrite Hc.
  - inv Hs. rewrite bool_decide_eq_false_2 by (by apply is_digit_not_nul).
    match goal with H : is_digit d = true |- _ => rewrite H end. by apply IH.
Qed.

Lemma digit_of_Z d : 0 <= d < 10 → is_digit (byte_of_Z (48 + d)) = true ∧
                                   Z_of_byte (byte_of_Z (48 + d)) = 48 + d.
Proof.
  intros. assert (Z_of_byte (byte_of_Z (48 + d)) = 48 + d) as E
    by (rewrite Z_of_byte_of_Z; apply Z.mod_small; lia).
  split; [unfold is_digit; rewrite E|done]. apply andb_true_iff. lia.
Qed.

Lemma dec_digits_spec fuel n :
  0 <= n < 10 ^ Z.of_nat fuel → (0 < fuel)%nat →
  Forall (λ c, is_digit c = true) (dec_digits fuel n) ∧ dec_val (dec_digits fuel n) 0 = n.
Proof.
  revert n. induction fuel as [|fuel IH]; intros n Hn Hf; [lia|].
  pose proof (Z.mod_pos_bound n 10 ltac:(lia)).
  destruct (digit_of_Z (n mod 10)) as [Hd Ev]; [done|].
  simpl dec_digits. destruct (Z.ltb_spec n 10).
  - split; [by repeat constructor|]. cbn -[byte_of_Z Z_of_byte].
    rewrite Ev, Z.mod_small by lia. lia.
  - rewrite Nat2Z.inj_succ, Z.pow_succ_r in Hn by lia.
    assert (0 <= n / 10 < 10 ^ Z.of_nat fuel) as Hq
      by (split; [apply Z.div_pos; lia | apply Z.div_lt_upper_bound; lia]).
    assert (0 < fuel)%nat by (destruct fuel; [simpl in Hn; lia | lia]).
    destruct (IH (n / 10)) as [Hds Hval]; [done|done|].
    split; [apply Forall_app; split; [done|by repeat constructor]|].
    rewrite dec_val_app, Hval. cbn -[byte_of_Z Z_of_byte]. rewrite Ev.
    pose proof (Z.div_mod n 10). lia.
Qed.

(** ** Properties *)

(** [parse_int] reads back every non-negative [int] printed in decimal, ignores what
    follows a NUL, and answers -1 when a non-digit comes before the end. *)
Theorem parse_int_decimal n rest :
  0 <= n < 2 ^ 31 →
  parse_int (print_dec n) = n ∧
  parse_int (print_dec n ++ NUL :: rest) = n ∧
  ∀ c, is_digit c = false → c ≠ NUL → parse_int (print_dec n ++ c :: rest) = -1.
Proof.
  intros Hn. unfold parse_int, print_dec.
  destruct (dec_digits_spec 20 n) as [Hd Hv]; [lia|lia|].
  split_and!.
  - rewrite <- (app_nil_r (dec_digits 20 n)), parse_int_loop_digits by (done || lia).
    by rewrite Hv.
  - rewrite parse_int_loop_digits by (done || lia). by rewrite Hv.
  - intros c Hc Hnul. by apply parse_int_loop_bad.
Qed.

Lemma parse_int_decimal_witness :
  parse_int (txt "1023") = 1023 ∧ parse_int (txt "10x") = -1 ∧ parse_int (txt ".") = -1.
Proof.
  destruct (parse_int_decimal 1023 []) as [H _]; [lia|].
  split; [exact H|]. split; reflexivity.
Defined.

(** The pieces of a list put back together with the delimiter between them. *)
Fixpoint interc (d : bytes) (l : list bytes) : bytes :=
  match l with
  | [] => []
  | [x] => x
  | x :: l => x ++ d ++ interc d l
  end.

Lemma interc_cons d x l : l ≠ [] → interc d (x :: l) = x ++ d ++ interc d l.
Proof. by destruct l. Qed.

Lemma join_foldl_acc d l acc :
  acc ≠ [] → foldl (join_step d) acc l = acc ++ mjoin ((λ x, d ++ x) <$> l).
Proof.
  revert acc. induction l as [|x l IH]; intros acc Hacc; simpl; [by rewrite app_nil_r|].
  unfold join_step at 2. rewrite bool_decide_eq_false_2 by done.
  rewrite IH by (by destruct acc). by rewrite <- !app_assoc.
Qed.

Lemma interc_mjoin d x l : interc d (x :: l) = x ++ mjoin ((λ y, d ++ y) <$> l).
Proof.
  revert x. induction l as [|y l IH]; intros x; [by rewrite app_nil_r|].
  rewrite interc_cons by done. rewrite IH. simpl. by rewrite <- app_assoc.
Qed.

Lemma join_str_interc d x l : x ≠ [] → join_str (x :: l) d = interc d (x :: l).
Proof.
  intros Hx. rewrite interc_mjoin. unfold join_str. cbn [foldl].
  rewrite join_foldl_acc; [done|]. unfold join_step. by rewrite bool_decide_eq_true_2.
Qed.

Lemma find_sub_take p s n :
  p ≠ [] → find_sub p s = Some n → find_sub p (take n s) = None.
Proof.
  intros Hp H. destruct (find_sub p (take n s)) as [m|] eqn:E; [|done]. exfalso.
  pose proof (find_sub_bound _ _ _ H) as Hb. pose proof (find_sub_bound _ _ _ E) as Hm.
  rewrite length_take in Hm.
  assert (m < n)%nat as Hlt by (destruct p; [done|simpl in *; lia]).
  apply find_sub_Some in E.
  pose proof (find_sub_first _ _ _ _ H Hlt) as Hf.
  apply not_true_iff_false in Hf. apply Hf, starts_with_spec.
  assert (drop m s = drop m (take n s) ++ drop n s) as ->
    by (rewrite <- drop_app_le, take_drop by (rewrite length_take; lia); done).
  rewrite E. rewrite drop_app_ge by (rewrite !length_take; lia).
  rewrite !length_take. replace (m - _)%nat with 0%nat by lia. rewrite drop_0.
  rewrite <- !app_assoc. eexists. reflexivity.
Qed.

Lemma split_loop_spec d fuel s :
  d ≠ [] → (length s <= fuel)%nat →
  ∃ l, split_loop fuel s d = Some l ∧
       (l = [] → s = []) ∧
       (s = interc d l ∨ s = interc d l ++ d) ∧
       Forall (λ x, find_sub d x = None) l.
Proof.
  intros Hd. revert s. induction fuel as [|fuel IH]; intros s Hs.
  - destruct s; [|simpl in Hs; lia]. exists []. by split_and!; [| |left|].
  - destruct s as [|c s]; [exists []; by split_and!; [| |left|]|].
    cbn [split_loop]. destruct (find_sub d (c :: s)) as [n|] eqn:E.
    + pose proof (find_sub_Some _ _ _ E) as Hsplit.
      destruct (IH (drop (n + length d) (c :: s))) as (l & Hl & Hnil & Heq & HF).
      { rewrite length_drop. destruct d; [done|]. simpl in *. lia. }
      rewrite Hl. cbn [fmap option_fmap option_map]. exists (take n (c :: s) :: l).
      split_and!; [done|done| |constructor; [by eapply find_sub_take|done]].
      destruct l as [|x l].
      * right. rewrite Hsplit at 1. rewrite Hnil by done. by rewrite app_nil_r.
      * rewrite interc_cons by done. rewrite Hsplit at 1 3.
        destruct Heq as [-> | ->]; [left|right]; [done|]. by rewrite <- !app_assoc.
    + exists [c :: s]. split_and!; [done|done|by left|by repeat constructor].
Qed.

(** [split_str] with a non-empty delimiter returns, its pieces contain no delimiter and,
    when the string does not begin with the delimiter, [join_str] puts them back together
    up to one delimiter at the end. *)
Theorem split_str_join s d :
  d ≠ [] →
  ∃ l, split_str s d = Some l ∧ Forall (λ x, find_sub d x = None) l ∧
       (starts_with d s = false → s = join_str l d ∨ s = join_str l d ++ d).
Proof.
  intros Hd. destruct (split_loop_spec d (length s) s) as (l & Hl & Hnil & Heq & HF);
    [done|lia|].
  exists l. split_and!; [done|done|]. intros Hs.
  destruct l as [|x l]; [by rewrite Hnil; [left|]|].
  rewrite join_str_interc; [done|]. intros ->.
  rewrite interc_mjoin in Heq. cbn [app] in Heq.
  destruct l as [|y l]; cbn in Heq.
  - destruct Heq as [-> | ->]; [by unfold split_str in Hl|].
    pose proof (starts_with_app d []) as Hd'. rewrite app_nil_r in Hd'. congruence.
  - destruct Heq as [-> | ->]; rewrite <- !app_assoc, starts_with_app in Hs; done.
Qed.

Lemma split_str_join_witness :
  split_str (txt "/system,/vendor,") (txt ",") = Some [txt "/system"; txt "/vendor"] ∧
  ∃ l, split_str (txt "/system,/vendor,") (txt ",") = Some l ∧
       txt "/system,/vendor," = join_str l (txt ",") ++ txt ",".
Proof.
  destruct (split_str_join (txt "/system,/vendor,") (txt ",")) as (l & Hl & _); [done|].
  split; [vm_compute; reflexivity|]. exists l. split; [exact Hl|].
  vm_compute in Hl. injection Hl as <-. reflexivity.
Defined.

(** With an empty delimiter [find] succeeds without moving [pos]: the loop never ends. *)
Lemma split_str_empty_delim s fuel : s ≠ [] → split_loop fuel s [] = None.
Proof.
  intros Hs. induction fuel as [|fuel IH]; destruct s; try done.
  simpl. simpl in IH. by rewrite IH.
Qed.

(** ** The rest of [misc.hpp] *)

Definition str_contains (s ss : bytes) : bool := match find_sub ss s with Some _ => true | None => false end.

(** A range that is walked from its end. *)
Definition reversed {A} (base : list A) : list A := reverse base.

(** [a < b] of string views: the bytes as unsigned numbers, the shorter first. *)
Fixpoint StringCmp (a b : bytes) : bool :=
  match a, b with
  | _, [] => false
  | [], _ => true
  | x :: a, y :: b => (Z_of_byte x <? Z_of_byte y) || ((Z_of_byte x =? Z_of_byte y) && StringCmp a b)
  end.

(** A map ordered by it tells keys apart by their text: it is a strict total order. *)
Lemma StringCmp_irrefl a : StringCmp a a = false.
Proof. induction a as [|x a IH]; cbn; [done|]. by rewrite Z.ltb_irrefl, IH, andb_false_r. Qed.

Lemma StringCmp_trans a b c : StringCmp a b = true → StringCmp b c = true → StringCmp a c = true.
Proof.
  revert b c. induction a as [|x a IH]; intros [|y b] [|z c]; cbn; try done.
  rewrite !orb_true_iff, !andb_true_iff, !Z.ltb_lt, !Z.eqb_eq.
  intros [H1|[H1 H1']] [H2|[H2 H2']]; [left; lia..|]. right. split; [lia|]. by eapply IH.
Qed.

Lemma StringCmp_total a b : StringCmp a b = true ∨ a = b ∨ StringCmp b a = true.
Proof.
  revert b. induction a as [|x a IH]; intros [|y b]; cbn; [tauto..|].
  destruct (Z.lt_trichotomy (Z_of_byte x) (Z_of_byte y)) as [H|[H|H]].
  - left. by rewrite (proj2 (Z.ltb_lt _ _) H).
  - assert (x = y) as <- by (rewrite <- (byte_of_Z_of_byte x), H; apply byte_of_Z_of_byte).
    rewrite Z.eqb_refl, Z.ltb_irrefl. cbn. destruct (IH b) as [?|[->|?]]; tauto.
  - right. right. by rewrite (proj2 (Z.ltb_lt _ _) H).
Qed.

(** [new_daemon_thread]: the state is [errno].  [created] is what [pthread_create] returns,
    [logging] what the message makes of [errno]. *)
Definition new_daemon_thread (created : Z) (logging : Z → Z) : prog Z Z :=
  put created;;
  e ← get;
  when (negb (e =? 0)) (modify logging);;
  get.

(** The caller learns whether the thread was created; the reason may be that of the message. *)
Lemma new_daemon_thread_result created logging e0 :
  (∀ e, e ≠ 0 → logging e ≠ 0) →
  ∃ r, (new_daemon_thread created logging e0).1 = Ret r ∧ (r = 0 ↔ created = 0).
Proof.
  intros Hl. unfold new_daemon_thread. step. step. destruct (Z.eqb_spec created 0) as [->|H]; cbn [negb when].
  - by exists 0.
  - exists (logging created). split; [done|]. specialize (Hl created H). tauto.
Qed.
