(* ===== verification/SocketUtils.v ===== *)
(** * SocketUtils: the stream protocol layer of [common/socket_utils.cpp]

    A connected socket is the script of what the kernel answers to successive
    [read]/[recvmsg] and [write] calls, and the bytes written so far.  The script may cut
    the peer's stream into pieces and interrupt calls in any way; [delivers] relates it to
    the stream the peer sent, so that the theorems hold for every fragmentation. *)

From Stdlib Require Import ZArith Lia Ascii.
From stdpp Require Import base tactics strings list numbers.
From S2P Require Import Prelude.

(** ** The socket *)

(** What the kernel has ready for the next receiving call. *)
Inductive seg : Type :=
| Intr                       (* the call is interrupted by a signal: EINTR *)
| Fail (errno : Z)           (* the call fails for another reason *)
| Data (b : bytes)           (* bytes that have arrived *)
| FdMsg (fd : Z).            (* an [int] of payload with one SCM_RIGHTS descriptor *)

(** What the kernel does with the next [write]: it takes at most so many bytes. *)
Inductive wseg : Type :=
| WIntr
| WFail (errno : Z)
| WAtMost (k : nat).

Record sock : Type := mkSock {
  rxq : list seg;
  txq : list wseg;
  sent : bytes
}.

Definition set_rxq q (s : sock) : sock := mkSock q (txq s) (sent s).
Definition set_tx t o (s : sock) : sock := mkSock (rxq s) t o.

Definition EINTR : Z := 4.
Definition SOL_SOCKET : Z := 1.
Definition SCM_RIGHTS : Z := 1.
Definition sizeof_int : nat := 4.

(** [read(fd, p, n)]: an error number, or the bytes stored at [p] (none: end of stream).
    A read of no bytes returns at once.
    Reading a message that carries a descriptor drops the descriptor. *)
Definition sys_read (n : nat) : prog sock (Z + bytes) := λ s,
  if (n =? 0)%nat then (Ret (inr []), s) else
  match rxq s with
  | [] => (Ret (inr []), s)
  | Intr :: q => (Ret (inl EINTR), set_rxq q s)
  | Fail e :: q => (Ret (inl e), set_rxq q s)
  | Data b :: q =>
      if (length b <=? n)%nat then (Ret (inr b), set_rxq q s)
      else (Ret (inr (take n b)), set_rxq (Data (drop n b) :: q) s)
  | FdMsg _ :: q =>
      let b := le_bytes sizeof_int 1 in
      if (length b <=? n)%nat then (Ret (inr b), set_rxq q s)
      else (Ret (inr (take n b)), set_rxq (Data (drop n b) :: q) s)
  end.

(** [write(fd, b, length b)]: an error number, or how many bytes were taken.  At least
    one byte is taken when there is one to take. *)
Definition sys_write (b : bytes) : prog sock (Z + nat) := λ s,
  match txq s with
  | [] => (Ret (inr (length b)), set_tx [] (sent s ++ b) s)
  | WIntr :: t => (Ret (inl EINTR), set_tx t (sent s) s)
  | WFail e :: t => (Ret (inl e), set_tx t (sent s) s)
  | WAtMost k :: t =>
      let n := Nat.min (Nat.max 1 k) (length b) in
      (Ret (inr n), set_tx t (sent s ++ take n b) s)
  end.

Section socket_utils.
(** [sizeof(size_t)] of the ABI, and the bytes an uninitialised buffer of the stack
    happens to hold. *)
Context (sizeof_size_t : nat) (junk : nat → bytes) (junk_cmsg : Z * Z * Z).

(** ** Reading and writing exactly *)

(** One pass of the [do ... while] loop of [xread]; a [continue] after EINTR evaluates
    the loop condition with [ret = -1]. *)
Fixpoint xread_loop (fuel count : nat) (acc : bytes) : prog sock (Z * bytes) :=
  match fuel with
  | O => no_fuel
  | S fuel =>
      r ← sys_read (count - length acc);
      match r with
      | inl e =>
          if e =? EINTR then
            if bool_decide (length acc = count) then mret (Z.of_nat count, acc)
            else xread_loop fuel count acc
          else mret (-1, acc)
      | inr b =>
          let acc := acc ++ b in
          if negb (bool_decide (length acc = count)) && negb (bool_decide (b = []))
          then xread_loop fuel count acc
          else mret (Z.of_nat (length acc), acc)
      end
  end.

Definition xread (count : nat) : prog sock (Z * bytes) := λ s,
  xread_loop (length (rxq s) + 2) count [] s.

Fixpoint xwrite_loop (fuel : nat) (buf : bytes) (write_sz : nat) : prog sock nat :=
  match fuel with
  | O => no_fuel
  | S fuel =>
      r ← sys_write (drop write_sz buf);
      match r with
      | inl e =>
          if e =? EINTR then
            if bool_decide (write_sz = length buf) then mret write_sz
            else xwrite_loop fuel buf write_sz
          else mret write_sz
      | inr n =>
          let write_sz := (write_sz + n)%nat in
          if negb (bool_decide (write_sz = length buf)) && negb (bool_decide (n = O))
          then xwrite_loop fuel buf write_sz
          else mret write_sz
      end
  end.

Definition xwrite (buf : bytes) : prog sock nat := λ s,
  xwrite_loop (length (txq s) + 2) buf 0 s.

(** ** Typed values *)

Definition read_exact_or (size : nat) (fail : Z) : prog sock Z :=
  '(n, b) ← xread size;
  mret (if Z.of_nat size =? n then le_val b else fail).

Definition write_exact (size : nat) (val : Z) : prog sock bool :=
  n ← xwrite (le_bytes size val);
  mret (bool_decide (size = n)).

Definition read_u8 : prog sock Z := read_exact_or 1 0.
Definition read_u32 : prog sock Z := read_exact_or 4 0.
Definition read_usize : prog sock Z := read_exact_or sizeof_size_t 0.

Definition write_u8 (val : Z) : prog sock bool := write_exact 1 val.
Definition write_u32 (val : Z) : prog sock bool := write_exact 4 val.
Definition write_usize (val : Z) : prog sock bool := write_exact sizeof_size_t val.

(** The result of [xread] is not looked at: on a short read the rest of the buffer is
    whatever the stack held.  The [std::string] ends at the first NUL. *)
Definition read_string : prog sock bytes :=
  len ← read_usize;
  let len := Z.to_nat len in
  '(_, b) ← xread len;
  mret (cstr (b ++ drop (length b) (junk len) ++ [NUL])).

Definition write_string (str : bytes) : prog sock bool :=
  ok ← write_usize (Z.of_nat (length str));
  if negb ok then mret false
  else n ← xwrite str; mret (bool_decide (length str = n)).

(** ** Receiving a descriptor *)

(** The message header after [recvmsg]: the return value, [msg_controllen], and the
    first control message as level, type and data. *)
Record msghdr : Type := mkMsghdr {
  rec : Z;
  msg_controllen : Z;
  cmsg : option (Z * Z * Z)
}.

(** [recvmsg] does not change the header when it fails: [CMSG_FIRSTHDR] then points at
    the uninitialised buffer.  Plain data comes with an empty control part. *)
Definition xrecvmsg (bufsz : Z) : prog sock msghdr := λ s,
  match rxq s with
  | [] => (Ret (mkMsghdr 0 0 None), s)
  | Intr :: q | Fail _ :: q =>
      (Ret (mkMsghdr (-1) bufsz (Some junk_cmsg)), set_rxq q s)
  | Data b :: q =>
      (Ret (mkMsghdr (Z.of_nat (Nat.min sizeof_int (length b))) 0 None),
       set_rxq (if (length b <=? sizeof_int)%nat then q else Data (drop sizeof_int b) :: q) s)
  | FdMsg fd :: q =>
      (Ret (mkMsghdr 4 bufsz (Some (SOL_SOCKET, SCM_RIGHTS, fd))), set_rxq q s)
  end.

Definition recv_fds (bufsz : Z) : prog sock (option Z) :=
  msg ← xrecvmsg bufsz;
  mret (match cmsg msg with
        | None => None
        | Some (level, type, data) =>
            if negb (msg_controllen msg =? bufsz) || negb (level =? SOL_SOCKET)
               || negb (type =? SCM_RIGHTS)
            then None else Some data
        end).

Definition cmsg_space_int : Z := if (sizeof_size_t =? 8)%nat then 24 else 16.

Definition recv_fd : prog sock Z :=
  data ← recv_fds cmsg_space_int;
  mret (match data with None => -1 | Some fd => fd end).
End socket_utils.

(** ** Fragmentation *)

(** The stream as the peer wrote it: bytes, and descriptors between them. *)
Inductive elem : Type :=
| SB (b : byte)
| SF (fd : Z).

(** [delivers q es]: the kernel answers [q] hand over the stream [es], cut into non-empty
    pieces, with calls that wait for a byte interrupted any number of times. *)
Inductive delivers : list seg → list elem → Prop :=
| dl_nil : delivers [] []
| dl_intr q b es : delivers q (SB b :: es) → delivers (Intr :: q) (SB b :: es)
| dl_data b q es : b ≠ [] → delivers q es → delivers (Data b :: q) ((SB <$> b) ++ es)
| dl_fd fd q es : delivers q es → delivers (FdMsg fd :: q) (SF fd :: es).

#[export] Hint Constructors delivers : rezygisk.

Lemma elems_split b1 b2 es1 es2 :
  (SB <$> b1) ++ es1 = (SB <$> b2) ++ es2 → (length b1 <= length b2)%nat →
  ∃ b3, b2 = b1 ++ b3 ∧ es1 = (SB <$> b3) ++ es2.
Proof.
  revert b2. induction b1 as [|c b1 IH]; intros b2 He Hl.
  - exists b2. done.
  - destruct b2 as [|d b2]; [simpl in Hl; lia|].
    simpl in He. injection He as -> He.
    destruct (IH b2 He) as (b3 & -> & ->); [simpl in Hl; lia|]. by exists b3.
Qed.

Lemma sys_read_data n b q t o :
  (0 < n)%nat →
  sys_read n (mkSock (Data b :: q) t o) =
    if (length b <=? n)%nat then (Ret (inr b), mkSock q t o)
    else (Ret (inr (take n b)), mkSock (Data (drop n b) :: q) t o).
Proof. intros. unfold sys_read. by destruct n; [lia|]. Qed.

Section xread_correct.
Lemma xread_loop_done fuel acc s :
  xread_loop (S fuel) (length acc) acc s = (Ret (Z.of_nat (length acc), acc), s).
Proof.
  cbn [xread_loop]. unfold mbind, prog_bind, sys_read.
  rewrite Nat.sub_diag. cbn. rewrite app_nil_r.
  by rewrite bool_decide_eq_true_2.
Qed.

Lemma xread_loop_step fuel count acc s b s' :
  sys_read (count - length acc) s = (Ret (inr b), s') → b ≠ [] →
  (length (acc ++ b) <= count)%nat →
  xread_loop (S (S fuel)) count acc s =
    if bool_decide (length (acc ++ b) = count)
    then (Ret (Z.of_nat count, acc ++ b), s')
    else xread_loop (S fuel) count (acc ++ b) s'.
Proof.
  intros Hr Hb Hlen. cbn [xread_loop]. unfold mbind at 1, prog_bind at 1. rewrite Hr.
  cbn [negb]. rewrite (bool_decide_eq_false_2 (b = [])) by done. rewrite andb_true_r.
  case_bool_decide as Hc; cbn [negb]; [|done]. by rewrite Hc.
Qed.

Lemma xread_loop_delivers q es :
  delivers q es → ∀ b es' acc fuel t o,
  es = (SB <$> b) ++ es' → (length q + 2 <= fuel)%nat →
  ∃ q', xread_loop fuel (length acc + length b) acc (mkSock q t o) =
          (Ret (Z.of_nat (length acc + length b), acc ++ b), mkSock q' t o) ∧
        delivers q' es'.
Proof.
  induction 1 as [|q c es Hq IH|bb q es Hbb Hq IH|fd q es Hq IH];
    intros b es' acc fuel t o Hes Hf;
    (destruct fuel as [|[|fuel]]; [simpl in Hf; lia..|]);
    (destruct b as [|d b];
     [rewrite Nat.add_0_r, app_nil_r, xread_loop_done; eexists; split; [done|];
      simpl in Hes; subst; eauto with rezygisk|]); try done.
  - destruct (IH (d :: b) es' acc (S fuel) t o) as (q' & E & Hq'); [done|simpl in *; lia|].
    exists q'. split; [|done]. rewrite <- E.
    cbn [xread_loop]. unfold mbind at 1, prog_bind at 1, sys_read at 1.
    destruct (Nat.eqb_spec (length acc + length (d :: b) - length acc) 0);
      [simpl in *; lia|].
    cbn. by rewrite bool_decide_eq_false_2 by lia.
  - assert (0 < length acc + length (d :: b) - length acc)%nat as Hn by (simpl; lia).
    destruct (le_lt_dec (length bb) (length (d :: b))) as [Hle|Hgt].
    + destruct (elems_split _ _ _ _ Hes Hle) as (b3 & Hb3 & ->). rewrite Hb3 in *.
      erewrite xread_loop_step; [|rewrite sys_read_data by done;
        replace (_ <=? _)%nat with true by (symmetry; apply Nat.leb_le; rewrite length_app; lia);
        reflexivity|done|rewrite !length_app; lia].
      case_bool_decide as Hc.
      * assert (b3 = []) as -> by (destruct b3; [done|rewrite !length_app in Hc; simpl in Hc; lia]).
        rewrite app_nil_r. exists q. simpl. done.
      * destruct (IH b3 es' (acc ++ bb) (S fuel) t o) as (q' & E & Hq'); [done|simpl in *; lia|].
        exists q'. split; [|done]. rewrite !length_app in *.
        rewrite Nat.add_assoc, E. by rewrite <- app_assoc.
    + destruct (elems_split _ _ _ _ (eq_sym Hes)) as (b3 & -> & ->); [lia|].
      assert (b3 ≠ []) by (intros ->; rewrite app_nil_r in Hgt; lia).
      erewrite xread_loop_step; [|rewrite sys_read_data by done;
        replace (_ <=? _)%nat with false by (symmetry; apply Nat.leb_gt; lia);
        replace (length acc + _ - length acc)%nat with (length (d :: b)) by lia;
        rewrite take_app_length, drop_app_length; reflexivity|done|rewrite length_app; lia].
      rewrite bool_decide_eq_true_2 by (by rewrite length_app).
      eexists. split; [done|]. by constructor.
Qed.
End xread_correct.

(** [xread] is insensitive to how the stream arrives: whatever pieces and EINTR
    interruptions the kernel delivers the peer's bytes in, it returns exactly the
    requested bytes and leaves the rest of the stream unread. *)
Theorem xread_exact q es b t o :
  delivers q ((SB <$> b) ++ es) →
  ∃ q', xread (length b) (mkSock q t o) =
          (Ret (Z.of_nat (length b), b), mkSock q' t o) ∧ delivers q' es.
Proof.
  intros H. unfold xread.
  destruct (xread_loop_delivers _ _ H b es [] (length q + 2) t o) as (q' & E & Hq');
    [done|simpl; lia|].
  by exists q'.
Qed.

Lemma xread_exact_witness :
  ∃ q', xread 3 (mkSock [Intr; Data (txt "a"); Intr; Data (txt "bcd")] [] []) =
          (Ret (3, txt "abc"), mkSock q' [] []) ∧ delivers q' [SB "d"%char].
Proof.
  apply (xread_exact _ [SB "d"%char] (txt "abc")).
  apply dl_intr, (dl_data (txt "a")); [done|].
  apply dl_intr, (dl_data (txt "bcd") [] []); [done|apply dl_nil].
Defined.

(** ** Totality *)

Lemma xread_loop_total q : ∀ fuel count acc t o,
  (length q + 1 <= fuel)%nat → (length acc <= count)%nat →
  ∃ r b q', xread_loop fuel count acc (mkSock q t o) = (Ret (r, b), mkSock q' t o) ∧
            (length b <= count)%nat ∧ (r = -1 ∨ r = Z.of_nat (length b)).
Proof.
  induction q as [|x q IH]; intros fuel count acc t o Hf Hacc;
    (destruct fuel as [|fuel]; [simpl in Hf; lia|]);
    cbn [xread_loop]; unfold mbind at 1, prog_bind at 1, sys_read at 1;
    destruct (Nat.eqb_spec (count - length acc) 0) as [E|E]; cbn [rxq];
    rewrite ?andb_false_r, ?(bool_decide_eq_true_2 ([] = [])) by done;
    rewrite ?app_nil_r, ?andb_false_r.
  1-3: by eexists _, _, _; split_and!; [done|lia|right].
  assert (∀ b, (length (acc ++ b) <= count)%nat → ∃ r b' q',
    (if negb (bool_decide (length (acc ++ b) = count)) && negb (bool_decide (b = []))
     then xread_loop fuel count (acc ++ b)
     else mret (Z.of_nat (length (acc ++ b)), acc ++ b)) (mkSock q t o) =
      (Ret (r, b'), mkSock q' t o) ∧ (length b' <= count)%nat ∧
      (r = -1 ∨ r = Z.of_nat (length b'))) as Hgo.
  { intros b Hb. case_match; [apply IH; simpl in *; lia|].
    by eexists _, _, _; split_and!; [done|lia|right]. }
  assert (∀ b, (count - length acc < length b)%nat → ∃ r b' q',
    (if negb (bool_decide (length (acc ++ take (count - length acc) b) = count)) &&
        negb (bool_decide (take (count - length acc) b = []))
     then xread_loop fuel count (acc ++ take (count - length acc) b)
     else mret (Z.of_nat (length (acc ++ take (count - length acc) b)),
                acc ++ take (count - length acc) b))
      (mkSock (Data (drop (count - length acc) b) :: q) t o) =
      (Ret (r, b'), mkSock q' t o) ∧ (length b' <= count)%nat ∧
      (r = -1 ∨ r = Z.of_nat (length b'))) as Hstop.
  { intros b Hb. assert (length (acc ++ take (count - length acc) b) = count)
      by (rewrite length_app, length_take; lia).
    rewrite bool_decide_eq_true_2 by done. cbn.
    by eexists _, _, _; split_and!; [done|lia|right]. }
  destruct x as [|e|b|fd].
  - cbn. case_bool_decide; [by eexists _, _, _; split_and!; [done|lia|right; congruence]|].
    apply IH; simpl in *; lia.
  - cbn. destruct (e =? EINTR); [|by eexists _, _, _; split_and!; [done|lia|left]].
    case_bool_decide; [by eexists _, _, _; split_and!; [done|lia|right; congruence]|].
    apply IH; simpl in *; lia.
  - destruct (Nat.leb_spec (length b) (count - length acc));
      [apply Hgo; rewrite length_app; lia | by apply Hstop].
  - destruct (Nat.leb_spec (length (le_bytes sizeof_int 1)) (count - length acc));
      [apply Hgo; rewrite length_app; lia | by apply Hstop].
Qed.

(** The pieces the kernel takes never fail. *)
Definition accepting (t : list wseg) : Prop :=
  Forall (λ w, match w with WFail _ => False | _ => True end) t.

(** What a run of the write loop from [n] bytes promises. *)
Definition writes_from (buf : bytes) (n : nat) (s : sock) (r : outcome nat * sock) : Prop :=
  ∃ m t', r = (Ret m, mkSock (rxq s) t' (sent s ++ take (m - n) (drop n buf))) ∧
          (n <= m <= length buf)%nat ∧
          (accepting (txq s) → m = length buf ∧ accepting t').

Lemma writes_from_stop buf n s w t :
  (n <= length buf)%nat → txq s = w :: t →
  (accepting (w :: t) → n = length buf) →
  writes_from buf n s (Ret n, mkSock (rxq s) t (sent s)).
Proof.
  intros Hn Ht Ha. exists n, t. rewrite Nat.sub_diag, take_0, app_nil_r, Ht.
  split_and!; [done|lia|lia|]. intros H. split; [by apply Ha|by inv H].
Qed.

Lemma writes_from_more buf n k s w t r :
  txq s = w :: t → (k <= length (drop n buf))%nat →
  writes_from buf (n + k) (mkSock (rxq s) t (sent s ++ take k (drop n buf))) r →
  writes_from buf n s r.
Proof.
  intros Ht Hk (m & t' & -> & Hm & Ha). exists m, t'. rewrite length_drop in Hk.
  split_and!; [|lia|lia|rewrite Ht; intros H'; inv H'; by apply Ha].
  cbn. do 2 f_equal. rewrite <- app_assoc. f_equal.
  rewrite <- drop_drop, <- (take_drop k (take (m - n) (drop n buf))).
  f_equal; [rewrite take_take; f_equal; lia|].
  rewrite skipn_firstn_comm. f_equal. lia.
Qed.

Lemma xwrite_loop_total t : ∀ fuel buf n q o,
  (length t + 2 <= fuel)%nat → (n <= length buf)%nat →
  writes_from buf n (mkSock q t o) (xwrite_loop fuel buf n (mkSock q t o)).
Proof.
  induction t as [|w t IH]; intros fuel buf n q o Hf Hn;
    (destruct fuel as [|fuel]; [simpl in Hf; lia|]);
    cbn [xwrite_loop]; unfold mbind at 1, prog_bind at 1, sys_write at 1; cbn [txq].
  { assert (n + length (drop n buf) = length buf)%nat as E by (rewrite length_drop; lia).
    rewrite E, bool_decide_eq_true_2 by done. cbn.
    exists (length buf), []. split_and!; [|lia|lia|done].
    rewrite <- length_drop, firstn_all. done. }
  assert (accepting (w :: t) → accepting t) as Hacc by (intros H; by inv H).
  assert (writes_from buf n (mkSock q (w :: t) o) (xwrite_loop fuel buf n (mkSock q t o))) as Hgo.
  { destruct (IH fuel buf n q o) as (m & t' & -> & Hm & Ha); [simpl in *; lia|done|].
    exists m, t'. split_and!; [done|lia|lia|]. intros H. by apply Ha, Hacc. }
  destruct w as [|e|k].
  - cbn. case_bool_decide; [by eapply writes_from_stop|done].
  - cbn. destruct (e =? EINTR); [case_bool_decide; [by eapply writes_from_stop|done]|].
    eapply writes_from_stop; [done..|]. intros H. by inv H.
  - remember (Nat.min (Nat.max 1 k) (length (drop n buf))) as k' eqn:Hk.
    pose proof (length_drop buf n) as Hd. cbn.
    eapply (writes_from_more _ _ k'); [done|lia|]. cbn.
    destruct (_ && _) eqn:Ec; [apply IH; simpl in *; lia|].
    exists (n + k')%nat, t. rewrite Nat.sub_diag, take_0, app_nil_r.
    split_and!; [done|lia|lia|]. intros Ha. split; [|done].
    apply andb_false_iff in Ec as [Ec|Ec]; bool_to_prop; lia.
Qed.

(** [xread] and [xwrite] terminate on every sequence of kernel answers.  [xread] never
    stores more than asked for; [xwrite] returns how long a prefix of the buffer it put on
    the wire, and that is the whole buffer unless a [write] fails with something other
    than EINTR. *)
Theorem xread_xwrite_total s count buf :
  (∃ r b q', xread count s = (Ret (r, b), set_rxq q' s) ∧
             (length b <= count)%nat ∧ (r = -1 ∨ r = Z.of_nat (length b))) ∧
  (∃ n t', xwrite buf s = (Ret n, set_tx t' (sent s ++ take n buf) s) ∧
           (n <= length buf)%nat ∧
           (accepting (txq s) → n = length buf ∧ accepting t')).
Proof.
  destruct s as [q t o]. split.
  - unfold xread. apply xread_loop_total; simpl; lia.
  - destruct (xwrite_loop_total t (length t + 2) buf 0 q o) as (m & t' & E & Hm & Ha); [lia..|].
    exists m, t'. rewrite Nat.sub_0_r, drop_0 in E. by split_and!; [|lia|].
Qed.

(** ** The interface the daemon client is verified against *)

(** [Reads m enc a]: however the kernel delivers a stream that begins with [enc], [m]
    consumes exactly [enc], returns [a] and sends nothing. *)
Class Reads {A} (m : prog sock A) (enc : list elem) (a : A) : Prop :=
  reads : ∀ q es t o, delivers q (enc ++ es) →
    ∃ q', m (mkSock q t o) = (Ret a, mkSock q' t o) ∧ delivers q' es.

(** [Sends m b a]: on a socket whose writes do not fail, [m] puts exactly [b] on the wire,
    returns [a] and reads nothing. *)
Class Sends {A} (m : prog sock A) (b : bytes) (a : A) : Prop :=
  sends : ∀ q t o, accepting t →
    ∃ t', m (mkSock q t o) = (Ret a, mkSock q t' (o ++ b)) ∧ accepting t'.

#[export] Instance reads_ret {A} (a : A) : Reads (mret a) [] a.
Proof. intros q es t o H. by exists q. Qed.

Lemma reads_bind {A B} (m : prog sock A) (f : A → prog sock B) e1 e2 a b :
  Reads m e1 a → Reads (f a) e2 b → Reads (m ≫= f) (e1 ++ e2) b.
Proof.
  intros H1 H2 q es t o H. rewrite <- app_assoc in H.
  destruct (H1 _ _ t o H) as (q1 & E1 & D1). destruct (H2 _ _ t o D1) as (q2 & E2 & D2).
  exists q2. unfold mbind, prog_bind. by rewrite E1.
Qed.

#[export] Instance sends_ret {A} (a : A) : Sends (mret a) [] a.
Proof. intros q t o H. exists t. by rewrite app_nil_r. Qed.

Lemma sends_bind {A B} (m : prog sock A) (f : A → prog sock B) b1 b2 a b :
  Sends m b1 a → Sends (f a) b2 b → Sends (m ≫= f) (b1 ++ b2) b.
Proof.
  intros H1 H2 q t o H. destruct (H1 q t o H) as (t1 & E1 & D1).
  destruct (H2 q t1 (o ++ b1) D1) as (t2 & E2 & D2).
  exists t2. unfold mbind, prog_bind. by rewrite E1, E2, <- app_assoc.
Qed.

Lemma reads_fmap {A B} (m : prog sock A) (f : A → prog sock B) e a b :
  Reads m e a → f a = mret b → Reads (m ≫= f) e b.
Proof.
  intros H E. rewrite <- (app_nil_r e). eapply reads_bind; [done|]. rewrite E. apply reads_ret.
Qed.

Lemma sends_fmap {A B} (m : prog sock A) (f : A → prog sock B) e a b :
  Sends m e a → f a = mret b → Sends (m ≫= f) e b.
Proof.
  intros H E. rewrite <- (app_nil_r e). eapply sends_bind; [done|]. rewrite E. apply sends_ret.
Qed.

#[export] Instance reads_xread b : Reads (xread (length b)) (SB <$> b) (Z.of_nat (length b), b).
Proof. intros q es t o H. unfold xread.
  destruct (xread_loop_delivers _ _ H b es [] (length q + 2) t o) as (q' & E & Hq');
    [done|simpl; lia|]. by exists q'.
Qed.

#[export] Instance sends_xwrite b : Sends (xwrite b) b (length b).
Proof.
  intros q t o H. destruct (xwrite_loop_total t (length t + 2) b 0 q o) as (m & t' & E & Hm & Ha);
    [lia..|].
  destruct (Ha H) as [-> Ht]. exists t'. split; [|done].
  unfold xwrite. cbn. rewrite E. cbn. by rewrite Nat.sub_0_r, drop_0, firstn_all.
Qed.

(** ** Typed values on the wire *)

Definition wire_int (size : nat) (v : Z) : list elem := SB <$> le_bytes size v.
Definition wire_string (size : nat) (b : bytes) : list elem :=
  wire_int size (Z.of_nat (length b)) ++ (SB <$> b).

#[export] Instance reads_exact size fail v :
  0 <= v < 256 ^ Z.of_nat size → Reads (read_exact_or size fail) (wire_int size v) v.
Proof.
  intros Hv. unfold read_exact_or, wire_int.
  rewrite <- (length_le_bytes size v) at 1.
  eapply reads_fmap; [apply reads_xread|]. cbn.
  by rewrite length_le_bytes, Z.eqb_refl, le_val_bytes_id.
Qed.

#[export] Instance sends_exact size v : Sends (write_exact size v) (le_bytes size v) true.
Proof.
  eapply sends_fmap; [apply sends_xwrite|]. cbn.
  by rewrite bool_decide_eq_true_2 by (by rewrite length_le_bytes).
Qed.

Section strings.
Context (sz : nat) (junk : nat → bytes).

Lemma reads_string b :
  no_nul b → Z.of_nat (length b) < 256 ^ Z.of_nat sz → (∀ n, length (junk n) = n) →
  Reads (read_string sz junk) (wire_string sz b) b.
Proof.
  intros Hb Hl Hj. unfold read_string, wire_string.
  eapply reads_bind; [apply reads_exact; lia|].
  rewrite Nat2Z.id. eapply reads_fmap; [apply reads_xread|]. cbn.
  rewrite drop_ge by (by rewrite Hj). cbn. by rewrite cstr_nul.
Qed.

Lemma sends_string b :
  Sends (write_string sz b) (le_bytes sz (Z.of_nat (length b)) ++ b) true.
Proof.
  unfold write_string. eapply sends_bind; [apply sends_exact|]. cbn.
  eapply sends_fmap; [apply sends_xwrite|]. cbn. by rewrite bool_decide_eq_true_2.
Qed.

Lemma reads_fd junk_cmsg fd : Reads (recv_fd sz junk_cmsg) [SF fd] fd.
Proof.
  intros q es t o H.
  inversion H as [| |b ? ? Hb ? E|]; subst; [by destruct b|]. eexists. split; [|eassumption].
  unfold recv_fd, recv_fds. run_prog. by rewrite Z.eqb_refl.
Qed.
End strings.

(** C18 What one side writes the other reads back: integers of [size] bytes and strings
    without NUL written by [write_exact]/[write_string] are returned unchanged by
    [read_exact_or]/[read_string], under any fragmentation of the stream. *)
Theorem wire_roundtrip sz junk v str size fail q q' t o es es' t' :
  accepting t → (∀ n, length (junk n) = n) →
  0 <= v < 256 ^ Z.of_nat size →
  no_nul str → Z.of_nat (length str) < 256 ^ Z.of_nat sz →
  delivers q ((SB <$> sent (write_exact size v (mkSock [] t [])).2) ++ es) →
  delivers q' ((SB <$> sent (write_string sz str (mkSock [] t [])).2) ++ es') →
  (read_exact_or size fail (mkSock q t' o)).1 = Ret v ∧
  (read_string sz junk (mkSock q' t' o)).1 = Ret str.
Proof.
  intros Ht Hj Hv Hs Hl D1 D2.
  destruct (sends_exact size v [] t [] Ht) as (t1 & E1 & _). rewrite E1 in D1. cbn in D1.
  destruct (sends_string sz str [] t [] Ht) as (t2 & E2 & _). rewrite E2 in D2. cbn in D2.
  rewrite fmap_app in D2.
  destruct (reads_exact size fail v Hv q es t' o D1) as (q1 & F1 & _).
  destruct (reads_string sz junk str Hs Hl Hj q' es' t' o D2) as (q2 & F2 & _).
  by rewrite F1, F2.
Qed.

Lemma wire_roundtrip_witness :
  (read_exact_or 4 0 (mkSock [Data (le_bytes 4 77)] [] [])).1 = Ret 77 ∧
  (read_string 8 (λ n, replicate n NUL)
     (mkSock [Data (le_bytes 8 2 ++ txt "ok")] [] [])).1 = Ret (txt "ok").
Proof.
  apply (wire_roundtrip 8 _ 77 (txt "ok") 4 0 _ _ [WAtMost 1; WIntr] [] [] [] []);
    [repeat apply Forall_cons_2; done|intros; apply length_replicate|lia
    |unfold no_nul; by apply (bool_decide_unpack _)|cbn; lia|..].
  - apply (dl_data (le_bytes 4 77) [] []); [done|constructor].
  - apply (dl_data (le_bytes 8 2 ++ txt "ok") [] []); [done|constructor].
Defined.

(** [recv_fd] returns a descriptor only for a message whose control part is a full
    SCM_RIGHTS message; a stream that holds plain bytes, or is at its end, gives -1. *)
Theorem recv_fd_spec sz jc q t o :
  (∀ fd, (recv_fd sz jc (mkSock (FdMsg fd :: q) t o)) = (Ret fd, mkSock q t o)) ∧
  (∀ b, (recv_fd sz jc (mkSock (Data b :: q) t o)).1 = Ret (-1)) ∧
  recv_fd sz jc (mkSock [] t o) = (Ret (-1), mkSock [] t o).
Proof.
  unfold recv_fd, recv_fds. split_and!; intros; run_prog; try done.
  by rewrite Z.eqb_refl.
Qed.
