(* ===== verification/Logging.v ===== *)
(** * Logging: log lines from the loader to the daemon

    [common/logging.cpp], and the loop of [zygiskd/src/zygiskd.rs] that receives the lines.  A
    line goes to Android's log while there is no descriptor, and otherwise over the socket of
    [SocketUtils] as a level, a tag and a text.  Formatting is done by the caller's [printf]
    arguments: the model starts from the formatted text. *)

From Stdlib Require Import ZArith Lia Ascii.
From stdpp Require Import base tactics strings list numbers.
From S2P Require Import Prelude SocketUtils.

(** ** The loader's side *)

(** A level, a tag and a text. *)
Abbreviation log_line := (Z * bytes * bytes)%type.

Record logger : Type := mkLogger {
  logfd : Z;
  log_sock : sock;
  android_log : list log_line
}.

Definition getfd : prog logger Z := gets logfd.

Definition on_sock {A} (m : prog sock A) : prog logger A := λ s,
  let '(r, k) := m (log_sock s) in (r, mkLogger (logfd s) k (android_log s)).

Definition BUFSIZ : nat := 1024.

Section log.
Context (sizeof_size_t : nat).

(** The results of the three writes are not looked at; the text is cut to the buffer. *)
Definition log (prio : Z) (tag text : bytes) : prog logger unit :=
  s ← get;
  if logfd s =? -1 then
    modify (λ s, mkLogger (logfd s) (log_sock s) (android_log s ++ [(prio, tag, text)]))
  else
    let buf := take (BUFSIZ - 1) text in
    on_sock (write_u8 prio);;
    on_sock (write_string sizeof_size_t tag);;
    on_sock (write_string sizeof_size_t buf);;
    mret tt.
End log.

(** ** The daemon's side *)

Record logcat : Type := mkLogcat { lc_in : bytes; lc_out : list log_line }.

(** [read_exact]: nothing on a stream that ends early, which is an error of the caller. *)
Definition read_exact (n : nat) : prog logcat (option bytes) :=
  s ← get;
  if (n <=? length (lc_in s))%nat
  then put (mkLogcat (drop n (lc_in s)) (lc_out s));; mret (Some (take n (lc_in s)))
  else mret None.

Definition cont (lo hi : Z) (c : byte) : bool := (lo <=? Z_of_byte c) && (Z_of_byte c <=? hi).

(** [String::from_utf8]. *)
Fixpoint from_utf8 (b : bytes) : bool :=
  match b with
  | [] => true
  | c :: b =>
      let v := Z_of_byte c in
      if v <? 128 then from_utf8 b
      else if v <? 0xc2 then false
      else if v <? 0xe0 then match b with c1 :: b => cont 128 191 c1 && from_utf8 b | _ => false end
      else if v <? 0xf0 then
        match b with
        | c1 :: c2 :: b =>
            cont (if v =? 0xe0 then 0xa0 else 128) (if v =? 0xed then 0x9f else 191) c1 &&
            cont 128 191 c2 && from_utf8 b
        | _ => false
        end
      else if v <? 0xf5 then
        match b with
        | c1 :: c2 :: c3 :: b =>
            cont (if v =? 0xf0 then 0x90 else 128) (if v =? 0xf4 then 0x8f else 191) c1 &&
            cont 128 191 c2 && cont 128 191 c3 && from_utf8 b
        | _ => false
        end
      else false
  end.

Section logcat.
Context (sizeof_usize : nat).

Definition read_string_rs : prog logcat (option bytes) :=
  n ← read_exact sizeof_usize;
  match n with
  | None => mret None
  | Some n =>
      b ← read_exact (Z.to_nat (le_val n));
      mret (b ← b; if from_utf8 b then Some b else None)
  end.

(** What [__android_log_print] makes of a format without arguments: nothing ([None]) when a
    directive asks for one. *)
Fixpoint format0 (fmt : bytes) : option bytes :=
  match fmt with
  | [] => Some []
  | c :: fmt =>
      if bool_decide (c = "%"%char) then
        match fmt with
        | "%"%char :: fmt => cons "%"%char <$> format0 fmt
        | _ => None
        end
      else cons c <$> format0 fmt
  end.

(** [CString::new] refuses a text with a NUL; the message is passed as the format. *)
Definition log_raw (level : Z) (tag message : bytes) : prog logcat bool :=
  if bool_decide (NUL ∈ tag) || bool_decide (NUL ∈ message) then mret false
  else
    match format0 message with
    | None => crash Uninit
    | Some t => modify (λ s, mkLogcat (lc_in s) (lc_out s ++ [(level, tag, t)]));; mret true
    end.

(** The loop of [RequestLogcatFd]: whether it ended with the stream, and not with an error. *)
Fixpoint logcat_loop (fuel : nat) : prog logcat bool :=
  match fuel with
  | O => no_fuel
  | S fuel =>
      level ← read_exact 1;
      match level with
      | None => mret true
      | Some level =>
          tag ← read_string_rs;
          match tag with
          | None => mret false
          | Some tag =>
              message ← read_string_rs;
              match message with
              | None => mret false
              | Some message =>
                  ok ← log_raw (le_val level) tag message;
                  if (ok : bool) then logcat_loop fuel else mret false
              end
          end
      end
  end.

(** Every round takes a byte off the stream. *)
Definition handle_logcat : prog logcat bool := s ← get; logcat_loop (S (length (lc_in s))).
End logcat.

(** The loop ends with the stream or an error, unless a message is a format that asks for arguments. *)
Section logcat_outcome.
Context (sz : nat).

Lemma read_exact_outcome n s :
  ∃ b s', read_exact n s = (Ret b, s') ∧ (length (lc_in s') <= length (lc_in s) - (if b is Some _ then n else 0))%nat ∧
    (b ≠ None → (n <= length (lc_in s))%nat).
Proof.
  unfold read_exact. step. destruct (Nat.leb_spec n (length (lc_in s))).
  - step. eexists _, _. split; [reflexivity|]. cbn. rewrite length_drop. split; lia.
  - eexists _, _. split; [reflexivity|]. split; [cbn; lia | done].
Qed.

Lemma read_string_outcome s :
  ∃ b s', read_string_rs sz s = (Ret b, s') ∧ (length (lc_in s') <= length (lc_in s))%nat.
Proof.
  unfold read_string_rs. destruct (read_exact_outcome sz s) as (n & s1 & E & L & _). step_with E.
  destruct n as [n|]; [|eexists _, _; split; [reflexivity | lia]].
  destruct (read_exact_outcome (Z.to_nat (le_val n)) s1) as (b & s2 & E2 & L2 & _). step_with E2.
  eexists _, _. split; [reflexivity | lia].
Qed.

Lemma logcat_loop_outcome fuel s :
  (length (lc_in s) < fuel)%nat →
  (∃ ok, (logcat_loop sz fuel s).1 = Ret ok) ∨ (logcat_loop sz fuel s).1 = Crash Uninit.
Proof.
  revert s. induction fuel as [|fuel IH]; intros s Hf; [lia|]. cbn [logcat_loop].
  destruct (read_exact_outcome 1 s) as (level & s1 & E & L & N). step_with E.
  destruct level as [level|]; [|left; by eexists]. specialize (N ltac:(done)).
  destruct (read_string_outcome s1) as (tag & s2 & E2 & L2). step_with E2. destruct tag as [tag|]; [|left; by eexists].
  destruct (read_string_outcome s2) as (message & s3 & E3 & L3). step_with E3. destruct message as [message|]; [|left; by eexists].
  unfold log_raw. destruct (_ || _); [step; left; by eexists|]. destruct (format0 message); [|by right].
  rewrite prog_bind_assoc. step. step. apply IH. cbn. lia.
Qed.

Lemma handle_logcat_outcome s :
  (∃ ok, (handle_logcat sz s).1 = Ret ok) ∨ (handle_logcat sz s).1 = Crash Uninit.
Proof. apply (logcat_loop_outcome (S (length (lc_in s))) s). lia. Qed.
End logcat_outcome.

(** ** From one side to the other *)

(** What is on the wire for a line. *)
Definition wire_line (sz : nat) (l : log_line) : bytes :=
  le_bytes 1 l.1.1 ++ (le_bytes sz (Z.of_nat (length l.1.2)) ++ l.1.2) ++
  (le_bytes sz (Z.of_nat (length (take (BUFSIZ - 1) l.2))) ++ take (BUFSIZ - 1) l.2).

(** An ASCII text the daemon can print as it is. *)
Definition ascii_text (b : bytes) : Prop := Forall (λ c, 0 < Z_of_byte c < 128) b.
Definition printable (l : log_line) : Prop :=
  0 <= l.1.1 < 256 ∧ ascii_text l.1.2 ∧ ascii_text l.2 ∧ "%"%char ∉ l.2.

Section wire.
Context (sz : nat).

Lemma on_sock_sends {A} (m : prog sock A) b a fd q t o al :
  Sends m b a → accepting t →
  ∃ t', on_sock m (mkLogger fd (mkSock q t o) al) = (Ret a, mkLogger fd (mkSock q t' (o ++ b)) al) ∧ accepting t'.
Proof.
  intros Hs Ht. destruct (Hs q t o Ht) as (t' & E & Ht'). exists t'. split; [|done].
  unfold on_sock. cbn [log_sock]. by rewrite E.
Qed.

Lemma log_run l fd q t o al :
  fd ≠ -1 → accepting t →
  ∃ t', log sz l.1.1 l.1.2 l.2 (mkLogger fd (mkSock q t o) al)
      = (Ret tt, mkLogger fd (mkSock q t' (o ++ wire_line sz l)) al) ∧ accepting t'.
Proof.
  intros Hfd Ht. unfold log. step. cbn [logfd]. rewrite (proj2 (Z.eqb_neq _ _) Hfd).
  destruct (on_sock_sends (write_u8 l.1.1) _ _ fd q t o al (sends_exact 1 l.1.1) Ht) as (t1 & E1 & H1).
  step_with E1.
  destruct (on_sock_sends (write_string sz l.1.2) _ _ fd q t1 (o ++ le_bytes 1 l.1.1) al (sends_string sz l.1.2) H1) as (t2 & E2 & H2). step_with E2.
  destruct (on_sock_sends (write_string sz (take (BUFSIZ - 1) l.2)) _ _ fd q t2
    ((o ++ le_bytes 1 l.1.1) ++ le_bytes sz (Z.of_nat (length l.1.2)) ++ l.1.2) al (sends_string sz (take (BUFSIZ - 1) l.2)) H2) as (t3 & E3 & H3).
  step_with E3. exists t3. split; [|done]. unfold wire_line. by rewrite !app_assoc.
Qed.

Lemma log_all_run ls fd q t o al :
  fd ≠ -1 → accepting t →
  ∃ t', for_each ls (λ l, log sz l.1.1 l.1.2 l.2) (mkLogger fd (mkSock q t o) al)
      = (Ret tt, mkLogger fd (mkSock q t' (o ++ concat (wire_line sz <$> ls))) al).
Proof.
  intros Hfd. revert t o. induction ls as [|l ls IH]; intros t o Ht.
  { exists t. cbn. by rewrite app_nil_r. }
  cbn [for_each]. destruct (log_run l fd q t o al Hfd Ht) as (t1 & E1 & H1). step_with E1.
  destruct (IH t1 (o ++ wire_line sz l) H1) as (t2 & E2). exists t2. rewrite E2. cbn [fmap list_fmap concat].
  by rewrite app_assoc.
Qed.

Lemma read_exact_run b r out :
  read_exact (length b) (mkLogcat (b ++ r) out) = (Ret (Some b), mkLogcat r out).
Proof.
  unfold read_exact. step. cbn [lc_in lc_out]. rewrite length_app.
  rewrite (proj2 (Nat.leb_le _ _)) by lia. step.
  by rewrite take_app_length, drop_app_length.
Qed.

Lemma from_utf8_ascii b : ascii_text b → from_utf8 b = true.
Proof.
  induction 1 as [|c b Hc _ IH]; [done|]. cbn [from_utf8].
  by rewrite (proj2 (Z.ltb_lt _ _)) by lia.
Qed.

Lemma read_string_rs_run b r out :
  ascii_text b → Z.of_nat (length b) < 256 ^ Z.of_nat sz →
  read_string_rs sz (mkLogcat (le_bytes sz (Z.of_nat (length b)) ++ b ++ r) out) = (Ret (Some b), mkLogcat r out).
Proof.
  intros Ha Hl. unfold read_string_rs.
  pose proof (read_exact_run (le_bytes sz (Z.of_nat (length b))) (b ++ r) out) as E.
  rewrite length_le_bytes in E. step_with E. cbv iota.
  rewrite le_val_bytes_id by lia. rewrite Nat2Z.id. step_with (read_exact_run b r out).
  cbn [mbind option_bind]. by rewrite from_utf8_ascii.
Qed.

Lemma ascii_no_nul b : ascii_text b → NUL ∉ b.
Proof. intros H Hn. destruct (proj1 (list.Forall_forall _ _) H _ Hn) as [H0 _]. by vm_compute in H0. Qed.

Lemma ascii_take n b : ascii_text b → ascii_text (take n b).
Proof. apply Forall_take. Qed.

Lemma format0_plain b : "%"%char ∉ b → format0 b = Some b.
Proof.
  induction b as [|c b IH]; [done|]. intros [H1 H2]%not_elem_of_cons. cbn [format0].
  rewrite bool_decide_eq_false_2 by congruence. by rewrite IH.
Qed.

(** What the daemon prints of a line. *)
Definition received (l : log_line) : log_line := (l.1.1, l.1.2, take (BUFSIZ - 1) l.2).

Lemma logcat_loop_run ls fuel out :
  (2 <= sz)%nat → Forall (λ l, printable l ∧ Z.of_nat (length l.1.2) < 256 ^ Z.of_nat sz) ls →
  (length ls < fuel)%nat →
  logcat_loop sz fuel (mkLogcat (concat (wire_line sz <$> ls)) out) = (Ret true, mkLogcat [] (out ++ (received <$> ls))).
Proof.
  intros Hsz Hls. revert fuel out. induction Hls as [|l ls [(Hp & Ht & Hm & Hf) Hl] _ IH]; intros [|fuel] out Hfuel;
    cbn [length] in Hfuel; try lia.
  { cbn. by rewrite app_nil_r. }
  cbn [logcat_loop fmap list_fmap concat]. unfold wire_line at 1. rewrite <- !app_assoc.
  step_with (read_exact_run (le_bytes 1 l.1.1) (le_bytes sz (Z.of_nat (length l.1.2)) ++ l.1.2 ++
    le_bytes sz (Z.of_nat (length (take (BUFSIZ - 1) l.2))) ++ take (BUFSIZ - 1) l.2 ++ concat (wire_line sz <$> ls)) out).
  cbv iota. erewrite bind_run by (by apply read_string_rs_run). cbv beta iota.
  erewrite bind_run.
  2:{ apply read_string_rs_run; [by apply ascii_take|]. pose proof (length_take_le l.2 (BUFSIZ - 1)).
      assert (256 ^ 2 <= 256 ^ Z.of_nat sz) by (apply Z.pow_le_mono_r; lia).
      rewrite length_take. unfold BUFSIZ. lia. }
  cbv beta iota. unfold log_raw.
  rewrite (bool_decide_eq_false_2 _ (ascii_no_nul _ Ht)).
  rewrite (bool_decide_eq_false_2 _ (ascii_no_nul _ (ascii_take (BUFSIZ - 1) _ Hm))). cbn [orb].
  rewrite format0_plain.
  2:{ intros Hin. apply Hf. rewrite <- (take_drop (BUFSIZ - 1) l.2). apply elem_of_app. by left. }
  step. cbv iota. cbn [lc_in lc_out]. rewrite IH by lia. cbn [fmap list_fmap]. rewrite le_val_bytes_id by (simpl; lia).
  rewrite <- app_assoc. done.
Qed.

Lemma wire_lines_length ls : (length ls <= length (concat (wire_line sz <$> ls)))%nat.
Proof.
  induction ls as [|l ls IH]; [done|]. cbn [fmap list_fmap concat length]. rewrite length_app.
  unfold wire_line at 1. rewrite length_app, length_le_bytes. lia.
Qed.
End wire.

(** C36 Every log line reaches the daemon's log: with a descriptor set and a socket whose writes do not
    fail, however they are cut, the lines the loader logs in ASCII without a percent sign are
    printed by the daemon, in order, with level, tag and text, each text cut to its first 1023
    bytes, and the daemon's loop ends with the stream and not with an error.  Nothing goes to the
    loader's own log. *)
Theorem log_reaches_daemon (sz : nat) (ls : list log_line) (fd : Z) (q : list seg) (t : list wseg) (al : list log_line) :
  (2 <= sz)%nat → fd ≠ -1 → accepting t →
  Forall (λ l, printable l ∧ Z.of_nat (length l.1.2) < 256 ^ Z.of_nat sz) ls →
  ∃ t' o, for_each ls (λ l, log sz l.1.1 l.1.2 l.2) (mkLogger fd (mkSock q t []) al)
      = (Ret tt, mkLogger fd (mkSock q t' o) al) ∧
    handle_logcat sz (mkLogcat o []) = (Ret true, mkLogcat [] (received <$> ls)).
Proof.
  intros Hsz Hfd Ht Hls. destruct (log_all_run sz ls fd q t [] al Hfd Ht) as (t' & E).
  exists t', (concat (wire_line sz <$> ls)). split; [exact E|].
  unfold handle_logcat. step. cbn [lc_in]. rewrite logcat_loop_run; [done..|].
  pose proof (wire_lines_length sz ls). lia.
Qed.

Lemma log_reaches_daemon_witness :
  ∃ t' o, for_each [(4, txt "zygisk-core64", txt "forked"); (6, txt "zygisk-core64", txt "failed")]
      (λ l, log 8 l.1.1 l.1.2 l.2) (mkLogger 9 (mkSock [] [WAtMost 3; WIntr] []) [])
      = (Ret tt, mkLogger 9 (mkSock [] t' o) []) ∧
    handle_logcat 8 (mkLogcat o []) =
      (Ret true, mkLogcat [] [(4, txt "zygisk-core64", txt "forked"); (6, txt "zygisk-core64", txt "failed")]).
Proof.
  assert (A : ∀ b : bytes, forallb (λ c, (0 <? Z_of_byte c) && (Z_of_byte c <? 128)) b = true → ascii_text b).
  { intros b H. apply list.Forall_forall. intros c Hc. rewrite forallb_forall in H.
    apply list_elem_of_In in Hc. specialize (H c Hc). lia. }
  apply (log_reaches_daemon 8 [(4, txt "zygisk-core64", txt "forked"); (6, txt "zygisk-core64", txt "failed")]
    9 [] [WAtMost 3; WIntr] []); [lia | lia | by repeat constructor |].
  repeat (constructor; [split; [split; [cbn; lia|split; [by apply A|split; [by apply A|]]]|cbn; lia]|]);
    [by apply (bool_decide_unpack _) .. | constructor].
Defined.

(** A text cut inside a character is no UTF-8: the daemon leaves the loop with an error, and the
    lines after it are lost. *)
Example cut_character_ends_logcat :
  let long := replicate 1022 "a"%char ++ ["195"%char; "169"%char] in
  let o := wire_line 8 (4, txt "t", long) ++ wire_line 8 (4, txt "t", txt "next") in
  (from_utf8 long, handle_logcat 8 (mkLogcat o [])) = (true, (Ret false, mkLogcat (wire_line 8 (4, txt "t", txt "next")) [])).
Proof. by vm_compute. Qed.

(** A text with a percent sign is taken for a format. *)
Example percent_is_a_format :
  (handle_logcat 8 (mkLogcat (wire_line 8 (4, txt "t", txt "/data/100%s")) [])).1 = Crash Uninit.
Proof. by vm_compute. Qed.
