(* ===== verification/Zygiskd.v ===== *)
(** * Zygiskd: what the daemon answers

    The wire format of the replies of [zygiskd/src/zygiskd.rs] to the requests the loader
    sends, the flag word of [constants.rs], and the choice of the root implementation.  The probes
    of [zygiskd/src/root_impl/] ask external programs: their answers are parameters. *)

From Stdlib Require Import ZArith Lia Ascii.
From stdpp Require Import base tactics strings list numbers.
From S2P Require Import Prelude SocketUtils.

Local Open Scope mach_scope.

(** ** Constants *)

Inductive DaemonSocketAction : Set :=
| PingHeartbeat | RequestLogcatFd | GetProcessFlags | GetInfo | ReadModules
| RequestCompanionSocket | GetModuleDir | ZygoteRestart | SystemServerStarted.

#[export] Instance DaemonSocketAction_eq_dec : EqDecision DaemonSocketAction.
Proof. solve_decision. Defined.

(** [DaemonSocketAction::try_from(u8)]: the discriminants count up from zero. *)
Definition try_from (v : Z) : option DaemonSocketAction :=
  if v <? 0 then None else
  [PingHeartbeat; RequestLogcatFd; GetProcessFlags; GetInfo; ReadModules;
   RequestCompanionSocket; GetModuleDir; ZygoteRestart; SystemServerStarted]
    !! Z.to_nat v.

Definition PROCESS_GRANTED_ROOT : Z := 1 <<< 0.
Definition PROCESS_ON_DENYLIST : Z := 1 <<< 1.
Definition PROCESS_IS_MANAGER : Z := 1 <<< 28.
Definition PROCESS_ROOT_IS_APATCH : Z := 1 <<< 27.
Definition PROCESS_ROOT_IS_KSU : Z := 1 <<< 29.
Definition PROCESS_ROOT_IS_MAGISK : Z := 1 <<< 30.
Definition PROCESS_IS_SYSUI : Z := 1 <<< 31.

Inductive RootImpl : Set :=
| NoImpl | TooOld | Abnormal | Multiple | KernelSU | Magisk | APatch.

#[export] Instance RootImpl_eq_dec : EqDecision RootImpl.
Proof. solve_decision. Defined.

(** What the probes for the implementations say of the installed version; Magisk's knows no
    third answer. *)
Inductive Version : Set := Supported | VersionTooOld | VersionAbnormal.
Inductive MagiskVersion : Set := MagiskSupported | MagiskTooOld.

Definition setup (apatch ksu : option Version) (magisk : option MagiskVersion) : RootImpl :=
  match apatch, ksu, magisk with
  | None, None, None => NoImpl
  | Some _, Some _, Some _ => Multiple
  | Some v, None, None => match v with Supported => APatch | VersionTooOld => TooOld | VersionAbnormal => Abnormal end
  | None, Some v, None => match v with Supported => KernelSU | VersionTooOld => TooOld | VersionAbnormal => Abnormal end
  | None, None, Some v => match v with MagiskSupported => Magisk | MagiskTooOld => TooOld end
  | _, _, _ => NoImpl
  end.

Record module : Type := mkModule { m_name : bytes; m_lib_fd : Z }.

Section zygiskd.
Context (sizeof_usize : nat).
Context (get_impl : RootImpl)
        (uid_is_manager uid_granted_root uid_should_umount : Z → bool).
Context (getpid : Z) (modules : list module).

(** The bit of the root implementation; any other value panics. *)
Definition root_flag : option Z :=
  match get_impl with
  | KernelSU => Some PROCESS_ROOT_IS_KSU
  | Magisk => Some PROCESS_ROOT_IS_MAGISK
  | APatch => Some PROCESS_ROOT_IS_APATCH
  | _ => None
  end.

Definition process_flags (uid : Z) : option Z :=
  let flags :=
    if uid_is_manager uid then PROCESS_IS_MANAGER
    else (if uid_granted_root uid then PROCESS_GRANTED_ROOT else 0)
         ||| (if uid_should_umount uid then PROCESS_ON_DENYLIST else 0) in
  (λ f, flags ||| f) <$> root_flag.

(** ** Replies, as the stream written to the client *)

Definition reply_get_process_flags (uid : Z) : option (list elem) :=
  wire_int 4 <$> process_flags (i32 uid).

Definition reply_get_info : option (list elem) :=
  (λ f, wire_int 4 f ++ wire_int 4 (u32 getpid)
        ++ wire_int sizeof_usize (Z.of_nat (length modules))
        ++ mjoin ((λ m, wire_string sizeof_usize (m_name m)) <$> modules)) <$> root_flag.

Definition reply_read_modules : list elem :=
  wire_int sizeof_usize (Z.of_nat (length modules))
  ++ mjoin ((λ m, wire_string sizeof_usize (m_name m) ++ [SF (m_lib_fd m)]) <$> modules).
End zygiskd.

(** An implementation is chosen exactly when it is supported and the only one. *)
Lemma setup_spec a k m :
  (setup a k m = APatch ↔ a = Some Supported ∧ k = None ∧ m = None) ∧
  (setup a k m = KernelSU ↔ k = Some Supported ∧ a = None ∧ m = None) ∧
  (setup a k m = Magisk ↔ m = Some MagiskSupported ∧ a = None ∧ k = None) ∧
  (root_flag (setup a k m) = None ↔ setup a k m ≠ APatch ∧ setup a k m ≠ KernelSU ∧ setup a k m ≠ Magisk).
Proof. destruct a as [[]|], k as [[]|], m as [[]|]; vm_compute; naive_solver. Qed.

(** Two of them are reported as none. *)
Example two_implementations : setup None (Some Supported) (Some MagiskSupported) = NoImpl.
Proof. done. Qed.

(** ** Flag words *)

Lemma flag_bits i : 0 <= i →
  Z.testbit PROCESS_GRANTED_ROOT i = (i =? 0) ∧
  Z.testbit PROCESS_ON_DENYLIST i = (i =? 1) ∧
  Z.testbit PROCESS_ROOT_IS_APATCH i = (i =? 27) ∧
  Z.testbit PROCESS_IS_MANAGER i = (i =? 28) ∧
  Z.testbit PROCESS_ROOT_IS_KSU i = (i =? 29) ∧
  Z.testbit PROCESS_ROOT_IS_MAGISK i = (i =? 30).
Proof.
  intros Hi. repeat split; unfold PROCESS_GRANTED_ROOT, PROCESS_ON_DENYLIST,
    PROCESS_ROOT_IS_APATCH, PROCESS_IS_MANAGER, PROCESS_ROOT_IS_KSU, PROCESS_ROOT_IS_MAGISK;
    rewrite Z.shiftl_1_l, Z.pow2_bits_eqb by lia; apply Z.eqb_sym.
Qed.

(** A flag word fits in the 32 bits it is sent in. *)
Lemma process_flags_range gi im gr su uid f :
  process_flags gi im gr su uid = Some f → 0 <= f < 2 ^ 31.
Proof.
  unfold process_flags, root_flag.
  destruct gi, (im uid), (gr uid), (su uid); intros [= <-]; vm_compute; split; congruence.
Qed.

(** The daemon's flag word: exactly one root implementation bit is set, and the manager
    is never reported as granted root or as on the denylist. *)
Theorem process_flags_spec gi im gr su uid f :
  process_flags gi im gr su uid = Some f →
  (Z.testbit f 28 = im uid) ∧
  (Z.testbit f 0 = negb (im uid) && gr uid) ∧
  (Z.testbit f 1 = negb (im uid) && su uid) ∧
  (Z.testbit f 29 = bool_decide (gi = KernelSU)) ∧
  (Z.testbit f 30 = bool_decide (gi = Magisk)) ∧
  (Z.testbit f 27 = bool_decide (gi = APatch)) ∧
  (gi = KernelSU ∨ gi = Magisk ∨ gi = APatch).
Proof.
  unfold process_flags, root_flag.
  destruct gi, (im uid), (gr uid), (su uid); intros [= <-];
    vm_compute; split_and!; try done; tauto.
Qed.

Lemma process_flags_spec_witness :
  ∃ f, process_flags Magisk (λ _, false) (λ _, true) (λ _, false) 10123 = Some f ∧
       Z.testbit f 0 = true ∧ Z.testbit f 30 = true.
Proof.
  eexists. split; [reflexivity|].
  destruct (process_flags_spec Magisk (λ _, false) (λ _, true) (λ _, false) 10123 _ eq_refl)
    as (_ & H0 & _ & _ & H30 & _).
  split; [exact H0 | exact H30].
Defined.
