(* ===== verification/RootImpl.v ===== *)
(** * RootImpl: what the daemon knows of the root solutions

    [zygiskd/src/root_impl/]: which of KernelSU, Magisk and APatch is installed and supported, and
    what each says of a uid.  They are asked through the kernel ([prctl]), through programs that
    print their answer, and through files; what comes back is [os], and the text is taken apart
    here as the source does it. *)

From Stdlib Require Import ZArith Lia Ascii.
From stdpp Require Import base tactics strings list gmap numbers.
From S2P Require Import Prelude Misc Logging.
From S2P Require Zygiskd.

(** ** Rust strings

    A [String] is valid UTF-8; its characters are the byte sequences of their encoding. *)

Definition char_len (c : byte) : nat :=
  let v := Z_of_byte c in
  if v <? 128 then 1 else if v <? 0xe0 then 2 else if v <? 0xf0 then 3 else 4.

Fixpoint chars_loop (fuel : nat) (b : bytes) : list bytes :=
  match fuel, b with
  | S fuel, c :: _ => take (char_len c) b :: chars_loop fuel (drop (char_len c) b)
  | _, _ => []
  end.

Definition chars (b : bytes) : list bytes := chars_loop (length b) b.

(** [char::is_whitespace]. *)
Definition is_whitespace (ch : bytes) : bool :=
  match Z_of_byte <$> ch with
  | [v] => ((9 <=? v) && (v <=? 13)) || (v =? 32)
  | [u; v] => (u =? 0xc2) && ((v =? 0x85) || (v =? 0xa0))
  | [u; v; x] =>
      ((u =? 0xe1) && (v =? 0x9a) && (x =? 0x80)) ||
      ((u =? 0xe2) && (v =? 0x80) && (((0x80 <=? x) && (x <=? 0x8a)) || (x =? 0xa8) || (x =? 0xa9) || (x =? 0xaf))) ||
      ((u =? 0xe2) && (v =? 0x81) && (x =? 0x9f)) ||
      ((u =? 0xe3) && (v =? 0x80) && (x =? 0x80))
  | _ => false
  end.

Fixpoint drop_ws (l : list bytes) : list bytes :=
  match l with
  | ch :: l' => if is_whitespace ch then drop_ws l' else l
  | [] => []
  end.

Definition trim_chars (l : list bytes) : list bytes := reverse (drop_ws (reverse (drop_ws l))).
Definition trim (s : bytes) : bytes := mjoin (trim_chars (chars s)).

(** [split_whitespace().last()]: the word at the end of a text. *)
Fixpoint take_word (l : list bytes) : list bytes :=
  match l with
  | ch :: l => if is_whitespace ch then [] else ch :: take_word l
  | [] => []
  end.

Definition last_word (s : bytes) : option bytes :=
  match take_word (drop_ws (reverse (chars s))) with
  | [] => None
  | l => Some (mjoin (reverse l))
  end.

Definition NL : byte := "010"%char.
Definition CR : byte := "013"%char.

(** [lines]: the text between newlines without a carriage return before one; nothing after the last. *)
Definition strip_cr (s : bytes) : bytes := if ends_with [CR] s then take (length s - 1) s else s.

Fixpoint lines_loop (cur s : bytes) : list bytes :=
  match s with
  | [] => match cur with [] => [] | _ => [reverse cur] end
  | c :: s => if bool_decide (c = NL) then strip_cr (reverse cur) :: lines_loop [] s else lines_loop (c :: cur) s
  end.

Definition lines (s : bytes) : list bytes := lines_loop [] s.

Definition strip_prefix (p s : bytes) : option bytes := if starts_with p s then Some (drop (length p) s) else None.

(** [parse::<i32>]: a sign, digits, and no overflow. *)
Definition parse_digits (neg : bool) (ds : bytes) : option Z :=
  if bool_decide (ds = []) || negb (forallb is_digit ds) then None
  else
    let v := if neg then - dec_val ds 0 else dec_val ds 0 in
    if (- 2 ^ 31 <=? v) && (v <? 2 ^ 31) then Some v else None.

Definition parse_i32 (s : bytes) : option Z :=
  match s with
  | c :: s' =>
      if bool_decide (c = "-"%char) then parse_digits true s'
      else if bool_decide (c = "+"%char) then parse_digits false s'
      else parse_digits false s
  | [] => None
  end.

(** [String::from_utf8]. *)
Definition to_string (b : bytes) : option bytes := if from_utf8 b then Some b else None.

(** ** What the probes ask *)

(** A row of APatch's list. *)
Record PackageConfig : Type := mkPackage {
  pkg : bytes; exclude : Z; allow : Z; pc_uid : Z; to_uid : Z; sctx : bytes
}.

(** KernelSU's [prctl]s store an answer or leave the variable alone; a path has an owner; a command
    line that can be run has an output; a file that can be read has contents; and the rows of
    APatch's list, each of which may be malformed. *)
Record os : Type := mkOs {
  ksu_version : option Z;
  ksu_granted : Z → option bool;
  ksu_umount : Z → option bool;
  stat_uid : bytes → option Z;
  run_stdout : list bytes → option bytes;
  read_file : bytes → option bytes;
  package_rows : option (list (option PackageConfig))
}.

Definition MIN_APATCH_VERSION : Z := 10655.
Definition MIN_KSU_VERSION : Z := 10940.
Definition MAX_KSU_VERSION : Z := 20000.
Definition MIN_MAGISK_VERSION : Z := 26402.

(** [uid as u32] *)
Definition owned_by (o : os) (path : bytes) (uid : Z) : option bool := (λ u, u =? u32 uid) <$> stat_uid o path.

Module KernelSU.

Definition get_kernel_su (o : os) : option Zygiskd.Version :=
  let version := default 0 (ksu_version o) in
  if version =? 0 then None
  else if (MIN_KSU_VERSION <=? version) && (version <=? MAX_KSU_VERSION) then Some Zygiskd.Supported
  else if (1 <=? version) && (version <=? MIN_KSU_VERSION - 1) then Some Zygiskd.VersionTooOld
  else Some Zygiskd.VersionAbnormal.

Definition uid_granted_root (o : os) (uid : Z) : bool := default false (ksu_granted o uid).
Definition uid_should_umount (o : os) (uid : Z) : bool := default false (ksu_umount o uid).

Definition uid_is_manager (o : os) (uid : Z) : bool :=
  match owned_by o (txt "/data/user_de/0/me.weishu.kernelsu") uid with Some b => b | None => false end.
End KernelSU.

Module Magisk.

Definition MAGISK_OFFICIAL : bytes := txt "com.topjohnwu.magisk".
Definition MAGISK_THIRD_PARTIES : list (bytes * bytes) :=
  [(txt "alpha", txt "io.github.vvb2060.magisk"); (txt "kitsune", txt "io.github.huskydg.magisk")].

(** The output of [magisk] as a string. *)
Definition output (o : os) (cmd : list bytes) : option bytes := b ← run_stdout o cmd; to_string b.

Definition variant_of (version : bytes) : bytes :=
  default MAGISK_OFFICIAL (snd <$> List.find (λ v, contains v.1 version) MAGISK_THIRD_PARTIES).

(** The state is [VARIANT]. *)
Definition get_magisk (o : os) : prog (option bytes) (option Zygiskd.MagiskVersion) :=
  v ← get;
  match v with
  | Some _ => mret tt
  | None =>
      match output o [txt "magisk"; txt "-v"] with
      | Some version => put (Some (variant_of version))
      | None => mret tt
      end
  end;;
  mret (out ← output o [txt "magisk"; txt "-V"];
        version ← parse_i32 (trim out);
        Some (if MIN_MAGISK_VERSION <=? version then Zygiskd.MagiskSupported else Zygiskd.MagiskTooOld)).

(** A query that prints something. *)
Definition answers_query (o : os) (query : bytes) : bool :=
  match output o [txt "magisk"; txt "--sqlite"; query] with
  | Some out => negb (bool_decide (out = []))
  | None => false
  end.

Definition print_uid (uid : Z) : bytes := if uid <? 0 then txt "-" ++ print_dec (- uid) else print_dec uid.

Definition uid_granted_root (o : os) (uid : Z) : bool :=
  answers_query o (txt "select 1 from policies where uid=" ++ print_uid uid ++ txt " and policy=2 limit 1").

Definition QUOTE : byte := "034"%char.

(** [split(' ').next()] *)
Fixpoint before_space (s : bytes) : bytes :=
  match s with
  | [] => []
  | c :: s => if bool_decide (c = " "%char) then [] else c :: before_space s
  end.

Definition package_of (o : os) (uid : Z) : option bytes :=
  line ← output o [txt "pm"; txt "list"; txt "packages"; txt "--uid"; print_uid uid];
  before_space <$> strip_prefix (txt "package:") line.

Definition uid_should_umount (o : os) (uid : Z) : bool :=
  match package_of o uid with
  | None => false
  | Some p => answers_query o (txt "select 1 from denylist where package_name=" ++ [QUOTE] ++ p ++ [QUOTE] ++ txt " limit 1")
  end.

(** [*VARIANT] panics ([None]) when it was never set. *)
Definition uid_is_manager (o : os) (variant : option bytes) (uid : Z) : option bool :=
  let manager :=
    out ← output o [txt "magisk"; txt "--sqlite"; txt "select value from strings where key=" ++ [QUOTE] ++ txt "requester" ++ [QUOTE] ++ txt " limit 1"];
    strip_prefix (txt "value=") (trim out) in
  match manager with
  | Some m => Some (default false (owned_by o (txt "/data/user_de/0/" ++ m) uid))
  | None => v ← variant; Some (default false (owned_by o (txt "/data/user_de/0/" ++ v) uid))
  end.
End Magisk.

Module APatch.

(** The last word of the first line that ends in a number. *)
Fixpoint parse_lines (ls : list bytes) : option Z :=
  match ls with
  | [] => None
  | l :: ls =>
      match (w ← last_word (trim l); parse_i32 w) with
      | Some v => Some v
      | None => parse_lines ls
      end
  end.

Definition parse_version (output : bytes) : Z := default 0 (parse_lines (lines output)).

(** [read_line]: up to and with the first newline. *)
Fixpoint first_line (s : bytes) : bytes :=
  match s with
  | [] => []
  | c :: s => c :: if bool_decide (c = NL) then [] else first_line s
  end.

Definition read_su_path (o : os) : option bytes :=
  f ← read_file o (txt "/data/adb/ap/su_path");
  l ← to_string (first_line f);
  Some (trim l).

Definition get_apatch (o : os) : option Zygiskd.Version :=
  su_path ← read_su_path o;
  out ← run_stdout o [su_path; txt "-v"];
  stdout ← to_string out;
  if negb (contains (txt "APatch") stdout) then None
  else
    out1 ← run_stdout o [txt "/data/adb/apd"; txt "-V"];
    stdout1 ← to_string out1;
    if bool_decide (su_path = txt "/system/bin/su") then
      let version := parse_version stdout1 in
      if version =? 0 then Some Zygiskd.VersionAbnormal
      else if (MIN_APATCH_VERSION <=? version) && (version <=? 999999) then Some Zygiskd.Supported
      else if (1 <=? version) && (version <=? MIN_APATCH_VERSION - 1) then Some Zygiskd.VersionTooOld
      else None
    else None.

(** Malformed rows are skipped. *)
Definition read_package_config (o : os) : option (list PackageConfig) := (λ rows : list (option PackageConfig), omap (λ r, r) rows) <$> package_rows o.

Definition find_uid (uid : Z) (cs : list PackageConfig) : option PackageConfig := List.find (λ c, pc_uid c =? uid) cs.

Definition uid_granted_root (o : os) (uid : Z) : bool :=
  match read_package_config o with
  | Some cs => default false ((λ c, allow c =? 1) <$> find_uid uid cs)
  | None => false
  end.

Definition uid_should_umount (o : os) (uid : Z) : bool :=
  match read_package_config o with
  | Some cs => default false ((λ c, exclude c =? 1) <$> find_uid uid cs)
  | None => false
  end.

Definition uid_is_manager (o : os) (uid : Z) : bool :=
  match owned_by o (txt "/data/user_de/0/me.bmax.apatch") uid with Some b => b | None => false end.
End APatch.

(** ** The selected implementation *)

Record selected : Type := mkSelected { ROOT_IMPL : Zygiskd.RootImpl; VARIANT : option bytes }.

(** [setup]: the three probes, in this order. *)
Definition setup_with (o : os) : prog selected unit :=
  s ← get;
  let apatch := APatch.get_apatch o in
  let ksu := KernelSU.get_kernel_su o in
  let '(m, v) := Magisk.get_magisk o (VARIANT s) in
  match m with
  | Ret m => put (mkSelected (Zygiskd.setup apatch ksu m) v)
  | Exit c => exit c
  | Crash w => crash w
  | OutOfFuel => no_fuel
  end.

(** The functions of [mod.rs]; [None] where one panics. *)
Module root_impl.

Definition uid_granted_root (o : os) (s : selected) (uid : Z) : option bool :=
  match ROOT_IMPL s with
  | Zygiskd.KernelSU => Some (KernelSU.uid_granted_root o uid)
  | Zygiskd.Magisk => Some (Magisk.uid_granted_root o uid)
  | Zygiskd.APatch => Some (APatch.uid_granted_root o uid)
  | _ => None
  end.

Definition uid_should_umount (o : os) (s : selected) (uid : Z) : option bool :=
  match ROOT_IMPL s with
  | Zygiskd.KernelSU => Some (KernelSU.uid_should_umount o uid)
  | Zygiskd.Magisk => Some (Magisk.uid_should_umount o uid)
  | Zygiskd.APatch => Some (APatch.uid_should_umount o uid)
  | _ => None
  end.

Definition uid_is_manager (o : os) (s : selected) (uid : Z) : option bool :=
  match ROOT_IMPL s with
  | Zygiskd.KernelSU => Some (KernelSU.uid_is_manager o uid)
  | Zygiskd.Magisk => Magisk.uid_is_manager o (VARIANT s) uid
  | Zygiskd.APatch => Some (APatch.uid_is_manager o uid)
  | _ => None
  end.
End root_impl.

(** ** Text *)

(** Texts of ASCII characters are their own characters. *)
Definition ascii (s : bytes) : Prop := Forall (λ c, Z_of_byte c < 128) s.

Lemma char_len_ascii c : Z_of_byte c < 128 → char_len c = 1%nat.
Proof. intros H. unfold char_len. by rewrite (proj2 (Z.ltb_lt _ _) H). Qed.

Lemma chars_ascii s : ascii s → chars s = (λ c, [c]) <$> s.
Proof.
  unfold chars. intros Hs. induction Hs as [|c s Hc _ IH]; [done|]. cbn [length chars_loop].
  rewrite char_len_ascii by done. cbn [take drop fmap list_fmap]. by rewrite drop_0, take_0, IH.
Qed.

Lemma join_chars (s : bytes) : mjoin ((λ c : byte, [c]) <$> s) = s.
Proof. induction s as [|c s IH]; [done|]. cbn [fmap list_fmap mjoin list_join app]. by f_equal. Qed.

(** What is neither white space nor cut off. *)
Definition solid (c : byte) : Prop := 32 < Z_of_byte c < 128.

Lemma solid_char c : solid c → is_whitespace [c] = false.
Proof. intros [H1 H2]. cbn. repeat case_match; bool_to_prop; try done; try lia. Qed.

Lemma digit_solid c : is_digit c = true → solid c.
Proof. unfold is_digit, solid. intros H. bool_to_prop. lia. Qed.

Lemma digits_solid ds : Forall (λ c, is_digit c = true) ds → Forall solid ds.
Proof. intros H. by eapply Forall_impl; [apply digit_solid | exact H]. Qed.

Lemma solid_ascii s : Forall solid s → ascii s.
Proof. intros H. eapply Forall_impl; [|exact H]. unfold solid. cbn. lia. Qed.

Definition white (c : byte) : Prop := is_whitespace [c] = true ∧ Z_of_byte c < 128.

Lemma drop_ws_white t c l :
  Forall white t → solid c → drop_ws ((λ c : byte, [c]) <$> t ++ c :: l) = (λ c : byte, [c]) <$> c :: l.
Proof.
  intros Ht Hc. induction Ht as [|x t [Hx _] _ IH]; cbn [fmap list_fmap app drop_ws]; [by rewrite solid_char|]. by rewrite Hx.
Qed.

Lemma take_word_solid s r ws :
  Forall solid s → is_whitespace ws = true → take_word (((λ c, [c]) <$> s) ++ ws :: r) = (λ c, [c]) <$> s.
Proof.
  intros Hs Hw. induction Hs as [|c s Hc _ IH]; cbn [fmap list_fmap app take_word]; [by rewrite Hw|].
  rewrite solid_char by done. by rewrite IH.
Qed.

Lemma chars_singletons_reverse (s : bytes) : reverse ((λ c : byte, [c]) <$> s) = (λ c, [c]) <$> reverse s.
Proof. symmetry. apply fmap_reverse. Qed.

(** White space at the end of a line is dropped. *)
Lemma trim_solid_end s c d s' t :
  ascii (s ++ [c]) → solid c → s ++ [c] = d :: s' → solid d → Forall white t → trim (s ++ [c] ++ t) = s ++ [c].
Proof.
  intros Hs Hc E Hd Ht. unfold trim, trim_chars. rewrite app_assoc.
  assert (ascii t) as Hat by (eapply Forall_impl; [|exact Ht]; by intros x []).
  rewrite chars_ascii by (by apply Forall_app). rewrite E at 1. rewrite <- app_comm_cons.
  pose proof (drop_ws_white [] d (s' ++ t) (Forall_nil_2 _) Hd) as E1. cbn [app] in E1. rewrite E1. rewrite app_comm_cons, <- E, chars_singletons_reverse.
  rewrite !reverse_app. cbn [reverse rev_append app]. rewrite (drop_ws_white (reverse t) c (reverse s)) by (done || by apply Forall_reverse).
  by rewrite chars_singletons_reverse, join_chars, reverse_cons, reverse_involutive.
Qed.

(** ** Numbers *)

Lemma parse_i32_digits ds :
  Forall (λ c, is_digit c = true) ds → ds ≠ [] → dec_val ds 0 < 2 ^ 31 → parse_i32 ds = Some (dec_val ds 0).
Proof.
  intros Hd Hne Hv. pose proof (dec_val_mono ds 0 Hd ltac:(lia)) as Hm. destruct ds as [|c ds]; [done|]. unfold parse_i32.
  assert (solid c) as Hc by (apply digit_solid; by inv Hd).
  rewrite !bool_decide_eq_false_2 by (intros ->; inv Hd; done). unfold parse_digits.
  rewrite bool_decide_eq_false_2 by done. rewrite (proj2 (forallb_forall _ _)); [|by apply List.Forall_forall].
  cbn [negb orb]. rewrite (proj2 (Z.leb_le _ _)), (proj2 (Z.ltb_lt _ _)) by lia. done.
Qed.

Lemma parse_i32_print v : 0 <= v < 2 ^ 31 → parse_i32 (print_dec v) = Some v.
Proof.
  intros Hv. destruct (dec_digits_spec 20 v) as [Hd He]; [lia | lia |].
  unfold print_dec. rewrite <- He at 2. apply parse_i32_digits; [done | | by rewrite He; lia].
  intros E. cbn [dec_digits] in E. by apply app_nil in E as [_ ?].
Qed.

(** The digits of a number: their first and last. *)
Lemma print_dec_shape v : 0 <= v < 2 ^ 31 → Forall solid (print_dec v) ∧ ∃ s c, print_dec v = s ++ [c].
Proof.
  intros Hv. destruct (dec_digits_spec 20 v) as [Hd _]; [lia | lia |]. split; [by apply digits_solid|].
  unfold print_dec. cbn [dec_digits]. by eexists _, _.
Qed.

(** ** Reading versions *)

Lemma lines_loop_line cur l r :
  NL ∉ l → lines_loop cur (l ++ NL :: r) = strip_cr (reverse cur ++ l) :: lines_loop [] r.
Proof.
  revert cur. induction l as [|c l IH]; intros cur Hl; cbn [app lines_loop].
  - by rewrite bool_decide_eq_true_2, app_nil_r by done.
  - rewrite bool_decide_eq_false_2 by set_solver. rewrite IH by set_solver. by rewrite reverse_cons, <- app_assoc.
Qed.

Lemma strip_cr_solid s c : solid c → strip_cr (s ++ [c]) = s ++ [c].
Proof.
  intros [Hc _]. unfold strip_cr, ends_with. rewrite reverse_app. cbn.
  rewrite bool_decide_eq_false_2; [done|]. intros <-. done.
Qed.

(** The last word of a line, after a blank. *)
Lemma last_word_solid s w :
  ascii s → Forall solid w → w ≠ [] → last_word (s ++ " "%char :: w) = Some w.
Proof.
  intros Hs Hw Hne. unfold last_word. rewrite chars_ascii.
  2:{ apply Forall_app. split; [done|]. constructor; [by vm_compute | by apply solid_ascii]. }
  rewrite chars_singletons_reverse, reverse_app, reverse_cons, <- app_assoc.
  destruct (reverse w) as [|x r] eqn:E; [by apply (f_equal reverse) in E; rewrite reverse_involutive in E|].
  assert (Forall solid (x :: r)) as Hr by (rewrite <- E; by apply Forall_reverse).
  pose proof (drop_ws_white [] x (r ++ " "%char :: reverse s) (Forall_nil_2 _) ltac:(by inv Hr)) as D.
  assert (take_word (drop_ws ((λ c : byte, [c]) <$> (x :: r) ++ [" "%char] ++ reverse s)) = (λ c, [c]) <$> x :: r) as ->.
  { etransitivity; [apply f_equal, D|]. rewrite app_comm_cons, fmap_app. by apply (take_word_solid (x :: r)). }
  change (Some (mjoin (reverse ((λ c : byte, [c]) <$> x :: r))) = Some w).
  by rewrite chars_singletons_reverse, join_chars, <- E, reverse_involutive.
Qed.

(** A version line: a name and a number. *)
Definition version_line (name : bytes) (v : Z) : bytes := name ++ " "%char :: print_dec v.

Record program_name (name : bytes) : Prop := {
  pn_ascii : ascii name;
  pn_line : NL ∉ name;
  pn_head : ∃ c r, name = c :: r ∧ solid c
}.

Lemma version_line_read name v :
  program_name name → 0 <= v < 2 ^ 31 → APatch.parse_version (version_line name v ++ [NL]) = v.
Proof.
  intros [Ha Hl (d & r & -> & Hd)] Hv. destruct (print_dec_shape v Hv) as (Hs & s & c & E).
  assert (solid c) as Hc by (rewrite E in Hs; by apply Forall_app in Hs as [_ ?%Forall_inv]).
  unfold APatch.parse_version, lines, version_line. rewrite lines_loop_line.
  2:{ rewrite elem_of_app. intros [?|[?|Hn]%elem_of_cons]; [done.. |].
      rewrite list.Forall_forall in Hs. destruct (Hs _ Hn) as [H _]. by vm_compute in H. }
  assert (((d :: r) ++ " "%char :: print_dec v) = ((d :: r) ++ " "%char :: s) ++ [c]) as El by (rewrite E, <- app_assoc; done).
  rewrite El. change (reverse [] ++ ((d :: r) ++ " "%char :: s) ++ [c]) with (((d :: r) ++ " "%char :: s) ++ [c]).
  rewrite strip_cr_solid by done.
  assert (ascii (((d :: r) ++ " "%char :: s) ++ [c])) as Hasc.
  { rewrite <- El. apply Forall_app. split; [done|]. constructor; [by vm_compute | by apply solid_ascii]. }
  pose proof (trim_solid_end ((d :: r) ++ " "%char :: s) c d (r ++ " "%char :: print_dec v) [] Hasc Hc
    ltac:(by rewrite <- El) Hd (Forall_nil_2 _)) as Et. rewrite app_nil_r in Et.
  cbn [APatch.parse_lines]. rewrite Et, <- El, (last_word_solid _ (print_dec v)); [| done | done | rewrite E; by destruct s].
  cbn [mbind option_bind]. by rewrite parse_i32_print.
Qed.

Lemma magisk_version_read v : 0 <= v < 2 ^ 31 → parse_i32 (trim (print_dec v ++ [NL])) = Some v.
Proof.
  intros Hv. destruct (print_dec_shape v Hv) as (Hs & s & c & E).
  assert (∃ d s', s ++ [c] = d :: s') as (d & s' & Ed) by (destruct s; by eexists _, _).
  rewrite <- (parse_i32_print v Hv). f_equal. rewrite E in *. rewrite <- app_assoc. eapply trim_solid_end; try done.
  - by apply solid_ascii.
  - by apply Forall_app in Hs as [_ ?%Forall_inv].
  - rewrite Ed in Hs. by apply Forall_inv in Hs.
  - constructor; [by vm_compute | constructor].
Qed.

(** ** Classes of versions *)

Lemma get_kernel_su_spec o :
  let v := default 0 (ksu_version o) in
  (KernelSU.get_kernel_su o = None ↔ v = 0) ∧
  (KernelSU.get_kernel_su o = Some Zygiskd.Supported ↔ MIN_KSU_VERSION <= v <= MAX_KSU_VERSION) ∧
  (KernelSU.get_kernel_su o = Some Zygiskd.VersionTooOld ↔ 0 < v < MIN_KSU_VERSION) ∧
  (KernelSU.get_kernel_su o = Some Zygiskd.VersionAbnormal ↔ v < 0 ∨ MAX_KSU_VERSION < v).
Proof.
  cbv zeta. unfold KernelSU.get_kernel_su, MIN_KSU_VERSION, MAX_KSU_VERSION. generalize (default 0 (ksu_version o)). intros v.
  destruct (Z.eqb_spec v 0); [|destruct (Z.leb_spec 10940 v), (Z.leb_spec v 20000), (Z.leb_spec 1 v), (Z.leb_spec v (10940 - 1)); cbn];
    split_and!; (split; [intros; (done || lia) | intros; (done || lia || tauto || (exfalso; lia))]).
Qed.

(** What the class of an installed APatch depends on. *)
Lemma get_apatch_spec o name v out :
  program_name name → 0 <= v < 2 ^ 31 → from_utf8 name = true →
  read_file o (txt "/data/adb/ap/su_path") = Some (txt "/system/bin/su" ++ [NL]) →
  run_stdout o [txt "/system/bin/su"; txt "-v"] = Some out → from_utf8 out = true → contains (txt "APatch") out = true →
  run_stdout o [txt "/data/adb/apd"; txt "-V"] = Some (version_line name v ++ [NL]) →
  from_utf8 (version_line name v ++ [NL]) = true →
  APatch.get_apatch o =
    if v =? 0 then Some Zygiskd.VersionAbnormal
    else if v <? MIN_APATCH_VERSION then Some Zygiskd.VersionTooOld
    else if v <=? 999999 then Some Zygiskd.Supported else None.
Proof.
  intros Hn Hv Hu Hf Ho Hou Hc Hv1 Hvu. unfold APatch.get_apatch, APatch.read_su_path, to_string. rewrite Hf. cbn [mbind option_bind].
  change (from_utf8 (APatch.first_line (txt "/system/bin/su" ++ [NL]))) with true. cbn [mbind option_bind].
  change (trim (APatch.first_line (txt "/system/bin/su" ++ [NL]))) with (txt "/system/bin/su").
  rewrite Ho. cbn [mbind option_bind]. rewrite Hou. cbn [mbind option_bind]. rewrite Hc. cbn [negb]. rewrite Hv1. cbn [mbind option_bind].
  rewrite Hvu. cbn [mbind option_bind]. rewrite bool_decide_eq_true_2, (version_line_read name v) by done. unfold MIN_APATCH_VERSION.
  destruct (Z.eqb_spec v 0), (Z.ltb_spec v 10655), (Z.leb_spec v 999999), (Z.leb_spec 10655 v), (Z.leb_spec 1 v), (Z.leb_spec v (10655 - 1));
    cbn; (done || lia).
Qed.

(** ** The flag word *)

(** [GetProcessFlags] of the daemon, with the questions in its order; [None] where one panics. *)
Definition process_flags_rs (o : os) (s : selected) (uid : Z) : option Z :=
  m ← root_impl.uid_is_manager o s uid;
  flags ← (if (m : bool) then Some Zygiskd.PROCESS_IS_MANAGER
           else g ← root_impl.uid_granted_root o s uid;
                u ← root_impl.uid_should_umount o s uid;
                Some (Z.lor (if (g : bool) then Zygiskd.PROCESS_GRANTED_ROOT else 0)
                            (if (u : bool) then Zygiskd.PROCESS_ON_DENYLIST else 0)));
  f ← Zygiskd.root_flag (ROOT_IMPL s);
  Some (Z.lor flags f).

(** The answer to a question that does not panic. *)
Definition answer (q : Z → option bool) (uid : Z) : bool := default false (q uid).

(** The daemon's replies in [Zygiskd] are those of these answers. *)
Lemma process_flags_rs_spec o s uid f :
  process_flags_rs o s uid = Some f →
  Zygiskd.process_flags (ROOT_IMPL s) (answer (root_impl.uid_is_manager o s)) (answer (root_impl.uid_granted_root o s))
    (answer (root_impl.uid_should_umount o s)) uid = Some f.
Proof.
  unfold process_flags_rs, Zygiskd.process_flags, answer.
  destruct (root_impl.uid_is_manager o s uid) as [[]|]; [| |done]; cbn [mbind option_bind default].
  - by destruct (Zygiskd.root_flag (ROOT_IMPL s)).
  - destruct (root_impl.uid_granted_root o s uid) as [[]|], (root_impl.uid_should_umount o s uid) as [[]|]; cbn [mbind option_bind default]; try done;
      by destruct (Zygiskd.root_flag (ROOT_IMPL s)).
Qed.

(** The questions are answered whenever one implementation was selected, Magisk's also knowing what
    to take for its manager. *)
Lemma process_flags_rs_total o s uid :
  Zygiskd.root_flag (ROOT_IMPL s) ≠ None → (ROOT_IMPL s = Zygiskd.Magisk → VARIANT s ≠ None) →
  ∃ f, process_flags_rs o s uid = Some f.
Proof.
  intros Hr Hv. unfold process_flags_rs, root_impl.uid_is_manager, root_impl.uid_granted_root, root_impl.uid_should_umount. destruct s as [gi v]. cbn in *.
  destruct gi; try done.
  - destruct (KernelSU.uid_is_manager o uid); by eexists.
  - assert (∃ b, Magisk.uid_is_manager o v uid = Some b) as [b ->].
    { unfold Magisk.uid_is_manager. destruct (Magisk.output _ _ ≫= _); [by eexists|]. destruct v; [by eexists|]. by destruct Hv. }
    destruct b; by eexists.
  - destruct (APatch.uid_is_manager o uid); by eexists.
Qed.

(** ** Choosing *)

(** [setup] selects an implementation exactly when it is the only one installed and is supported;
    if that is Magisk, its variant is known whenever its program printed one. *)
Theorem setup_selects o s :
  ∃ s' m, setup_with o s = (Ret tt, s') ∧ (Magisk.get_magisk o (VARIANT s)).1 = Ret m ∧
    (ROOT_IMPL s' = Zygiskd.KernelSU ↔
       KernelSU.get_kernel_su o = Some Zygiskd.Supported ∧ APatch.get_apatch o = None ∧ m = None) ∧
    (ROOT_IMPL s' = Zygiskd.APatch ↔
       APatch.get_apatch o = Some Zygiskd.Supported ∧ KernelSU.get_kernel_su o = None ∧ m = None) ∧
    (ROOT_IMPL s' = Zygiskd.Magisk ↔
       m = Some Zygiskd.MagiskSupported ∧ APatch.get_apatch o = None ∧ KernelSU.get_kernel_su o = None) ∧
    (VARIANT s ≠ None ∨ Magisk.output o [txt "magisk"; txt "-v"] ≠ None → VARIANT s' ≠ None).
Proof.
  destruct s as [gi v]. unfold setup_with. step. cbn [VARIANT].
  assert (∃ m v', Magisk.get_magisk o v = (Ret m, v') ∧ (v ≠ None ∨ Magisk.output o [txt "magisk"; txt "-v"] ≠ None → v' ≠ None))
    as (m & v' & E & Hv).
  { unfold Magisk.get_magisk. step. destruct v as [x|]; [eexists _, _; split; [reflexivity | done]|].
    destruct (Magisk.output o [txt "magisk"; txt "-v"]); (eexists _, _; split; [reflexivity|]); [done | by intros [?|?]]. }
  rewrite E. eexists _, m. split; [reflexivity|]. split; [done|]. cbn [ROOT_IMPL VARIANT].
  destruct (Zygiskd.setup_spec (APatch.get_apatch o) (KernelSU.get_kernel_su o) m) as (H1 & H2 & H3 & _). by split_and!.
Qed.

(** ** APatch's list *)

(** The first well-formed row of a uid decides. *)
Lemma apatch_first_row o rows1 c rows2 uid :
  package_rows o = Some (rows1 ++ Some c :: rows2) → pc_uid c = uid →
  (∀ d, Some d ∈ rows1 → pc_uid d ≠ uid) →
  APatch.uid_should_umount o uid = (exclude c =? 1) ∧ APatch.uid_granted_root o uid = (allow c =? 1).
Proof.
  intros Hr Hc H1. unfold APatch.uid_should_umount, APatch.uid_granted_root, APatch.read_package_config. rewrite Hr. cbn [fmap option_fmap option_map].
  assert (APatch.find_uid uid (omap (λ r, r) (rows1 ++ Some c :: rows2)) = Some c) as E; [|by rewrite E].
  clear Hr. induction rows1 as [|[d|] rows1 IH]; cbn [app omap list_omap APatch.find_uid List.find].
  - by rewrite Hc, Z.eqb_refl.
  - rewrite (proj2 (Z.eqb_neq _ _)) by (apply H1; set_solver). apply IH. set_solver.
  - apply IH. set_solver.
Qed.
