(* ===== verification/Daemon.v ===== *)
(** * Daemon: the loader's client of zygiskd ([common/daemon.cpp])

    Every request opens its own connection.  The state holds what the kernel answers to
    [socket], [connect] and [malloc], the connection once it is open, and a log of the
    calls made; files are read through the parameter [fs]. *)

From Stdlib Require Import ZArith Lia Ascii.
From stdpp Require Import base tactics strings list numbers.
From S2P Require Import Prelude SocketUtils.

Local Open Scope mach_scope.

(** ** Data *)

Module SocketAction.
Inductive t : Set :=
| PingHeartBeat | RequestLogcatFd | GetProcessFlags | GetInfo | ReadModules
| RequestCompanionSocket | GetModuleDir | ZygoteRestart | SystemServerStarted.

(** The value of the enumerator, cast to [uint8_t]. *)
Definition code (a : t) : Z :=
  match a with
  | PingHeartBeat => 0 | RequestLogcatFd => 1 | GetProcessFlags => 2 | GetInfo => 3
  | ReadModules => 4 | RequestCompanionSocket => 5 | GetModuleDir => 6
  | ZygoteRestart => 7 | SystemServerStarted => 8
  end.
End SocketAction.

Inductive zygote_root_impl : Set :=
| ZYGOTE_ROOT_IMPL_NONE
| ZYGOTE_ROOT_IMPL_APATCH
| ZYGOTE_ROOT_IMPL_KERNELSU
| ZYGOTE_ROOT_IMPL_MAGISK.

(** [struct zygote_modules]; an entry the code never stores to is [None]. *)
Record zygote_modules : Type := mkModules {
  modules_count : Z;
  names : list (option bytes)
}.

(** [struct zygote_info]; a field the code never stores to is [None]. *)
Record zygote_info : Type := mkInfo {
  modules : option zygote_modules;
  root_impl : option zygote_root_impl;
  info_pid : option Z;
  running : bool
}.

Inductive devent : Type :=
| EvConnect (path : bytes) (ok : bool)
| EvSleep (seconds : Z)
| EvClose (fd : Z).

Record dworld : Type := mkDworld {
  d_tmp : bytes;              (* zygiskd::TMP_PATH *)
  d_socket : Z;               (* what [socket] returns *)
  d_connects : list bool;     (* whether successive [connect] calls succeed *)
  d_mallocs : list bool;      (* whether successive [malloc] calls succeed *)
  d_conn : sock;              (* the connection *)
  d_log : list devent
}.

Definition dlog (e : devent) : prog dworld unit := modify (λ w,
  mkDworld (d_tmp w) (d_socket w) (d_connects w) (d_mallocs w) (d_conn w) (d_log w ++ [e])).

Definition on_conn {A} (m : prog sock A) : prog dworld A := λ w,
  let '(r, c) := m (d_conn w) in
  (r, mkDworld (d_tmp w) (d_socket w) (d_connects w) (d_mallocs w) c (d_log w)).

(** Each call takes the next answer; without one the peer is not there. *)
Definition sys_connect (path : bytes) : prog dworld bool :=
  w ← get;
  let ok := bool_decide (0 <= d_socket w) && default false (head (d_connects w)) in
  put (mkDworld (d_tmp w) (d_socket w) (tail (d_connects w)) (d_mallocs w) (d_conn w)
         (d_log w ++ [EvConnect path ok]));;
  mret ok.

Definition sys_malloc : prog dworld bool :=
  w ← get;
  put (mkDworld (d_tmp w) (d_socket w) (d_connects w) (tail (d_mallocs w)) (d_conn w) (d_log w));;
  mret (default true (head (d_mallocs w))).

(** [~UniqueFd]. *)
Definition unique_fd_close (fd : Z) : prog dworld unit := when (0 <=? fd) (dlog (EvClose fd)).

Definition PATH_MAX : nat := 4096.
Definition UNIX_PATH_MAX : nat := 108.

(** [fgets(line, 1024, fp)]: up to and including the next newline. *)
Fixpoint fgets (room : nat) (f : bytes) : bytes * bytes :=
  match room, f with
  | S room, c :: f =>
      if bool_decide (c = "010"%char) then ([c], f)
      else let '(l, r) := fgets room f in (c :: l, r)
  | _, _ => ([], f)
  end.

(** The [while (fgets(...))] loop of [GetInfo]: the value stored for the first line that
    begins with [name=], without its last character. *)
Fixpoint prop_name (fuel : nat) (f : bytes) : option bytes :=
  match fuel, f with
  | S fuel, _ :: _ =>
      let '(l, r) := fgets 1023 f in
      let line := cstr l in
      if starts_with (txt "name=") line then
        let n := if (6 <=? length line)%nat then (length line - 6)%nat else length line in
        Some (take n (drop 5 line))
      else prop_name fuel r
  | _, _ => None
  end.

Section daemon.
Context (sizeof_size_t : nat) (junk : nat → bytes) (junk_cmsg : Z * Z * Z).
(** The contents of a file, if it can be opened. *)
Context (fs : bytes → option bytes).

Definition kCPSocketName : bytes :=
  txt "/" ++ (if (sizeof_size_t =? 8)%nat then txt "cp64" else txt "cp32") ++ txt ".sock".

(** ** Connecting *)

(** [while (retry--)]: [retry] is the value the condition tests. *)
Fixpoint connect_loop (retry : nat) (path : bytes) : prog dworld bool :=
  match retry with
  | O => mret false
  | S retry =>
      ok ← sys_connect path;
      if ok : bool then mret true
      else when (negb (retry =? 0)%nat) (dlog (EvSleep 1));; connect_loop retry path
  end.

Definition Connect (retry : nat) : prog dworld Z :=
  w ← get;
  let fd := d_socket w in
  let socket_path := d_tmp w ++ kCPSocketName in
  if (UNIX_PATH_MAX <=? length (cstr socket_path))%nat then crash OutOfBounds
  else
    ok ← connect_loop retry (cstr socket_path);
    if ok : bool then mret fd
    else dlog (EvClose fd);; mret (-1).

Definition send_action (a : SocketAction.t) : prog dworld bool :=
  on_conn (write_u8 (SocketAction.code a)).

(** ** Requests *)

Definition PingHeartbeat : prog dworld bool :=
  fd ← Connect 5;
  if fd =? -1 then mret false
  else send_action SocketAction.PingHeartBeat;; unique_fd_close fd;; mret true.

Definition RequestLogcatFd : prog dworld Z :=
  fd ← Connect 1;
  if fd =? -1 then mret (-1)
  else send_action SocketAction.RequestLogcatFd;; mret fd.

Definition GetProcessFlags (uid : Z) : prog dworld Z :=
  fd ← Connect 1;
  if fd =? -1 then mret 0
  else
    send_action SocketAction.GetProcessFlags;;
    on_conn (write_u32 uid);;
    flags ← on_conn read_u32;
    unique_fd_close fd;;
    mret flags.

Fixpoint read_module_list (len : nat) : prog sock (list (bytes * Z)) :=
  match len with
  | O => mret []
  | S len =>
      name ← read_string sizeof_size_t junk;
      module_fd ← recv_fd sizeof_size_t junk_cmsg;
      rest ← read_module_list len;
      mret ((name, module_fd) :: rest)
  end.

Definition ReadModules : prog dworld (list (bytes * Z)) :=
  fd ← Connect 1;
  if fd =? -1 then mret []
  else
    send_action SocketAction.ReadModules;;
    len ← on_conn (read_usize sizeof_size_t);
    ms ← on_conn (read_module_list (Z.to_nat len));
    unique_fd_close fd;;
    mret ms.

Definition ConnectCompanion (index : Z) : prog dworld Z :=
  fd ← Connect 1;
  if fd =? -1 then mret (-1)
  else
    send_action SocketAction.RequestCompanionSocket;;
    on_conn (write_usize sizeof_size_t index);;
    r ← on_conn read_u8;
    if r =? 1 then mret fd else dlog (EvClose fd);; mret (-1).

Definition GetModuleDir (index : Z) : prog dworld Z :=
  fd ← Connect 1;
  if fd =? -1 then mret (-1)
  else
    send_action SocketAction.GetModuleDir;;
    on_conn (write_usize sizeof_size_t index);;
    r ← on_conn (recv_fd sizeof_size_t junk_cmsg);
    unique_fd_close fd;;
    mret r.

Definition ZygoteRestart : prog dworld unit :=
  fd ← Connect 1;
  if fd =? -1 then mret tt
  else send_action SocketAction.ZygoteRestart;; unique_fd_close fd.

Definition SystemServerStarted : prog dworld unit :=
  fd ← Connect 1;
  if fd =? -1 then mret tt
  else send_action SocketAction.SystemServerStarted;; unique_fd_close fd.

(** ** The status report *)

Definition decode_root_impl (flags : Z) : zygote_root_impl :=
  if negb (flags &&& (1 <<< 27) =? 0) then ZYGOTE_ROOT_IMPL_APATCH
  else if negb (flags &&& (1 <<< 29) =? 0) then ZYGOTE_ROOT_IMPL_KERNELSU
  else if negb (flags &&& (1 <<< 30) =? 0) then ZYGOTE_ROOT_IMPL_MAGISK
  else ZYGOTE_ROOT_IMPL_NONE.

Definition module_prop_path (name : bytes) : bytes :=
  take (PATH_MAX - 1) (txt "/data/adb/modules/" ++ name ++ txt "/module.prop").

(** What [modules[i]] is set to for the module called [name]. *)
Definition module_display_name (name : bytes) : option bytes :=
  match fs (module_prop_path name) with
  | None => Some name
  | Some f => prop_name (length f) f
  end.

Fixpoint read_info_names (count : nat) : prog sock (list (option bytes)) :=
  match count with
  | O => mret []
  | S count =>
      name ← read_string sizeof_size_t junk;
      rest ← read_info_names count;
      mret (module_display_name name :: rest)
  end.

Definition GetInfo : prog dworld zygote_info :=
  fd ← Connect 1;
  if fd =? -1 then mret (mkInfo None None None false)
  else
    send_action SocketAction.GetInfo;;
    flags ← on_conn read_u32;
    let impl := decode_root_impl (i32 flags) in
    pid ← on_conn read_u32;
    ok ← sys_malloc;
    if negb ok then crash NullDeref
    else
      count ← on_conn (read_usize sizeof_size_t);
      if count =? 0 then
        dlog (EvClose fd);;
        mret (mkInfo (Some (mkModules 0 [])) (Some impl) (Some (i32 pid)) true)
      else
        ok ← sys_malloc;
        if negb ok then crash NullDeref
        else
          ns ← on_conn (read_info_names (Z.to_nat count));
          dlog (EvClose fd);;
          mret (mkInfo (Some (mkModules count ns)) (Some impl) (Some (i32 pid)) true).
End daemon.

(** ** Connecting *)

Definition set_conn (c : sock) (w : dworld) : dworld :=
  mkDworld (d_tmp w) (d_socket w) (d_connects w) (d_mallocs w) c (d_log w).

Definition after_connects (cs : list bool) (evs : list devent) (w : dworld) : dworld :=
  mkDworld (d_tmp w) (d_socket w) cs (d_mallocs w) (d_conn w) (d_log w ++ evs).

(** A failed attempt that is followed by another one. *)
Definition failed_attempt (path : bytes) : list devent := [EvConnect path false; EvSleep 1].

Lemma after_connects_twice cs cs' e1 e2 w :
  after_connects cs' e2 (after_connects cs e1 w) = after_connects cs' (e1 ++ e2) w.
Proof. unfold after_connects. cbn. by rewrite <- app_assoc. Qed.

Lemma connect_loop_S retry path w :
  connect_loop (S retry) path w =
    let ok := bool_decide (0 <= d_socket w) && default false (head (d_connects w)) in
    if ok then (Ret true, after_connects (tail (d_connects w)) [EvConnect path true] w)
    else connect_loop retry path
           (after_connects (tail (d_connects w))
              (EvConnect path false :: if (retry =? 0)%nat then [] else [EvSleep 1]) w).
Proof.
  cbn [connect_loop]. unfold sys_connect. run_prog.
  destruct (bool_decide _ && _); [done|].
  destruct (retry =? 0)%nat; [done|]. cbn. unfold dlog, modify. cbn.
  do 2 f_equal. unfold after_connects. by rewrite <- app_assoc.
Qed.

Lemma connect_loop_success k retry path rest w :
  (k < retry)%nat → 0 <= d_socket w → d_connects w = replicate k false ++ true :: rest →
  connect_loop retry path w =
    (Ret true, after_connects rest (mjoin (replicate k (failed_attempt path)) ++
                                    [EvConnect path true]) w).
Proof.
  revert k w. induction retry as [|retry IH]; intros k w Hk Hs Hc; [lia|].
  rewrite connect_loop_S, Hc, bool_decide_eq_true_2 by done. destruct k as [|k]; [done|]. cbn.
  destruct (Nat.eqb_spec retry 0); [lia|].
  rewrite (IH k) by (done || lia). by rewrite after_connects_twice.
Qed.

Lemma connect_loop_failure retry path w :
  (∀ k, (k < S retry)%nat → d_connects w !! k ≠ Some true) →
  connect_loop (S retry) path w =
    (Ret false, after_connects (drop (S retry) (d_connects w))
                  (mjoin (replicate retry (failed_attempt path)) ++ [EvConnect path false]) w).
Proof.
  revert w. induction retry as [|retry IH]; intros w Hc; rewrite connect_loop_S;
    assert (default false (head (d_connects w)) = false) as ->
      by (specialize (Hc 0%nat ltac:(lia)); destruct (d_connects w) as [|[] ?]; done);
    rewrite andb_false_r; cbn zeta iota.
  - cbn. by destruct (d_connects w).
  - rewrite IH.
    + rewrite after_connects_twice. cbn. by destruct (d_connects w).
    + intros k Hk. specialize (Hc (S k) ltac:(lia)). cbn. by destruct (d_connects w).
Qed.

(** The socket path fits in [sun_path]. *)
Definition path_fits (sz : nat) (w : dworld) : Prop :=
  (length (cstr (d_tmp w ++ kCPSocketName sz)) < UNIX_PATH_MAX)%nat.

Lemma Connect_fits sz retry w :
  path_fits sz w →
  Connect sz retry w =
    (ok ← connect_loop retry (cstr (d_tmp w ++ kCPSocketName sz));
     if ok : bool then mret (d_socket w) else dlog (EvClose (d_socket w));; mret (-1)) w.
Proof.
  intros Hp. unfold Connect, path_fits in *. rewrite <- Nat.leb_gt in Hp.
  unfold mbind at 1, prog_bind at 1. cbn [get]. by rewrite Hp.
Qed.

(** [Connect] makes at most [retry] attempts, one second apart.  It returns the socket
    after the first attempt that succeeds; when all fail it closes the socket, without
    sleeping after the last one, and returns -1. *)
Theorem Connect_spec sz retry w :
  path_fits sz w → 0 <= d_socket w →
  let p := cstr (d_tmp w ++ kCPSocketName sz) in
  (∀ k rest, (k < retry)%nat → d_connects w = replicate k false ++ true :: rest →
     Connect sz retry w =
       (Ret (d_socket w),
        after_connects rest (mjoin (replicate k (failed_attempt p)) ++ [EvConnect p true]) w)) ∧
  (∀ n, retry = S n → (∀ k, (k < retry)%nat → d_connects w !! k ≠ Some true) →
     Connect sz retry w =
       (Ret (-1),
        after_connects (drop retry (d_connects w))
          (mjoin (replicate n (failed_attempt p)) ++ [EvConnect p false; EvClose (d_socket w)]) w)) ∧
  (retry = O → Connect sz retry w =
       (Ret (-1), after_connects (d_connects w) [EvClose (d_socket w)] w)).
Proof.
  intros Hp Hs p. rewrite Connect_fits by done. fold p.
  unfold mbind, prog_bind. split_and!.
  - intros k rest Hk Hc. by erewrite connect_loop_success.
  - intros n -> Hc. rewrite connect_loop_failure by done.
    unfold dlog, modify, mret, prog_ret, after_connects. cbn -[mjoin].
    by rewrite <- !app_assoc.
  - by intros ->.
Qed.

Lemma Connect_spec_witness :
  let w := mkDworld (txt "/data/adb/rezygisk") 7 [false; true] [] (mkSock [] [] []) [] in
  let p := txt "/data/adb/rezygisk/cp64.sock" in
  Connect 8 5 w =
    (Ret 7, after_connects [] [EvConnect p false; EvSleep 1; EvConnect p true] w).
Proof.
  destruct (Connect_spec 8 5 (mkDworld (txt "/data/adb/rezygisk") 7 [false; true] []
    (mkSock [] [] []) [])) as (H & _ & _); [vm_compute; lia|cbn; lia|].
  exact (H 1%nat [] ltac:(lia) eq_refl).
Defined.

(** A request over a connection that is accepted at once. *)
Lemma Connect_one sz w rest :
  path_fits sz w → 0 <= d_socket w → d_connects w = true :: rest →
  Connect sz 1 w =
    (Ret (d_socket w),
     after_connects rest [EvConnect (cstr (d_tmp w ++ kCPSocketName sz)) true] w).
Proof.
  intros Hp Hs Hc. rewrite Connect_fits by done. unfold mbind, prog_bind.
  by rewrite (connect_loop_success 0 1 _ rest) by (done || lia).
Qed.

Lemma on_conn_reads {A} (m : prog sock A) enc a q t o es w :
  Reads m enc a → d_conn w = mkSock q t o → delivers q (enc ++ es) →
  ∃ q', on_conn m w = (Ret a, set_conn (mkSock q' t o) w) ∧ delivers q' es.
Proof.
  intros Hm Hw Hq. destruct (Hm q es t o Hq) as (q' & E & Hq').
  exists q'. split; [|done]. unfold on_conn. by rewrite Hw, E.
Qed.

Lemma on_conn_sends {A} (m : prog sock A) b a q t o w :
  Sends m b a → d_conn w = mkSock q t o → accepting t →
  ∃ t', on_conn m w = (Ret a, set_conn (mkSock q t' (o ++ b)) w) ∧ accepting t'.
Proof.
  intros Hm Hw Ht. destruct (Hm q t o Ht) as (t' & E & Ht').
  exists t'. split; [|done]. unfold on_conn. by rewrite Hw, E.
Qed.

Lemma sends_action a : Sends (write_u8 (SocketAction.code a)) (le_bytes 1 (SocketAction.code a)) true.
Proof. apply sends_exact. Qed.

(** A daemon that cannot be reached is not an error of the loader: flags are 0, the module
    list is empty, descriptors are -1, and the socket that was tried is closed. *)
Theorem daemon_absent sz junk jc fs uid idx w :
  path_fits sz w → 0 <= d_socket w → d_connects w = [] →
  let p := cstr (d_tmp w ++ kCPSocketName sz) in
  let w1 := after_connects [] [EvConnect p false; EvClose (d_socket w)] w in
  GetProcessFlags sz uid w = (Ret 0, w1) ∧
  ReadModules sz junk jc w = (Ret [], w1) ∧
  ConnectCompanion sz idx w = (Ret (-1), w1) ∧
  GetModuleDir sz jc idx w = (Ret (-1), w1) ∧
  RequestLogcatFd sz w = (Ret (-1), w1) ∧
  ZygoteRestart sz w = (Ret tt, w1) ∧
  SystemServerStarted sz w = (Ret tt, w1) ∧
  GetInfo sz junk fs w = (Ret (mkInfo None None None false), w1).
Proof.
  intros Hp Hs Hc p w1.
  assert (Connect sz 1 w = (Ret (-1), w1)) as E.
  { rewrite Connect_fits by done. unfold mbind, prog_bind.
    rewrite (connect_loop_failure 0) by (intros; by rewrite Hc).
    unfold w1, after_connects. rewrite Hc. cbn. by rewrite <- app_assoc. }
  unfold GetProcessFlags, ReadModules, ConnectCompanion, GetModuleDir, RequestLogcatFd,
    ZygoteRestart, SystemServerStarted, GetInfo.
  unfold mbind, prog_bind. rewrite E. cbn. done.
Qed.

Lemma daemon_absent_witness :
  let w := mkDworld (txt "/data/adb/rezygisk") 7 [] [] (mkSock [] [] []) [] in
  (GetProcessFlags 8 10123 w).1 = Ret 0 ∧
  (ReadModules 8 (λ n, replicate n NUL) (0, 0, 0) w).1 = Ret [].
Proof.
  destruct (daemon_absent 8 (λ n, replicate n NUL) (0, 0, 0) (λ _, None) 10123 0
    (mkDworld (txt "/data/adb/rezygisk") 7 [] [] (mkSock [] [] []) []))
    as (H1 & H2 & _); [vm_compute; lia|cbn; lia|done|].
  split; [exact (f_equal fst H1) | exact (f_equal fst H2)].
Defined.
