(* ===== verification/Protocol.v ===== *)
(** * Protocol: the loader's client against the daemon's replies

    [Daemon] and [Zygiskd] agree on the request codes and on the layout of every reply:
    whatever the fragmentation of the stream, the client returns what the daemon put in. *)

From Stdlib Require Import ZArith Lia Ascii.
From stdpp Require Import base tactics strings list sets numbers.
From S2P Require Import Prelude SocketUtils.
From S2P Require Zygiskd.
From S2P Require Import Daemon.

Local Open Scope mach_scope.

(** The daemon's action for a request of the loader. *)
Definition rs_action (a : SocketAction.t) : Zygiskd.DaemonSocketAction :=
  match a with
  | SocketAction.PingHeartBeat => Zygiskd.PingHeartbeat
  | SocketAction.RequestLogcatFd => Zygiskd.RequestLogcatFd
  | SocketAction.GetProcessFlags => Zygiskd.GetProcessFlags
  | SocketAction.GetInfo => Zygiskd.GetInfo
  | SocketAction.ReadModules => Zygiskd.ReadModules
  | SocketAction.RequestCompanionSocket => Zygiskd.RequestCompanionSocket
  | SocketAction.GetModuleDir => Zygiskd.GetModuleDir
  | SocketAction.ZygoteRestart => Zygiskd.ZygoteRestart
  | SocketAction.SystemServerStarted => Zygiskd.SystemServerStarted
  end.

Definition client_impl (gi : Zygiskd.RootImpl) : zygote_root_impl :=
  match gi with
  | Zygiskd.KernelSU => ZYGOTE_ROOT_IMPL_KERNELSU
  | Zygiskd.Magisk => ZYGOTE_ROOT_IMPL_MAGISK
  | Zygiskd.APatch => ZYGOTE_ROOT_IMPL_APATCH
  | _ => ZYGOTE_ROOT_IMPL_NONE
  end.

Lemma action_codes a :
  Zygiskd.try_from (le_val (le_bytes 1 (SocketAction.code a))) = Some (rs_action a).
Proof. by destruct a. Qed.

(** A uid survives the way through four bytes. *)
Lemma wire_uid uid : - 2 ^ 31 <= uid < 2 ^ 31 → i32 (le_val (le_bytes 4 uid)) = uid.
Proof.
  intros Hu. rewrite le_val_bytes. change (256 ^ Z.of_nat 4) with (2 ^ 32).
  unfold wraps. rewrite Z.mod_mod by lia. change (wraps 32 uid = uid). apply wraps_small; lia.
Qed.

(** Run the read or the write at the head of the program in the goal. *)
Ltac conn_send L :=
  cbn beta;
  match goal with
  | |- context [mbind ?f (on_conn ?m) ?w] => edestruct (L _ _ m f) as (? & -> & ?)
  end.

(** ** Names in a [module.prop] *)

Definition newline : ascii := "010"%char.

(** A line that fits the buffer of the loop with its newline. *)
Definition prop_line (l : bytes) : Prop := newline ∉ l ∧ no_nul l ∧ (length l <= 1022)%nat.
Definition other_line (l : bytes) : Prop := prop_line l ∧ ¬ txt "name=" `prefix_of` l.
Definition as_lines (ls : list bytes) : bytes := mjoin ((λ l, l ++ [newline]) <$> ls).

(** What the status report should show for the module [name]: its id when it has no
    [module.prop]; else what follows [name=] on the first line that starts with it, up to the
    newline.  Where the file ends without one, the last character of the name is lost, and a file
    with no such line leaves the pointer of the report unset ([None]). *)
Inductive displays (fs : bytes → option bytes) (name : bytes) : option bytes → Prop :=
| shows_id :
    fs (txt "/data/adb/modules/" ++ name ++ txt "/module.prop") = None → displays fs name (Some name)
| shows_name before title after :
    fs (txt "/data/adb/modules/" ++ name ++ txt "/module.prop")
      = Some (as_lines before ++ txt "name=" ++ title ++ newline :: after) →
    Forall other_line before → prop_line (txt "name=" ++ title) → displays fs name (Some title)
| shows_cut before title c :
    fs (txt "/data/adb/modules/" ++ name ++ txt "/module.prop") = Some (as_lines before ++ txt "name=" ++ title ++ [c]) →
    Forall other_line before → prop_line (txt "name=" ++ title ++ [c]) → displays fs name (Some title)
| shows_empty before :
    fs (txt "/data/adb/modules/" ++ name ++ txt "/module.prop") = Some (as_lines before ++ txt "name=") →
    Forall other_line before → displays fs name (Some [])
| shows_nothing before last :
    fs (txt "/data/adb/modules/" ++ name ++ txt "/module.prop") = Some (as_lines before ++ last) →
    Forall other_line before → other_line last → displays fs name None.

Lemma fgets_line b r n : newline ∉ b → (length b < n)%nat → fgets n (b ++ newline :: r) = (b ++ [newline], r).
Proof.
  revert n. induction b as [|c b IH]; intros [|n] Hb Hn; cbn in Hn |- *; try lia; [done|].
  rewrite bool_decide_eq_false_2 by set_solver. rewrite IH; [done | set_solver | lia].
Qed.

Lemma fgets_end b n : newline ∉ b → (length b <= n)%nat → fgets n b = (b, []).
Proof.
  revert n. induction b as [|c b IH]; intros [|n] Hb Hn; cbn in Hn |- *; try done; try lia.
  rewrite bool_decide_eq_false_2 by set_solver. rewrite IH; [done | set_solver | lia].
Qed.

Lemma other_line_skipped l e : other_line l → e = [] ∨ e = [newline] → starts_with (txt "name=") (cstr (l ++ e)) = false.
Proof.
  intros [(Hl & Hz & _) Hp] He. rewrite cstr_id by (unfold no_nul in *; destruct He as [-> | ->]; set_solver).
  apply not_true_iff_false. rewrite starts_with_spec. intros Hpre.
  destruct (prefix_weak_total _ _ _ Hpre (prefix_app_r l l e (reflexivity l))) as [?|[k Hk]]; [done|].
  rewrite Hk in Hpre. apply prefix_app_inv in Hpre.
  destruct k as [|c k]; [apply Hp; by rewrite Hk, app_nil_r|].
  destruct He as [-> | ->]; [by apply prefix_nil_inv in Hpre|].
  apply prefix_cons_inv_1 in Hpre as ->. assert (newline ∈ txt "name=") as Hin by (rewrite Hk; set_solver).
  by apply (bool_decide_pack _) in Hin.
Qed.

(** The loop comes to what follows the lines it skips. *)
Lemma prop_name_skip before f fuel :
  Forall other_line before → (length (as_lines before ++ f) <= fuel)%nat →
  ∃ fuel', (length f <= fuel')%nat ∧ prop_name fuel (as_lines before ++ f) = prop_name fuel' f.
Proof.
  intros Hb. revert fuel. induction Hb as [|l ls Hl _ IH]; intros fuel Hf; [by exists fuel|].
  change (as_lines (l :: ls)) with ((l ++ [newline]) ++ as_lines ls) in *. rewrite <- !app_assoc in *. cbn [app] in *.
  rewrite length_app in Hf. cbn [length] in Hf. destruct fuel as [|fuel]; [lia|].
  destruct (IH fuel) as (fuel' & H1 & H2); [lia|]. exists fuel'. split; [done|]. rewrite <- H2.
  destruct Hl as [(Hn & Hz & Hlen) Hp] eqn:El.
  assert (prop_name (S fuel) (l ++ newline :: as_lines ls ++ f) =
    let '(l, r) := fgets 1023 (l ++ newline :: as_lines ls ++ f) in
    let line := cstr l in
    if starts_with (txt "name=") line then
      let n := if (6 <=? length line)%nat then (length line - 6)%nat else length line in
      Some (take n (drop 5 line))
    else prop_name fuel r) as -> by (by destruct l).
  rewrite fgets_line by (done || lia). cbv zeta. by rewrite other_line_skipped by (done || by right).
Qed.

(** The line with the name: [e] is its newline, or nothing at the end of the file. *)
Lemma prop_name_title fuel f line r :
  f ≠ [] → (length f <= fuel)%nat → fgets 1023 f = (txt "name=" ++ line, r) → no_nul line →
  prop_name fuel f = Some (take (if (1 <=? length line)%nat then length line - 1 else 5) line).
Proof.
  intros Hf Hl E Hz. destruct f as [|c f]; [done|]. destruct fuel as [|fuel]; [cbn in Hl; lia|].
  cbn [prop_name]. rewrite E. cbv zeta. rewrite cstr_id.
  2:{ unfold no_nul in *. intros [H|H]%elem_of_app; [by apply (bool_decide_pack _) in H | done]. }
  rewrite starts_with_app. rewrite length_app. change (length (txt "name=")) with 5%nat.
  change (drop 5 (txt "name=" ++ line)) with line.
  destruct line as [|x line]; [done|]. by destruct (Nat.leb_spec 6 (5 + length (x :: line))); cbn [length Nat.leb] in *; [do 2 f_equal; lia | lia].
Qed.

Lemma displays_unique fs name shown :
  (30 + length name < PATH_MAX)%nat → displays fs name shown → module_display_name fs name = shown.
Proof.
  intros Hn Hd. unfold module_display_name.
  replace (module_prop_path name) with (txt "/data/adb/modules/" ++ name ++ txt "/module.prop")
    by (unfold module_prop_path; rewrite take_ge; [done | rewrite !length_app; unfold PATH_MAX in *; cbn; lia]).
  destruct Hd as [->|before title after -> Hb (Hl & Hz & Hlen)|before title c -> Hb (Hl & Hz & Hlen)|before -> Hb|before last -> Hb Hl];
    [done | | | |].
  all: edestruct (prop_name_skip before) as (fuel & Hfuel & ->); [done | reflexivity |].
  - rewrite (prop_name_title _ _ (title ++ [newline]) after); [| | done | |].
    + rewrite length_app, Nat.add_comm. cbn [length Nat.add Nat.leb]. rewrite Nat.sub_succ, Nat.sub_0_r. by rewrite take_app_length.
    + by destruct title.
    + rewrite app_assoc, fgets_line; [by rewrite <- app_assoc | done | lia].
    + unfold no_nul in *. set_solver.
  - rewrite (prop_name_title _ _ (title ++ [c]) []); [| | done | |].
    + rewrite length_app, Nat.add_comm. cbn [length Nat.add Nat.leb]. rewrite Nat.sub_succ, Nat.sub_0_r. by rewrite take_app_length.
    + by destruct title.
    + apply fgets_end; [done | lia].
    + unfold no_nul in *. set_solver.
  - by rewrite (prop_name_title _ _ [] []); [| | done | | unfold no_nul; set_solver].
  - destruct last as [|c last]; [by destruct fuel|]. destruct fuel as [|fuel]; [done|]. cbn [prop_name].
    pose proof Hl as [(Hn' & _ & Hlen) _]. rewrite fgets_end by (done || lia).
    pose proof (other_line_skipped (c :: last) [] Hl (or_introl eq_refl)) as E. rewrite app_nil_r in E. cbv zeta. rewrite E. by destruct fuel.
Qed.

Section protocol.
(** The ABI, the uninitialised stack, and files; the socket path fits, the daemon accepts
    the connection, and writes to it do not fail. *)
Context (sz : nat) (junk : nat → bytes) (jc : Z * Z * Z) (fs : bytes → option bytes).
Context (junk_len : ∀ n, length (junk n) = n).

Record ready (q : list seg) (w : dworld) : Prop := {
  ready_path : path_fits sz w;
  ready_fd : 0 <= d_socket w;
  ready_accept : ∃ rest, d_connects w = true :: rest;
  ready_conn : ∃ t, d_conn w = mkSock q t [] ∧ accepting t
}.

Definition wire_ok (b : bytes) : Prop := no_nul b ∧ Z.of_nat (length b) < 256 ^ Z.of_nat sz.

(** The state after a successful request: what was sent, and the descriptor closed. *)
Definition requested (req : bytes) (w w' : dworld) : Prop :=
  sent (d_conn w') = req ∧
  d_log w' = d_log w ++ [EvConnect (cstr (d_tmp w ++ kCPSocketName sz)) true;
                         EvClose (d_socket w)].

(** Connecting and sending the action byte: what remains to run is [k]. *)
Lemma ready_send {B} (dflt : prog dworld B) (k : Z → prog dworld B) a q w :
  ready q w →
  ∃ w1 t, (fd ← Connect sz 1; if fd =? -1 then dflt else send_action a;; k fd) w
            = k (d_socket w) w1 ∧
    d_conn w1 = mkSock q t (le_bytes 1 (SocketAction.code a)) ∧ accepting t ∧
    d_mallocs w1 = d_mallocs w ∧
    d_log w1 = d_log w ++ [EvConnect (cstr (d_tmp w ++ kCPSocketName sz)) true].
Proof.
  intros [Hp Hs [rest Hc] (t & Hw & Ht)].
  destruct (on_conn_sends _ _ _ q t [] (after_connects rest
    [EvConnect (cstr (d_tmp w ++ kCPSocketName sz)) true] w) (sends_action a)) as (t1 & E & Ht1);
    [done|done|].
  eexists _, t1. unfold mbind, prog_bind. erewrite Connect_one by done.
  destruct (Z.eqb_spec (d_socket w) (-1)); [lia|].
  unfold send_action. rewrite E. done.
Qed.

(** One read from, or write to, the connection at the head of a program. *)
Lemma bind_reads {A B} (m : prog sock A) (f : A → prog dworld B) enc a q t o es w :
  Reads m enc a → d_conn w = mkSock q t o → delivers q (enc ++ es) →
  ∃ q', (on_conn m ≫= f) w = f a (set_conn (mkSock q' t o) w) ∧ delivers q' es.
Proof.
  intros Hm Hw Hq. destruct (on_conn_reads m enc a q t o es w Hm Hw Hq) as (q' & E & Hq').
  exists q'. unfold mbind, prog_bind. by rewrite E.
Qed.

Lemma bind_sends {A B} (m : prog sock A) (f : A → prog dworld B) b a q t o w :
  Sends m b a → d_conn w = mkSock q t o → accepting t →
  ∃ t', (on_conn m ≫= f) w = f a (set_conn (mkSock q t' (o ++ b)) w) ∧ accepting t'.
Proof.
  intros Hm Hw Hq. destruct (on_conn_sends m b a q t o w Hm Hw Hq) as (t' & E & Ht').
  exists t'. unfold mbind, prog_bind. by rewrite E.
Qed.

Lemma bind_close {B} (k : prog dworld B) fd w :
  0 <= fd → (unique_fd_close fd;; k) w = k (after_connects (d_connects w) [EvClose fd] w).
Proof. intros H. unfold unique_fd_close, when. by rewrite (proj2 (Z.leb_le 0 fd) H). Qed.

Lemma bind_malloc {B} (f : bool → prog dworld B) w :
  d_mallocs w = [] → (sys_malloc ≫= f) w = f true w.
Proof. intros H. destruct w. cbn in H. by subst. Qed.

(** ** Lists of values *)

Lemma reads_module_list ms :
  Forall (λ m, wire_ok (Zygiskd.m_name m)) ms →
  Reads (read_module_list sz junk jc (length ms))
    (mjoin ((λ m, wire_string sz (Zygiskd.m_name m) ++ [SF (Zygiskd.m_lib_fd m)]) <$> ms))
    ((λ m, (Zygiskd.m_name m, Zygiskd.m_lib_fd m)) <$> ms).
Proof.
  induction 1 as [|m ms [Hn Hl] _ IH]; [apply reads_ret|].
  cbn -[wire_string]. rewrite <- !app_assoc.
  eapply reads_bind; [by apply reads_string|].
  eapply reads_bind; [apply reads_fd|]. by eapply reads_fmap; [apply IH|].
Qed.

Lemma reads_info_names ms shown :
  Forall (λ m, wire_ok (Zygiskd.m_name m)) ms →
  Forall2 (λ m s, module_display_name fs (Zygiskd.m_name m) = s) ms shown →
  Reads (read_info_names sz junk fs (length ms))
    (mjoin ((λ m, wire_string sz (Zygiskd.m_name m)) <$> ms)) shown.
Proof.
  intros Hms. revert shown. induction Hms as [|m ms [Hn Hl] _ IH]; intros shown Hs.
  { apply Forall2_nil_inv_l in Hs as ->. apply reads_ret. }
  apply Forall2_cons_inv_l in Hs as (s & shown' & <- & Hs & ->).
  cbn -[wire_string]. eapply reads_bind; [by apply reads_string|].
  by eapply reads_fmap; [apply IH|].
Qed.

(** ** Requests *)

(** Run a program up to the point where the action byte has been sent. *)
Ltac request Hr :=
  match goal with
  | |- context [mbind (λ fd, if fd =? -1 then ?d else mbind (λ _, @?k fd) (send_action ?a)) _ ?w] =>
      destruct (ready_send d k a _ w Hr) as (w1 & t & -> & Hc & Ht & Hmal & Hlog)
  end.

(** [GetProcessFlags] and the daemon together: the loader gets the daemon's flag word
    for the uid it sent, and closes the connection. *)
Theorem GetProcessFlags_protocol gi im gr su uid r q es w :
  ready q w → - 2 ^ 31 <= uid < 2 ^ 31 →
  Zygiskd.reply_get_process_flags gi im gr su (le_val (le_bytes 4 uid)) = Some r →
  delivers q (r ++ es) →
  ∃ f w', GetProcessFlags sz uid w = (Ret f, w') ∧
    Zygiskd.process_flags gi im gr su uid = Some f ∧
    requested (le_bytes 1 2 ++ le_bytes 4 uid) w w'.
Proof.
  intros Hr Hu Hrep Hq. unfold GetProcessFlags.
  request Hr. destruct Hr as [_ Hfd _ _].
  conn_send @bind_sends; [apply sends_exact|done|done|].
  unfold Zygiskd.reply_get_process_flags in Hrep. rewrite wire_uid in Hrep by done.
  destruct (Zygiskd.process_flags gi im gr su uid) as [f|] eqn:Hf; [|done].
  injection Hrep as <-. pose proof (Zygiskd.process_flags_range _ _ _ _ _ _ Hf) as Hrange.
  conn_send @bind_reads;
    [eapply (reads_exact 4 0 f); lia|done|done|].
  rewrite bind_close by done. eexists f, _. split_and!; [done|done|].
  split; [done|]. cbn. by rewrite Hlog, <- app_assoc.
Qed.

(** [ReadModules] returns every module of the daemon, in order, each name with the
    descriptor sent right after it, and closes the connection. *)
Theorem ReadModules_protocol ms q es w :
  ready q w → Forall (λ m, wire_ok (Zygiskd.m_name m)) ms →
  Z.of_nat (length ms) < 256 ^ Z.of_nat sz →
  delivers q (Zygiskd.reply_read_modules sz ms ++ es) →
  ∃ w', ReadModules sz junk jc w =
          (Ret ((λ m, (Zygiskd.m_name m, Zygiskd.m_lib_fd m)) <$> ms), w') ∧
        requested (le_bytes 1 4) w w'.
Proof.
  intros Hr Hms Hlen Hq. unfold ReadModules.
  request Hr. destruct Hr as [_ Hfd _ _].
  unfold Zygiskd.reply_read_modules in Hq. rewrite <- app_assoc in Hq.
  conn_send @bind_reads; [eapply (reads_exact sz 0 (Z.of_nat (length ms))); lia|done|done|].
  rewrite Nat2Z.id.
  conn_send @bind_reads; [by apply reads_module_list|done|done|].
  rewrite bind_close by done. eexists. split; [done|].
  split; [done|]. cbn. by rewrite Hlog, <- app_assoc.
Qed.

(** C17 [GetInfo] reports the daemon's pid, the root implementation the daemon found and,
    for each module in order, the name it should show: the id when the module has no
    [module.prop], else what follows [name=] on the first such line of the file.  A name at the very end of
    the file loses its last character, and a file with no name leaves the entry unset: both are what
    [displays] says.  It is for files whose lines have no NUL and fit the buffer of 1024 bytes,
    for paths shorter than [PATH_MAX], and for a daemon that has found a root implementation,
    accepts the connection and is not out of memory. *)
Theorem GetInfo_protocol gi pid ms shown r q es w :
  ready q w → Forall (λ m, wire_ok (Zygiskd.m_name m)) ms →
  Z.of_nat (length ms) < 256 ^ Z.of_nat sz → 0 <= pid < 2 ^ 31 → d_mallocs w = [] →
  Forall (λ m, 30 + length (Zygiskd.m_name m) < PATH_MAX)%nat ms →
  Forall2 (λ m, displays fs (Zygiskd.m_name m)) ms shown →
  Zygiskd.reply_get_info sz gi pid ms = Some r → delivers q (r ++ es) →
  ∃ w', GetInfo sz junk fs w =
          (Ret (mkInfo (Some (mkModules (Z.of_nat (length ms)) shown))
             (Some (client_impl gi)) (Some pid) true), w') ∧
        requested (le_bytes 1 3) w w'.
Proof.
  intros Hr Hms Hlen Hpid Hm Hpath Hshown Hrep Hq. unfold GetInfo.
  assert (Forall2 (λ m s, module_display_name fs (Zygiskd.m_name m) = s) ms shown) as Hnames.
  { clear -Hpath Hshown. induction Hshown; [done|]. inversion Hpath; subst. constructor; [by apply displays_unique | by apply IHHshown]. }
  request Hr. destruct Hr as [_ Hfd _ _].
  unfold Zygiskd.reply_get_info in Hrep.
  destruct (Zygiskd.root_flag gi) as [f|] eqn:Hf; [|done].
  apply (inj Some) in Hrep. subst r.
  assert (0 <= f < 2 ^ 31 ∧ decode_root_impl (i32 f) = client_impl gi) as [Hfr Hd].
  { destruct gi; try done; injection Hf as <-; by split; [vm_compute; split; congruence|]. }
  rewrite <- !app_assoc in Hq.
  conn_send @bind_reads; [eapply (reads_exact 4 0 f); lia|done|done|].
  assert (u32 pid = pid) as Hup by (apply wrapu_small; lia). rewrite Hup in *.
  conn_send @bind_reads; [eapply (reads_exact 4 0 pid); lia|done|done|].
  rewrite bind_malloc by (cbn; congruence). cbn [negb].
  conn_send @bind_reads; [eapply (reads_exact sz 0 (Z.of_nat (length ms))); lia|done|done|].
  rewrite Hd, wraps_small by lia.
  destruct (Z.eqb_spec (Z.of_nat (length ms)) 0) as [E|E].
  { destruct ms; [|done]. apply Forall2_nil_inv_l in Hshown as ->. eexists. split; [done|]. split; [done|]. cbn.
    by rewrite Hlog, <- app_assoc. }
  rewrite bind_malloc by (cbn; congruence). cbn [negb]. rewrite Nat2Z.id.
  conn_send @bind_reads; [by apply reads_info_names|done|done|].
  eexists. split; [done|]. split; [done|]. cbn. by rewrite Hlog, <- app_assoc.
Qed.
End protocol.

(** ** A concrete exchange *)

Definition demo_world (q : list seg) : dworld :=
  mkDworld (txt "/data/adb/rezygisk") 7 [true] [] (mkSock q [WAtMost 1; WIntr] []) [].

Definition demo_modules : list Zygiskd.module :=
  [Zygiskd.mkModule (txt "shamiko") 40; Zygiskd.mkModule (txt "lsposed") 41].

Lemma demo_ready q : ready 8 q (demo_world q).
Proof.
  split; [vm_compute; lia|cbn; lia|by eexists|].
  eexists. split; [done|]. repeat apply Forall_cons_2; done.
Defined.

Lemma demo_names : Forall (λ m, wire_ok 8 (Zygiskd.m_name m)) demo_modules.
Proof.
  repeat apply Forall_cons_2; try apply Forall_nil_2; split;
    (unfold no_nul; by apply (bool_decide_unpack _)) || (vm_compute; done).
Defined.

Lemma GetProcessFlags_protocol_witness :
  ∃ w', GetProcessFlags 8 10123 (demo_world [Intr; Data (le_bytes 4 (2 ^ 29 + 2))]) =
          (Ret (2 ^ 29 + 2), w').
Proof.
  destruct (GetProcessFlags_protocol 8 Zygiskd.KernelSU (λ _, false) (λ _, false) (λ _, true)
    10123 (wire_int 4 (2 ^ 29 + 2)) [Intr; Data (le_bytes 4 (2 ^ 29 + 2))] []
    (demo_world [Intr; Data (le_bytes 4 (2 ^ 29 + 2))]) (demo_ready _))
    as (f & w' & E & Hf & _); [lia|reflexivity| |].
  - apply dl_intr, (dl_data (le_bytes 4 (2 ^ 29 + 2)) [] []); [done|constructor].
  - exists w'. rewrite E. vm_compute in Hf. injection Hf as <-. reflexivity.
Defined.

Definition demo_read_modules : list seg :=
  [Data (le_bytes 8 2 ++ le_bytes 8 7 ++ txt "shamiko"); FdMsg 40; Intr;
   Data (le_bytes 8 7 ++ txt "lsposed"); FdMsg 41].

Lemma ReadModules_protocol_witness :
  ∃ w', ReadModules 8 (λ n, replicate n NUL) (0, 0, 0) (demo_world demo_read_modules) =
          (Ret [(txt "shamiko", 40); (txt "lsposed", 41)], w').
Proof.
  destruct (ReadModules_protocol 8 (λ n, replicate n NUL) (0, 0, 0)
    (λ n, length_replicate n NUL) demo_modules demo_read_modules []
    (demo_world demo_read_modules) (demo_ready _) demo_names) as (w' & E & _); [done| |].
  - apply (dl_data (le_bytes 8 2 ++ le_bytes 8 7 ++ txt "shamiko")); [done|]. apply dl_fd, dl_intr.
    apply (dl_data (le_bytes 8 7 ++ txt "lsposed") [FdMsg 41] [SF 41]); [done|].
    apply dl_fd. constructor.
  - exists w'. rewrite E. reflexivity.
Defined.

Definition demo_get_info : list seg :=
  [Data (le_bytes 4 (2 ^ 30)); Intr; Data (le_bytes 4 812 ++ le_bytes 8 2);
   Data (le_bytes 8 7 ++ txt "sham"); Data (txt "iko" ++ le_bytes 8 7 ++ txt "lsposed")].

(** [shamiko] has a [module.prop], [lsposed] has none. *)
Definition demo_fs (p : bytes) : option bytes :=
  if bool_decide (p = txt "/data/adb/modules/shamiko/module.prop")
  then Some (txt "id=shamiko" ++ ["010"%char] ++ txt "name=Shamiko" ++ ["010"%char]) else None.

Lemma GetInfo_protocol_witness :
  ∃ w', GetInfo 8 (λ n, replicate n NUL) demo_fs (demo_world demo_get_info) =
          (Ret (mkInfo (Some (mkModules 2 [Some (txt "Shamiko"); Some (txt "lsposed")]))
                  (Some ZYGOTE_ROOT_IMPL_MAGISK) (Some 812) true), w').
Proof.
  destruct (GetInfo_protocol 8 (λ n, replicate n NUL) demo_fs (λ n, length_replicate n NUL)
    Zygiskd.Magisk 812 demo_modules [Some (txt "Shamiko"); Some (txt "lsposed")] (default [] (Zygiskd.reply_get_info 8 Zygiskd.Magisk 812 demo_modules))
    demo_get_info [] (demo_world demo_get_info) (demo_ready _) demo_names)
    as (w' & E & _); [done|lia|done| | |reflexivity| |].
  - repeat apply Forall_cons_2; [vm_compute; lia.. | constructor].
  - apply Forall2_cons_2; [|apply Forall2_cons_2; [by apply shows_id | constructor]].
    eapply (shows_name _ _ [txt "id=shamiko"] (txt "Shamiko") []); [reflexivity | |].
    + apply Forall_cons_2; [|constructor]. split; [|by intros ?%starts_with_spec]. split_and!; [| |vm_compute; lia];
        (unfold no_nul; by apply (bool_decide_unpack _)).
    + split_and!; [| |vm_compute; lia]; (unfold no_nul; by apply (bool_decide_unpack _)).
  - apply (dl_data (le_bytes 4 (2 ^ 30))); [done|]. apply dl_intr.
    apply (dl_data (le_bytes 4 812 ++ le_bytes 8 2)); [done|].
    apply (dl_data (le_bytes 8 7 ++ txt "sham")); [done|].
    apply (dl_data (txt "iko" ++ le_bytes 8 7 ++ txt "lsposed") [] []); [done|constructor].
  - exists w'. rewrite E. do 2 f_equal.
Defined.
