(* ===== verification/WaitStatus.v ===== *)
(** * WaitStatus: decoding and printing a wait status

    The status word of [waitpid] as bionic's macros take it apart, the two versions of
    [STOPPED_WITH] ([ptracer/monitor.cpp] and [ptracer/ptracer.cpp]), and the printers
    [parse_ptrace_event], [sigabbrev_np] and [parse_status] of [ptracer/utils.{hpp,cpp}]. *)

From Stdlib Require Import ZArith Lia Ascii Bool.
From stdpp Require Import base tactics strings list numbers.
From S2P Require Import Prelude Misc.

Local Open Scope mach_scope.

(** ** Decoding *)

Definition WEXITSTATUS (status : Z) : Z := (status &&& 65280) >>> 8.
Definition WTERMSIG (status : Z) : Z := status &&& 127.
Definition WSTOPSIG (status : Z) : Z := WEXITSTATUS status.
Definition WIFEXITED (status : Z) : bool := WTERMSIG status =? 0.
Definition WIFSTOPPED (status : Z) : bool := WTERMSIG status =? 127.
Definition WIFSIGNALED (status : Z) : bool := 2 <=? WTERMSIG (status + 1).

(** [WPTEVENT]: the ptrace event of a stop. *)
Definition WPTEVENT (status : Z) : Z := status >>> 16.

Definition SIGKILL : Z := 9.
Definition SIGSEGV : Z := 11.
Definition SIGTRAP : Z := 5.
Definition SIGCHLD : Z := 17.
Definition SIGCONT : Z := 18.
Definition SIGSTOP : Z := 19.
Definition SIGTSTP : Z := 20.
Definition SIGTTIN : Z := 21.
Definition SIGTTOU : Z := 22.
Definition NSIG : Z := 65.

Definition PTRACE_EVENT_FORK : Z := 1.
Definition PTRACE_EVENT_VFORK : Z := 2.
Definition PTRACE_EVENT_CLONE : Z := 3.
Definition PTRACE_EVENT_EXEC : Z := 4.
Definition PTRACE_EVENT_VFORK_DONE : Z := 5.
Definition PTRACE_EVENT_EXIT : Z := 6.
Definition PTRACE_EVENT_SECCOMP : Z := 7.
Definition PTRACE_EVENT_STOP : Z := 128.

(** The macro of [monitor.cpp]. *)
Definition STOPPED_WITH (sig event status : Z) : bool :=
  WIFSTOPPED status && (status >>> 8 =? (sig ||| (event <<< 8))).

(** The macro of [ptracer.cpp]. *)
Definition STOPPED_WITH_tracer (sig event status : Z) : bool :=
  WIFSTOPPED status && (WSTOPSIG status =? sig) && (WPTEVENT status =? event).

(** The status word the kernel reports for a stop by [sig] with ptrace event [event]. *)
Definition stop_status (sig event : Z) : Z := 127 + sig * 2 ^ 8 + event * 2 ^ 16.

(** ** Printing *)

Definition parse_ptrace_event (status : Z) : bytes :=
  let event := status >>> 16 in
  if event =? PTRACE_EVENT_FORK then txt "PTRACE_EVENT_FORK"
  else if event =? PTRACE_EVENT_VFORK then txt "PTRACE_EVENT_VFORK"
  else if event =? PTRACE_EVENT_CLONE then txt "PTRACE_EVENT_CLONE"
  else if event =? PTRACE_EVENT_EXEC then txt "PTRACE_EVENT_EXEC"
  else if event =? PTRACE_EVENT_VFORK_DONE then txt "PTRACE_EVENT_VFORK_DONE"
  else if event =? PTRACE_EVENT_EXIT then txt "PTRACE_EVENT_EXIT"
  else if event =? PTRACE_EVENT_SECCOMP then txt "PTRACE_EVENT_SECCOMP"
  else if event =? PTRACE_EVENT_STOP then txt "PTRACE_EVENT_STOP"
  else txt "(no event)".

Fixpoint hex_digits (fuel : nat) (n : Z) : bytes :=
  match fuel with
  | O => []
  | S fuel =>
      (if n <? 16 then [] else hex_digits fuel (n / 16)) ++
      [byte_of_Z (if n mod 16 <? 10 then 48 + n mod 16 else 87 + n mod 16)]
  end.

(** [%x] of an [int]. *)
Definition print_hex (n : Z) : bytes := hex_digits 8 (u32 n).

(** [%d] of an [int]. *)
Definition print_int (n : Z) : bytes := if n <? 0 then txt "-" ++ print_dec (- n) else print_dec n.

(** [snprintf(buf + strlen(buf), len - strlen(buf), ...)] on the C string [buf]. *)
Definition snappend (len : nat) (buf s : bytes) : bytes := take (len - 1) (buf ++ s).

Section parse_status.
(** The signal names of the C library. *)
Context (sys_signame : Z → bytes).

Definition sigabbrev_np (sig : Z) : bytes :=
  if (0 <? sig) && (sig <? NSIG) then sys_signame sig else txt "(unknown)".

Definition parse_status (status : Z) (len : nat) : bytes :=
  let buf := snappend len [] (txt "0x" ++ print_hex status ++ txt " ") in
  if WIFEXITED status then
    snappend len buf (txt "exited with " ++ print_int (WEXITSTATUS status))
  else if WIFSIGNALED status then
    snappend len buf (txt "signaled with " ++ sigabbrev_np (WTERMSIG status) ++ txt "("
                      ++ print_int (WTERMSIG status) ++ txt ")")
  else if WIFSTOPPED status then
    let buf := snappend len buf (txt "stopped by ") in
    let stop_sig := WSTOPSIG status in
    let buf := snappend len buf (txt "signal=" ++ sigabbrev_np stop_sig ++ txt "("
                                 ++ print_int stop_sig ++ txt "),") in
    snappend len buf (txt "event=" ++ parse_ptrace_event status)
  else snappend len buf (txt "unknown").
End parse_status.

(** ** Lemmas *)

Lemma WEXITSTATUS_mod status : WEXITSTATUS status = (status >>> 8) mod 256.
Proof.
  unfold WEXITSTATUS. rewrite Z.shiftr_land. change (65280 >>> 8) with (Z.ones 8).
  by rewrite Z.land_ones.
Qed.

Lemma WTERMSIG_mod status : WTERMSIG status = status mod 128.
Proof. unfold WTERMSIG. change 127 with (Z.ones 7). by rewrite Z.land_ones. Qed.

Lemma lor_shiftl8 a b : 0 <= a < 256 → a ||| (b <<< 8) = a + b * 256.
Proof.
  intros Ha. rewrite <- Z.add_nocarry_lor; [rewrite Z.shiftl_mul_pow2 by lia; lia|].
  apply Z.bits_inj'. intros n Hn. rewrite Z.land_spec, Z.bits_0.
  destruct (Z.ltb_spec n 8).
  - rewrite (Z.shiftl_spec_low _ _ n) by lia. apply andb_false_r.
  - rewrite <- (Z.mod_small a (2 ^ 8)) by lia. rewrite Z.mod_pow2_bits_high by lia. done.
Qed.

Lemma STOPPED_WITH_iff sig event status :
  0 <= sig < 256 →
  STOPPED_WITH sig event status = true ↔
  status mod 128 = 127 ∧ status / 256 = sig + event * 256.
Proof.
  intros Hs. unfold STOPPED_WITH, WIFSTOPPED.
  rewrite andb_true_iff, !Z.eqb_eq, WTERMSIG_mod, lor_shiftl8 by done.
  by rewrite Z.shiftr_div_pow2 by lia.
Qed.

Lemma STOPPED_WITH_tracer_iff sig event status :
  0 <= sig < 256 →
  STOPPED_WITH_tracer sig event status = true ↔
  status mod 128 = 127 ∧ status / 256 = sig + event * 256.
Proof.
  intros Hs. unfold STOPPED_WITH_tracer, WIFSTOPPED, WSTOPSIG, WPTEVENT.
  rewrite !andb_true_iff, !Z.eqb_eq, WTERMSIG_mod, WEXITSTATUS_mod.
  rewrite !Z.shiftr_div_pow2 by lia. change (2 ^ 16) with (256 * 256). change (2 ^ 8) with 256.
  rewrite <- Z.div_div by lia.
  pose proof (Z.div_mod (status / 256) 256 ltac:(lia)).
  pose proof (Z.mod_pos_bound (status / 256) 256 ltac:(lia)). split.
  - intros [[H1 H2] H3]. lia.
  - intros [H1 H2]. rewrite H2, Z.mod_add, Z.div_add by lia.
    rewrite (Z.mod_small sig), (Z.div_small sig) by lia. lia.
Qed.

(** ** Properties *)

(** The two definitions of [STOPPED_WITH] agree, and they recognise exactly the status
    words the kernel builds for that signal and event (up to the core-dump bit, which a stop
    never has). *)
Theorem STOPPED_WITH_agree sig event status :
  0 <= sig < 256 →
  STOPPED_WITH sig event status = STOPPED_WITH_tracer sig event status ∧
  (STOPPED_WITH sig event status = true ↔
   status = stop_status sig event ∨ status = stop_status sig event + 128).
Proof.
  intros Hs. split.
  - apply eq_iff_eq_true. by rewrite STOPPED_WITH_iff, STOPPED_WITH_tracer_iff.
  - rewrite STOPPED_WITH_iff by done. unfold stop_status. change (2 ^ 16) with 65536.
    change (2 ^ 8) with 256. split.
    + intros [H1 H2]. Z.to_euclidean_division_equations. lia.
    + intros [-> | ->]; split; Z.to_euclidean_division_equations; lia.
Qed.

Lemma STOPPED_WITH_agree_witness :
  STOPPED_WITH SIGTRAP PTRACE_EVENT_EXEC (stop_status SIGTRAP PTRACE_EVENT_EXEC) = true.
Proof.
  destruct (STOPPED_WITH_agree SIGTRAP PTRACE_EVENT_EXEC (stop_status SIGTRAP PTRACE_EVENT_EXEC))
    as [_ H]; [vm_compute; split; congruence|].
  apply H. left. reflexivity.
Defined.

Lemma snappend_length len buf s : (0 < len)%nat → (length (snappend len buf s) < len)%nat.
Proof. intros. unfold snappend. rewrite length_take. lia. Qed.

(** [parse_status] stays inside its buffer: whatever the status and the signal names,
    the text and its terminator fit in [len] bytes. *)
Theorem parse_status_fits sys_signame status len :
  (0 < len)%nat → (length (parse_status sys_signame status len) < len)%nat.
Proof.
  intros. unfold parse_status. repeat case_match; by apply snappend_length.
Qed.

Lemma parse_status_fits_witness :
  (length (parse_status (λ _, txt "TRAP") (stop_status SIGTRAP PTRACE_EVENT_STOP) 64) < 64)%nat ∧
  parse_status (λ _, txt "TRAP") (stop_status SIGTRAP PTRACE_EVENT_STOP) 64 =
    txt "0x80057f stopped by signal=TRAP(5),event=PTRACE_EVENT_STOP".
Proof.
  split; [apply (parse_status_fits (λ _, txt "TRAP") (stop_status SIGTRAP PTRACE_EVENT_STOP) 64); lia|].
  vm_compute. reflexivity.
Defined.
