(* ===== verification/MonitorState.v ===== *)
(** * MonitorState: the globals of the init monitor and the status it publishes

    [ptracer/monitor.h] and the parts of [ptracer/monitor.cpp] that both event handlers
    use: the tracing state, the per-ABI status records, the zygote restart counters,
    [updateStatus] and [prepare_environment].  The kernel is the script of its answers
    ([kern]) and the log of what it was asked to do ([mevent]). *)

From Stdlib Require Import ZArith Lia Ascii.
From stdpp Require Import base tactics relations strings list gmap numbers.
From S2P Require Import Prelude.

Definition EAGAIN : Z := 11.
Definition ECHILD : Z := 10.

(** Where the status is mounted for the manager to read. *)
Definition module_prop : bytes := txt "/data/adb/modules/zygisksu/module.prop".

(** ** Data *)

Inductive TracingState : Set := TRACING | STOPPING | STOPPED | EXITING.

#[export] Instance TracingState_eq_dec : EqDecision TracingState.
Proof. solve_decision. Defined.

Record Status : Type := mkStatus {
  supported : bool;
  zygote_injected : bool;
  daemon_running : bool;
  daemon_pid : Z;
  daemon_info : option bytes;        (* the C string of the buffer, NULL: [None] *)
  daemon_error_info : option bytes   (* the whole buffer, NULL: [None] *)
}.

Definition init_status : Status := mkStatus false false false (-1) None None.

Definition set_injected b s :=
  mkStatus (supported s) b (daemon_running s) (daemon_pid s) (daemon_info s) (daemon_error_info s).
Definition set_running b s :=
  mkStatus (supported s) (zygote_injected s) b (daemon_pid s) (daemon_info s) (daemon_error_info s).
Definition set_info i s :=
  mkStatus (supported s) (zygote_injected s) (daemon_running s) (daemon_pid s) i (daemon_error_info s).
Definition set_error_info i s :=
  mkStatus (supported s) (zygote_injected s) (daemon_running s) (daemon_pid s) (daemon_info s) i.
Definition set_created pid s :=
  mkStatus true (zygote_injected s) true pid (daemon_info s) (daemon_error_info s).

(** The two ABIs: the macros of the source are instantiated once for each. *)
Inductive abi : Set := abi64 | abi32.

#[export] Instance abi_eq_dec : EqDecision abi.
Proof. solve_decision. Defined.

Definition abi_suffix (a : abi) : bytes :=
  match a with abi64 => txt "64" | abi32 => txt "32" end.

(** [last_zygote##abi.tv_sec] and [count_zygote##abi]. *)
Record zcounter : Type := mkCounter { last_sec : Z; zcount : Z }.

(** ** The kernel *)

Inductive ptrace_req : Set :=
| PTRACE_SEIZE | PTRACE_INTERRUPT | PTRACE_GETEVENTMSG | PTRACE_SETOPTIONS
| PTRACE_CONT (sig : Z)
| PTRACE_DETACH (sig : Z).

#[export] Instance ptrace_req_eq_dec : EqDecision ptrace_req.
Proof. solve_decision. Defined.

Inductive mevent : Type :=
| EvPtrace (req : ptrace_req) (pid : Z)
| EvKill (pid sig : Z)
| EvWaitpid (pid : Z)
| EvFork
| EvExec (args : list bytes)
| EvMount (source target : bytes)
| EvUmount (target : bytes)
| EvWriteProp (content : bytes).

#[export] Instance mevent_eq_dec : EqDecision mevent.
Proof. solve_decision. Defined.

(** A datagram waiting on the control socket, or an error of the next [recv]. *)
Inductive dgram : Type :=
| DMsg (b : bytes)
| DErr (errno : Z).

(** What [read] on the signalfd answers. *)
Inductive sfd_ans : Type :=
| SfdErr (errno : Z)
| SfdShort (n : Z)
| SfdSignal (signo : Z).

(** What [waitpid(-1, &status, __WALL | WNOHANG)] answers. *)
Inductive wres : Type :=
| WNone
| WErr (errno : Z)
| WPid (pid status : Z).

Record kern : Type := mkKern {
  dgrams : list dgram;
  recv_errs : list (option Z);   (* errors of the [recv] after a successful peek *)
  sfds : list sfd_ans;
  waits : list wres;
  swaits : list Z;               (* statuses of [waitpid(pid, &status, __WALL)] *)
  forks : list Z;
  clocks : list Z;               (* seconds of CLOCK_MONOTONIC *)
  links : list (option bytes);   (* results of [readlink] on /proc/<pid>/exe *)
  prop_ok : bool;                (* whether the status file can be opened *)
  exec_ok : bool;                (* whether [execl] succeeds *)
  no_children : bool             (* nothing to wait for is left after the reports of [waits] *)
}.

Definition set_dgrams q e k := mkKern q e (sfds k) (waits k) (swaits k) (forks k) (clocks k)
  (links k) (prop_ok k) (exec_ok k) (no_children k).
Definition set_sfds l k := mkKern (dgrams k) (recv_errs k) l (waits k) (swaits k) (forks k)
  (clocks k) (links k) (prop_ok k) (exec_ok k) (no_children k).
Definition set_waits l k := mkKern (dgrams k) (recv_errs k) (sfds k) l (swaits k) (forks k)
  (clocks k) (links k) (prop_ok k) (exec_ok k) (no_children k).
Definition set_swaits l k := mkKern (dgrams k) (recv_errs k) (sfds k) (waits k) l (forks k)
  (clocks k) (links k) (prop_ok k) (exec_ok k) (no_children k).
Definition set_forks l k := mkKern (dgrams k) (recv_errs k) (sfds k) (waits k) (swaits k) l
  (clocks k) (links k) (prop_ok k) (exec_ok k) (no_children k).
Definition set_clocks l k := mkKern (dgrams k) (recv_errs k) (sfds k) (waits k) (swaits k) (forks k)
  l (links k) (prop_ok k) (exec_ok k) (no_children k).
Definition set_links l k := mkKern (dgrams k) (recv_errs k) (sfds k) (waits k) (swaits k) (forks k)
  (clocks k) l (prop_ok k) (exec_ok k) (no_children k).

Record mon : Type := mkMon {
  tracing_state : TracingState;
  monitor_stop_reason : bytes;
  status64 : Status;
  status32 : Status;
  counter64 : zcounter;
  counter32 : zcounter;
  process : gset Z;
  running : bool;                (* EventLoop::running *)
  wstatus : Z;                   (* SigChldHandler::status *)
  prop_path : bytes;
  pre_section : bytes;
  post_section : bytes;
  kernel : kern;
  mlog : list mevent
}.

Definition set_tracing t s := mkMon t (monitor_stop_reason s) (status64 s) (status32 s)
  (counter64 s) (counter32 s) (process s) (running s) (wstatus s) (prop_path s)
  (pre_section s) (post_section s) (kernel s) (mlog s).
Definition set_reason r s := mkMon (tracing_state s) r (status64 s) (status32 s)
  (counter64 s) (counter32 s) (process s) (running s) (wstatus s) (prop_path s)
  (pre_section s) (post_section s) (kernel s) (mlog s).
Definition set_process p s := mkMon (tracing_state s) (monitor_stop_reason s) (status64 s)
  (status32 s) (counter64 s) (counter32 s) p (running s) (wstatus s) (prop_path s)
  (pre_section s) (post_section s) (kernel s) (mlog s).
Definition set_loop_running b s := mkMon (tracing_state s) (monitor_stop_reason s) (status64 s)
  (status32 s) (counter64 s) (counter32 s) (process s) b (wstatus s) (prop_path s)
  (pre_section s) (post_section s) (kernel s) (mlog s).
Definition set_wstatus w s := mkMon (tracing_state s) (monitor_stop_reason s) (status64 s)
  (status32 s) (counter64 s) (counter32 s) (process s) (running s) w (prop_path s)
  (pre_section s) (post_section s) (kernel s) (mlog s).
Definition set_sections p a b s := mkMon (tracing_state s) (monitor_stop_reason s) (status64 s)
  (status32 s) (counter64 s) (counter32 s) (process s) (running s) (wstatus s) p
  a b (kernel s) (mlog s).
Definition set_kernel k s := mkMon (tracing_state s) (monitor_stop_reason s) (status64 s)
  (status32 s) (counter64 s) (counter32 s) (process s) (running s) (wstatus s) (prop_path s)
  (pre_section s) (post_section s) k (mlog s).
Definition add_log e s := mkMon (tracing_state s) (monitor_stop_reason s) (status64 s)
  (status32 s) (counter64 s) (counter32 s) (process s) (running s) (wstatus s) (prop_path s)
  (pre_section s) (post_section s) (kernel s) (mlog s ++ [e]).

Definition status_of (a : abi) (s : mon) : Status :=
  match a with abi64 => status64 s | abi32 => status32 s end.
Definition counter_of (a : abi) (s : mon) : zcounter :=
  match a with abi64 => counter64 s | abi32 => counter32 s end.

Definition upd_status (a : abi) (f : Status → Status) (s : mon) : mon :=
  mkMon (tracing_state s) (monitor_stop_reason s)
    (match a with abi64 => f (status64 s) | abi32 => status64 s end)
    (match a with abi64 => status32 s | abi32 => f (status32 s) end)
    (counter64 s) (counter32 s) (process s) (running s) (wstatus s) (prop_path s)
    (pre_section s) (post_section s) (kernel s) (mlog s).
Definition set_counter (a : abi) (c : zcounter) (s : mon) : mon :=
  mkMon (tracing_state s) (monitor_stop_reason s) (status64 s) (status32 s)
    (match a with abi64 => c | abi32 => counter64 s end)
    (match a with abi64 => counter32 s | abi32 => c end)
    (process s) (running s) (wstatus s) (prop_path s)
    (pre_section s) (post_section s) (kernel s) (mlog s).

(** The globals before [init_monitor] runs. *)
Definition init_mon (k : kern) : mon :=
  mkMon TRACING [] init_status init_status (mkCounter 0 0) (mkCounter 0 0) ∅ false 0
    [] [] [] k [].

Definition emit (e : mevent) : prog mon unit := modify (add_log e).
Definition ptrace (req : ptrace_req) (pid : Z) : prog mon unit := emit (EvPtrace req pid).

(** [fork()]: the next scripted result. *)
Definition sys_fork : prog mon Z :=
  s ← get;
  let k := kernel s in
  put (add_log EvFork (set_kernel (set_forks (tail (forks k)) k) s));;
  mret (default (-1) (head (forks k))).

(** [execl]: when it succeeds this program is gone. *)
Definition sys_exec (args : list bytes) : prog mon unit :=
  emit (EvExec args);;
  s ← get;
  if exec_ok (kernel s) then exit 0 else mret tt.

(** What was asked of the kernel stays asked. *)
Definition log_grows (s s' : mon) : Prop := mlog s `prefix_of` mlog s'.

#[export] Instance log_grows_preorder : PreOrder log_grows.
Proof. split; [intros ?; unfold log_grows; done | intros ? y ?; unfold log_grows; by transitivity (mlog y)]. Qed.

Lemma same_log s s' : mlog s' = mlog s → log_grows s s'.
Proof. unfold log_grows. by intros ->. Qed.

Lemma emit_log e s : Moves log_grows (emit e) s.
Proof. apply moves_modify. by eexists. Qed.

(** ** The published status *)

(** One expansion of [WRITE_STATUS_ABI]. *)
Definition status_abi_text (a : abi) (t : TracingState) (st : Status) : bytes :=
  if supported st then
    txt " zygote" ++ abi_suffix a ++ txt ":" ++
    (if negb (bool_decide (t = TRACING)) then txt "❓ unknown, "
     else if zygote_injected st then txt "😋 injected, "
     else txt "❌ not injected, ") ++
    txt " daemon" ++ abi_suffix a ++ txt ":" ++
    (if daemon_running st then
       txt "😋running" ++
       match daemon_info st with None => [] | Some i => txt "(" ++ i ++ txt ")" end
     else
       txt "❌ crashed " ++
       match daemon_error_info st with None => [] | Some i => txt "(" ++ cstr i ++ txt ")" end)
  else [].

Definition tracing_text (t : TracingState) : bytes :=
  match t with
  | TRACING => txt "😋 tracing"
  | STOPPING | STOPPED => txt "❌ stopped"
  | EXITING => txt "❌ exited"
  end.

Definition status_text (s : mon) : bytes :=
  txt "monitor: " ++ tracing_text (tracing_state s) ++
  (if negb (bool_decide (tracing_state s = TRACING)) &&
      negb (bool_decide (monitor_stop_reason s = []))
   then txt "(" ++ monitor_stop_reason s ++ txt ")" else []) ++
  txt "," ++
  status_abi_text abi64 (tracing_state s) (status64 s) ++
  status_abi_text abi32 (tracing_state s) (status32 s).

Definition status_text_size : nat := 1024.

(** What is printed to the status file. *)
Definition prop_content (s : mon) : bytes :=
  pre_section s ++ txt "[" ++ status_text s ++ txt "] " ++ post_section s.

(** The text is built by unbounded [strcat]s in [status_text[1024]], and the result of
    [fopen] is used unchecked. *)
Definition updateStatus : prog mon unit :=
  s ← get;
  if (status_text_size <=? length (status_text s))%nat then crash OutOfBounds
  else if negb (prop_ok (kernel s)) then crash NullDeref
  else emit (EvWriteProp (prop_content s)).

Lemma updateStatus_log s : Moves log_grows updateStatus s.
Proof. unfold updateStatus. walk. apply emit_log. Qed.

#[export] Hint Resolve emit_log updateStatus_log : rezygisk.

(** ** The environment *)

(** Where the scan of [module.prop] is: looking for the first letter of [description=],
    [i] letters into it, or behind it. *)
Inductive scan_mode : Set :=
| Outer
| Inner (i : nat)
| Tail.

Definition field_name : bytes := txt "description=".
Definition section_size : nat := 1024.

(** The mode after one more character. *)
Definition scan_step (m : scan_mode) (c : byte) : scan_mode :=
  match m with
  | Outer => if bool_decide (Some c = field_name !! 0%nat) then Inner 1 else Outer
  | Inner i =>
      if bool_decide (Some c = field_name !! i)
      then if (S i =? length field_name)%nat then Tail else Inner (S i)
      else Outer
  | Tail => Tail
  end.

(** The three nested [fgetc] loops: a character goes to [post_section] once the field name
    is complete, to [pre_section] before that. *)
Fixpoint scan (f : bytes) (m : scan_mode) (pre post : bytes) : bytes * bytes :=
  match f with
  | [] => (pre, post)
  | c :: f =>
      match m with
      | Tail => scan f Tail pre (post ++ [c])
      | _ => scan f (scan_step m c) (pre ++ [c]) post
      end
  end.

Definition prepare_environment (tmp_path : bytes) (orig_prop : option bytes) : prog mon bool :=
  s ← get;
  let path := prop_path s ++ tmp_path ++ txt "/module.prop" in
  put (set_sections path (pre_section s) (post_section s) s);;
  match orig_prop with
  | None => mret false
  | Some f =>
      let '(pre, post) := scan f Outer [] [] in
      if (section_size <=? length pre)%nat || (section_size <=? length post)%nat
      then crash OutOfBounds
      else put (set_sections path (cstr pre) (cstr post) s);; updateStatus;; mret true
  end.


(** ** The scan of [module.prop] *)

Definition newline : byte := "010"%char.

(** Whatever the file, no character of it is lost or reordered. *)
Lemma scan_partition f m pre post pre' post' :
  m = Tail ∨ post = [] → scan f m pre post = (pre', post') → pre' ++ post' = pre ++ post ++ f.
Proof.
  revert m pre post. induction f as [|c f IH]; intros m pre post Hm; simpl.
  - intros [= <- <-]. by rewrite app_nil_r.
  - destruct m.
    1, 2: destruct Hm as [? | ->]; [done|]; intros H; apply IH in H;
      [by rewrite H, !app_nil_l, <- app_assoc | by right].
    intros H. apply IH in H; [|by left]. by rewrite H, <- app_assoc.
Qed.

Lemma scan_not_tail a f m pre :
  foldl scan_step m a ≠ Tail → scan (a ++ f) m pre [] = scan f (foldl scan_step m a) (pre ++ a) [].
Proof.
  revert m pre. induction a as [|c a IH]; intros m pre H; simpl.
  - by rewrite app_nil_r.
  - destruct m; simpl in H.
    1, 2: rewrite IH by done; by rewrite <- app_assoc.
    exfalso. apply H. clear. by induction a.
Qed.

Lemma scan_tail b pre post : scan b Tail pre post = (pre, post ++ b).
Proof.
  revert post. induction b as [|c b IH]; intros post; simpl; [by rewrite app_nil_r|].
  by rewrite IH, <- app_assoc.
Qed.

(** [i] letters of the field name just read are the last [i] characters of the input;
    the name is complete only if it occurs in the input. *)
Definition mode_ok (a : bytes) (m : scan_mode) : Prop :=
  match m with
  | Outer => True
  | Inner i => (i < length field_name)%nat ∧ take i field_name `suffix_of` a
  | Tail => ∃ l r, a = l ++ field_name ++ r
  end.

Lemma scan_step_ok a m c : mode_ok a m → mode_ok (a ++ [c]) (scan_step m c).
Proof.
  destruct m as [|i|]; cbn [mode_ok scan_step].
  - intros _. case_bool_decide as E; [|done]. split; [by apply Nat.ltb_lt|].
    exists a. simpl in E. by injection E as ->.
  - intros [Hi [l ->]]. case_bool_decide as E; [|done]. symmetry in E.
    assert (take (S i) field_name = take i field_name ++ [c]) as T by by apply take_S_r.
    destruct (Nat.eqb_spec (S i) (length field_name)) as [L|L]; cbn [mode_ok].
    + exists l, []. rewrite <- app_assoc, <- T, L, firstn_all. by rewrite app_nil_r.
    + split; [lia|]. exists l. by rewrite <- app_assoc, <- T.
  - intros (l & r & ->). exists l, (r ++ [c]). by rewrite <- !app_assoc.
Qed.

Lemma scan_mode_ok a : mode_ok a (foldl scan_step Outer a).
Proof.
  induction a as [|c a IH] using rev_ind; [done|]. rewrite foldl_app. by apply scan_step_ok.
Qed.

Lemma scan_line_start a :
  find_sub field_name a = None → a = [] ∨ list.last a = Some newline → foldl scan_step Outer a = Outer.
Proof.
  intros Ha [-> | Hl]; [done|]. apply last_Some in Hl as [a' ->].
  pose proof (scan_mode_ok (a' ++ [newline])) as Hok.
  rewrite foldl_app in *. simpl in *. destruct (foldl scan_step Outer a') as [|i|].
  - by vm_compute.
  - assert (scan_step (Inner i) newline = Outer) as ->; [|done]. simpl.
    case_bool_decide as E; [|done]. symmetry in E. apply list_elem_of_lookup_2 in E.
    assert (newline ∉ field_name) by by apply (bool_decide_unpack _). done.
  - destruct Hok as (l & r & E). by destruct (find_sub_None _ _ Ha l r).
Qed.

Lemma scan_field b pre : scan (field_name ++ b) Outer pre [] = (pre ++ field_name, b).
Proof.
  assert (field_name = take 11 field_name ++ drop 11 field_name) as E by done.
  rewrite E at 1. rewrite <- app_assoc, scan_not_tail by done.
  assert (foldl scan_step Outer (take 11 field_name) = Inner 11) as -> by reflexivity.
  change (drop 11 field_name ++ b) with ("="%char :: b). cbn [scan].
  assert (scan_step (Inner 11) "="%char = Tail) as -> by reflexivity.
  rewrite scan_tail, <- app_assoc. done.
Qed.

Lemma scan_description a b :
  find_sub field_name a = None → a = [] ∨ list.last a = Some newline →
  scan (a ++ field_name ++ b) Outer [] [] = (a ++ field_name, b).
Proof.
  intros Ha Hl. pose proof (scan_line_start a Ha Hl) as E.
  rewrite scan_not_tail by by rewrite E. rewrite E. apply scan_field.
Qed.

(** ** The status text fits its buffer *)

Definition opt_len (o : option bytes) : nat := from_option length O o.

Lemma status_abi_text_bound a t st :
  (length (status_abi_text a t st) <=
   60 + opt_len (daemon_info st) + opt_len (daemon_error_info st))%nat.
Proof.
  destruct st as [[] inj [] pid info err], a, t, inj; cbn [status_abi_text supported
    daemon_running daemon_info daemon_error_info]; try (simpl; lia);
    destruct info as [i|], err as [e|]; rewrite ?length_app;
    try (pose proof (cstr_length e)); simpl; rewrite ?length_app; simpl; lia.
Qed.

Lemma status_text_bound s :
  (length (status_text s) <= 150 + length (monitor_stop_reason s) +
   opt_len (daemon_info (status64 s)) + opt_len (daemon_error_info (status64 s)) +
   opt_len (daemon_info (status32 s)) + opt_len (daemon_error_info (status32 s)))%nat.
Proof.
  unfold status_text. rewrite !length_app.
  pose proof (status_abi_text_bound abi64 (tracing_state s) (status64 s)).
  pose proof (status_abi_text_bound abi32 (tracing_state s) (status32 s)).
  assert (length (tracing_text (tracing_state s)) <= 12)%nat by (destruct (tracing_state s); simpl; lia).
  split_match; rewrite ?length_app; simpl; lia.
Qed.

Lemma updateStatus_run s :
  (length (status_text s) < status_text_size)%nat → prop_ok (kernel s) = true →
  updateStatus s = (Ret tt, add_log (EvWriteProp (prop_content s)) s).
Proof.
  intros H Hp. unfold updateStatus, mbind, prog_bind, get.
  rewrite (proj2 (Nat.leb_gt _ _) H), Hp. done.
Qed.

(** The status file can be written and what it says fits. *)
Definition status_fits (s : mon) : Prop :=
  prop_ok (kernel s) = true ∧ (length (monitor_stop_reason s) <= 31)%nat ∧
  (opt_len (daemon_info (status64 s)) + opt_len (daemon_error_info (status64 s)) +
   opt_len (daemon_info (status32 s)) + opt_len (daemon_error_info (status32 s)) <= 840)%nat.

Lemma updateStatus_run_fits s :
  status_fits s → updateStatus s = (Ret tt, add_log (EvWriteProp (prop_content s)) s).
Proof.
  intros (Hp & Hr & Hi). apply updateStatus_run; [|done].
  pose proof (status_text_bound s). unfold status_text_size. lia.
Qed.

(** C33 [updateStatus] cannot overflow [status_text] as long as what the daemons reported adds
    up to at most 840 bytes (stop reasons have at most 31): it then writes the status file,
    once, with the status between the two sections of [module.prop], and changes nothing
    else. *)
Theorem updateStatus_fits s :
  prop_ok (kernel s) = true →
  (length (monitor_stop_reason s) <= 31)%nat →
  (opt_len (daemon_info (status64 s)) + opt_len (daemon_error_info (status64 s)) +
   opt_len (daemon_info (status32 s)) + opt_len (daemon_error_info (status32 s)) <= 840)%nat →
  updateStatus s =
    (Ret tt, add_log (EvWriteProp (pre_section s ++ txt "[" ++ status_text s ++ txt "] " ++
                                   post_section s)) s).
Proof.
  intros Hp Hr Hi. by apply updateStatus_run_fits.
Qed.

Definition demo_kern : kern := mkKern [] [] [] [] [] [] [] [] true true false.

Lemma updateStatus_fits_witness :
  updateStatus (init_mon demo_kern) =
    (Ret tt, add_log (EvWriteProp (txt "[monitor: 😋 tracing,] ")) (init_mon demo_kern)).
Proof. apply (updateStatus_fits (init_mon demo_kern)); simpl; [done | lia | lia]. Defined.

(** For every [module.prop] whose first [description=] starts a line, [prepare_environment]
    splits the file exactly behind that field, and the file it publishes is the original one
    with the status inserted in front of the description. *)
Theorem prepare_environment_inserts tmp a b s :
  find_sub field_name a = None →
  a = [] ∨ list.last a = Some newline →
  no_nul (a ++ field_name ++ b) →
  (length (a ++ field_name) < section_size)%nat → (length b < section_size)%nat →
  (length (status_text s) < status_text_size)%nat → prop_ok (kernel s) = true →
  prepare_environment tmp (Some (a ++ field_name ++ b)) s =
    (Ret true,
     add_log (EvWriteProp (a ++ field_name ++ txt "[" ++ status_text s ++ txt "] " ++ b))
       (set_sections (prop_path s ++ tmp ++ txt "/module.prop") (a ++ field_name) b s)).
Proof.
  intros Ha Hl Hn La Lb Ht Hp. unfold prepare_environment.
  unfold mbind, prog_bind, get, put. rewrite scan_description by done.
  rewrite (proj2 (Nat.leb_gt _ _) La), (proj2 (Nat.leb_gt _ _) Lb). cbn [orb].
  unfold no_nul in Hn. rewrite app_assoc, elem_of_app in Hn.
  rewrite !cstr_id by (unfold no_nul; tauto).
  rewrite updateStatus_run; [|done..].
  unfold prop_content. cbn [pre_section post_section set_sections].
  rewrite <- app_assoc. done.
Qed.

Definition demo_pre : bytes := txt "id=rezygisk" ++ [newline].

Lemma prepare_environment_inserts_witness :
  (prepare_environment (txt "/debug_ramdisk") (Some (demo_pre ++ field_name ++ txt "Zygisk"))
     (init_mon demo_kern)).1 = Ret true.
Proof.
  rewrite (prepare_environment_inserts (txt "/debug_ramdisk") demo_pre (txt "Zygisk")
             (init_mon demo_kern)); [done | done | by right | | by apply Nat.ltb_lt ..
             | by apply Nat.ltb_lt | done].
  unfold no_nul. by apply (bool_decide_unpack _).
Defined.
