(* ===== verification/MonitorSocket.v ===== *)
(** * MonitorSocket: the control socket of the init monitor

    [SocketHandler] of [ptracer/monitor.cpp]: the datagrams of the [Command] protocol
    (sent by the command line tool and by the daemons), how [HandleEvent] receives them,
    and what each command does to the monitor. *)

From Stdlib Require Import ZArith Lia Ascii.
From stdpp Require Import base tactics relations strings list gmap numbers.
From S2P Require Import Prelude MonitorState.

Inductive Command : Set :=
| START | STOP | EXIT
| ZYGOTE64_INJECTED | ZYGOTE32_INJECTED
| DAEMON64_SET_INFO | DAEMON32_SET_INFO
| DAEMON64_SET_ERROR_INFO | DAEMON32_SET_ERROR_INFO
| SYSTEM_SERVER_STARTED.

#[export] Instance Command_eq_dec : EqDecision Command.
Proof. solve_decision. Defined.

Definition command_code (c : Command) : Z :=
  match c with
  | START => 1 | STOP => 2 | EXIT => 3
  | ZYGOTE64_INJECTED => 4 | ZYGOTE32_INJECTED => 5
  | DAEMON64_SET_INFO => 6 | DAEMON32_SET_INFO => 7
  | DAEMON64_SET_ERROR_INFO => 8 | DAEMON32_SET_ERROR_INFO => 9
  | SYSTEM_SERVER_STARTED => 10
  end.

Definition all_commands : list Command :=
  [START; STOP; EXIT; ZYGOTE64_INJECTED; ZYGOTE32_INJECTED; DAEMON64_SET_INFO;
   DAEMON32_SET_INFO; DAEMON64_SET_ERROR_INFO; DAEMON32_SET_ERROR_INFO; SYSTEM_SERVER_STARTED].

Definition command_of (z : Z) : option Command :=
  List.find (λ c, command_code c =? z) all_commands.

Module SocketHandler.

(** [recv] on the non-blocking socket: at most [size] bytes of the first datagram, which
    stays queued when [peek] is set and is gone, rest included, otherwise. *)
Definition recv (size : nat) (peek : bool) : prog mon (Z + bytes) :=
  s ← get;
  let k := kernel s in
  match dgrams k with
  | [] => mret (inl EAGAIN)
  | DErr e :: q => put (set_kernel (set_dgrams q (recv_errs k) k) s);; mret (inl e)
  | DMsg b :: q =>
      if peek then mret (inr (take size b))
      else match head (recv_errs k) with
           | Some (Some e) =>
               put (set_kernel (set_dgrams (DMsg b :: q) (tail (recv_errs k)) k) s);; mret (inl e)
           | _ => put (set_kernel (set_dgrams q (tail (recv_errs k)) k) s);; mret (inr (take size b))
           end
  end.

Definition MsgHead_size : nat := 8.

Definition msg_cmd (b : bytes) : Z := le_val (take 4 b).
Definition msg_length (b : bytes) : Z := i32 (le_val (take 4 (drop 4 b))).

(** The commands that carry a length and a payload. *)
Definition has_payload (cmd : Z) : bool :=
  (command_code DAEMON64_SET_INFO <=? cmd) && negb (cmd =? command_code SYSTEM_SERVER_STARTED).

(** The size of the datagram whose first bytes are [b]; [None] where the source logs an
    error and continues. *)
Definition real_size (b : bytes) : option Z :=
  if (length b <? 4)%nat then None
  else if has_payload (msg_cmd b)
  then if (length b =? MsgHead_size)%nat then Some (Z.of_nat MsgHead_size + msg_length b) else None
  else if (length b =? 4)%nat then Some 4 else None.

(** [malloc(length)], [memcpy] of [length - 1] bytes, terminator: the new buffer.  Nothing
    checks that [length] is positive, and [length - 1] is converted to [size_t]. *)
Definition copy_payload (len : Z) (data : bytes) : prog mon bytes :=
  if len <=? 0 then crash OutOfBounds else mret (take (Z.to_nat (len - 1)) data ++ [NUL]).

Definition set_daemon_info (a : abi) (len : Z) (data : bytes) : prog mon unit :=
  b ← copy_payload len data;
  modify (upd_status a (set_info (Some (cstr b))));;
  updateStatus.

Definition set_daemon_error (a : abi) (len : Z) (data : bytes) : prog mon unit :=
  modify (upd_status a (set_running false));;
  b ← copy_payload len data;
  modify (upd_status a (set_error_info (Some b)));;
  updateStatus.

Definition user_requested : bytes := txt "user requested".

Definition start : prog mon unit :=
  s ← get;
  match tracing_state s with
  | STOPPING => modify (set_tracing TRACING)
  | STOPPED => ptrace PTRACE_SEIZE 1;; modify (set_tracing TRACING)
  | _ => mret tt
  end;;
  updateStatus.

Definition stop : prog mon unit :=
  s ← get;
  when (bool_decide (tracing_state s = TRACING))
    (modify (λ s, set_reason user_requested (set_tracing STOPPING s));;
     ptrace PTRACE_INTERRUPT 1;;
     updateStatus).

Definition exit_monitor : prog mon unit :=
  modify (λ s, set_reason user_requested (set_tracing EXITING s));;
  updateStatus;;
  modify (set_loop_running false).

(** The [switch] on the command. *)
Definition dispatch (cmd len : Z) (data : bytes) : prog mon unit :=
  match command_of cmd with
  | None => mret tt
  | Some START => start
  | Some STOP => stop
  | Some EXIT => exit_monitor
  | Some ZYGOTE64_INJECTED => modify (upd_status abi64 (set_injected true));; updateStatus
  | Some ZYGOTE32_INJECTED => modify (upd_status abi32 (set_injected true));; updateStatus
  | Some DAEMON64_SET_INFO => set_daemon_info abi64 len data
  | Some DAEMON32_SET_INFO => set_daemon_info abi32 len data
  | Some DAEMON64_SET_ERROR_INFO => set_daemon_error abi64 len data
  | Some DAEMON32_SET_ERROR_INFO => set_daemon_error abi32 len data
  | Some SYSTEM_SERVER_STARTED => s ← get; emit (EvMount (prop_path s) module_prop)
  end.

(** One round of the [while (1)]: [true] to go on, [false] at the [break].  [msg] refers to
    the first 8 bytes of [buf]; growing [buf] moves its storage and leaves [msg] behind in
    freed memory, which the second [recv] is then given to write to. *)
Definition round : prog mon bool :=
  r ← recv MsgHead_size true;
  match r with
  | inl e => mret (negb (e =? EAGAIN))
  | inr b =>
      match real_size b with
      | None => mret true
      | Some size =>
          if size <? 0 then crash BadAlloc
          else if Z.of_nat MsgHead_size <? size then crash UseAfterFree
          else
            r ← recv (Z.to_nat size) false;
            match r with
            | inl e => mret (negb (e =? EAGAIN))
            | inr d =>
                when (Z.of_nat (length d) =? size)
                  (dispatch (msg_cmd b) (msg_length b) (drop MsgHead_size d));;
                mret true
            end
      end
  end.

Fixpoint HandleEvent (fuel : nat) : prog mon unit :=
  match fuel with
  | O => no_fuel
  | S fuel => more ← round; if more : bool then HandleEvent fuel else mret tt
  end.

(** ** The messages the monitor's peers send *)

Inductive message : Type :=
| Control (c : Command)                  (* [send_control_command], or a one-word datagram *)
| SetInfo (a : abi) (info : bytes)
| SetError (a : abi) (info : bytes).

Definition info_code (a : abi) : Z :=
  command_code (match a with abi64 => DAEMON64_SET_INFO | abi32 => DAEMON32_SET_INFO end).
Definition error_code (a : abi) : Z :=
  command_code (match a with abi64 => DAEMON64_SET_ERROR_INFO | abi32 => DAEMON32_SET_ERROR_INFO end).

(** The payload as the daemon lays it out: length with the terminator, text, terminator. *)
Definition encode_payload (code : Z) (info : bytes) : bytes :=
  le_bytes 4 code ++ le_bytes 4 (Z.of_nat (length info) + 1) ++ info ++ [NUL].

Definition encode (m : message) : bytes :=
  match m with
  | Control c => le_bytes 4 (command_code c)
  | SetInfo a info => encode_payload (info_code a) info
  | SetError a info => encode_payload (error_code a) info
  end.

Definition message_ok (m : message) : Prop :=
  match m with
  | Control c => has_payload (command_code c) = false
  | SetInfo _ info | SetError _ info => no_nul info ∧ Z.of_nat (length info) + 9 < 2 ^ 31
  end.

(** What a message asks for. *)
Definition execute (m : message) : prog mon unit :=
  match m with
  | Control c => dispatch (command_code c) 0 []
  | SetInfo a info => modify (upd_status a (set_info (Some info)));; updateStatus
  | SetError a info =>
      modify (upd_status a (λ st, set_error_info (Some (info ++ [NUL])) (set_running false st)));;
      updateStatus
  end.

Definition drop_dgram (s : mon) : mon :=
  let k := kernel s in
  set_kernel (set_dgrams (tail (dgrams k)) (tail (recv_errs k)) k) s.

(** Taking one message off the socket and executing it; a message with a payload does not fit
    the 8 bytes it is received into. *)
Definition serve (m : message) : prog mon unit :=
  match m with
  | Control c => modify drop_dgram;; execute (Control c)
  | SetInfo _ _ | SetError _ _ => crash UseAfterFree
  end.

(** ** Frames *)

Definition same_kernel (s s' : mon) : Prop := kernel s' = kernel s.

#[export] Instance same_kernel_preorder : PreOrder same_kernel.
Proof. split; [done | intros ???; unfold same_kernel; congruence]. Qed.

Lemma updateStatus_kernel s : Moves same_kernel updateStatus s.
Proof. unfold updateStatus, emit. walk. by apply moves_modify. Qed.

Lemma dispatch_kernel cmd len data s : Moves same_kernel (dispatch cmd len data) s.
Proof.
  unfold dispatch, start, stop, exit_monitor, set_daemon_info, set_daemon_error, copy_payload,
    ptrace, emit.
  walk; first [apply updateStatus_kernel | by apply moves_modify].
Qed.

Lemma execute_kernel m s : Moves same_kernel (execute m) s.
Proof.
  destruct m; unfold execute; [apply dispatch_kernel | walk ..];
    first [apply updateStatus_kernel | by apply moves_modify].
Qed.

Lemma dispatch_log cmd len data s : Moves log_grows (dispatch cmd len data) s.
Proof.
  unfold dispatch, start, stop, exit_monitor, set_daemon_info, set_daemon_error, copy_payload, ptrace.
  walk; first [by auto with rezygisk | by apply moves_modify, same_log].
Qed.

Lemma execute_log m s : Moves log_grows (execute m) s.
Proof.
  destruct m; unfold execute; [apply dispatch_log | walk ..];
    first [by auto with rezygisk | by apply moves_modify, same_log].
Qed.

(** ** Receiving *)

Lemma command_of_code c : command_of (command_code c) = Some c.
Proof. by destruct c. Qed.

Section payload.
Context (code : Z) (info : bytes).
Hypothesis Hlen : Z.of_nat (length info) + 9 < 2 ^ 31.

Lemma length_encode_payload : length (encode_payload code info) = (9 + length info)%nat.
Proof. unfold encode_payload. rewrite !length_app, !length_le_bytes. simpl. lia. Qed.

Lemma payload_head : take MsgHead_size (encode_payload code info) =
  le_bytes 4 code ++ le_bytes 4 (Z.of_nat (length info) + 1).
Proof.
  unfold encode_payload. rewrite app_assoc. apply take_app_length'.
  by rewrite length_app, !length_le_bytes.
Qed.

Lemma payload_cmd : 0 <= code < 2 ^ 32 → msg_cmd (take MsgHead_size (encode_payload code info)) = code.
Proof.
  intros Hc. rewrite payload_head. unfold msg_cmd. rewrite take_app_length' by by rewrite length_le_bytes.
  rewrite le_val_bytes_id; [done | simpl; lia].
Qed.

Lemma payload_length :
  msg_length (take MsgHead_size (encode_payload code info)) = Z.of_nat (length info) + 1.
Proof.
  rewrite payload_head. unfold msg_length. rewrite drop_app_length' by by rewrite length_le_bytes.
  rewrite firstn_all2 by by rewrite length_le_bytes.
  rewrite le_val_bytes_id by (simpl; lia). apply wraps_small; simpl; lia.
Qed.

Lemma payload_data : drop MsgHead_size (encode_payload code info) = info ++ [NUL].
Proof.
  unfold encode_payload. rewrite app_assoc. apply drop_app_length'.
  by rewrite length_app, !length_le_bytes.
Qed.

Lemma payload_size : 0 <= code < 2 ^ 32 → has_payload code = true →
  real_size (take MsgHead_size (encode_payload code info)) =
    Some (Z.of_nat (length (encode_payload code info))).
Proof.
  intros Hc Hp. unfold real_size. rewrite payload_cmd, Hp, payload_length by done.
  rewrite length_take, length_encode_payload. unfold MsgHead_size.
  replace (8 `min` (9 + length info))%nat with 8%nat by lia.
  cbn [Nat.ltb Nat.leb Nat.eqb]. f_equal. lia.
Qed.
End payload.

(** The bytes of a well-formed message tell [round] their number ... *)
Lemma real_size_encode m :
  message_ok m → real_size (take MsgHead_size (encode m)) = Some (Z.of_nat (length (encode m))).
Proof.
  destruct m as [c | a i | a i]; cbn [encode message_ok]; intros H.
  - by destruct c.
  - apply payload_size; [apply H | by destruct a | by destruct a].
  - apply payload_size; [apply H | by destruct a | by destruct a].
Qed.

(** ... and what it then executes is what the message asks for. *)
Lemma dispatch_encode m s :
  message_ok m →
  dispatch (msg_cmd (take MsgHead_size (encode m))) (msg_length (take MsgHead_size (encode m)))
    (drop MsgHead_size (encode m)) s = execute m s.
Proof.
  destruct m as [c | a i | a i]; cbn [encode message_ok]; intros H.
  - by destruct c.
  - destruct H as [Hn Hl]. rewrite payload_cmd, payload_length, payload_data by (done || by destruct a).
    replace (dispatch (info_code a) (Z.of_nat (length i) + 1) (i ++ [NUL])) with
      (set_daemon_info a (Z.of_nat (length i) + 1) (i ++ [NUL])) by by destruct a.
    unfold set_daemon_info, copy_payload. rewrite (proj2 (Z.leb_gt _ _)) by lia.
    replace (Z.to_nat (Z.of_nat (length i) + 1 - 1)) with (length i) by lia.
    run_prog. by rewrite take_app_length, cstr_nul.
  - destruct H as [Hn Hl]. rewrite payload_cmd, payload_length, payload_data by (done || by destruct a).
    replace (dispatch (error_code a) (Z.of_nat (length i) + 1) (i ++ [NUL])) with
      (set_daemon_error a (Z.of_nat (length i) + 1) (i ++ [NUL])) by by destruct a.
    unfold set_daemon_error, copy_payload. rewrite (proj2 (Z.leb_gt _ _)) by lia.
    replace (Z.to_nat (Z.of_nat (length i) + 1 - 1)) with (length i) by lia.
    run_prog. rewrite take_app_length. by destruct a.
Qed.

Lemma recv_peek size b q s :
  dgrams (kernel s) = DMsg b :: q → recv size true s = (Ret (inr (take size b)), s).
Proof. intros Hq. unfold recv. run_prog. by rewrite Hq. Qed.

Lemma recv_take size b q s :
  dgrams (kernel s) = DMsg b :: q → recv_errs (kernel s) = [] →
  recv size false s = (Ret (inr (take size b)), drop_dgram s).
Proof. intros Hq He. unfold recv, drop_dgram. run_prog. by rewrite Hq, He. Qed.

(** A message with a payload is larger than its head. *)
Lemma round_payload m q s :
  message_ok m → dgrams (kernel s) = DMsg (encode m) :: q → (MsgHead_size < length (encode m))%nat →
  round s = (Crash UseAfterFree, s).
Proof.
  intros Hm Hq Hl. unfold round, mbind, prog_bind.
  rewrite (recv_peek MsgHead_size _ q s Hq), real_size_encode by done.
  by rewrite (proj2 (Z.ltb_ge _ _)), (proj2 (Z.ltb_lt _ _)) by lia.
Qed.

Lemma round_serve m q s :
  message_ok m → dgrams (kernel s) = DMsg (encode m) :: q → recv_errs (kernel s) = [] →
  round s = (serve m ;; mret true) s.
Proof.
  intros Hm Hq He. destruct m as [c | a i | a i].
  2,3: rewrite (round_payload _ q s Hm Hq); [done|]; cbn [encode]; rewrite length_encode_payload; unfold MsgHead_size; lia.
  set (m := Control c) in *. unfold round, mbind, prog_bind.
  rewrite (recv_peek MsgHead_size _ q s Hq), real_size_encode by done.
  rewrite !(proj2 (Z.ltb_ge _ _)) by (unfold MsgHead_size; simpl; lia). rewrite Nat2Z.id.
  rewrite (recv_take _ (encode m) q s Hq He), firstn_all, Z.eqb_refl.
  cbn [when]. by rewrite dispatch_encode.
Qed.

Lemma serve_queue m s s' :
  serve m s = (Ret tt, s') →
  dgrams (kernel s') = tail (dgrams (kernel s)) ∧ recv_errs (kernel s') = tail (recv_errs (kernel s)).
Proof.
  destruct m as [c | |]; [|done..]. unfold serve, mbind, prog_bind, modify. intros E.
  pose proof (moves_run same_kernel _ _ _ _ E (execute_kernel _ _)) as K.
  unfold same_kernel in K. by rewrite K.
Qed.

(** Enough fuel: one round per message and one that finds nothing. *)
Lemma HandleEvent_drains_fuel ms fuel s :
  Forall message_ok ms → (length ms < fuel)%nat →
  dgrams (kernel s) = (λ m, DMsg (encode m)) <$> ms → recv_errs (kernel s) = [] →
  HandleEvent fuel s = for_each ms serve s.
Proof.
  intros Hms. revert fuel s. induction Hms as [|m ms Hm Hms IH]; intros [|fuel] s Hf Hq He; try (simpl in Hf; lia).
  - simpl. unfold round, recv. run_prog. by rewrite Hq.
  - cbn [length] in Hf. cbn [for_each HandleEvent].
    unfold mbind, prog_bind. rewrite (round_serve m ((λ m, DMsg (encode m)) <$> ms)) by done.
    unfold mbind at 1, prog_bind at 1. destruct (serve m s) as [[[]| | |] s'] eqn:E; try done.
    cbn [mret prog_ret]. apply IH; [lia | |].
    + apply serve_queue in E. destruct E as [-> _]. by rewrite Hq.
    + apply serve_queue in E. destruct E as [_ ->]. by rewrite He.
Qed.

(** C3 Whatever well-formed messages are queued, if no [recv] fails: [HandleEvent] takes the commands
    without a payload off the socket exactly once, in order, executes each as its sender asked,
    and returns when the socket is empty, one round per message and one that finds nothing being
    enough fuel; at the first message with a payload (the information of a daemon) it runs into
    undefined behaviour before it takes it, for [recv] is given the freed storage of the vector. *)
Theorem HandleEvent_drains ms s :
  Forall message_ok ms →
  dgrams (kernel s) = (λ m, DMsg (encode m)) <$> ms → recv_errs (kernel s) = [] →
  HandleEvent (S (length ms)) s = for_each ms serve s.
Proof. intros H. apply HandleEvent_drains_fuel; [done | lia]. Qed.

Definition demo_queue (ms : list message) : kern :=
  mkKern ((λ m, DMsg (encode m)) <$> ms) [] [] [] [] [] [] [] true true false.

Definition demo_messages : list message :=
  [Control STOP; Control ZYGOTE64_INJECTED; Control START; Control SYSTEM_SERVER_STARTED].

Definition demo_info : list message := [Control STOP; SetInfo abi64 (txt "Root: KernelSU")].

Lemma HandleEvent_drains_witness :
  let s' := (HandleEvent 5 (init_mon (demo_queue demo_messages))).2 in
  let r := HandleEvent 3 (init_mon (demo_queue demo_info)) in
  (tracing_state s' = TRACING ∧ zygote_injected (status64 s') = true ∧ dgrams (kernel s') = []) ∧
  (r.1 = Crash UseAfterFree ∧ tracing_state r.2 = STOPPING).
Proof.
  cbv zeta. split.
  - change 5%nat with (S (length demo_messages)).
    rewrite (HandleEvent_drains demo_messages (init_mon (demo_queue demo_messages)));
      [by vm_compute | by repeat constructor | done | done].
  - change 3%nat with (S (length demo_info)).
    rewrite (HandleEvent_drains demo_info (init_mon (demo_queue demo_info))); [by vm_compute | | done | done].
    repeat apply Forall_cons_2; try done. split; [|simpl; lia]. unfold no_nul. by apply (bool_decide_unpack _).
Defined.

(** A datagram whose length does not fit its command (one of at most 3 bytes, a [START] of
    5 bytes, a [SET_INFO] without its length) is only peeked at, never consumed: [HandleEvent]
    does not return, for any amount of fuel, and the monitor makes no further progress. *)
Theorem malformed_datagram_livelock b q s fuel :
  dgrams (kernel s) = DMsg b :: q → real_size (take MsgHead_size b) = None →
  HandleEvent fuel s = (OutOfFuel, s).
Proof.
  intros Hq Hb. induction fuel as [|fuel IH]; [done|]. cbn [HandleEvent].
  assert (round s = (Ret true, s)) as R.
  { unfold round, mbind, prog_bind. by rewrite (recv_peek MsgHead_size b q s Hq), Hb. }
  unfold mbind, prog_bind. by rewrite R.
Qed.

Definition demo_malformed : mon :=
  init_mon (mkKern [DMsg (le_bytes 5 1)] [] [] [] [] [] [] [] true true false).

Lemma malformed_datagram_livelock_witness :
  HandleEvent 1000 demo_malformed = (OutOfFuel, demo_malformed).
Proof. apply (malformed_datagram_livelock (le_bytes 5 1) []); by vm_compute. Defined.

(** The commands with a payload. *)
Lemma dispatch_nonpositive cmd len data s :
  6 <= cmd <= 9 → len <= 0 → ∃ s', dispatch cmd len data s = (Crash OutOfBounds, s').
Proof.
  intros Hc Hl. apply Z.leb_le in Hl.
  assert (cmd = 6 ∨ cmd = 7 ∨ cmd = 8 ∨ cmd = 9) as [-> | [-> | [-> | ->]]] by lia;
    unfold dispatch; cbn; unfold set_daemon_info, set_daemon_error, copy_payload; rewrite Hl;
    run_prog; by eexists.
Qed.

(** A [SET_INFO] or [SET_ERROR_INFO] datagram whose length field is zero or negative takes
    the monitor down, by an uncaught [length_error] or by a [memcpy] of about [SIZE_MAX]
    bytes: the field is used unchecked. *)
Theorem nonpositive_length_crashes b q s fuel :
  dgrams (kernel s) = DMsg b :: q → recv_errs (kernel s) = [] → (MsgHead_size <= length b)%nat →
  6 <= msg_cmd (take MsgHead_size b) <= 9 → msg_length (take MsgHead_size b) <= 0 →
  ∃ w s', HandleEvent (S fuel) s = (Crash w, s').
Proof.
  intros Hq He Hb Hc Hl. set (h := take MsgHead_size b) in *.
  assert (length h = MsgHead_size) as Hh by (unfold h; rewrite length_take; lia).
  assert (real_size h = Some (8 + msg_length h)) as Hs.
  { unfold real_size, has_payload. rewrite Hh. cbn [command_code].
    rewrite (proj2 (Z.leb_le 6 _)), (proj2 (Z.eqb_neq _ 10)) by lia. done. }
  cbn [HandleEvent]. unfold round at 1. unfold mbind, prog_bind.
  rewrite (recv_peek MsgHead_size b q s Hq). fold h. rewrite Hs.
  destruct (Z.ltb_spec (8 + msg_length h) 0); [by repeat eexists|].
  rewrite (proj2 (Z.ltb_ge (Z.of_nat MsgHead_size) _)) by (unfold MsgHead_size; lia).
  cbn [when mret prog_ret].
  rewrite (recv_take (Z.to_nat (8 + msg_length h)) b q s Hq He).
  rewrite length_take, Nat.min_l, Z2Nat.id, Z.eqb_refl by (unfold MsgHead_size in Hb; lia).
  cbn [when]. destruct (dispatch_nonpositive (msg_cmd h) (msg_length h)
    (drop MsgHead_size (take (Z.to_nat (8 + msg_length h)) b)) (drop_dgram s) Hc Hl) as [s' ->].
  by repeat eexists.
Qed.

Definition demo_empty_info : bytes := le_bytes 4 6 ++ le_bytes 4 0.

Lemma nonpositive_length_crashes_witness :
  ∃ w s', HandleEvent 2 (init_mon (mkKern [DMsg demo_empty_info] [] [] [] [] [] [] [] true true false)) =
          (Crash w, s').
Proof.
  apply (nonpositive_length_crashes demo_empty_info []); [done | done | by apply Nat.leb_le | |];
    by vm_compute.
Defined.

(** Every [SET_INFO] and [SET_ERROR_INFO] a daemon sends, however short its text, is received
    through the reference [msg] after the vector it points into was reallocated: the second
    [recv] writes the message, which is longer than 8 bytes, into the freed 8-byte buffer. *)
Theorem daemon_info_use_after_free code a info q s :
  code = info_code a ∨ code = error_code a →
  no_nul info → Z.of_nat (length info) + 9 < 2 ^ 31 →
  dgrams (kernel s) = DMsg (encode_payload code info) :: q →
  round s = (Crash UseAfterFree, s).
Proof.
  intros Hc Hn Hl Hq. pose proof (length_encode_payload code info) as L.
  assert (∃ m, encode m = encode_payload code info ∧ message_ok m) as (m & Em & Hm).
  { destruct Hc as [-> | ->]; [by exists (SetInfo a info) | by exists (SetError a info)]. }
  apply (round_payload m q s Hm); rewrite Em; [done | unfold MsgHead_size; lia].
Qed.

Lemma daemon_info_use_after_free_witness :
  (round (init_mon (demo_queue [SetInfo abi64 (txt "x")]))).1 = Crash UseAfterFree.
Proof.
  rewrite (daemon_info_use_after_free (info_code abi64) abi64 (txt "x") []);
    [done | by left | | simpl; lia | done].
  unfold no_nul. by apply (bool_decide_unpack _).
Defined.

End SocketHandler.
