(* ===== verification/MonitorSigchld.v ===== *)
(** * MonitorSigchld: the wait-status side of the init monitor

    [SigChldHandler] of [ptracer/monitor.cpp] and what it calls: the zygote restart counters,
    [ensure_daemon_created], the macros [CHECK_DAEMON_EXIT] and [PRE_INJECT],
    [fork_dont_care] and [get_program] of [ptracer/utils.cpp]. *)

From Stdlib Require Import ZArith Lia Ascii.
From stdpp Require Import base tactics relations strings list gmap numbers.
From S2P Require Import Prelude Misc WaitStatus MonitorState.

Module SigChldHandler.

(** ** Zygote restarts *)

Definition MAX_RETRY_COUNT : Z := 5.

(** [clock_gettime(CLOCK_MONOTONIC)]. *)
Definition clock_now : prog mon Z :=
  s ← get;
  put (set_kernel (set_clocks (tail (clocks (kernel s))) (kernel s)) s);;
  mret (default 0 (head (clocks (kernel s)))).

Definition count_start (c : zcounter) (now : Z) : zcounter :=
  mkCounter now (if now - last_sec c <? 30 then i32 (zcount c + 1) else 0).

Definition should_stop_inject (a : abi) : prog mon bool :=
  now ← clock_now;
  modify (λ s, set_counter a (count_start (counter_of a s) now) s);;
  s ← get;
  mret (MAX_RETRY_COUNT <=? zcount (counter_of a s)).

(** ** The daemons *)

Definition ensure_daemon_created (a : abi) : prog mon bool :=
  when (bool_decide (a = abi64)) (emit (EvUmount module_prop));;
  modify (upd_status a (set_injected false));;
  s ← get;
  if daemon_pid (status_of a s) =? -1 then
    pid ← sys_fork;
    if pid <? 0 then mret false
    else if pid =? 0 then
      let daemon_name := txt "./bin/zygiskd" ++ abi_suffix a in
      sys_exec [daemon_name; daemon_name];;
      exit 1
    else
      modify (upd_status a (set_created pid));;
      mret true
  else mret (daemon_running (status_of a s)).

Definition status_str_size : nat := 64.

(** [memcpy] of [src] to the start of the heap block [dst]. *)
Definition memcpy_into (dst src : bytes) : prog mon bytes :=
  if (length dst <? length src)%nat then crash OutOfBounds
  else mret (src ++ drop (length src) dst).

Section handler.
(** The signal names of the C library. *)
Context (sys_signame : Z → bytes).

(** [true] when the macro executes its [continue].  Both expansions compare with
    [status64.daemon_pid], and [daemon_error_info] is read without a null check. *)
Definition CHECK_DAEMON_EXIT (a : abi) (pid : Z) : prog mon bool :=
  s ← get;
  if supported (status_of a s) && (pid =? daemon_pid (status64 s)) then
    let status_str := parse_status sys_signame (wstatus s) status_str_size in
    modify (upd_status a (set_running false));;
    match daemon_error_info (status_of a s) with
    | None => crash NullDeref
    | Some buf =>
        when (bool_decide (head buf = Some NUL))
          (buf' ← memcpy_into buf (cstr status_str);
           modify (upd_status a (set_error_info (Some buf'))))
    end;;
    updateStatus;;
    mret true
  else mret false.

(** ** Injection *)

Definition app_process (a : abi) : bytes := txt "/system/bin/app_process" ++ abi_suffix a.
Definition tracer_name (a : abi) : bytes := txt "zygisk-ptrace" ++ abi_suffix a.
Definition tracer_path (a : abi) : bytes := txt "./bin/" ++ tracer_name a.

(** The tail the two refusals of [PRE_INJECT] share. *)
Definition stop_injecting (reason : bytes) : prog mon unit :=
  modify (λ s, set_reason reason (set_tracing STOPPING s));;
  ptrace PTRACE_INTERRUPT 1.

(** [None] when the macro executes its [break], the new value of [tracer] otherwise. *)
Definition PRE_INJECT (a : abi) (program : bytes) (tracer : option abi)
  : prog mon (option (option abi)) :=
  if bool_decide (program = app_process a) then
    too_often ← should_stop_inject a;
    if too_often : bool then stop_injecting (txt "zygote crashed");; mret None
    else
      created ← ensure_daemon_created a;
      if created : bool then mret (Some (Some a))
      else stop_injecting (txt "daemon not running");; mret None
  else mret (Some tracer).

(** The double fork: 0 in the grandchild, the result of the failing [fork] or the pid of the
    reaped child otherwise. *)
Definition fork_dont_care : prog mon Z :=
  pid ← sys_fork;
  if pid <? 0 then mret pid
  else if pid =? 0 then
    pid2 ← sys_fork;
    if pid2 <? 0 then mret pid2
    else if 0 <? pid2 then exit 0
    else mret pid2
  else emit (EvWaitpid pid);; mret pid.

(** [waitpid(pid, &status, __WALL)]. *)
Definition wait_stopped (pid : Z) : prog mon unit :=
  emit (EvWaitpid pid);;
  s ← get;
  let k := kernel s in
  put (set_wstatus (default (wstatus s) (head (swaits k)))
         (set_kernel (set_swaits (tail (swaits k)) k) s)).

(** Hand the stopped zygote over to the tracer of its ABI. *)
Definition hand_over (pid : Z) (tracer : abi) : prog mon unit :=
  emit (EvKill pid SIGSTOP);;
  ptrace (PTRACE_CONT 0) pid;;
  wait_stopped pid;;
  s ← get;
  when (STOPPED_WITH SIGSTOP 0 (wstatus s))
    (ptrace (PTRACE_DETACH SIGSTOP) pid;;
     modify (set_wstatus 0);;
     p ← fork_dont_care;
     if p =? 0 then
       sys_exec [tracer_path tracer; tracer_name tracer; txt "trace"; print_int pid;
                 txt "--restart"];;
       emit (EvKill pid SIGKILL);;
       exit 1
     else when (p =? -1) (emit (EvKill pid SIGKILL))).

(** The body of the [do { } while (false)]. *)
Definition inject (pid : Z) (program : bytes) : prog mon unit :=
  s ← get;
  if negb (bool_decide (tracing_state s = TRACING)) then mret tt
  else
    r ← PRE_INJECT abi64 program None;
    match r with
    | None => mret tt
    | Some tracer =>
        r ← PRE_INJECT abi32 program tracer;
        match r with
        | Some (Some tracer) => hand_over pid tracer
        | _ => mret tt
        end
    end.

Definition PATH_MAX : nat := 4096.

(** [None]: -1.  [buf[sz] = 0] is outside the buffer when [readlink] fills it. *)
Definition get_program : prog mon (option bytes) :=
  s ← get;
  let k := kernel s in
  put (set_kernel (set_links (tail (links k)) k) s);;
  match default None (head (links k)) with
  | None => mret None
  | Some l =>
      if (PATH_MAX <=? length l)%nat then crash OutOfBounds else mret (Some (cstr l))
  end.

(** ** One reported process *)

Definition stopping_signal (sig : Z) : bool :=
  (sig =? SIGSTOP) || (sig =? SIGTSTP) || (sig =? SIGTTIN) || (sig =? SIGTTOU).

(** [pid == 1]. *)
Definition reap_init : prog mon unit :=
  s ← get;
  let status := wstatus s in
  if negb (STOPPED_WITH SIGTRAP PTRACE_EVENT_FORK status) &&
     STOPPED_WITH SIGTRAP PTRACE_EVENT_STOP status && bool_decide (tracing_state s = STOPPING)
  then ptrace (PTRACE_DETACH 0) 1;; modify (set_tracing STOPPED)
  else
    when (STOPPED_WITH SIGTRAP PTRACE_EVENT_FORK status) (ptrace PTRACE_GETEVENTMSG 1);;
    when (WIFSTOPPED status)
      (if (WPTEVENT status =? 0) && negb (stopping_signal (WSTOPSIG status))
       then ptrace (PTRACE_CONT (WSTOPSIG status)) 1
       else ptrace (PTRACE_CONT 0) 1).

(** A process of the set: a program was executed, or the process is of no interest. *)
Definition reap_known (pid : Z) : prog mon unit :=
  s ← get;
  go ← (if STOPPED_WITH SIGTRAP PTRACE_EVENT_EXEC (wstatus s) then
          p ← get_program;
          match p with
          | None => mret false
          | Some program => inject pid program;; updateStatus;; mret true
          end
        else mret true);
  when go
    (modify (λ s, set_process (process s ∖ {[pid]}) s);;
     s ← get;
     when (WIFSTOPPED (wstatus s)) (ptrace (PTRACE_DETACH 0) pid)).

Definition reap_new (pid : Z) : prog mon unit :=
  modify (λ s, set_process (process s ∪ {[pid]}) s);;
  ptrace PTRACE_SETOPTIONS pid;;
  ptrace (PTRACE_CONT 0) pid.

(** The body of the inner loop behind the error check. *)
Definition reap (pid : Z) : prog mon unit :=
  if pid =? 1 then reap_init
  else
    dead ← CHECK_DAEMON_EXIT abi64 pid;
    if dead : bool then mret tt
    else
      dead ← CHECK_DAEMON_EXIT abi32 pid;
      if dead : bool then mret tt
      else
        s ← get;
        if bool_decide (pid ∈ process s) then reap_known pid else reap_new pid.

(** Once the reports of the script are taken, [waitpid] goes on answering 0 as long as there is a
    child or a traced process, and -1 with ECHILD when there is none. *)
Definition next_wait : prog mon wres :=
  s ← get;
  let k := kernel s in
  put (set_kernel (set_waits (tail (waits k)) k) s);;
  mret (default (if no_children k then WErr ECHILD else WNone) (head (waits k))).

(** [while ((pid = waitpid(-1, &status, __WALL | WNOHANG)) != 0)].  A failing [waitpid]
    leaves [status] alone and the body runs with pid -1. *)
Fixpoint reap_loop (fuel : nat) : prog mon unit :=
  match fuel with
  | O => no_fuel
  | S fuel =>
      w ← next_wait;
      match w with
      | WNone => mret tt
      | WErr errno =>
          s ← get;
          if bool_decide (tracing_state s = STOPPED) && (errno =? ECHILD) then mret tt
          else reap (-1);; reap_loop fuel
      | WPid pid status => modify (set_wstatus status);; reap pid;; reap_loop fuel
      end
  end.

Definition next_sfd : prog mon sfd_ans :=
  s ← get;
  let k := kernel s in
  put (set_kernel (set_sfds (tail (sfds k)) k) s);;
  mret (default (SfdErr EAGAIN) (head (sfds k))).

(** [while (1)]; [n] is the fuel of each inner loop. *)
Fixpoint sigchld_loop (n fuel : nat) : prog mon unit :=
  match fuel with
  | O => no_fuel
  | S fuel =>
      r ← next_sfd;
      match r with
      | SfdErr errno => if errno =? EAGAIN then mret tt else sigchld_loop n fuel
      | SfdShort _ => sigchld_loop n fuel
      | SfdSignal signo =>
          if signo =? SIGCHLD then reap_loop n;; sigchld_loop n fuel else sigchld_loop n fuel
      end
  end.

Definition HandleEvent (fuel : nat) : prog mon unit := sigchld_loop fuel fuel.
End handler.

(** ** Termination *)

(** The scripts the loops count down are only read by the loops. *)
Definition same_scripts (s s' : mon) : Prop :=
  waits (kernel s') = waits (kernel s) ∧ sfds (kernel s') = sfds (kernel s) ∧
  no_children (kernel s') = no_children (kernel s).

#[export] Instance same_scripts_preorder : PreOrder same_scripts.
Proof. split; [done|]. intros x y z (?&?&?) (?&?&?). unfold same_scripts. split_and!; congruence. Qed.

(** A monitor that is not tracing only goes from stopping to stopped. *)
Definition winding (s s' : mon) : Prop :=
  tracing_state s ≠ TRACING →
  tracing_state s' = tracing_state s ∨ tracing_state s = STOPPING ∧ tracing_state s' = STOPPED.

#[export] Instance winding_preorder : PreOrder winding.
Proof.
  split; [by left|]. intros x y z A B Hx. destruct (A Hx) as [E|[E1 E2]].
  - unfold winding in B. rewrite E in B. auto.
  - destruct B as [E|[E _]]; [congruence | right; split; congruence | congruence].
Qed.

Lemma winding_frame s s' : tracing_state s' = tracing_state s → winding s s'.
Proof. by left. Qed.

Ltac unfold_reap :=
  unfold reap, CHECK_DAEMON_EXIT, memcpy_into, reap_init, reap_new, reap_known, get_program,
    inject, PRE_INJECT, should_stop_inject, clock_now, ensure_daemon_created, stop_injecting,
    hand_over, wait_stopped, fork_dont_care, sys_fork, sys_exec, updateStatus, ptrace, emit.

(** A report that init has stopped in answer to an interrupt. *)
Definition init_stopped (w : wres) : bool :=
  match w with
  | WPid pid status => (pid =? 1) && negb (STOPPED_WITH SIGTRAP PTRACE_EVENT_FORK status) &&
                       STOPPED_WITH SIGTRAP PTRACE_EVENT_STOP status
  | _ => false
  end.

(** There is something left to wait for, or the monitor has stopped or is about to. *)
Definition winds_up (s : mon) : Prop :=
  no_children (kernel s) = false ∨ tracing_state s = STOPPED ∨
  tracing_state s = STOPPING ∧ Exists (λ w, init_stopped w = true) (waits (kernel s)).

Section termination.
Context (sys_signame : Z → bytes).

Lemma reap_scripts pid s : Moves same_scripts (reap sys_signame pid) s.
Proof. unfold_reap. walk; by (apply moves_modify || apply moves_put). Qed.

Lemma reap_halts pid s : Halts (reap sys_signame pid) s.
Proof. unfold_reap. walk_halts. Qed.

Lemma inject_winding pid program s : Moves winding (inject pid program) s.
Proof.
  destruct (decide (tracing_state s = TRACING)) as [Ht|Ht].
  - eapply moves_to; [apply surjective_pairing | by intros ?].
  - unfold inject. apply moves_get_bind. rewrite (bool_decide_eq_false_2 _ Ht). cbn [negb]. walk.
Qed.

Lemma reap_init_winding s : Moves winding reap_init s.
Proof.
  unfold reap_init. apply moves_get_bind. cbv zeta. destruct (_ && _) eqn:E.
  - apply andb_prop in E as [_ E%bool_decide_eq_true]. eapply moves_to; [reflexivity|]. by right.
  - unfold ptrace, emit. walk; by apply moves_modify, winding_frame.
Qed.

Lemma reap_winding pid s : Moves winding (reap sys_signame pid) s.
Proof.
  unfold reap, CHECK_DAEMON_EXIT, memcpy_into, reap_new, reap_known, get_program, updateStatus, ptrace, emit.
  walk; try apply reap_init_winding; try apply inject_winding;
    (apply moves_modify || apply moves_put); by apply winding_frame.
Qed.

(** Taking a report off the script. *)
Lemma next_wait_eq s : next_wait s =
  (Ret (default (if no_children (kernel s) then WErr ECHILD else WNone) (head (waits (kernel s)))),
   set_kernel (set_waits (tail (waits (kernel s))) (kernel s)) s).
Proof. reflexivity. Qed.

Lemma next_wait_run s w s' :
  next_wait s = (Ret w, s') →
  w = default (if no_children (kernel s) then WErr ECHILD else WNone) (head (waits (kernel s))) ∧
  s' = set_kernel (set_waits (tail (waits (kernel s))) (kernel s)) s.
Proof. rewrite next_wait_eq. by intros [= <- <-]. Qed.

Lemma winds_up_reap pid s s' :
  winds_up s → reap sys_signame pid s = (Ret tt, s') → winds_up s'.
Proof.
  intros Hw E. pose proof (moves_run same_scripts _ _ _ _ E (reap_scripts _ _)) as (E1 & _ & E3).
  pose proof (moves_run winding _ _ _ _ E (reap_winding _ _)) as K. unfold winds_up. rewrite E1, E3.
  destruct Hw as [H|[H|[H1 H2]]]; [by left | |].
  - right. left. destruct K as [K|[K _]]; congruence.
  - destruct K as [K|[_ K]]; [congruence | | by auto]. right. right. split; [congruence | done].
Qed.

(** A report that is served: what is left winds up as well. *)
Lemma winds_up_step w ws pid s s' :
  winds_up s → waits (kernel s) = w :: ws →
  (∀ p st, w = WPid p st → pid = p) →
  reap sys_signame pid (match w with WPid _ st => set_wstatus st | _ => id end
    (set_kernel (set_waits ws (kernel s)) s)) = (Ret tt, s') → winds_up s'.
Proof.
  intros Hw Ew Hp E. set (t := match w with WPid _ st => _ | _ => _ end _) in *.
  assert (tracing_state t = tracing_state s ∧ kernel t = set_waits ws (kernel s)) as [Et Ek]
    by (unfold t; by destruct w).
  destruct Hw as [H|[H|[H1 H2]]].
  - eapply winds_up_reap; [|exact E]. left. by rewrite Ek.
  - eapply winds_up_reap; [|exact E]. right. left. congruence.
  - rewrite Ew in H2. apply Exists_cons in H2 as [H2|H2].
    + destruct w as [|?|p st]; try done. rewrite (Hp p st eq_refl) in E.
      cbn [init_stopped] in H2. apply andb_prop in H2 as [H2 H3]. apply andb_prop in H2 as [->%Z.eqb_eq H2].
      right. left. revert E. change (reap sys_signame 1) with reap_init. unfold reap_init. step. cbv zeta.
      change (wstatus t) with st. rewrite H2, H3, Et, H1. by intros [= <-].
    + eapply winds_up_reap; [|exact E]. right. right. rewrite Ek. split; [congruence | done].
Qed.

(** The body, then a loop that still has fuel for what is left to report. *)
Lemma reap_loop_halts fuel s :
  (length (waits (kernel s)) < fuel)%nat → winds_up s → Halts (reap_loop sys_signame fuel) s.
Proof.
  revert s. induction fuel as [|fuel IH]; intros s Hf Hw; [lia|]. cbn [reap_loop].
  apply halts_bind; [unfold next_wait; walk_halts|]. intros w s' [-> ->]%next_wait_run.
  destruct (waits (kernel s)) as [|w ws] eqn:E; cbn [head tail from_option id] in *.
  - destruct (no_children (kernel s)) eqn:Hn; [|by eapply halts_pure].
    apply halts_get_bind. destruct Hw as [H|[H|[_ H]]]; [congruence | |].
    + cbn [tracing_state set_kernel]. rewrite H. by eapply halts_pure.
    + rewrite E in H. by apply Exists_nil in H.
  - assert (∀ pid, (∀ p st, w = WPid p st → pid = p) →
      Halts (reap sys_signame pid;; reap_loop sys_signame fuel)
        (match w with WPid _ st => set_wstatus st | _ => id end (set_kernel (set_waits ws (kernel s)) s))) as K.
    { intros pid Hp. apply halts_bind; [apply reap_halts|]. intros [] s' Er. apply IH.
      - pose proof (moves_run same_scripts _ _ _ _ Er (reap_scripts _ _)) as (-> & _). destruct w; simpl in *; lia.
      - by eapply winds_up_step. }
    destruct w as [|errno|pid status]; [by eapply halts_pure | |].
    + apply halts_get_bind. cbv beta. destruct (_ && _); [by eapply halts_pure|]. by apply (K (-1)).
    + apply halts_bind; [by eapply halts_pure|]. intros [] s' [= <-]. apply (K pid). by intros ?? [= -> _].
Qed.

(** What the inner loop leaves to the outer one. *)
Definition left_over (s s' : mon) : Prop :=
  sfds (kernel s') = sfds (kernel s) ∧ (length (waits (kernel s')) <= length (waits (kernel s)))%nat ∧
  (winds_up s → winds_up s').

Lemma reap_loop_left fuel s s' : reap_loop sys_signame fuel s = (Ret tt, s') → left_over s s'.
Proof.
  revert s. induction fuel as [|fuel IH]; intros s; [done|]. cbn [reap_loop].
  unfold mbind at 1, prog_bind at 1. destruct (next_wait s) as [[w| | |] s1] eqn:E1; try done.
  apply next_wait_run in E1 as [-> ->]. set (t := set_kernel _ s).
  assert (∀ u pid, (reap sys_signame pid;; reap_loop sys_signame fuel) u = (Ret tt, s') →
    sfds (kernel u) = sfds (kernel s) → (length (waits (kernel u)) <= length (waits (kernel s)))%nat →
    (winds_up s → ∀ s2, reap sys_signame pid u = (Ret tt, s2) → winds_up s2) → left_over s s') as K.
  { intros u pid. unfold mbind, prog_bind. destruct (reap _ _ _) as [[[]| | |] s2] eqn:Er; try done.
    intros (I1 & I2 & I3)%IH Hs Hl Hw. pose proof (moves_run same_scripts _ _ _ _ Er (reap_scripts _ _)) as (R1 & R2 & _).
    split_and!; [congruence | rewrite R1 in I2; lia | eauto]. }
  destruct (waits (kernel s)) as [|w ws] eqn:E; cbn [head tail from_option id].
  - assert (winds_up s → winds_up t) as Hu by (unfold winds_up, t; cbn; by rewrite E).
    assert (left_over s t) as H0 by (split_and!; [done | by rewrite E | done]).
    destruct (no_children (kernel s)); [|by intros [= <-]]. step. destruct (_ && _); [by intros [= <-]|].
    intros H. eapply K; [exact H | done | done | eauto using winds_up_reap].
  - destruct w as [|errno|pid status].
    + intros [= <-]. split_and!; [done | rewrite E; cbn; lia|]. unfold winds_up, t. cbn. rewrite E, Exists_cons. naive_solver.
    + step. destruct (_ && _) eqn:Eb.
      { intros [= <-]. split_and!; [done | rewrite E; cbn; lia|]. unfold winds_up, t. cbn. rewrite E, Exists_cons. naive_solver. }
      intros H. eapply K; [exact H | done | cbn; lia|]. intros Hw s2. by apply (winds_up_step (WErr errno) ws).
    + step. intros H. eapply K; [exact H | done | cbn; lia|]. intros Hw s2.
      apply (winds_up_step (WPid pid status) ws); [done | done | by intros ?? [= ->]].
Qed.

Lemma next_sfd_eq s : next_sfd s =
  (Ret (default (SfdErr EAGAIN) (head (sfds (kernel s)))), set_kernel (set_sfds (tail (sfds (kernel s))) (kernel s)) s).
Proof. reflexivity. Qed.

Lemma next_sfd_run s r s' :
  next_sfd s = (Ret r, s') →
  r = default (SfdErr EAGAIN) (head (sfds (kernel s))) ∧
  s' = set_kernel (set_sfds (tail (sfds (kernel s))) (kernel s)) s.
Proof. rewrite next_sfd_eq. by intros [= <- <-]. Qed.

(** The inner loop, given as much fuel as there are processes to report, and the outer loop,
    given as much as there are signals to read, never run out of it. *)
Lemma sigchld_loop_halts n fuel s :
  (length (sfds (kernel s)) < fuel)%nat → (length (waits (kernel s)) < n)%nat → winds_up s →
  Halts (sigchld_loop sys_signame n fuel) s.
Proof.
  revert s. induction fuel as [|fuel IH]; intros s Hf Hn Hw; [lia|]. cbn [sigchld_loop].
  apply halts_bind; [unfold next_sfd; walk_halts|]. intros r s' [-> ->]%next_sfd_run.
  destruct (sfds (kernel s)) as [|r l] eqn:E; rewrite ?E in Hf; simpl in *;
    [by eapply halts_pure|].
  destruct r as [errno|m|signo]; walk_halts; try (apply IH; simpl; (lia || done)).
  - by apply reap_loop_halts.
  - destruct a. apply reap_loop_left in H as (H1 & H2 & H3). simpl in *. apply IH; [rewrite H1; lia | lia | auto].
Qed.
End termination.

(** C32 However many signals are pending and processes are reported, and whatever happened to
    them, [HandleEvent] comes to an end (it returns, or the process ends in it), a round for each
    of them and one more being enough, provided that [waitpid] has something to wait for once
    they are reported, or that the monitor is stopped by then: it was already, or it was stopping
    and the stop of init is among the reports. *)
Theorem HandleEvent_terminates sys_signame fuel s :
  (length (sfds (kernel s)) < fuel)%nat → (length (waits (kernel s)) < fuel)%nat → winds_up s →
  (HandleEvent sys_signame fuel s).1 ≠ OutOfFuel.
Proof.
  intros H1 H2 H3. pose proof (sigchld_loop_halts sys_signame fuel fuel s H1 H2 H3) as H. exact H.
Qed.

(** A stop request has been made; init stops, and is all the monitor had to wait for. *)
Definition demo_last_stop : mon :=
  set_tracing STOPPING (init_mon (mkKern [] [] [SfdSignal SIGCHLD]
    [WPid 1 (stop_status SIGTRAP PTRACE_EVENT_STOP)] [] [] [] [] true true true)).

Lemma HandleEvent_terminates_witness :
  (HandleEvent (λ _, []) 2 demo_last_stop).1 ≠ OutOfFuel ∧
  tracing_state (HandleEvent (λ _, []) 2 demo_last_stop).2 = STOPPED.
Proof.
  split; [|by vm_compute].
  apply (HandleEvent_terminates (λ _, []) 2 demo_last_stop); [simpl; lia | simpl; lia|].
  right. right. split; [done|]. by apply Exists_cons_hd.
Defined.

(** ... and otherwise it may not: with nothing left to wait for, a monitor that is not stopped takes
    the error of [waitpid] for the report of a process -1, again and again. *)
Record childless (s : mon) : Prop := {
  cl_none : no_children (kernel s) = true;
  cl_reports : waits (kernel s) = [];
  cl_state : tracing_state s ≠ STOPPED;
  cl_daemon : daemon_pid (status64 s) ≠ -1;
  cl_status : STOPPED_WITH SIGTRAP PTRACE_EVENT_EXEC (wstatus s) = false
}.

Lemma reap_childless sig s : childless s → ∃ s', reap sig (-1) s = (Ret tt, s') ∧ childless s'.
Proof.
  intros [H1 H2 H3 H4 H5]. change (reap sig (-1)) with
    (dead ← CHECK_DAEMON_EXIT sig abi64 (-1); if dead : bool then mret tt
     else dead ← CHECK_DAEMON_EXIT sig abi32 (-1); if dead : bool then mret tt
     else s ← get; if bool_decide (-1 ∈ process s) then reap_known (-1) else reap_new (-1)).
  assert (∀ a, CHECK_DAEMON_EXIT sig a (-1) s = (Ret false, s)) as Hc.
  { intros a. unfold CHECK_DAEMON_EXIT. step. by rewrite (proj2 (Z.eqb_neq _ _)), andb_false_r. }
  step_with (Hc abi64). step_with (Hc abi32). step. case_bool_decide.
  - unfold reap_known. step. rewrite H5. step. cbn [when]. step. step.
    destruct (WIFSTOPPED _); eexists; (split; [reflexivity|]); by constructor.
  - eexists. split; [reflexivity|]. by constructor.
Qed.

Theorem childless_monitor_spins sig fuel s l :
  childless s → sfds (kernel s) = SfdSignal SIGCHLD :: l → (HandleEvent sig fuel s).1 = OutOfFuel.
Proof.
  intros Hs Hl. assert (∀ n s, childless s → ∃ s', reap_loop sig n s = (OutOfFuel, s')) as K.
  { clear. induction n as [|n IH]; intros s Hs; [by eexists|]. pose proof Hs as [H1 H2 H3 _ _]. cbn [reap_loop].
    step_with (next_wait_eq s). rewrite H1, H2. cbn [head from_option id]. step. cbn [tracing_state set_kernel]. rewrite bool_decide_eq_false_2 by done. cbn [andb].
    destruct (reap_childless sig (set_kernel (set_waits (tail []) (kernel s)) s)) as (s' & E & Hs').
    { destruct Hs. by constructor. }
    step_with E. by apply IH. }
  unfold HandleEvent. destruct fuel as [|fuel]; [done|]. cbn [sigchld_loop].
  step_with (next_sfd_eq s). rewrite Hl. cbn [head from_option id].
  rewrite (Z.eqb_refl SIGCHLD).
  destruct (K (S fuel) (set_kernel (set_sfds (tail (SfdSignal SIGCHLD :: l)) (kernel s)) s)) as [s' E].
  { destruct Hs. by constructor. }
  unfold mbind, prog_bind. by rewrite E.
Qed.

(** ** The restart guard *)

(** The times between consecutive zygote starts, the first counted from [prev]. *)
Fixpoint gaps (prev : Z) (ts : list Z) : list Z :=
  match ts with
  | [] => []
  | t :: ts => (t - prev) :: gaps t ts
  end.

(** The counter after zygote starts at the times [ts]. *)
Definition starts (ts : list Z) : zcounter := foldl count_start (mkCounter 0 0) ts.

Definition quick (g : Z) : Prop := g < 30.

Fixpoint last_of (prev : Z) (ts : list Z) : Z :=
  match ts with [] => prev | t :: ts => last_of t ts end.

Lemma foldl_last_sec c ts : last_sec (foldl count_start c ts) = last_of (last_sec c) ts.
Proof. revert c. induction ts as [|t ts IH]; intros c; [done|]. simpl foldl. by rewrite IH. Qed.

Lemma gaps_snoc p ts t : gaps p (ts ++ [t]) = gaps p ts ++ [t - last_of p ts].
Proof. revert p. induction ts as [|u ts IH]; intros p; [done|]. simpl. by rewrite IH. Qed.

Lemma starts_snoc ts t :
  starts (ts ++ [t]) =
    mkCounter t (if t - last_of 0 ts <? 30 then i32 (zcount (starts ts) + 1) else 0).
Proof.
  unfold starts. rewrite foldl_app. cbn [foldl]. unfold count_start at 1. by rewrite foldl_last_sec.
Qed.

Lemma starts_range ts : Z.of_nat (length ts) < 2 ^ 31 → 0 <= zcount (starts ts) <= Z.of_nat (length ts).
Proof.
  induction ts as [|t ts IH] using rev_ind; [simpl; lia|]. rewrite length_app, starts_snoc. simpl length.
  intros. cbn [zcount]. destruct (_ <? 30); [|lia]. rewrite wraps_small; lia.
Qed.

(** The counter is the number of quick restarts in a row. *)
Lemma starts_spec ts n :
  Z.of_nat (length ts) < 2 ^ 31 →
  Z.of_nat n <= zcount (starts ts) ↔
  ∃ l r, gaps 0 ts = l ++ r ∧ length r = n ∧ Forall quick r.
Proof.
  revert n. induction ts as [|t ts IH] using rev_ind; intros n Hl.
  - simpl. split.
    + intros. exists [], []. repeat split; [simpl; lia | constructor].
    + intros (l & r & E & <- & _). symmetry in E. apply app_nil in E as [-> ->]. simpl. lia.
  - rewrite length_app in Hl. simpl in Hl. rewrite starts_snoc, gaps_snoc. cbn [zcount].
    pose proof (starts_range ts ltac:(lia)) as Hr. specialize (IH (pred n) ltac:(lia)).
    destruct n as [|n].
    { split; [|destruct (_ <? 30); rewrite ?wraps_small; lia].
      intros _. exists (gaps 0 ts ++ [t - last_of 0 ts]), []. rewrite app_nil_r. repeat split; constructor. }
    cbn [pred] in IH. destruct (Z.ltb_spec (t - last_of 0 ts) 30) as [Hq|Hq].
    + rewrite wraps_small by lia. rewrite Nat2Z.inj_succ.
      transitivity (Z.of_nat n <= zcount (starts ts)); [lia|]. rewrite IH. split.
      * intros (l & r & -> & <- & Hf). exists l, (r ++ [t - last_of 0 ts]).
        rewrite <- app_assoc, length_app. simpl. repeat split; [lia|]. by apply Forall_app_2, Forall_singleton.
      * intros (l & r & E & Hn & Hf). destruct r as [|g r _] using rev_ind; [done|].
        rewrite app_assoc in E. apply app_inj_tail in E as [-> _]. exists l, r.
        rewrite length_app in Hn. simpl in Hn. apply Forall_app in Hf as [Hf _].
        repeat split; [lia | done].
    + split; [lia|]. intros (l & r & E & Hn & Hf). destruct r as [|g r _] using rev_ind; [done|].
      rewrite app_assoc in E. apply app_inj_tail in E as [_ Eg].
      apply Forall_app in Hf as [_ Hf]. rewrite Forall_singleton in Hf. unfold quick in Hf. lia.
Qed.

(** The restart guard stops the injection exactly when the last five zygote starts each
    followed the previous one (the very first: boot) by less than 30 seconds; anything slower
    resets it.  The counters of the two ABIs are independent. *)
Theorem should_stop_inject_spec a s ts t q :
  counter_of a s = starts ts → clocks (kernel s) = t :: q →
  Z.of_nat (length ts) + 1 < 2 ^ 31 →
  ∃ b s', should_stop_inject a s = (Ret b, s') ∧
    counter_of a s' = starts (ts ++ [t]) ∧
    (∀ a', a' ≠ a → counter_of a' s' = counter_of a' s) ∧
    (b = true ↔ ∃ l r, gaps 0 (ts ++ [t]) = l ++ r ∧ length r = 5%nat ∧ Forall quick r).
Proof.
  intros Hc Hk Hl.
  assert (starts (ts ++ [t]) = count_start (counter_of a s) t) as E.
  { rewrite Hc. unfold starts. by rewrite foldl_app. }
  exists (MAX_RETRY_COUNT <=? zcount (starts (ts ++ [t]))),
    (set_counter a (starts (ts ++ [t])) (set_kernel (set_clocks q (kernel s)) s)).
  rewrite <- (starts_spec _ 5), Z.leb_le by (rewrite length_app; simpl; lia).
  rewrite E. unfold should_stop_inject, clock_now, mbind, prog_bind, get, put, modify. rewrite Hk.
  repeat split; try (by destruct a); try done. by destruct a; intros [].
Qed.

Lemma should_stop_inject_spec_witness :
  ∃ b s', should_stop_inject abi32
    (set_counter abi32 (starts [100; 110; 120; 130; 140])
       (init_mon (set_clocks [150] demo_kern))) = (Ret b, s') ∧ b = true.
Proof.
  destruct (should_stop_inject_spec abi32 (set_counter abi32 (starts [100; 110; 120; 130; 140])
       (init_mon (set_clocks [150] demo_kern))) [100; 110; 120; 130; 140] 150 [])
    as (b & s' & E & _ & _ & H); [done | done | simpl; lia |].
  exists b, s'. split; [exact E|]. apply H. exists [100], [10; 10; 10; 10; 10].
  repeat split. repeat apply Forall_cons_2; done.
Defined.

(** ** Handing a zygote over *)

Lemma CHECK_DAEMON_EXIT_skip sys_signame a pid s :
  pid ≠ daemon_pid (status64 s) → CHECK_DAEMON_EXIT sys_signame a pid s = (Ret false, s).
Proof.
  intros H. unfold CHECK_DAEMON_EXIT, mbind, prog_bind, get.
  by rewrite (proj2 (Z.eqb_neq _ _) H), andb_false_r.
Qed.

Lemma app_process_inj a b : app_process a = app_process b → a = b.
Proof. by destruct a, b. Qed.

Lemma PRE_INJECT_other a b tracer s :
  a ≠ b → PRE_INJECT b (app_process a) tracer s = (Ret (Some tracer), s).
Proof.
  intros H. unfold PRE_INJECT. rewrite bool_decide_eq_false_2; [done|].
  intros E%app_process_inj. done.
Qed.

(** A process that is neither init nor a daemon is looked up in the set. *)
Lemma reap_other sys_signame pid s :
  pid ≠ 1 → pid ≠ daemon_pid (status64 s) →
  reap sys_signame pid s = (if bool_decide (pid ∈ process s) then reap_known pid else reap_new pid) s.
Proof.
  intros H1 Hd. unfold reap. rewrite (proj2 (Z.eqb_neq _ _) H1).
  step_with (CHECK_DAEMON_EXIT_skip sys_signame abi64 _ _ Hd).
  step_with (CHECK_DAEMON_EXIT_skip sys_signame abi32 _ _ Hd). by step.
Qed.

(** A zygote start that is not one too many, with the daemon of its ABI alive. *)
Record ready_to_inject (a : abi) (s : mon) (t : Z) (q : list Z) : Prop := {
  ri_clock : clocks (kernel s) = t :: q;
  ri_slow : zcount (count_start (counter_of a s) t) < MAX_RETRY_COUNT;
  ri_pid : daemon_pid (status_of a s) ≠ -1;
  ri_running : daemon_running (status_of a s) = true
}.

Definition umounts (a : abi) : list mevent :=
  match a with abi64 => [EvUmount module_prop] | abi32 => [] end.

Lemma PRE_INJECT_ready a tracer s t q :
  ready_to_inject a s t q →
  ∃ s', PRE_INJECT a (app_process a) tracer s = (Ret (Some (Some a)), s') ∧
    mlog s' = mlog s ++ umounts a ∧ process s' = process s ∧ tracing_state s' = tracing_state s ∧
    kernel s' = set_clocks q (kernel s) ∧ wstatus s' = wstatus s.
Proof.
  intros [Hk Hs Hp Hr]. unfold PRE_INJECT. rewrite bool_decide_eq_true_2 by done.
  unfold should_stop_inject, clock_now, ensure_daemon_created, mbind, prog_bind, get, put, modify.
  rewrite Hk. destruct a; simpl in *; rewrite (proj2 (Z.leb_gt _ _) Hs); unfold when, emit, modify;
    simpl; rewrite (proj2 (Z.eqb_neq _ _) Hp), Hr; eexists; (split; [reflexivity|]);
    by rewrite ?app_nil_r.
Qed.

Lemma inject_ready a pid s t q :
  tracing_state s = TRACING → ready_to_inject a s t q →
  ∃ s', inject pid (app_process a) s = hand_over pid a s' ∧
    mlog s' = mlog s ++ umounts a ∧ process s' = process s ∧ tracing_state s' = TRACING ∧
    kernel s' = set_clocks q (kernel s) ∧ wstatus s' = wstatus s.
Proof.
  intros Ht H. unfold inject, mbind, prog_bind, get.
  rewrite (bool_decide_eq_true_2 _ Ht). cbn [negb]. destruct a.
  - destruct (PRE_INJECT_ready abi64 None s t q H) as (s' & -> & ? & ? & ? & ? & ?).
    exists s'. rewrite PRE_INJECT_other by done. repeat split; congruence.
  - rewrite PRE_INJECT_other by done.
    destruct (PRE_INJECT_ready abi32 None s t q H) as (s' & -> & ? & ? & ? & ? & ?).
    exists s'. repeat split; congruence.
Qed.

Definition stopped_for_tracer (pid : Z) : list mevent :=
  [EvKill pid SIGSTOP; EvPtrace (PTRACE_CONT 0) pid; EvWaitpid pid;
   EvPtrace (PTRACE_DETACH SIGSTOP) pid; EvFork].

Lemma sys_fork_run s f fs :
  forks (kernel s) = f :: fs →
  sys_fork s = (Ret f, add_log EvFork (set_kernel (set_forks fs (kernel s)) s)).
Proof. intros H. unfold sys_fork. step. step. by rewrite H. Qed.

Lemma wait_stopped_run pid s st w :
  swaits (kernel s) = st :: w →
  wait_stopped pid s =
    (Ret tt, set_wstatus st (set_kernel (set_swaits w (kernel s)) (add_log (EvWaitpid pid) s))).
Proof. intros H. unfold wait_stopped, emit. step. step. cbn [kernel add_log]. by rewrite H. Qed.

Lemma fork_dont_care_parent s f fs :
  forks (kernel s) = f :: fs → 0 < f →
  fork_dont_care s =
    (Ret f, add_log (EvWaitpid f) (add_log EvFork (set_kernel (set_forks fs (kernel s)) s))).
Proof.
  intros H Hf. unfold fork_dont_care, emit. step_with (sys_fork_run _ _ _ H).
  rewrite (proj2 (Z.ltb_ge _ _)), (proj2 (Z.eqb_neq _ _)) by lia. by step.
Qed.

Lemma fork_dont_care_child s f fs :
  forks (kernel s) = 0 :: f :: fs → f <= 0 →
  fork_dont_care s =
    (Ret f, add_log EvFork (set_kernel (set_forks fs (kernel s))
              (add_log EvFork (set_kernel (set_forks (f :: fs) (kernel s)) s)))).
Proof.
  intros H Hf. unfold fork_dont_care. step_with (sys_fork_run _ _ _ H).
  rewrite Z.ltb_irrefl, Z.eqb_refl. erewrite bind_run by by apply sys_fork_run. cbv beta.
  rewrite (proj2 (Z.ltb_ge 0 f)) by lia. by destruct (f <? 0).
Qed.

(** Up to the fork, [hand_over] is the same for all the processes it continues in. *)
Lemma hand_over_stopped pid a s w :
  swaits (kernel s) = stop_status SIGSTOP 0 :: w →
  ∃ s1, kernel s1 = set_swaits w (kernel s) ∧ process s1 = process s ∧
    tracing_state s1 = tracing_state s ∧ wstatus s1 = 0 ∧
    mlog s1 ++ [EvFork] = mlog s ++ stopped_for_tracer pid ∧
    hand_over pid a s =
      (p ← fork_dont_care;
       if p =? 0 then
         sys_exec [tracer_path a; tracer_name a; txt "trace"; print_int pid; txt "--restart"];;
         emit (EvKill pid SIGKILL);;
         exit 1
       else when (p =? -1) (emit (EvKill pid SIGKILL))) s1.
Proof.
  intros H. unfold hand_over, ptrace, emit.
  exists (set_wstatus 0 (add_log (EvPtrace (PTRACE_DETACH SIGSTOP) pid)
    (set_wstatus (stop_status SIGSTOP 0) (set_kernel (set_swaits w (kernel s))
       (add_log (EvWaitpid pid) (add_log (EvPtrace (PTRACE_CONT 0) pid)
          (add_log (EvKill pid SIGSTOP) s))))))).
  repeat split; [cbn; by rewrite <- !app_assoc|].
  step. step. erewrite bind_run by by apply wait_stopped_run. cbv beta. step.
  rewrite (proj2 (STOPPED_WITH_iff SIGSTOP 0 _ ltac:(done))) by done.
  unfold when at 1. by step.
Qed.

Lemma get_program_run s a l :
  links (kernel s) = Some (app_process a) :: l →
  get_program s = (Ret (Some (app_process a)), set_kernel (set_links l (kernel s)) s).
Proof. intros H. unfold get_program. step. step. rewrite H. by destruct a. Qed.

Lemma reap_known_exec pid a s l :
  wstatus s = stop_status SIGTRAP PTRACE_EVENT_EXEC → links (kernel s) = Some (app_process a) :: l →
  reap_known pid s =
    (go ← (inject pid (app_process a);; updateStatus;; mret true);
     when go
       (modify (λ s, set_process (process s ∖ {[pid]}) s);;
        s ← get;
        when (WIFSTOPPED (wstatus s)) (ptrace (PTRACE_DETACH 0) pid)))
      (set_kernel (set_links l (kernel s)) s).
Proof.
  intros Hst Hl. unfold reap_known. step.
  rewrite (proj2 (STOPPED_WITH_iff SIGTRAP PTRACE_EVENT_EXEC _ ltac:(done))) by by rewrite Hst.
  rewrite prog_bind_assoc. by step_with (get_program_run s a l Hl).
Qed.

Lemma inject_fits pid program s : Moves (keeps status_fits) (inject pid program) s.
Proof.
  unfold inject, PRE_INJECT, should_stop_inject, clock_now, ensure_daemon_created, stop_injecting,
    hand_over, wait_stopped, fork_dont_care, sys_fork, sys_exec, ptrace, emit.
  walk; first [apply moves_modify | apply moves_put]; intros (? & ? & ?); split_and!; simpl in *;
    (done || lia).
Qed.

(** C30 The hand-over, as the monitor sees it: when a traced child has just executed
    [app_process], the monitor is tracing, the restart guard does not object and the daemon
    runs, the zygote is stopped with [SIGSTOP], detached exactly once, with that signal
    pending, a child is forked for the tracer, the zygote leaves the set, the status is
    published, and the monitor keeps tracing. *)
Theorem zygote_handed_over sys_signame a pid s t q l w p fs :
  pid ≠ 1 → pid ≠ daemon_pid (status64 s) → pid ∈ process s →
  wstatus s = stop_status SIGTRAP PTRACE_EVENT_EXEC → tracing_state s = TRACING →
  links (kernel s) = Some (app_process a) :: l → ready_to_inject a s t q →
  swaits (kernel s) = stop_status SIGSTOP 0 :: w → forks (kernel s) = p :: fs → 0 < p →
  status_fits s →
  ∃ s' content, reap sys_signame pid s = (Ret tt, s') ∧
    mlog s' = mlog s ++ umounts a ++ stopped_for_tracer pid ++ [EvWaitpid p; EvWriteProp content] ∧
    process s' = process s ∖ {[pid]} ∧ tracing_state s' = TRACING.
Proof.
  intros H1 Hd Hin Hst Ht Hl Hr Hw Hf Hp Hfit.
  set (s0 := set_kernel (set_links l (kernel s)) s).
  destruct (inject_ready a pid s0 t q Ht) as (s1 & E1 & L1 & P1 & T1 & K1 & W1); [by destruct Hr, a|].
  destruct (hand_over_stopped pid a s1 w) as (s2 & K2 & P2 & T2 & W2 & L2 & E2); [by rewrite K1|].
  set (s3 := add_log (EvWaitpid p) (add_log EvFork (set_kernel (set_forks fs (kernel s2)) s2))).
  assert (inject pid (app_process a) s0 = (Ret tt, s3)) as Ei.
  { rewrite E1, E2. step_with (fork_dont_care_parent s2 p fs ltac:(by rewrite K2, K1) Hp).
    by rewrite (proj2 (Z.eqb_neq p 0)), (proj2 (Z.eqb_neq p (-1))) by lia. }
  pose proof (moves_run _ _ _ _ _ Ei (inject_fits _ _ _) Hfit) as F.
  do 2 eexists. split; [|split; [|split]].
  - rewrite reap_other, bool_decide_eq_true_2 by done.
    rewrite (reap_known_exec pid a s l Hst Hl). fold s0.
    rewrite (bind_run _ _ _ true (add_log (EvWriteProp (prop_content s3)) s3));
      [|step_with Ei; by step_with (updateStatus_run_fits _ F)].
    unfold when at 1. step. step. cbn [wstatus set_process add_log set_kernel s3]. rewrite W2.
    reflexivity.
  - cbn [mlog set_process add_log set_kernel s3]. rewrite L2, L1, <- !app_assoc. reflexivity.
  - cbn [process set_process add_log set_kernel s3]. by rewrite P2, P1.
  - cbn [tracing_state set_process add_log set_kernel s3]. by rewrite T2.
Qed.

(** Process 200, a child of init, has just executed the 64-bit [app_process]. *)
Definition demo_zygote (fs : list Z) : mon :=
  set_wstatus (stop_status SIGTRAP PTRACE_EVENT_EXEC)
    (set_process {[200]} (upd_status abi64 (set_created 100)
       (init_mon (mkKern [] [] [] [] [stop_status SIGSTOP 0] fs [1000] [Some (app_process abi64)]
                    true true false)))).

Lemma demo_zygote_ready fs : ready_to_inject abi64 (demo_zygote fs) 1000 [].
Proof. by constructor. Qed.

Lemma demo_fits fs : status_fits (demo_zygote fs).
Proof. split_and!; simpl; (done || lia). Qed.

Lemma zygote_handed_over_witness :
  ∃ s' content, reap (λ _, []) 200 (demo_zygote [300]) = (Ret tt, s') ∧
    mlog s' = [EvUmount module_prop; EvKill 200 SIGSTOP; EvPtrace (PTRACE_CONT 0) 200;
               EvWaitpid 200; EvPtrace (PTRACE_DETACH SIGSTOP) 200; EvFork; EvWaitpid 300;
               EvWriteProp content].
Proof.
  destruct (zygote_handed_over (λ _, []) abi64 200 (demo_zygote [300]) 1000 [] [] [] 300 [])
    as (s' & content & E & L & _); try first [done | apply demo_zygote_ready | apply demo_fits].
  by exists s', content.
Defined.

(** The state a descendant of the monitor starts from, and what it has asked for. *)
Lemma hand_over_child a pid s t q l w f fs :
  pid ≠ 1 → pid ≠ daemon_pid (status64 s) → pid ∈ process s →
  wstatus s = stop_status SIGTRAP PTRACE_EVENT_EXEC → tracing_state s = TRACING →
  links (kernel s) = Some (app_process a) :: l → ready_to_inject a s t q →
  swaits (kernel s) = stop_status SIGSTOP 0 :: w → forks (kernel s) = 0 :: f :: fs → f <= 0 →
  ∃ s', mlog s' = mlog s ++ umounts a ++ stopped_for_tracer pid ++ [EvFork] ∧
    exec_ok (kernel s') = exec_ok (kernel s) ∧ wstatus s' = 0 ∧ tracing_state s' = TRACING ∧
    inject pid (app_process a) (set_kernel (set_links l (kernel s)) s) =
      (if f =? 0 then
         sys_exec [tracer_path a; tracer_name a; txt "trace"; print_int pid; txt "--restart"];;
         emit (EvKill pid SIGKILL);;
         exit 1
       else when (f =? -1) (emit (EvKill pid SIGKILL))) s'.
Proof.
  intros H1 Hd Hin Hst Ht Hl Hr Hw Hf Hp.
  set (s0 := set_kernel (set_links l (kernel s)) s).
  destruct (inject_ready a pid s0 t q Ht) as (s1 & E1 & L1 & P1 & T1 & K1 & W1); [by destruct Hr, a|].
  destruct (hand_over_stopped pid a s1 w) as (s2 & K2 & P2 & T2 & W2 & L2 & E2); [by rewrite K1|].
  rewrite E1, E2. step_with (fork_dont_care_child s2 f fs ltac:(by rewrite K2, K1) Hp).
  eexists. split_and!; [| | | |reflexivity]; cbn.
  - by rewrite L2, L1, <- !app_assoc.
  - by rewrite K2, K1.
  - done.
  - by rewrite T2.
Qed.

Lemma reap_inject sys_signame a pid s l o s' :
  pid ≠ 1 → pid ≠ daemon_pid (status64 s) → pid ∈ process s →
  wstatus s = stop_status SIGTRAP PTRACE_EVENT_EXEC → links (kernel s) = Some (app_process a) :: l →
  inject pid (app_process a) (set_kernel (set_links l (kernel s)) s) = (Exit o, s') →
  reap sys_signame pid s = (Exit o, s').
Proof.
  intros H1 Hd Hin Hst Hl E.
  rewrite reap_other, bool_decide_eq_true_2, (reap_known_exec pid a s l Hst Hl) by done.
  rewrite prog_bind_assoc. unfold mbind at 1, prog_bind at 1. by rewrite E.
Qed.

(** The hand-over, as the forked grandchild sees it: it becomes the tracer of the zygote's
    ABI, with [trace <pid> --restart]; if the tracer cannot be executed it kills the zygote,
    so that no zygote is left stopped, and exits. *)
Theorem tracer_started sys_signame a pid s t q l w fs :
  pid ≠ 1 → pid ≠ daemon_pid (status64 s) → pid ∈ process s →
  wstatus s = stop_status SIGTRAP PTRACE_EVENT_EXEC → tracing_state s = TRACING →
  links (kernel s) = Some (app_process a) :: l → ready_to_inject a s t q →
  swaits (kernel s) = stop_status SIGSTOP 0 :: w → forks (kernel s) = 0 :: 0 :: fs →
  ∃ s', reap sys_signame pid s = (Exit (if exec_ok (kernel s) then 0 else 1), s') ∧
    mlog s' = mlog s ++ umounts a ++ stopped_for_tracer pid ++
      [EvFork; EvExec [tracer_path a; tracer_name a; txt "trace"; print_int pid; txt "--restart"]] ++
      (if exec_ok (kernel s) then [] else [EvKill pid SIGKILL]).
Proof.
  intros H1 Hd Hin Hst Ht Hl Hr Hw Hf.
  destruct (hand_over_child a pid s t q l w 0 fs) as (s1 & L & K & _ & _ & E); try done.
  rewrite Z.eqb_refl in E. unfold sys_exec in E. rewrite prog_bind_assoc in E.
  erewrite bind_run in E by reflexivity. cbv beta in E.
  rewrite prog_bind_assoc in E. erewrite bind_run in E by reflexivity. cbn [kernel add_log] in E.
  rewrite K in E. destruct (exec_ok (kernel s)); eexists;
    (split; [eapply reap_inject; [done.. | rewrite E; reflexivity]|]);
    cbn; rewrite L, <- !app_assoc; done.
Qed.

Lemma tracer_started_witness :
  ∃ s', reap (λ _, []) 200 (demo_zygote [0; 0]) = (Exit 0, s') ∧
    EvExec [txt "./bin/zygisk-ptrace64"; txt "zygisk-ptrace64"; txt "trace"; txt "200";
            txt "--restart"] ∈ mlog s'.
Proof.
  destruct (tracer_started (λ _, []) abi64 200 (demo_zygote [0; 0]) 1000 [] [] [] [])
    as (s' & E & L); try first [done | apply demo_zygote_ready].
  exists s'. split; [exact E|]. rewrite L. apply (bool_decide_unpack _). by vm_compute.
Defined.

(** When the second [fork] of [fork_dont_care] fails, -1 is returned in the intermediate
    child, not in the monitor: the child kills the zygote and then goes on running the
    monitor's own event loop, a second monitor. *)
Theorem second_fork_failure_duplicates_monitor sys_signame a pid s t q l w fs :
  pid ≠ 1 → pid ≠ daemon_pid (status64 s) → pid ∈ process s →
  wstatus s = stop_status SIGTRAP PTRACE_EVENT_EXEC → tracing_state s = TRACING →
  links (kernel s) = Some (app_process a) :: l → ready_to_inject a s t q →
  swaits (kernel s) = stop_status SIGSTOP 0 :: w → forks (kernel s) = 0 :: -1 :: fs →
  status_fits s →
  ∃ s' content, reap sys_signame pid s = (Ret tt, s') ∧ tracing_state s' = TRACING ∧
    mlog s' = mlog s ++ umounts a ++ stopped_for_tracer pid ++
      [EvFork; EvKill pid SIGKILL; EvWriteProp content].
Proof.
  intros H1 Hd Hin Hst Ht Hl Hr Hw Hf Hfit.
  destruct (hand_over_child a pid s t q l w (-1) fs) as (s1 & L & K & W & T & E); try done.
  assert (inject pid (app_process a) (set_kernel (set_links l (kernel s)) s) =
          (Ret tt, add_log (EvKill pid SIGKILL) s1)) as Ei by exact E.
  pose proof (moves_run _ _ _ _ _ Ei (inject_fits _ _ _) Hfit) as F.
  rewrite reap_other, bool_decide_eq_true_2, (reap_known_exec pid a s l Hst Hl) by done.
  rewrite prog_bind_assoc. step_with Ei. rewrite prog_bind_assoc. step_with (updateStatus_run_fits _ F).
  step. unfold when at 1. step. step. cbn [wstatus set_process add_log]. rewrite W.
  do 2 eexists. split_and!; [reflexivity | done |]. cbn. by rewrite L, <- !app_assoc.
Qed.

Lemma second_fork_failure_duplicates_monitor_witness :
  ∃ s' content, reap (λ _, []) 200 (demo_zygote [0; -1]) = (Ret tt, s') ∧
    mlog s' = [EvUmount module_prop; EvKill 200 SIGSTOP; EvPtrace (PTRACE_CONT 0) 200;
               EvWaitpid 200; EvPtrace (PTRACE_DETACH SIGSTOP) 200; EvFork; EvFork;
               EvKill 200 SIGKILL; EvWriteProp content].
Proof.
  destruct (second_fork_failure_duplicates_monitor (λ _, []) abi64 200 (demo_zygote [0; -1]) 1000
              [] [] [] []) as (s' & content & E & _ & L);
    try first [done | apply demo_zygote_ready | apply demo_fits].
  by exists s', content.
Defined.

(** ** Exits of the daemons *)

(** The exit of the 64-bit daemon takes the monitor down with it, unless the daemon had
    reported an error of its own before: the macro reads [daemon_error_info] while it is
    still null. *)
Theorem daemon_exit_crashes_monitor sys_signame pid s :
  pid ≠ 1 → supported (status64 s) = true → daemon_pid (status64 s) = pid →
  daemon_error_info (status64 s) = None →
  ∃ s', reap sys_signame pid s = (Crash NullDeref, s').
Proof.
  intros H1 Hs Hp He. unfold reap. rewrite (proj2 (Z.eqb_neq _ _) H1).
  unfold CHECK_DAEMON_EXIT, mbind, prog_bind, get, modify, crash. cbn [status_of].
  rewrite Hs, Hp, Z.eqb_refl, He. by eexists.
Qed.

Lemma daemon_exit_crashes_monitor_witness :
  ∃ s', reap (λ _, []) 100 (demo_zygote []) = (Crash NullDeref, s').
Proof. by apply (daemon_exit_crashes_monitor (λ _, []) 100 (demo_zygote [])). Defined.

(** The exit of the 32-bit daemon is not noticed when a 64-bit daemon is known: both
    expansions of [CHECK_DAEMON_EXIT] compare with the pid of the 64-bit one.  The dead
    process is taken for a new child of init, traced, and the daemon stays "running". *)
Theorem daemon32_exit_unnoticed sys_signame pid s :
  pid ≠ 1 → supported (status32 s) = true → daemon_pid (status32 s) = pid →
  daemon_pid (status64 s) ≠ pid → pid ∉ process s →
  reap sys_signame pid s =
    (Ret tt, add_log (EvPtrace (PTRACE_CONT 0) pid) (add_log (EvPtrace PTRACE_SETOPTIONS pid)
               (set_process (process s ∪ {[pid]}) s))).
Proof.
  intros H1 Hs Hp Hd Hn. rewrite reap_other, bool_decide_eq_false_2 by done. done.
Qed.

Definition demo_two_daemons : mon :=
  upd_status abi32 (set_created 101) (upd_status abi64 (set_created 100) (init_mon demo_kern)).

Lemma daemon32_exit_unnoticed_witness :
  daemon_running (status32 (reap (λ _, []) 101 demo_two_daemons).2) = true.
Proof. by rewrite (daemon32_exit_unnoticed (λ _, []) 101 demo_two_daemons). Defined.

(** ** init *)

(** What a stop of init by [sig] with ptrace event [event] is answered with. *)
Definition resume_request (t : TracingState) (sig event : Z) : ptrace_req :=
  if bool_decide (t = STOPPING) && (sig =? SIGTRAP) && (event =? PTRACE_EVENT_STOP)
  then PTRACE_DETACH 0
  else if (event =? 0) && negb (stopping_signal sig) then PTRACE_CONT sig
  else PTRACE_CONT 0.

Lemma stop_status_stopped sig event : 0 <= sig < 256 → WIFSTOPPED (stop_status sig event) = true.
Proof.
  intros. unfold WIFSTOPPED, stop_status. rewrite WTERMSIG_mod. apply Z.eqb_eq.
  Z.to_euclidean_division_equations. lia.
Qed.

Lemma stop_status_sig sig event : 0 <= sig < 256 → WSTOPSIG (stop_status sig event) = sig.
Proof.
  intros. unfold WSTOPSIG, stop_status. rewrite WEXITSTATUS_mod, Z.shiftr_div_pow2 by lia.
  Z.to_euclidean_division_equations. lia.
Qed.

Lemma stop_status_event sig event :
  0 <= sig < 256 → WPTEVENT (stop_status sig event) = event.
Proof.
  intros. unfold WPTEVENT, stop_status. rewrite Z.shiftr_div_pow2 by lia.
  Z.to_euclidean_division_equations. lia.
Qed.

Lemma stop_status_with sig event sig' event' :
  0 <= sig < 256 → 0 <= sig' < 256 → 
  STOPPED_WITH sig' event' (stop_status sig event) = (sig =? sig') && (event =? event').
Proof.
  intros H H'. apply eq_iff_eq_true. rewrite STOPPED_WITH_iff, andb_true_iff, !Z.eqb_eq by done.
  unfold stop_status. split.
  - intros [_ E]. Z.to_euclidean_division_equations. lia.
  - intros [-> ->]. split; Z.to_euclidean_division_equations; lia.
Qed.

(** init never stays stopped: every stop of it is answered with exactly one request that lets
    it go on, after at most a query for the pid of a forked child.  Signals are passed on to
    init unless they would stop it; a stop that a pending stop request caused detaches it,
    and only that one changes the tracing state. *)
Theorem init_resumed s sig event :
  0 <= sig < 256 → wstatus s = stop_status sig event →
  ∃ s', reap_init s = (Ret tt, s') ∧
    mlog s' = mlog s ++
      (if (sig =? SIGTRAP) && (event =? PTRACE_EVENT_FORK) then [EvPtrace PTRACE_GETEVENTMSG 1] else [])
      ++ [EvPtrace (resume_request (tracing_state s) sig event) 1] ∧
    tracing_state s' =
      (if bool_decide (resume_request (tracing_state s) sig event = PTRACE_DETACH 0)
       then STOPPED else tracing_state s).
Proof.
  intros Hs Hw. unfold reap_init. step. rewrite Hw, !stop_status_with by (done || lia).
  rewrite stop_status_stopped, stop_status_event, stop_status_sig by done.
  unfold resume_request.
  destruct (Z.eqb_spec sig SIGTRAP) as [->|Ns]; cbn [andb negb]; cycle 1.
  { rewrite !andb_false_r. cbn [andb]. unfold when, ptrace, emit. step.
    destruct (_ && _); eexists; (split; [reflexivity|]); cbn; by rewrite ?app_nil_r. }
  destruct (Z.eqb_spec event PTRACE_EVENT_FORK) as [->|Nf].
  { cbn. rewrite andb_false_r. eexists. split; [reflexivity|]. cbn. by rewrite <- app_assoc. }
  cbn [negb andb]. rewrite !andb_true_r, (andb_comm (event =? _)).
  destruct (bool_decide (tracing_state s = STOPPING) && (event =? PTRACE_EVENT_STOP)) eqn:E.
  - unfold ptrace, emit. step. by eexists.
  - unfold when, ptrace, emit. step. destruct (event =? 0); by eexists.
Qed.

Lemma init_resumed_witness :
  ∃ s', reap_init (set_wstatus (stop_status SIGTRAP PTRACE_EVENT_STOP)
                     (set_tracing STOPPING (init_mon demo_kern))) = (Ret tt, s') ∧
    mlog s' = [EvPtrace (PTRACE_DETACH 0) 1] ∧ tracing_state s' = STOPPED.
Proof.
  destruct (init_resumed (set_wstatus (stop_status SIGTRAP PTRACE_EVENT_STOP)
                     (set_tracing STOPPING (init_mon demo_kern))) SIGTRAP PTRACE_EVENT_STOP)
    as (s' & E & L & T); [by vm_compute | done |].
  by exists s'.
Defined.

End SigChldHandler.
