(* ===== verification/Monitor.v ===== *)
(** * Monitor: the event loop of the init monitor and what it guarantees

    [EventLoop], [init_monitor] and [send_control_command] of [ptracer/monitor.cpp], over the
    two handlers of [MonitorSocket] and [MonitorSigchld]; the abstract machine of the tracing
    of init and the proof that the monitor implements it; the invariant of its globals. *)

From Stdlib Require Import ZArith Lia Ascii.
From stdpp Require Import base tactics relations strings list gmap numbers.
From S2P Require Import Prelude Misc WaitStatus MonitorState MonitorSocket MonitorSigchld.

Import SocketHandler SigChldHandler.

(** ** The loop *)

Inductive handler : Set := HSocket | HSigChld.

(** The outside of the monitor: what it finds when it starts, and the answers of
    [epoll_wait] (an error, or the handlers that are ready). *)
Record menv : Type := mkEnv {
  tmp_path : bytes;
  orig_prop : option bytes;
  socket_ok : bool;
  bind_ok : bool;
  sigmask_ok : bool;
  signalfd_ok : bool;
  epolls : list (option (list handler));
  socket_fuel : nat;    (* of the loops in the handlers *)
  signames : Z → bytes
}.

Definition SOCKET_NAME : bytes := txt "init_monitor".
Definition sun_path_size : nat := 108.

(** [%s/%s] *)
Definition socket_path (tmp : bytes) : bytes := tmp ++ txt "/" ++ SOCKET_NAME.

Section loop.
Context (env : menv).

Definition handle (h : handler) : prog mon unit :=
  match h with
  | HSocket => SocketHandler.HandleEvent (socket_fuel env)
  | HSigChld => SigChldHandler.HandleEvent (signames env) (socket_fuel env)
  end.

Definition MAX_EVENTS : nat := 2.

Fixpoint handle_ready (ready : list handler) : prog mon unit :=
  match ready with
  | [] => mret tt
  | h :: ready =>
      handle h;;
      s ← get;
      if running s then handle_ready ready else mret tt
  end.

(** [while (running)]; where the script ends, [epoll_wait] blocks for good. *)
Fixpoint loop (evs : list (option (list handler))) : prog mon unit :=
  s ← get;
  if running s then
    match evs with
    | [] => no_fuel
    | None :: evs => loop evs
    | Some ready :: evs => handle_ready (take MAX_EVENTS ready);; loop evs
    end
  else mret tt.

Definition Loop : prog mon unit := modify (set_loop_running true);; loop (epolls env).

(** [SocketHandler::Init]: [sprintf] into [sun_path]. *)
Definition SocketHandler_Init : prog mon bool :=
  if negb (socket_ok env) then mret false
  else if (sun_path_size <=? length (socket_path (tmp_path env)))%nat then crash OutOfBounds
  else mret (bind_ok env).

Definition SigChldHandler_Init : prog mon bool :=
  if negb (sigmask_ok env) then mret false
  else if negb (signalfd_ok env) then mret false
  else ptrace PTRACE_SEIZE 1;; mret true.

(** The results of the initialisers are not looked at. *)
Definition init_monitor : prog mon unit :=
  prepared ← prepare_environment (tmp_path env) (orig_prop env);
  if negb prepared then exit 1
  else
    SocketHandler_Init;;
    SigChldHandler_Init;;
    Loop.
End loop.

(** [send_control_command]: [sendto] is given the path, the length of the address and the
    datagram, and answers with the number of bytes it sent. *)
Definition send_control_command (tmp : bytes) (sockfd : Z) (sendto : bytes → Z → bytes → Z)
    (cmd : Command) : Z :=
  if sockfd =? -1 then -1
  else
    let path := socket_path tmp in
    let nsend := sendto (take (sun_path_size - 1) path) (2 + Z.of_nat (length path))
                   (le_bytes 4 (command_code cmd)) in
    if nsend =? 4 then 0 else -1.

(** ** From the handlers' bodies to the loop

    What every message and every reported process respects, the whole loop respects. *)

Section lift.
Context (env : menv) (R : mon → mon → Prop) `{!PreOrder R}.
Hypothesis R_kernel : ∀ s k, R s (set_kernel k s).
Hypothesis R_wstatus : ∀ s w, R s (set_wstatus w s).
Hypothesis R_dispatch : ∀ cmd len data s, Moves R (dispatch cmd len data) s.
Hypothesis R_reap : ∀ pid s, Moves R (reap (signames env) pid) s.

Ltac lifted := first [apply moves_modify | apply moves_put]; auto.

Lemma lift_reap_loop fuel s : Moves R (reap_loop (signames env) fuel) s.
Proof.
  revert s. induction fuel as [|fuel IH]; intros s; cbn [reap_loop]; unfold next_wait;
    walk; try (apply IH || apply R_reap); lifted.
Qed.

Lemma lift_sigchld n s : Moves R (SigChldHandler.HandleEvent (signames env) n) s.
Proof.
  unfold SigChldHandler.HandleEvent. generalize n at 2. intros fuel.
  revert s. induction fuel as [|fuel IH]; intros s; cbn [sigchld_loop]; unfold next_sfd;
    walk; try (apply IH || apply lift_reap_loop); lifted.
Qed.

Lemma lift_socket fuel s : Moves R (SocketHandler.HandleEvent fuel) s.
Proof.
  revert s. induction fuel as [|fuel IH]; intros s; cbn [SocketHandler.HandleEvent];
    unfold round, recv, emit; walk; first [apply IH | apply R_dispatch | lifted].
Qed.

Lemma lift_handle_ready hs s : Moves R (handle_ready env hs) s.
Proof.
  revert s. induction hs as [|[] hs IH]; intros s; cbn [handle_ready handle];
    walk; first [apply IH | apply lift_socket | apply lift_sigchld].
Qed.

Lemma lift_loop evs s : Moves R (loop env evs) s.
Proof.
  revert s. induction evs as [|[] evs IH]; intros s; cbn [loop]; walk;
    first [apply IH | apply lift_handle_ready].
Qed.
End lift.

(** ** The abstract machine: is init being traced? *)

Inductive tstep : TracingState * bool → TracingState * bool → Prop :=
| t_interrupt : tstep (TRACING, true) (STOPPING, true)    (* stop requested *)
| t_cancel : tstep (STOPPING, true) (TRACING, true)       (* start before init was detached *)
| t_detach : tstep (STOPPING, true) (STOPPED, false)      (* init let go *)
| t_resume : tstep (STOPPED, false) (TRACING, true)       (* init seized again *)
| t_exit t b : tstep (t, b) (EXITING, b).

(** Whether init is attached after the requests of a log; [None] once init was seized while it was
    attached or detached while it was not.  The monitor looks at no result of these requests, so
    this is about what it asks for. *)
Definition attach_step (b : option bool) (e : mevent) : option bool :=
  match e with
  | EvPtrace PTRACE_SEIZE pid => if pid =? 1 then match b with Some false => Some true | _ => None end else b
  | EvPtrace (PTRACE_DETACH _) pid => if pid =? 1 then match b with Some true => Some false | _ => None end else b
  | _ => b
  end.
Definition attached (l : list mevent) : option bool := foldl attach_step (Some false) l.

(** What the machine guarantees when it starts with init attached. *)
Definition tracing_ok (x : TracingState * bool) : Prop :=
  match x with
  | (TRACING, b) | (STOPPING, b) => b = true
  | (STOPPED, b) => b = false
  | (EXITING, _) => True
  end.

Lemma tstep_ok x y : tstep x y → tracing_ok x → tracing_ok y.
Proof. by destruct 1. Qed.

Lemma tsteps_ok x y : rtc tstep x y → tracing_ok x → tracing_ok y.
Proof. induction 1; eauto using tstep_ok. Qed.

Lemma tsteps_exiting x y : rtc tstep x y → x.1 = EXITING → y.1 = EXITING.
Proof. induction 1 as [|x y z H _ IH]; [done|]. intros E. apply IH. by destruct H. Qed.

(** [s] is the state [x] of the machine. *)
Definition abs (s : mon) (x : TracingState * bool) : Prop :=
  tracing_state s = x.1 ∧ attached (mlog s) = Some x.2.

Definition refines (s s' : mon) : Prop :=
  (tracing_state s = EXITING → tracing_state s' = EXITING) ∧
  ∀ x, abs s x → tracing_ok x → ∃ y, abs s' y ∧ rtc tstep x y.

#[export] Instance refines_preorder : PreOrder refines.
Proof.
  split; [intros s; split; [done | intros x ? _; by exists x]|].
  intros s1 s2 s3 [X1 H1] [X2 H2]. split; [auto|]. intros x Hx Hok. destruct (H1 x Hx Hok) as (y & Hy & Ry).
  destruct (H2 y Hy (tsteps_ok _ _ Ry Hok)) as (z & Hz & Rz). exists z. split; [done | by transitivity y].
Qed.

(** Steps the machine does not see. *)
Lemma refines_quiet s s' :
  tracing_state s' = tracing_state s → attached (mlog s') = attached (mlog s) → refines s s'.
Proof. intros E1 E2. split; [congruence|]. intros x [? ?] _. exists x. split; [split; congruence | done]. Qed.

(** One step of it. *)
Lemma refines_step s s' :
  (tracing_state s = EXITING → tracing_state s' = EXITING) →
  (∀ b, attached (mlog s) = Some b → tracing_ok (tracing_state s, b) →
     ∃ b', attached (mlog s') = Some b' ∧ tstep (tracing_state s, b) (tracing_state s', b')) → refines s s'.
Proof.
  intros H0 H. split; [done|]. intros [t b] [Ht Hb] Hok. cbn in *. subst t.
  destruct (H b Hb Hok) as (b' & Hb' & Hs). exists (tracing_state s', b'). split; [done | by apply rtc_once].
Qed.

Lemma attached_snoc l e : attached (l ++ [e]) = attach_step (attached l) e.
Proof. unfold attached. by rewrite foldl_app. Qed.

Lemma refines_emit e s : attach_step (attached (mlog s)) e = attached (mlog s) → Moves refines (emit e) s.
Proof. intros H. apply moves_modify, refines_quiet; [done|]. cbn [mlog add_log]. by rewrite attached_snoc. Qed.

Lemma updateStatus_refines s : Moves refines updateStatus s.
Proof. unfold updateStatus. walk. by apply refines_emit. Qed.

Lemma stop_injecting_refines r s : tracing_state s = TRACING → Moves refines (stop_injecting r) s.
Proof.
  intros H. unfold stop_injecting, ptrace, emit. 
  eapply moves_to; [reflexivity|]. apply refines_step; cbn; rewrite H; [done|]. intros b Hb ->.
  exists true. rewrite attached_snoc. split; [done | constructor].
Qed.

(** Close the primitive steps of a walk that the machine does not see. *)
Ltac quiet :=
  first [ apply updateStatus_refines
        | by apply refines_emit
        | apply moves_modify; apply refines_quiet; cbn; by rewrite ?attached_snoc
        | apply moves_put; apply refines_quiet; cbn; by rewrite ?attached_snoc ].

Lemma start_refines s : Moves refines start s.
Proof.
  unfold start. apply moves_get_bind. apply moves_bind; [apply _ | | intros; apply updateStatus_refines].
  destruct (tracing_state s) eqn:E; try by (apply moves_ret; apply _).
  - eapply moves_to; [reflexivity|]. apply refines_step; cbn; rewrite E; [done|]. intros b Hb ->.
    exists true. split; [done | constructor].
  - eapply moves_to; [reflexivity|]. apply refines_step; cbn; rewrite E; [done|]. intros b Hb ->.
    exists true. rewrite attached_snoc, Hb. split; [done | constructor].
Qed.

Lemma stop_refines s : Moves refines stop s.
Proof.
  unfold stop. apply moves_get_bind. apply moves_when; [apply _|]. intros E%bool_decide_eq_true.
  apply (moves_ext _ _ (stop_injecting user_requested;; updateStatus)); [done|].
  apply moves_bind; [apply _ | by apply stop_injecting_refines | intros; apply updateStatus_refines].
Qed.

Lemma exit_monitor_refines s : Moves refines exit_monitor s.
Proof.
  unfold exit_monitor. walk; [| quiet ..].
  apply moves_modify, refines_step; cbn; [done|]. intros b Hb _. exists b. split; [done | constructor].
Qed.

Lemma get_program_refines s : Moves refines get_program s.
Proof. unfold get_program. walk; quiet. Qed.

Lemma fork_dont_care_refines s : Moves refines fork_dont_care s.
Proof. unfold fork_dont_care, sys_fork. walk; quiet. Qed.

Lemma hand_over_refines pid a s : pid ≠ 1 → Moves refines (hand_over pid a) s.
Proof.
  intros Hp. apply Z.eqb_neq in Hp.
  unfold hand_over, wait_stopped, sys_exec, ptrace. walk; try quiet.
  - apply refines_emit. cbn. by rewrite Hp.
  - apply fork_dont_care_refines.
Qed.

(** Everything [PRE_INJECT] does before it may refuse leaves the tracing state alone. *)
Definition same_tracing (s s' : mon) : Prop := tracing_state s' = tracing_state s.

#[export] Instance same_tracing_preorder : PreOrder same_tracing.
Proof. split; [done | intros ???; unfold same_tracing; congruence]. Qed.

Lemma guards_tracing a s :
  Moves same_tracing (should_stop_inject a) s ∧ Moves same_tracing (ensure_daemon_created a) s.
Proof.
  split; unfold should_stop_inject, clock_now, ensure_daemon_created, sys_fork, sys_exec, emit;
    walk; by (apply moves_modify || apply moves_put).
Qed.

Lemma guards_refine a s :
  Moves refines (should_stop_inject a) s ∧ Moves refines (ensure_daemon_created a) s.
Proof.
  split; unfold should_stop_inject, clock_now, ensure_daemon_created, sys_fork, sys_exec;
    walk; quiet.
Qed.

Lemma PRE_INJECT_refines a program tracer s :
  tracing_state s = TRACING → Moves refines (PRE_INJECT a program tracer) s.
Proof.
  intros Ht. unfold PRE_INJECT. walk; try apply guards_refine; apply stop_injecting_refines.
  - pose proof (moves_run _ _ _ _ _ H (proj1 (guards_tracing a s))) as E. unfold same_tracing in E.
    congruence.
  - pose proof (moves_run _ _ _ _ _ H (proj1 (guards_tracing a s))) as E. unfold same_tracing in E.
    pose proof (moves_run _ _ _ _ _ H0 (proj2 (guards_tracing a s'))) as E0. unfold same_tracing in E0.
    congruence.
Qed.

Lemma PRE_INJECT_continue a program tracer s x s' :
  PRE_INJECT a program tracer s = (Ret (Some x), s') → tracing_state s' = tracing_state s.
Proof.
  unfold PRE_INJECT. case_bool_decide; [|by intros [= _ <-]].
  unfold mbind at 1, prog_bind at 1. destruct (should_stop_inject a s) as [[[]| | |] s1] eqn:E1; try done.
  unfold mbind at 1, prog_bind at 1.
  destruct (ensure_daemon_created a s1) as [[[]| | |] s2] eqn:E2; try done.
  intros [= _ <-].
  transitivity (tracing_state s1).
  - exact (moves_run _ _ _ _ _ E2 (proj2 (guards_tracing a s1))).
  - exact (moves_run _ _ _ _ _ E1 (proj1 (guards_tracing a s))).
Qed.

Lemma inject_refines pid program s : pid ≠ 1 → Moves refines (inject pid program) s.
Proof.
  intros Hp. unfold inject. walk.
  - apply PRE_INJECT_refines. by apply negb_false_iff, bool_decide_eq_true in Heqb.
  - apply PRE_INJECT_refines. apply negb_false_iff, bool_decide_eq_true in Heqb. subst.
    by rewrite (PRE_INJECT_continue _ _ _ _ _ _ H).
  - by apply hand_over_refines.
Qed.

Lemma reap_known_refines pid s : pid ≠ 1 → Moves refines (reap_known pid) s.
Proof.
  intros Hp. unfold reap_known, ptrace.
  walk; try quiet; [apply get_program_refines | by apply inject_refines |].
  apply refines_emit. cbn. by rewrite (proj2 (Z.eqb_neq _ _) Hp).
Qed.

Lemma reap_init_refines s : Moves refines reap_init s.
Proof.
  unfold reap_init. apply moves_get_bind. cbv zeta. destruct (_ && _) eqn:E.
  - apply andb_prop in E as [_ E%bool_decide_eq_true].
    eapply moves_to; [reflexivity|]. apply refines_step; cbn; rewrite E; [done|]. intros b Hb ->.
    exists false. rewrite attached_snoc, Hb. split; [done | constructor].
  - unfold ptrace. walk; quiet.
Qed.

Section refinement.
Context (env : menv).

Lemma CHECK_DAEMON_EXIT_refines a pid s : Moves refines (CHECK_DAEMON_EXIT (signames env) a pid) s.
Proof. unfold CHECK_DAEMON_EXIT, memcpy_into. walk; quiet. Qed.

Lemma reap_refines pid s : Moves refines (reap (signames env) pid) s.
Proof.
  unfold reap. destruct (Z.eqb_spec pid 1) as [->|Hp]; [apply reap_init_refines|].
  walk; try apply CHECK_DAEMON_EXIT_refines; [by apply reap_known_refines|].
  unfold reap_new, ptrace. walk; quiet.
Qed.

Lemma dispatch_refines cmd len data s : Moves refines (dispatch cmd len data) s.
Proof.
  unfold dispatch, set_daemon_info, set_daemon_error, copy_payload.
  walk; first [apply start_refines | apply stop_refines | apply exit_monitor_refines | quiet].
Qed.

Lemma loop_refines evs s : Moves refines (loop env evs) s.
Proof.
  apply lift_loop; try apply _; auto using reap_refines, dispatch_refines.
  all: intros; apply refines_quiet; cbn; by rewrite ?attached_snoc.
Qed.
End refinement.

Definition same_abs (s s' : mon) : Prop :=
  tracing_state s' = tracing_state s ∧ attached (mlog s') = attached (mlog s).

#[export] Instance same_abs_preorder : PreOrder same_abs.
Proof. split; [done|]. intros ??? [] []. split; congruence. Qed.

Lemma updateStatus_abs s : Moves same_abs updateStatus s.
Proof.
  unfold updateStatus, emit. walk. apply moves_modify. split; [done|]. cbn. by rewrite attached_snoc.
Qed.

Lemma prepare_environment_abs tmp prop s : Moves same_abs (prepare_environment tmp prop) s.
Proof.
  unfold prepare_environment. walk; try apply updateStatus_abs; apply moves_put;
    unfold put in *; simplify_eq/=; done.
Qed.

(** C1 The monitor implements the machine, if it can set up its signal descriptor (otherwise it never
    seizes init): for every script of datagrams, wait statuses, forks and wake-ups, either it ends
    before it looks at any of them, or its tracing state and the attachment of init, as its
    requests to ptrace make it, only move along [tstep] from tracing an attached init.  So it never
    asks to seize init while init is attached nor to detach it while it is not ([attached] would be
    [None]), init is attached whenever the monitor says tracing or stopping and not when it says
    stopped, and no state is left behind [EXITING]. *)
Theorem init_monitor_refines env k o s' :
  sigmask_ok env = true → signalfd_ok env = true →
  init_monitor env (init_mon k) = (o, s') →
  (abs s' (TRACING, false) ∧ o ≠ Ret tt) ∨
  (∃ y, abs s' y ∧ rtc tstep (TRACING, true) y ∧ tracing_ok y).
Proof.
  intros H1 H2. unfold init_monitor, mbind at 1, prog_bind at 1.
  destruct (prepare_environment _ _ (init_mon k)) as [o1 s1] eqn:E1.
  assert (abs s1 (TRACING, false)) as A.
  { by pose proof (moves_run _ _ _ _ _ E1 (prepare_environment_abs _ _ _)) as [A1 A2]. }
  destruct o1 as [[]| | |]; cbn [negb]; try (by intros [= <- <-]; left).
  unfold mbind at 1, prog_bind at 1, SocketHandler_Init.
  assert (∀ r, (SigChldHandler_Init env;; Loop env) s1 = (r, s') →
    ∃ y, abs s' y ∧ rtc tstep (TRACING, true) y ∧ tracing_ok y) as H.
  { intros r. unfold SigChldHandler_Init. rewrite H1, H2. cbn [negb].
    unfold ptrace, emit. rewrite prog_bind_assoc. step. step. intros E.
    assert (refines (add_log (EvPtrace PTRACE_SEIZE 1) s1) s') as [_ R].
    { eapply moves_run; [exact E|]. unfold Loop. walk; [quiet | apply loop_refines]. }
    destruct (R (TRACING, true)) as (y & Hy & Ry); [|done|].
    - destruct A as [A1 A2]. split; [done|]. cbn [mlog add_log]. by rewrite attached_snoc, A2.
    - exists y. split_and!; [done | done | by eapply tsteps_ok]. }
  destruct (socket_ok env); cbn [negb]; [destruct (_ <=? _)%nat|]; intros E.
  - injection E as <- <-. by left.
  - right. by eapply H.
  - right. by eapply H.
Qed.

(** A stop request, and init reporting that it stopped. *)
Definition demo_env : menv :=
  mkEnv (txt "/debug_ramdisk") (Some (field_name ++ txt "x")) true true true true
    [Some [HSocket]; Some [HSigChld]] 3 (λ _, []).
Definition demo_run : kern :=
  mkKern [DMsg (encode (Control STOP))] [] [SfdSignal SIGCHLD]
    [WPid 1 (stop_status SIGTRAP PTRACE_EVENT_STOP)] [] [] [] [] true true false.

Lemma init_monitor_refines_witness :
  let r := init_monitor demo_env (init_mon demo_run) in
  abs r.2 (STOPPED, false) ∧ rtc tstep (TRACING, true) (STOPPED, false).
Proof.
  cbv zeta. assert (abs (init_monitor demo_env (init_mon demo_run)).2 (STOPPED, false)) as A by by vm_compute.
  split; [exact A|].
  destruct (init_monitor_refines demo_env demo_run _ _ eq_refl eq_refl
    (surjective_pairing (init_monitor demo_env (init_mon demo_run)))) as [[[H _] _]|([t b] & [H1 H2] & H & _)].
  - by vm_compute in H.
  - destruct A as [A1 A2]. cbn [fst snd] in *. rewrite A1 in H1. rewrite A2 in H2. injection H2 as <-. subst t. exact H.
Defined.

(** ** The invariant of the globals *)

Definition status_inv (st : Status) : Prop :=
  (supported st = true ↔ daemon_pid st ≠ -1) ∧ (daemon_running st = true → supported st = true).

Record mon_inv (s : mon) : Prop := {
  inv_status64 : status_inv (status64 s);
  inv_status32 : status_inv (status32 s);
  (* a stopped monitor says why, in the 32 bytes it has for that *)
  inv_reason : tracing_state s ≠ TRACING → monitor_stop_reason s ≠ [];
  inv_reason_size : (length (monitor_stop_reason s) < 32)%nat
}.

(** [s'] differs from [s] in nothing the invariant looks at, or in a way it allows. *)
Lemma mon_inv_frame s s' :
  status64 s' = status64 s → status32 s' = status32 s →
  monitor_stop_reason s' = monitor_stop_reason s → tracing_state s' = tracing_state s →
  keeps mon_inv s s'.
Proof. intros E1 E2 E3 E4 []. constructor; by rewrite ?E1, ?E2, ?E3, ?E4. Qed.

Lemma mon_inv_status a f s :
  (∀ st, status_inv st → status_inv (f st)) → keeps mon_inv s (upd_status a f s).
Proof. intros Hf []. destruct a; constructor; simpl; auto. Qed.

Lemma mon_inv_resume s : keeps mon_inv s (set_tracing TRACING s).
Proof. intros []. by constructor. Qed.

Lemma mon_inv_stop t r s :
  r ≠ [] → (length r < 32)%nat → keeps mon_inv s (set_reason r (set_tracing t s)).
Proof. intros Hr Hl []. by constructor. Qed.

Ltac keep_inv :=
  first [apply moves_modify | apply moves_put];
  first
    [ by apply mon_inv_frame
    | apply mon_inv_status; intros st []; split; simpl in *; naive_solver lia
    | by apply mon_inv_stop; [|apply Nat.ltb_lt]
    | by apply mon_inv_resume ].

Lemma updateStatus_inv s : Moves (keeps mon_inv) updateStatus s.
Proof. unfold updateStatus, emit. walk. keep_inv. Qed.

Lemma dispatch_inv cmd len data s : Moves (keeps mon_inv) (dispatch cmd len data) s.
Proof.
  unfold dispatch, start, stop, exit_monitor, set_daemon_info, set_daemon_error, copy_payload,
    ptrace, emit.
  walk; first [apply updateStatus_inv | keep_inv].
Qed.

Lemma reap_init_inv s : Moves (keeps mon_inv) reap_init s.
Proof.
  unfold reap_init. apply moves_get_bind. cbv zeta. destruct (_ && _) eqn:E.
  - apply andb_prop in E as [_ E%bool_decide_eq_true].
    eapply moves_to; [reflexivity|]. intros []. constructor; try done. intros _.
    cbn. apply inv_reason0. by rewrite E.
  - unfold ptrace, emit. walk; keep_inv.
Qed.

Lemma reap_inv env pid s : Moves (keeps mon_inv) (reap (signames env) pid) s.
Proof.
  unfold reap. walk; [apply reap_init_inv | ..]; unfold CHECK_DAEMON_EXIT, memcpy_into, reap_new,
    reap_known, get_program, inject, PRE_INJECT, should_stop_inject, clock_now,
    ensure_daemon_created, stop_injecting, hand_over, wait_stopped, fork_dont_care, sys_fork,
    sys_exec, ptrace, emit; walk; bool_to_prop; first [apply updateStatus_inv | keep_inv].
Qed.

Lemma prepare_environment_inv tmp prop s : Moves (keeps mon_inv) (prepare_environment tmp prop) s.
Proof.
  unfold prepare_environment. walk; try apply updateStatus_inv; apply moves_put;
    unfold put in *; simplify_eq; by apply mon_inv_frame.
Qed.

(** C31 In every state the monitor reaches, whatever happens to it: a daemon is marked supported
    exactly when its pid is known, and running only if supported; a monitor that is not
    tracing has a stop reason to show, and the reason fits the 32 bytes reserved for it. *)
Theorem init_monitor_inv env k : mon_inv (init_monitor env (init_mon k)).2.
Proof.
  assert (Moves (keeps mon_inv) (init_monitor env) (init_mon k)) as H.
  { unfold init_monitor, SocketHandler_Init, SigChldHandler_Init, Loop, ptrace, emit.
    walk; try apply prepare_environment_inv; try keep_inv.
    apply lift_loop; try apply _; auto using dispatch_inv, reap_inv; intros; by apply mon_inv_frame. }
  eapply (moves_run _ _ _ _ _ (surjective_pairing _) H).
  constructor; try done; (split; [split; done | done]) || simpl; lia.
Qed.

(** ** Exiting *)

Definition same_running (s s' : mon) : Prop := running s' = running s.

#[export] Instance same_running_preorder : PreOrder same_running.
Proof. split; [done | intros ???; unfold same_running; congruence]. Qed.

(** The loop is only told to end in the state [EXITING]. *)
Definition stops (s s' : mon) : Prop :=
  refines s s' ∧ (running s' = running s ∨ tracing_state s' = EXITING).

#[export] Instance stops_preorder : PreOrder stops.
Proof.
  split; [intros ?; split; [reflexivity | by left]|].
  intros x y z [R1 H1] [R2 H2]. split; [by transitivity y|].
  destruct H2 as [->|]; [|by right]. destruct H1 as [|H1]; [by left|]. right.
  exact (proj1 R2 H1).
Qed.

Lemma updateStatus_running s : Moves same_running updateStatus s.
Proof. unfold updateStatus, emit. walk. by apply moves_modify. Qed.

Lemma moves_stops {A} (p : prog mon A) s :
  Moves refines p s → Moves same_running p s → Moves stops p s.
Proof.
  intros H1 H2. eapply moves_mono, (moves_and _ _ _ _ H1 H2).
  intros x y [? ?]. split; [done | by left].
Qed.

Lemma exit_monitor_stops s : Moves stops exit_monitor s.
Proof.
  assert (Moves (λ s s', running s' = running s ∨ tracing_state s' = EXITING) exit_monitor s) as H.
  { eapply moves_to; [apply surjective_pairing|].
    unfold exit_monitor, updateStatus, emit, mbind, prog_bind, get, modify, crash. repeat case_match; simplify_eq/=; auto. }
  eapply moves_mono, (moves_and _ _ _ _ (exit_monitor_refines s) H). by intros ??.
Qed.

Lemma dispatch_stops cmd len data s : Moves stops (dispatch cmd len data) s.
Proof.
  destruct (command_of cmd) as [c|] eqn:E; [destruct (decide (c = EXIT)) as [->|Hc]|].
  - apply (moves_ext _ _ exit_monitor); [|apply exit_monitor_stops]. unfold dispatch. by rewrite E.
  - apply moves_stops; [apply dispatch_refines|].
    unfold dispatch, start, stop, set_daemon_info, set_daemon_error, copy_payload, ptrace, emit.
    rewrite E. destruct c; try done; walk; first [apply updateStatus_running | by apply moves_modify].
  - apply (moves_ext _ _ (mret tt)); [|apply moves_ret; apply _]. unfold dispatch. by rewrite E.
Qed.

Lemma reap_stops env pid s : Moves stops (reap (signames env) pid) s.
Proof.
  apply moves_stops; [apply reap_refines|].
  unfold_reap. walk; by (apply moves_modify || apply moves_put).
Qed.

Lemma loop_stops env evs s : Moves stops (loop env evs) s.
Proof.
  apply lift_loop; try apply _; auto using dispatch_stops, reap_stops.
  all: intros; split; [apply refines_quiet; cbn; by rewrite ?attached_snoc | by left].
Qed.

Lemma loop_ret env evs s s' : loop env evs s = (Ret tt, s') → running s' = false.
Proof.
  revert s. induction evs as [|[hs|] evs IH]; intros s; cbn [loop];
    unfold mbind at 1, prog_bind at 1, get; destruct (running s) eqn:E; try done;
    try (by intros [= <-]); [|apply IH].
  unfold mbind, prog_bind. destruct (handle_ready env (take MAX_EVENTS hs) s) as [[[]| | |] s1]; try done.
  apply IH.
Qed.

(** The event loop ends only on request: whenever [init_monitor] returns, the tracing state is
    [EXITING], an [EXIT] command having been served. *)
Theorem init_monitor_returns_exiting env s s' :
  init_monitor env s = (Ret tt, s') → tracing_state s' = EXITING ∧ running s' = false.
Proof.
  unfold init_monitor, mbind at 1, prog_bind at 1.
  destruct (prepare_environment _ _ s) as [[[]| | |] s1]; try done. cbn [negb].
  unfold mbind at 1, prog_bind at 1. destruct (SocketHandler_Init env s1) as [[] s2]; try done.
  unfold mbind at 1, prog_bind at 1. destruct (SigChldHandler_Init env s2) as [[] s3]; try done.
  unfold Loop. step. intros E. pose proof (loop_ret _ _ _ _ E) as Hr. split; [|done].
  destruct (moves_run _ _ _ _ _ E (loop_stops _ _ _)) as [_ [H|H]]; [|done].
  rewrite Hr in H. done.
Qed.

(** One [EXIT] command. *)
Definition demo_exit : kern := mkKern [DMsg (encode (Control EXIT))] [] [] [] [] [] [] [] true true false.

Lemma init_monitor_returns_exiting_witness :
  (init_monitor demo_env (init_mon demo_exit)).1 = Ret tt ∧
  tracing_state (init_monitor demo_env (init_mon demo_exit)).2 = EXITING.
Proof.
  assert ((init_monitor demo_env (init_mon demo_exit)).1 = Ret tt) as H by by vm_compute.
  split; [exact H|]. eapply (init_monitor_returns_exiting demo_env (init_mon demo_exit)).
  rewrite <- H. apply surjective_pairing.
Defined.
