(* ===== verification/MonitorLive.v ===== *)
(** * MonitorLive: requests to the monitor are eventually served

    Progress of the event loop of [Monitor]: a queued EXIT ends it, and a queued STOP followed by the
    stop of init leaves init detached, whatever else is queued with them. *)

From Stdlib Require Import ZArith Lia Ascii.
From stdpp Require Import base tactics relations strings list gmap numbers.
From S2P Require Import Prelude Misc WaitStatus MonitorState MonitorSocket MonitorSigchld Monitor.

Import SocketHandler SigChldHandler.

(** The commands of [ctl] and the reports without a payload. *)
Definition plain_command (c : Command) : Prop := has_payload (command_code c) = false.

(** Whatever such a command does, the status still fits. *)
Lemma fits_same s s' :
  status_fits s → kernel s' = kernel s → (length (monitor_stop_reason s') <= 31)%nat →
  daemon_info (status64 s') = daemon_info (status64 s) →
  daemon_error_info (status64 s') = daemon_error_info (status64 s) →
  daemon_info (status32 s') = daemon_info (status32 s) →
  daemon_error_info (status32 s') = daemon_error_info (status32 s) → status_fits s'.
Proof. intros (H1 & H2 & H3) K R E1 E2 E3 E4. unfold status_fits. rewrite K, E1, E2, E3, E4. done. Qed.

Definition exiting (s : mon) : Prop := running s = false ∧ tracing_state s = EXITING.

(** The result of a command that ends by writing the status. *)
Definition well_served (c : Command) (s : mon) (r : outcome unit * mon) : Prop :=
  ∃ s', r = (Ret tt, s') ∧ status_fits s' ∧ (exiting s → exiting s') ∧ (c = EXIT → exiting s').

Lemma update_serves c s t :
  status_fits t → (exiting s → exiting t) → (c = EXIT → exiting t) → well_served c s (updateStatus t).
Proof. intros F X E. eexists. rewrite updateStatus_run_fits by done. by split_and!. Qed.

Lemma execute_plain c s : plain_command c → status_fits s → well_served c s (execute (Control c) s).
Proof.
  intros Hc Hf. pose proof Hf as (_ & Hr & _).
  destruct c; try done.
  - change (execute (Control START)) with start. unfold start. step. destruct (tracing_state s) eqn:Et; rewrite ?prog_bind_assoc; repeat step;
      (apply update_serves; [by eapply fits_same | intros [? ?]; congruence || done | done]).
  - change (execute (Control STOP)) with stop. unfold stop. step. unfold when. case_bool_decide as Et.
    + step. step. apply update_serves; [|intros [? ?]; congruence | done]. eapply fits_same; try done. simpl. lia.
    + exists s. by split_and!.
  - change (execute (Control EXIT)) with exit_monitor. unfold exit_monitor. step. set (t := set_reason _ _).
    assert (status_fits t) as Ft by (eapply fits_same; try done; simpl; lia).
    step_with (updateStatus_run_fits t Ft). eexists. split; [reflexivity|]. by split_and!.
  - change (execute (Control ZYGOTE64_INJECTED)) with (modify (upd_status abi64 (set_injected true));; updateStatus).
    step. apply update_serves; [by eapply fits_same | done | done].
  - change (execute (Control ZYGOTE32_INJECTED)) with (modify (upd_status abi32 (set_injected true));; updateStatus).
    step. apply update_serves; [by eapply fits_same | done | done].
  - change (execute (Control SYSTEM_SERVER_STARTED)) with (s ← get; emit (EvMount (prop_path s) module_prop)).
    step. eexists. split; [reflexivity|]. by split_and!.
Qed.

Lemma serve_plain c s :
  plain_command c → status_fits s → well_served c s (serve (Control c) s).
Proof.
  intros Hc Hf. unfold serve. step. apply (execute_plain c (drop_dgram s)); [done|].
  destruct Hf as (H1 & H2 & H3). split_and!; done.
Qed.

(** All of them in a row. *)
Lemma serve_all cs s :
  Forall plain_command cs → status_fits s →
  ∃ s', for_each (Control <$> cs) serve s = (Ret tt, s') ∧ status_fits s' ∧
        (exiting s ∨ EXIT ∈ cs → exiting s').
Proof.
  intros Hc. revert s. induction Hc as [|c cs Hc _ IH]; intros s Hf.
  - exists s. split_and!; [done | done|]. intros [?|?%elem_of_nil]; done.
  - rewrite fmap_cons. cbn [for_each]. destruct (serve_plain c s Hc Hf) as (s1 & E & F1 & X1 & Y1).
    step_with E. destruct (IH s1 F1) as (s' & E' & F' & X'). exists s'. split_and!; [done..|].
    intros [H|[<-|H]%elem_of_cons]; apply X'; auto.
Qed.

(** C35 A request to exit is served: once the control socket is reported ready, after any number of
    interrupted waits, with an EXIT anywhere among the queued commands, the event loop serves
    them all and returns, in the state EXITING.  The commands are those without a payload (the
    others are the undefined behaviour of [HandleEvent_drains]), no [recv] fails after its peek, and
    the status file can be written and the texts of the daemons fit it ([status_fits]). *)
Theorem exit_request_served (env : menv) (cs : list Command) (n : nat)
    (evs : list (option (list handler))) (s : mon) :
  running s = true → status_fits s → Forall plain_command cs → EXIT ∈ cs →
  dgrams (kernel s) = (λ c, DMsg (encode (Control c))) <$> cs → recv_errs (kernel s) = [] →
  (length cs < socket_fuel env)%nat →
  ∃ s', loop env (replicate n None ++ Some [HSocket] :: evs) s = (Ret tt, s') ∧ exiting s'.
Proof.
  intros Hr Hf Hc He Hq Hx Hl. induction n as [|n IH]; cbn [replicate app loop]; step; rewrite Hr; [|exact IH].
  destruct (serve_all cs s Hc Hf) as (s' & E & _ & X). specialize (X (or_intror He)).
  assert (handle_ready env (take MAX_EVENTS [HSocket]) s = (Ret tt, s')) as E'.
  { cbn [take MAX_EVENTS handle_ready handle]. rewrite (bind_run _ _ s tt s').
    - step. by rewrite (proj1 X).
    - rewrite (HandleEvent_drains_fuel (Control <$> cs)); [done | | by rewrite length_fmap | | done].
      + apply Forall_fmap. done.
      + by rewrite <- list_fmap_compose. }
  step_with E'. exists s'. destruct X as [Xr Xt].
  destruct evs; cbn [loop]; step; rewrite Xr; by split_and!.
Qed.

(** The monitor runs, and init is seized. *)
Definition demo_live (ds : list dgram) (sg : list sfd_ans) (ws : list wres) : mon :=
  set_loop_running true (init_mon (mkKern ds [] sg ws [] [] [] [] true true false)).

Definition demo_live_env : menv := mkEnv (txt "/t") None true true true true [] 5 (λ _, []).

Lemma exit_request_served_witness :
  ∃ s', loop demo_live_env [None; None; Some [HSocket]]
          (demo_live [DMsg (encode (Control STOP)); DMsg (encode (Control EXIT)); DMsg (encode (Control START))] [] [])
        = (Ret tt, s') ∧ exiting s'.
Proof.
  apply (exit_request_served demo_live_env [STOP; EXIT; START] 2 []
           (demo_live [DMsg (encode (Control STOP)); DMsg (encode (Control EXIT)); DMsg (encode (Control START))] [] [])).
  - reflexivity.
  - split_and!; [reflexivity | simpl; lia | simpl; lia].
  - repeat constructor.
  - right. left.
  - reflexivity.
  - reflexivity.
  - simpl. lia.
Defined.

(** The child handler on the stop of init that an interrupt causes. *)
Lemma reap_init_stop sig n s :
  tracing_state s = STOPPING → waits (kernel s) = [WPid 1 (stop_status SIGTRAP PTRACE_EVENT_STOP)] →
  ∃ s', reap_loop sig (S (S n)) s = (Ret tt, s') ∧ tracing_state s' = STOPPED ∧ running s' = running s ∧
        mlog s' = mlog s ++ [EvPtrace (PTRACE_DETACH 0) 1] ∧ sfds (kernel s') = sfds (kernel s).
Proof.
  intros Ht Hw. cbn [reap_loop].
  step_with (next_wait_eq s). rewrite Hw. cbn [head from_option id tail].
  step. set (s1 := set_wstatus _ _).
  assert (reap sig 1 s1 = (Ret tt, set_tracing STOPPED (add_log (EvPtrace (PTRACE_DETACH 0) 1) s1))) as E1.
  { change (reap sig 1 s1) with (reap_init s1). unfold reap_init. step.
    change (wstatus s1) with (stop_status SIGTRAP PTRACE_EVENT_STOP). change (tracing_state s1) with (tracing_state s).
    rewrite Ht. reflexivity. }
  step_with E1. set (s2 := set_tracing _ _). step_with (next_wait_eq s2).
  replace (waits (kernel s2)) with (@nil wres) by done. cbn [tail head from_option id].
  destruct (no_children (kernel s2)); [step|]; eexists; (split; [reflexivity|]); by split_and!.
Qed.

Lemma handle_init_stop sig n s : (1 < n)%nat →
  tracing_state s = STOPPING → sfds (kernel s) = [SfdSignal SIGCHLD] →
  waits (kernel s) = [WPid 1 (stop_status SIGTRAP PTRACE_EVENT_STOP)] →
  ∃ s', SigChldHandler.HandleEvent sig n s = (Ret tt, s') ∧ tracing_state s' = STOPPED ∧
        running s' = running s ∧ mlog s' = mlog s ++ [EvPtrace (PTRACE_DETACH 0) 1].
Proof.
  intros Hn Ht Hs Hw. destruct n as [|[|n]]; [lia | lia|]. unfold SigChldHandler.HandleEvent. cbn [sigchld_loop].
  step_with (next_sfd_eq s). rewrite Hs. cbn [head from_option id tail]. cbv iota. rewrite (Z.eqb_refl SIGCHLD).
  set (s1 := set_kernel _ s). destruct (reap_init_stop sig n s1 Ht Hw) as (s2 & E2 & T2 & R2 & L2 & S2).
  step_with E2. step_with (next_sfd_eq s2). rewrite S2. cbn [head from_option id]. cbv iota.
  eexists. split; [reflexivity|]. by split_and!.
Qed.

(** STOP is queued on the control socket, and the next report about a child is the stop of init that
    PTRACE_INTERRUPT causes. *)
Record stop_pending (s : mon) : Prop := {
  sp_request : dgrams (kernel s) = [DMsg (encode (Control STOP))];
  sp_no_errors : recv_errs (kernel s) = [];
  sp_signal : sfds (kernel s) = [SfdSignal SIGCHLD];
  sp_stopped : waits (kernel s) = [WPid 1 (stop_status SIGTRAP PTRACE_EVENT_STOP)]
}.

(** A request to stop is served: with STOP queued while init is traced, the monitor interrupts
    init, and when the next report is the stop this causes, it detaches init, without delivering a
    signal, and is in the state STOPPED; the loop goes on from there. *)
Theorem stop_request_served (env : menv) (evs : list (option (list handler))) (s : mon) :
  running s = true → status_fits s → tracing_state s = TRACING → stop_pending s →
  (1 < socket_fuel env)%nat →
  ∃ s' text, loop env (Some [HSocket] :: Some [HSigChld] :: evs) s = loop env evs s' ∧
    tracing_state s' = STOPPED ∧ running s' = true ∧
    mlog s' = mlog s ++ [EvPtrace PTRACE_INTERRUPT 1; EvWriteProp text; EvPtrace (PTRACE_DETACH 0) 1].
Proof.
  intros Hr Hf Ht [Hq He Hs Hw] Hl.
  set (t := add_log (EvPtrace PTRACE_INTERRUPT 1) (set_reason user_requested (set_tracing STOPPING (drop_dgram s)))).
  set (s1 := add_log (EvWriteProp (prop_content t)) t).
  assert (SocketHandler.HandleEvent (socket_fuel env) s = (Ret tt, s1)) as E1.
  { rewrite (HandleEvent_drains_fuel [Control STOP]); [|by repeat constructor | done | done | done].
    cbn [for_each serve]. rewrite prog_bind_assoc. step. change (execute (Control STOP)) with stop.
    unfold stop. rewrite prog_bind_assoc. step. change (tracing_state (drop_dgram s)) with (tracing_state s).
    rewrite bool_decide_eq_true_2 by done. cbn [when]. rewrite prog_bind_assoc. step. rewrite prog_bind_assoc. step.
    fold t. assert (status_fits t) as Ft.
    { destruct Hf as (H1 & H2 & H3). split_and!; [done | simpl; lia | done]. }
    by step_with (updateStatus_run_fits t Ft). }
  destruct (handle_init_stop (signames env) (socket_fuel env) s1) as (s2 & E2 & T2 & R2 & L2); [done..|].
  exists s2, (prop_content t). split_and!; [|done | by rewrite R2 | by rewrite L2; cbn; rewrite <- !app_assoc].
  cbn [loop]. step. rewrite Hr. cbn [take MAX_EVENTS handle_ready handle].
  rewrite prog_bind_assoc. step_with E1. rewrite prog_bind_assoc. step.
  change (running s1) with (running s). rewrite Hr. step. step. change (running s1) with (running s). rewrite Hr.
  rewrite prog_bind_assoc. step_with E2. rewrite prog_bind_assoc. step. rewrite R2. change (running s1) with (running s). rewrite Hr.
  by step.
Qed.

Lemma stop_request_served_witness :
  ∃ s' text, loop demo_live_env [Some [HSocket]; Some [HSigChld]; None]
          (demo_live [DMsg (encode (Control STOP))] [SfdSignal SIGCHLD] [WPid 1 (stop_status SIGTRAP PTRACE_EVENT_STOP)])
        = loop demo_live_env [None] s' ∧ tracing_state s' = STOPPED ∧
        mlog s' = [EvPtrace PTRACE_INTERRUPT 1; EvWriteProp text; EvPtrace (PTRACE_DETACH 0) 1].
Proof.
  destruct (stop_request_served demo_live_env [None]
    (demo_live [DMsg (encode (Control STOP))] [SfdSignal SIGCHLD] [WPid 1 (stop_status SIGTRAP PTRACE_EVENT_STOP)]))
    as (s' & text & E & T & _ & L);
    [reflexivity | split_and!; [reflexivity | simpl; lia | simpl; lia] | reflexivity | by constructor | simpl; lia |].
  exists s', text. split; [exact E|]. split; [exact T | exact L].
Defined.
