(* ===== verification/EventLoop.v ===== *)
(** * EventLoop: the descriptors behind the monitor's loop

    [EventLoop] of [ptracer/monitor.cpp] with its epoll instance, the descriptors of the two
    handlers, and all of [init_monitor] with the destructors at its end.  [Monitor] takes the
    handlers that are ready from a script; here the kernel reports descriptors, and which handler
    that is depends on what was registered.  The claims: the whole function does what [Monitor]
    says for the script its registrations make of the kernel's reports, and gives back every
    descriptor; without an epoll instance the loop spins without ever waiting. *)

From Stdlib Require Import ZArith Lia Ascii.
From stdpp Require Import base tactics strings list gmap numbers.
From S2P Require Import Prelude MonitorState MonitorSocket MonitorSigchld Monitor.

Local Open Scope mach_scope.

Definition EPOLLIN : Z := 1.
Definition EPOLLET : Z := 1 <<< 31.

(** The monitor, the descriptors of its process, the members of the three objects, the interest
    list of the epoll instance, what [epoll_wait] will see: an interruption, or descriptors that
    became ready.  [w_freed] are the buffers given to [free]. *)
Record lworld : Type := mkLw {
  w_mon : mon;
  w_fds : gset Z;
  sock_fd_ : Z;
  signal_fd_ : Z;
  epoll_fd_ : Z;
  w_interest : list (Z * (handler * Z));
  w_ready : list (option (list Z));
  w_freed : list bytes
}.

Definition set_w_mon m s := mkLw m (w_fds s) (sock_fd_ s) (signal_fd_ s) (epoll_fd_ s) (w_interest s) (w_ready s) (w_freed s).
Definition set_w_fds f s := mkLw (w_mon s) f (sock_fd_ s) (signal_fd_ s) (epoll_fd_ s) (w_interest s) (w_ready s) (w_freed s).
Definition set_sock_fd f s := mkLw (w_mon s) (w_fds s) f (signal_fd_ s) (epoll_fd_ s) (w_interest s) (w_ready s) (w_freed s).
Definition set_signal_fd f s := mkLw (w_mon s) (w_fds s) (sock_fd_ s) f (epoll_fd_ s) (w_interest s) (w_ready s) (w_freed s).
Definition set_epoll_fd f s := mkLw (w_mon s) (w_fds s) (sock_fd_ s) (signal_fd_ s) f (w_interest s) (w_ready s) (w_freed s).
Definition set_w_interest l s := mkLw (w_mon s) (w_fds s) (sock_fd_ s) (signal_fd_ s) (epoll_fd_ s) l (w_ready s) (w_freed s).
Definition set_w_ready l s := mkLw (w_mon s) (w_fds s) (sock_fd_ s) (signal_fd_ s) (epoll_fd_ s) (w_interest s) l (w_freed s).
Definition set_w_freed l s := mkLw (w_mon s) (w_fds s) (sock_fd_ s) (signal_fd_ s) (epoll_fd_ s) (w_interest s) (w_ready s) l.

Definition on_mon {A} (m : prog mon A) : prog lworld A := λ s,
  let '(r, x) := m (w_mon s) in (r, set_w_mon x s).

(** A new descriptor. *)
Definition new_fd : prog lworld Z :=
  s ← get; let fd := lowest_fd (w_fds s) in put (set_w_fds (w_fds s ∪ {[fd]}) s);; mret fd.

Definition close_fd (fd : Z) : prog lworld unit := modify (λ s, set_w_fds (w_fds s ∖ {[fd]}) s).

(** ** EventLoop *)

Definition GetFd (h : handler) (s : lworld) : Z :=
  match h with HSocket => sock_fd_ s | HSigChld => signal_fd_ s end.

(** [epoll_ctl] wants an epoll instance, an open descriptor, and one that is new for an addition
    and known for a removal. *)
Definition epoll_add (fd : Z) (h : handler) (events : Z) : prog lworld bool :=
  s ← get;
  if bool_decide (epoll_fd_ s ∈ w_fds s) && bool_decide (fd ∈ w_fds s) && negb (bool_decide (fd ∈ (w_interest s).*1))
  then put (set_w_interest (w_interest s ++ [(fd, (h, events))]) s);; mret true
  else mret false.

Definition epoll_del (fd : Z) : prog lworld bool :=
  s ← get;
  if bool_decide (epoll_fd_ s ∈ w_fds s) && bool_decide (fd ∈ (w_interest s).*1)
  then put (set_w_interest (filter (λ p, p.1 ≠ fd) (w_interest s)) s);; mret true
  else mret false.

(** The handler of a descriptor, if it was registered. *)
Definition handler_of (interest : list (Z * (handler * Z))) (fd : Z) : option handler :=
  p ← List.find (λ p : Z * (handler * Z), p.1 =? fd) interest; Some p.2.1.

(** What the kernel reports next and what is left; [None] where it reports nothing any more.
    Descriptors that are not registered wake nobody. *)
Fixpoint wait_for (interest : list (Z * (handler * Z))) (ready : list (option (list Z)))
  : option (option (list handler) * list (option (list Z))) :=
  match ready with
  | [] => None
  | None :: ready => Some (None, ready)
  | Some fds :: ready =>
      match omap (handler_of interest) fds with
      | [] => wait_for interest ready
      | hs => Some (Some hs, ready)
      end
  end.

(** [None]: it returned -1. *)
Definition epoll_wait (maxevents : nat) : prog lworld (option (list handler)) :=
  s ← get;
  if bool_decide (epoll_fd_ s ∈ w_fds s) then
    match wait_for (w_interest s) (w_ready s) with
    | None => no_fuel
    | Some (r, ready) => put (set_w_ready ready s);; mret (take maxevents <$> r)
    end
  else mret None.

Module EventLoop.
Section loop.
Context (env : menv).

(** A new instance has no interests. *)
Definition Init (epoll_ok : bool) : prog lworld bool :=
  fd ← (if epoll_ok then new_fd else mret (-1));
  modify (λ s, set_w_interest [] (set_epoll_fd fd s));;
  mret (negb (fd =? -1)).

Definition Stop : prog lworld unit := on_mon (modify (set_loop_running false)).

Definition RegisterHandler (h : handler) (events : Z) : prog lworld bool :=
  s ← get; epoll_add (GetFd h s) h events.

Definition UnregisterHandler (h : handler) : prog lworld bool :=
  s ← get; epoll_del (GetFd h s).

Definition destroy : prog lworld unit := s ← get; when (0 <=? epoll_fd_ s) (close_fd (epoll_fd_ s)).

(** [while (running)]. *)
Fixpoint loop (fuel : nat) : prog lworld unit :=
  match fuel with
  | O => no_fuel
  | S fuel =>
      s ← get;
      if running (w_mon s) then
        r ← epoll_wait MAX_EVENTS;
        match r with
        | None => loop fuel
        | Some hs => on_mon (handle_ready env hs);; loop fuel
        end
      else mret tt
  end.

Definition Loop (fuel : nat) : prog lworld unit :=
  on_mon (modify (set_loop_running true));; loop fuel.
End loop.
End EventLoop.

(** ** The handlers' descriptors, and init_monitor *)

Section init.
Context (env : menv).

(** The descriptor is assigned whatever [socket] returns. *)
Definition SocketHandler_start : prog lworld bool :=
  fd ← (if socket_ok env then new_fd else mret (-1));
  modify (set_sock_fd fd);;
  on_mon (SocketHandler_Init env).

(** [signal_fd_] is 0 until [signalfd] is called. *)
Definition SigChldHandler_start : prog lworld bool :=
  modify (set_signal_fd 0);;
  when (sigmask_ok env)
    (fd ← (if signalfd_ok env then new_fd else mret (-1)); modify (set_signal_fd fd));;
  on_mon (SigChldHandler_Init env).

Definition SocketHandler_destroy : prog lworld unit := s ← get; when (0 <=? sock_fd_ s) (close_fd (sock_fd_ s)).
Definition SigChldHandler_destroy : prog lworld unit := s ← get; when (0 <=? signal_fd_ s) (close_fd (signal_fd_ s)).

(** The four [free]s. *)
Definition free_opt (b : option bytes) : prog lworld unit :=
  match b with None => mret tt | Some b => modify (λ s, set_w_freed (w_freed s ++ [b]) s) end.

Definition free_infos : prog lworld unit :=
  s ← get;
  free_opt (daemon_info (status64 (w_mon s)));;
  free_opt (daemon_error_info (status64 (w_mon s)));;
  free_opt (daemon_info (status32 (w_mon s)));;
  free_opt (daemon_error_info (status32 (w_mon s))).

(** The objects are destroyed in the reverse order of their declaration. *)
Definition finish : prog lworld unit :=
  free_infos;; EventLoop.destroy;; SigChldHandler_destroy;; SocketHandler_destroy.

Definition init_monitor_full (epoll_ok : bool) (fuel : nat) : prog lworld unit :=
  prepared ← on_mon (prepare_environment (tmp_path env) (orig_prop env));
  if negb prepared then exit 1
  else
    SocketHandler_start;;
    SigChldHandler_start;;
    EventLoop.Init epoll_ok;;
    EventLoop.RegisterHandler HSocket (EPOLLIN ||| EPOLLET);;
    EventLoop.RegisterHandler HSigChld (EPOLLIN ||| EPOLLET);;
    EventLoop.Loop env fuel;;
    finish.
End init.

(** ** From the kernel's reports to the script of [Monitor] *)

Fixpoint script (interest : list (Z * (handler * Z))) (ready : list (option (list Z))) : list (option (list handler)) :=
  match ready with
  | [] => []
  | None :: ready => None :: script interest ready
  | Some fds :: ready =>
      match omap (handler_of interest) fds with
      | [] => script interest ready
      | hs => Some hs :: script interest ready
      end
  end.

Lemma wait_for_script i ready :
  match wait_for i ready with
  | None => script i ready = []
  | Some (x, ready') => script i ready = x :: script i ready' ∧ (length ready' < length ready)%nat
  end.
Proof.
  induction ready as [|[fds|] ready IH]; cbn [wait_for script length]; [done | | split; [done | lia]].
  destruct (omap _ fds); [|split; [done | lia]].
  destruct (wait_for i ready) as [[x r]|]; [|done]. destruct IH. split; [done | lia].
Qed.

Lemma lworld_id s : set_w_ready (w_ready s) (set_w_mon (w_mon s) s) = s.
Proof. by destruct s. Qed.

Lemma loop_cons env x evs m :
  running m = true →
  Monitor.loop env (x :: evs) m =
  match x with None => Monitor.loop env evs m | Some hs => (handle_ready env (take MAX_EVENTS hs);; Monitor.loop env evs) m end.
Proof. intros H. cbn [Monitor.loop]. step. rewrite H. by destruct x. Qed.

(** The loop over the epoll instance is the loop over the script. *)
Lemma loop_script env fuel s :
  epoll_fd_ s ∈ w_fds s → (length (w_ready s) < fuel)%nat →
  ∃ ready', EventLoop.loop env fuel s =
    let '(r, m) := Monitor.loop env (script (w_interest s) (w_ready s)) (w_mon s) in (r, set_w_ready ready' (set_w_mon m s)).
Proof.
  revert s. induction fuel as [|fuel IH]; intros s He Hf; [lia|]. cbn [EventLoop.loop]. step.
  pose proof (wait_for_script (w_interest s) (w_ready s)) as Hw.
  destruct (running (w_mon s)) eqn:Hr.
  2:{ exists (w_ready s). destruct (script _ _) as [|[] ?]; cbn [Monitor.loop]; unfold mbind, prog_bind, get; rewrite Hr;
        cbn; by rewrite lworld_id. }
  assert (∀ x ready, wait_for (w_interest s) (w_ready s) = Some (x, ready) →
    epoll_wait MAX_EVENTS s = (Ret (take MAX_EVENTS <$> x), set_w_ready ready s)) as Hwait.
  { intros x ready E. unfold epoll_wait. step. rewrite bool_decide_eq_true_2, E by done. done. }
  destruct (wait_for _ _) as [[x ready]|] eqn:E.
  2:{ exists (w_ready s). rewrite Hw. cbn [Monitor.loop]. unfold epoll_wait, mbind, prog_bind, get.
      rewrite bool_decide_eq_true_2, E, Hr by done. cbn. by rewrite lworld_id. }
  destruct Hw as [-> Hl]. step_with (Hwait x ready eq_refl). rewrite loop_cons by done.
  destruct x as [hs|]; cbn [option_fmap option_map fmap].
  - assert (on_mon (handle_ready env (take MAX_EVENTS hs)) (set_w_ready ready s) =
      let '(r, m) := handle_ready env (take MAX_EVENTS hs) (w_mon s) in (r, set_w_mon m (set_w_ready ready s))) as Eh by done.
    unfold mbind, prog_bind in *. rewrite Eh.
    destruct (handle_ready env (take MAX_EVENTS hs) (w_mon s)) as [[[]| | |] m]; [|by exists ready..].
    destruct (IH (set_w_mon m (set_w_ready ready s))) as [ready' E']; [done | cbn; lia|].
    exists ready'. rewrite E'. cbn [w_interest w_ready w_mon set_w_mon set_w_ready].
    by destruct (Monitor.loop env (script (w_interest s) ready) m).
  - destruct (IH (set_w_ready ready s)) as [ready' E']; [done | cbn; lia|]. exists ready'. rewrite E'.
    cbn [w_interest w_ready w_mon set_w_mon set_w_ready].
    by destruct (Monitor.loop env (script (w_interest s) ready) (w_mon s)).
Qed.

Definition with_epolls (evs : list (option (list handler))) (env : menv) : menv :=
  mkEnv (tmp_path env) (orig_prop env) (socket_ok env) (bind_ok env) (sigmask_ok env) (signalfd_ok env)
    evs (socket_fuel env) (signames env).

(** The buffers that are freed at the end. *)
Definition infos (m : mon) : list bytes :=
  option_list (daemon_info (status64 m)) ++ option_list (daemon_error_info (status64 m)) ++
  option_list (daemon_info (status32 m)) ++ option_list (daemon_error_info (status32 m)).

Lemma free_opt_run b s : free_opt b s = (Ret tt, set_w_freed (w_freed s ++ option_list b) s).
Proof. destruct b; [done|]. cbn. rewrite app_nil_r. by destruct s. Qed.

Lemma free_infos_run s : free_infos s = (Ret tt, set_w_freed (w_freed s ++ infos (w_mon s)) s).
Proof.
  unfold free_infos, infos. step. step_with (free_opt_run (daemon_info (status64 (w_mon s))) s).
  erewrite bind_run by apply free_opt_run. erewrite bind_run by apply free_opt_run. rewrite free_opt_run.
  cbn [w_freed set_w_freed]. by rewrite <- !app_assoc.
Qed.

Lemma new_fd_run s : new_fd s = (Ret (lowest_fd (w_fds s)), set_w_fds (w_fds s ∪ {[lowest_fd (w_fds s)]}) s).
Proof. reflexivity. Qed.

Lemma epoll_add_run fd h e s :
  epoll_fd_ s ∈ w_fds s → fd ∈ w_fds s → fd ∉ (w_interest s).*1 →
  epoll_add fd h e s = (Ret true, set_w_interest (w_interest s ++ [(fd, (h, e))]) s).
Proof.
  intros H1 H2 H3. unfold epoll_add. step.
  by rewrite (bool_decide_eq_true_2 _ H1), (bool_decide_eq_true_2 _ H2), (bool_decide_eq_false_2 _ H3).
Qed.

Section fresh.
Context (s : lworld).

Definition fd1 : Z := lowest_fd (w_fds s).
Definition fd2 : Z := lowest_fd (w_fds s ∪ {[fd1]}).
Definition fd3 : Z := lowest_fd (w_fds s ∪ {[fd1]} ∪ {[fd2]}).

Definition both_handlers : list (Z * (handler * Z)) :=
  [(fd1, (HSocket, EPOLLIN ||| EPOLLET)); (fd2, (HSigChld, EPOLLIN ||| EPOLLET))].

Lemma fds_fresh : fd1 ∉ w_fds s ∧ fd2 ∉ w_fds s ∪ {[fd1]} ∧ fd3 ∉ w_fds s ∪ {[fd1]} ∪ {[fd2]} ∧ 0 <= fd1 ∧ 0 <= fd2 ∧ 0 <= fd3.
Proof.
  pose proof (lowest_fd_fresh (w_fds s)). pose proof (lowest_fd_fresh (w_fds s ∪ {[fd1]})).
  pose proof (lowest_fd_fresh (w_fds s ∪ {[fd1]} ∪ {[fd2]})). unfold fd3, fd2, fd1 in *. tauto.
Qed.

Lemma registered_run (w : lworld) :
  w_fds w = w_fds s ∪ {[fd1]} ∪ {[fd2]} → sock_fd_ w = fd1 → signal_fd_ w = fd2 →
  (EventLoop.Init true;; EventLoop.RegisterHandler HSocket (EPOLLIN ||| EPOLLET);;
   EventLoop.RegisterHandler HSigChld (EPOLLIN ||| EPOLLET)) w =
  (Ret true, set_w_interest both_handlers (set_epoll_fd fd3 (set_w_fds (w_fds w ∪ {[fd3]}) w))).
Proof.
  intros Hw H1 H2. destruct fds_fresh as (F1 & F2 & F3 & _). unfold EventLoop.Init.
  rewrite prog_bind_assoc. step_with (new_fd_run w). rewrite prog_bind_assoc. step. step.
  rewrite Hw. fold fd3. unfold EventLoop.RegisterHandler. rewrite prog_bind_assoc. step.
  cbn [GetFd sock_fd_ set_w_interest set_epoll_fd set_w_fds]. rewrite H1.
  erewrite bind_run; [|apply epoll_add_run; cbn; set_solver]. step. cbn [GetFd signal_fd_ set_w_interest set_epoll_fd set_w_fds].
  rewrite H2, epoll_add_run; [done | cbn; set_solver..].
Qed.

Lemma finish_run (w : lworld) :
  w_fds w = w_fds s ∪ {[fd1]} ∪ {[fd2]} ∪ {[fd3]} → sock_fd_ w = fd1 → signal_fd_ w = fd2 → epoll_fd_ w = fd3 →
  ∃ w', finish w = (Ret tt, w') ∧ w_mon w' = w_mon w ∧ w_fds w' = w_fds s ∧ w_freed w' = w_freed w ++ infos (w_mon w).
Proof.
  intros Hw H1 H2 H3. destruct fds_fresh as (F1 & F2 & F3 & P1 & P2 & P3). unfold finish.
  step_with (free_infos_run w). unfold EventLoop.destroy, SigChldHandler_destroy, SocketHandler_destroy.
  rewrite prog_bind_assoc. step. cbn [epoll_fd_ set_w_freed]. rewrite H3, (proj2 (Z.leb_le _ _) P3). cbn [when]. step.
  rewrite prog_bind_assoc. step. cbn [signal_fd_ set_w_fds set_w_freed]. rewrite H2, (proj2 (Z.leb_le _ _) P2). cbn [when]. step.
  step. cbn [sock_fd_ set_w_fds set_w_freed]. rewrite H1, (proj2 (Z.leb_le _ _) P1). cbn [when].
  eexists. split; [reflexivity|]. split_and!; [done | | done]. cbn. rewrite Hw. set_solver.
Qed.

Section started.
Context (env : menv).
Hypothesis Hsocket : socket_ok env = true.
Hypothesis Hmask : sigmask_ok env = true.
Hypothesis Hsignal : signalfd_ok env = true.

Lemma SocketHandler_start_run m :
  SocketHandler_start env (set_w_mon m s) =
  let '(r, m') := SocketHandler_Init env m in (r, set_w_mon m' (set_sock_fd fd1 (set_w_fds (w_fds s ∪ {[fd1]}) s))).
Proof. unfold SocketHandler_start. rewrite Hsocket. step_with (new_fd_run (set_w_mon m s)). by step. Qed.

Lemma SigChldHandler_start_run m (w : lworld) :
  w_fds w = w_fds s ∪ {[fd1]} →
  SigChldHandler_start env (set_w_mon m w) =
  (Ret true, set_w_mon (SigChldHandler_Init env m).2 (set_signal_fd fd2 (set_w_fds (w_fds w ∪ {[fd2]}) w))).
Proof.
  intros Hw. unfold SigChldHandler_start. rewrite Hmask. cbn [when]. step. rewrite Hsignal.
  rewrite prog_bind_assoc. erewrite bind_run by apply new_fd_run. step.
  cbn [w_fds set_signal_fd set_w_mon]. rewrite Hw. fold fd2. unfold on_mon, SigChldHandler_Init. rewrite Hmask, Hsignal. done.
Qed.
End started.
End fresh.

(** Three statements before a fourth. *)
Lemma bind3 {A B C D} (p1 : prog lworld A) (p2 : prog lworld B) (p3 : prog lworld C) (k : prog lworld D) w :
  (p1;; p2;; p3;; k) w = ((p1;; p2;; p3);; k) w.
Proof.
  unfold mbind, prog_bind. destruct (p1 w) as [[] w1]; [|done..]. destruct (p2 w1) as [[] w2]; [|done..].
  by destruct (p3 w2) as [[] w3].
Qed.

Lemma loop_with_epolls evs env l m : Monitor.loop (with_epolls evs env) l m = Monitor.loop env l m.
Proof. reflexivity. Qed.

(** C11 With the socket, the signal descriptor and the epoll instance, the whole function, for any
    reports of the kernel, does what [Monitor] says for the script in which both handlers are
    registered; when it returns, every descriptor it opened is closed and the four buffers are
    freed. *)
Theorem init_monitor_full_refines env fuel s :
  socket_ok env = true → sigmask_ok env = true → signalfd_ok env = true → (length (w_ready s) < fuel)%nat →
  let '(r, m) := init_monitor (with_epolls (script (both_handlers s) (w_ready s)) env) (w_mon s) in
  ∃ s', init_monitor_full env true fuel s = (r, s') ∧ w_mon s' = m ∧
    (r = Ret tt → w_fds s' = w_fds s ∧ w_freed s' = w_freed s ++ infos m).
Proof.
  intros Hs Hm Hg Hf. unfold init_monitor, init_monitor_full.
  change (prepare_environment (tmp_path (with_epolls _ env)) (orig_prop (with_epolls _ env)))
    with (prepare_environment (tmp_path env) (orig_prop env)).
  unfold mbind at 1 4, prog_bind at 1 4. unfold on_mon at 1.
  destruct (prepare_environment _ _ (w_mon s)) as [[[]| | |] m0]; cbn [negb]; try (eexists; split_and!; done).
  change (SocketHandler_Init (with_epolls _ env)) with (SocketHandler_Init env).
  change (SigChldHandler_Init (with_epolls _ env)) with (SigChldHandler_Init env).
  unfold mbind at 1 3, prog_bind at 1 3. rewrite (SocketHandler_start_run s env Hs m0).
  destruct (SocketHandler_Init env m0) as [[b| | |] m1]; try (eexists; split_and!; done).
  set (w1 := set_sock_fd _ _). step_with (SigChldHandler_start_run s env Hm Hg m1 w1 eq_refl).
  assert (SigChldHandler_Init env m1 = (Ret true, (SigChldHandler_Init env m1).2)) as E1
    by (unfold SigChldHandler_Init; by rewrite Hm, Hg). step_with E1.
  set (m2 := (SigChldHandler_Init env m1).2). rewrite bind3.
  erewrite bind_run by (apply (registered_run s); done). set (w3 := set_w_interest _ _).
  unfold EventLoop.Loop, Loop. rewrite prog_bind_assoc. step. step. set (w4 := set_w_mon _ w3).
  destruct (loop_script env fuel w4) as [ready' E]; [apply elem_of_union_r; by apply elem_of_singleton | done|].
  rewrite loop_with_epolls. change (w_interest w4) with (both_handlers s) in E. change (w_ready w4) with (w_ready s) in E.
  change (w_mon w4) with (set_loop_running true m2) in E. cbn [epolls with_epolls].
  unfold mbind, prog_bind. rewrite E.
  destruct (Monitor.loop env _ _) as [[[]| | |] m5]; try (eexists; split_and!; done).
  destruct (finish_run s (set_w_ready ready' (set_w_mon m5 w4))) as (w' & Ef & Hm' & Hfd & Hfr); [done..|].
  exists w'. split_and!; [exact Ef | exact Hm' |]. intros _. split; [exact Hfd | exact Hfr].
Qed.
Lemma drop_interest fd he (l : list (Z * (handler * Z))) :
  fd ∉ l.*1 → filter (λ p : Z * (handler * Z), p.1 ≠ fd) (l ++ [(fd, he)]) = l.
Proof.
  induction l as [|[fd' he'] l IH]; cbn [app fmap list_fmap fst]; rewrite ?not_elem_of_cons.
  - intros _. by rewrite filter_cons_False by (cbn; tauto).
  - intros [H1 H2]. rewrite filter_cons_True by (cbn; congruence). f_equal. by apply IH.
Qed.

(** A handler that is registered and unregistered leaves the interest list as it was. *)
Lemma unregister_register h e s :
  epoll_fd_ s ∈ w_fds s → GetFd h s ∈ w_fds s → GetFd h s ∉ (w_interest s).*1 →
  (EventLoop.RegisterHandler h e;; EventLoop.UnregisterHandler h) s = (Ret true, s).
Proof.
  intros H1 H2 H3. unfold EventLoop.RegisterHandler. rewrite prog_bind_assoc. step.
  step_with (epoll_add_run (GetFd h s) h e s H1 H2 H3). unfold EventLoop.UnregisterHandler, epoll_del. step. step.
  assert (∀ l, GetFd h (set_w_interest l s) = GetFd h s) as -> by by destruct h.
  cbn [epoll_fd_ w_fds w_interest set_w_interest]. rewrite (bool_decide_eq_true_2 _ H1).
  rewrite bool_decide_eq_true_2 by (rewrite fmap_app; set_solver). cbn [andb]. step.
  rewrite drop_interest by done. by destruct s.
Qed.

(** Without an epoll instance both registrations fail, no handler is ever called, and the loop
    never ends: [epoll_wait] fails at once every time, and the loop tries again. *)
Theorem epoll_failure_spins env e fuel s :
  -1 ∉ w_fds s →
  (EventLoop.Init false;; EventLoop.RegisterHandler HSocket e;; EventLoop.RegisterHandler HSigChld e;;
   EventLoop.Loop env fuel) s =
  (OutOfFuel, set_w_mon (set_loop_running true (w_mon s)) (set_w_interest [] (set_epoll_fd (-1) s))).
Proof.
  intros Hn. assert (∀ s, -1 ∉ w_fds s → epoll_fd_ s = -1 → running (w_mon s) = true →
    EventLoop.loop env fuel s = (OutOfFuel, s)) as Hspin.
  { clear. induction fuel as [|fuel IH]; intros s Hn He Hr; [done|]. cbn [EventLoop.loop]. step. rewrite Hr.
    assert (epoll_wait MAX_EVENTS s = (Ret None, s)) as E.
    { unfold epoll_wait. step. by rewrite He, bool_decide_eq_false_2. }
    step_with E. by apply IH. }
  unfold EventLoop.Init. rewrite prog_bind_assoc. step. rewrite prog_bind_assoc. step. step.
  set (s1 := set_w_interest [] _).
  assert (∀ h, EventLoop.RegisterHandler h e s1 = (Ret false, s1)) as Hreg.
  { intros h. unfold EventLoop.RegisterHandler, epoll_add. step. step.
    by rewrite (bool_decide_eq_false_2 (epoll_fd_ s1 ∈ w_fds s1)) by done. }
  step_with (Hreg HSocket). step_with (Hreg HSigChld). unfold EventLoop.Loop. step. by apply Hspin.
Qed.

(** ** Examples *)

Definition demo_world (ready : list (option (list Z))) (k : kern) : lworld :=
  mkLw (init_mon k) {[0; 1; 2]} 0 0 0 [] ready [].

(** The kernel interrupts the wait, reports a descriptor nobody registered, then the socket (3). *)
Definition demo_reports : list (option (list Z)) := [None; Some [7]; Some [3]].

Lemma init_monitor_full_refines_witness :
  let s := demo_world demo_reports demo_exit in
  let env := mkEnv (txt "/t") (Some (field_name ++ txt "x")) true true true true [] 3 (λ _, []) in
  let '(r, m) := init_monitor (with_epolls (script (both_handlers s) (w_ready s)) env) (w_mon s) in
  ∃ s', init_monitor_full env true 4 s = (r, s') ∧ w_mon s' = m ∧
    (r = Ret tt → w_fds s' = w_fds s ∧ w_freed s' = w_freed s ++ infos m).
Proof. apply (init_monitor_full_refines _ 4 (demo_world demo_reports demo_exit)); [done.. | cbn; lia]. Defined.

Example demo_full_exits :
  (init_monitor_full (mkEnv (txt "/t") (Some (field_name ++ txt "x")) true true true true [] 3 (λ _, [])) true 4
     (demo_world demo_reports demo_exit)).1 = Ret tt.
Proof. vm_compute. reflexivity. Qed.

Lemma epoll_failure_spins_witness :
  let s := demo_world [Some [3]] demo_exit in
  (EventLoop.Init false;; EventLoop.RegisterHandler HSocket 1;; EventLoop.RegisterHandler HSigChld 1;;
   EventLoop.Loop demo_env 100) s =
  (OutOfFuel, set_w_mon (set_loop_running true (w_mon s)) (set_w_interest [] (set_epoll_fd (-1) s))).
Proof. apply (epoll_failure_spins demo_env 1 100 (demo_world [Some [3]] demo_exit)). vm_compute. set_solver. Defined.

(** When the signal mask cannot be set, [signal_fd_] is still 0: standard input is registered for
    the children's events, and closed at the end. *)
Example standard_input_registered :
  let '(_, s) := (SigChldHandler_start (mkEnv [] None true true false true [] 0 (λ _, []));; EventLoop.Init true;;
                  EventLoop.RegisterHandler HSigChld (EPOLLIN ||| EPOLLET)) (demo_world [] demo_exit) in
  (w_interest s).*1 = [0] ∧ w_fds (SigChldHandler_destroy s).2 = {[1; 2; 3]}.
Proof. vm_compute. done. Qed.
