(* ===== verification/MountInfo.v ===== *)
(** * MountInfo: reading /proc/<pid>/mountinfo

    [file_readline] and [parse_mount_info] of [common/files.cpp]: the [sscanf] format as a
    list of directives, the offsets it leaves behind, and the [mount_info] built from them. *)

From Stdlib Require Import ZArith Lia Ascii.
From stdpp Require Import base tactics strings list numbers.
From S2P Require Import Prelude Misc.

(** ** Lines *)

Definition newline : byte := "010"%char.
Definition space : byte := " "%char.

(** What successive [getline]s return: each line with its newline. *)
Fixpoint lines_from (f cur : bytes) : list bytes :=
  match f with
  | [] => match cur with [] => [] | _ => [cur] end
  | c :: f =>
      if bool_decide (c = newline) then (cur ++ [c]) :: lines_from f []
      else lines_from f (cur ++ [c])
  end.
Definition getlines (f : bytes) : list bytes := lines_from f [].

Fixpoint drop_while (p : byte → bool) (s : bytes) : bytes :=
  match s with
  | [] => []
  | c :: s' => if p c then drop_while p s' else s
  end.

Definition trailing (c : byte) : bool :=
  bool_decide (c = newline) || bool_decide (c = "013"%char) || bool_decide (c = space).

(** The view handed to the callback: the buffer as a C string, trimmed if asked for. *)
Definition line_view (trim : bool) (line : bytes) : bytes :=
  if trim then
    drop_while (λ c, bool_decide (c = space)) (cstr (reverse (drop_while trailing (reverse line))))
  else cstr line.

(** The callback [fn] runs on the lines until it answers [false]. *)
Fixpoint each_line {S} (ls : list bytes) (trim : bool) (fn : bytes → prog S bool) : prog S unit :=
  match ls with
  | [] => mret tt
  | l :: ls => go ← fn (line_view trim l); if go : bool then each_line ls trim fn else mret tt
  end.

Definition file_readline {S} (trim : bool) (file : option bytes) (fn : bytes → prog S bool)
  : prog S unit :=
  match file with
  | None => mret tt
  | Some f => each_line (getlines f) trim fn
  end.

(** ** sscanf *)

Definition isspace (c : byte) : bool :=
  let z := Z_of_byte c in (z =? 32) || ((9 <=? z) && (z <=? 13)).

Fixpoint span (p : byte → bool) (s : bytes) : bytes * bytes :=
  match s with
  | [] => ([], [])
  | c :: s' => if p c then let '(a, b) := span p s' in (c :: a, b) else ([], s)
  end.

(** The directives [parse_mount_info] uses: white space, an ordinary character, [%u],
    [%*s], [%*[^-]] and [%n]. *)
Inductive directive : Set :=
| DSpace
| DLit (c : byte)
| DNum
| DStr
| DNotDash
| DPos.

(** [%u]: a sign is accepted; the value is that of [strtoull], converted to 32 bits. *)
Definition scan_num (s : bytes) : option (Z * bytes) :=
  let '(neg, s) :=
    match s with
    | c :: r => if bool_decide (c = "-"%char) then (true, r)
                else if bool_decide (c = "+"%char) then (false, r) else (false, s)
    | [] => (false, s)
    end in
  let '(ds, r) := span is_digit s in
  match ds with
  | [] => None
  | _ => let v := Z.min (dec_val ds 0) (2 ^ 64 - 1) in Some (u32 (if neg then - v else v), r)
  end.

Definition notspace (c : byte) : bool := negb (isspace c).
Definition notdash (c : byte) : bool := negb (bool_decide (c = "-"%char)).

(** The values of the [%u]s and of the [%n]s that were reached. *)
Fixpoint sscanf (fmt : list directive) (s : bytes) (pos : Z) (nums offs : list Z)
  : list Z * list Z :=
  match fmt with
  | [] => (nums, offs)
  | d :: fmt =>
      let go r nums offs :=
        sscanf fmt r (pos + (Z.of_nat (length s) - Z.of_nat (length r))) nums offs in
      match d with
      | DSpace => go (drop_while isspace s) nums offs
      | DLit c =>
          match s with
          | c' :: r => if bool_decide (c' = c) then go r nums offs else (nums, offs)
          | [] => (nums, offs)
          end
      | DNum =>
          match scan_num (drop_while isspace s) with
          | Some (v, r) => go r (nums ++ [v]) offs
          | None => (nums, offs)
          end
      | DStr =>
          match span notspace (drop_while isspace s) with
          | ([], _) => (nums, offs)
          | (_, r) => go r nums offs
          end
      | DNotDash =>
          match span notdash s with
          | ([], _) => (nums, offs)
          | (_, r) => go r nums offs
          end
      | DPos => go s nums (offs ++ [pos])
      end
  end.

Definition word : list directive := [DPos; DStr; DPos].

Definition mountinfo_format : list directive :=
  [DNum; DSpace; DNum; DSpace; DNum; DLit ":"%char; DNum; DSpace] ++
  word ++ [DSpace] ++ word ++ [DSpace] ++ word ++
  [DPos; DNotDash; DPos; DSpace; DLit "-"%char; DSpace] ++
  word ++ [DSpace] ++ word ++ [DSpace] ++ word.

(** ** The entries *)

Record mount_info : Type := mkMount {
  mi_id : option Z;          (* [None]: not assigned *)
  mi_parent : option Z;
  mi_device : option Z;
  mi_root : bytes;
  mi_target : bytes;
  mi_vfs_option : bytes;
  mi_shared : Z;
  mi_master : Z;
  mi_propagate_from : Z;
  mi_type : bytes;
  mi_source : bytes;
  mi_fs_option : bytes
}.

Definition makedev (maj min : Z) : Z :=
  Z.lor (Z.lor (Z.shiftl (Z.land maj 4294963200) 32) (Z.shiftl (Z.land maj 4095) 8))
        (Z.lor (Z.shiftl (Z.land min 4294967040) 12) (Z.land min 255)).

(** [string_view::substr]: throws behind the end, and a length that became negative is a
    huge one. *)
Definition substr (s : bytes) (start len : Z) : option bytes :=
  if (start <? 0) || (Z.of_nat (length s) <? start) then None
  else let r := drop (Z.to_nat start) s in
       Some (if len <? 0 then r else take (Z.to_nat len) r).

(** [optional.find(tag)], then [parse_int] of what follows. *)
Definition tag_value (tag optional : bytes) : Z :=
  match find_sub tag optional with
  | Some pos => u32 (parse_int (drop (pos + length tag) optional))
  | None => 0
  end.

(** The callback of [parse_mount_info]; [None] when a [substr] throws. *)
Definition parse_mount_line (line : bytes) : option mount_info :=
  let '(nums, offs) := sscanf mountinfo_format line 0 [] [] in
  let off i := default 0 (offs !! i) in
  root ← substr line (off 0%nat) (off 1%nat - off 0%nat);
  target ← substr line (off 2%nat) (off 3%nat - off 2%nat);
  vfs_option ← substr line (off 4%nat) (off 5%nat - off 4%nat);
  let optional_start := off 6%nat + 1 in
  let optional_end := off 7%nat - 1 in
  optional ← substr line optional_start
    (if 0 <? optional_end - optional_start then optional_end - optional_start else 0);
  type ← substr line (off 8%nat) (off 9%nat - off 8%nat);
  source ← substr line (off 10%nat) (off 11%nat - off 10%nat);
  fs_option ← substr line (off 12%nat) (off 13%nat - off 12%nat);
  Some (mkMount (nums !! 0%nat) (nums !! 1%nat)
          (maj ← nums !! 2%nat; min ← nums !! 3%nat; Some (makedev maj min))
          root target vfs_option
          (tag_value (txt "shared:") optional) (tag_value (txt "master:") optional)
          (tag_value (txt "propagate_from:") optional)
          type source fs_option).

(** The vector the lines are collected in. *)
Definition parse_mount_info (file : option bytes) : prog (list mount_info) unit :=
  file_readline false file (λ line,
    match parse_mount_line line with
    | None => crash BadAlloc
    | Some info => modify (λ result, result ++ [info]);; mret true
    end).

(** ** What the kernel prints *)

(** The optional fields of a mount: the peer groups it belongs to, and whether it is unbindable. *)
Inductive peer_tag : Set := Shared | Master | PropagateFrom.
Inductive field : Type := Group (t : peer_tag) (n : Z) | Unbindable.

#[export] Instance peer_tag_eq_dec : EqDecision peer_tag.
Proof. solve_decision. Defined.

Definition tag_text (t : peer_tag) : bytes :=
  match t with Shared => txt "shared:" | Master => txt "master:" | PropagateFrom => txt "propagate_from:" end.

Definition field_text (f : field) : bytes :=
  match f with Group t n => tag_text t ++ print_dec n | Unbindable => txt "unbindable" end.

Definition show_optional (fs : list field) : bytes := mjoin ((λ f, field_text f ++ [space]) <$> fs).

Record entry : Type := mkEntry {
  e_id : Z; e_parent : Z; e_major : Z; e_minor : Z;
  e_root : bytes; e_target : bytes; e_vfs_option : bytes;
  e_optional : list field;
  e_type : bytes; e_source : bytes; e_fs_option : bytes
}.

(** The optional fields, each followed by a space. *)
Definition e_opt (e : entry) : bytes := show_optional (e_optional e).

Definition show_head (e : entry) : bytes :=
  print_dec (e_id e) ++ space :: print_dec (e_parent e) ++ space ::
  print_dec (e_major e) ++ ":"%char :: print_dec (e_minor e) ++ [space].

Definition show_entry (e : entry) : bytes :=
  show_head e ++
  e_root e ++ space :: e_target e ++ space :: e_vfs_option e ++
  space :: e_opt e ++ "-"%char :: space ::
  e_type e ++ space :: e_source e ++ space :: e_fs_option e ++ [newline].

Definition is_word (w : bytes) : Prop := w ≠ [] ∧ Forall (λ c, isspace c = false) w.
Definition is_u32 (n : Z) : Prop := 0 <= n < 2 ^ 32.

(** Peer groups are numbered by positive integers. *)
Definition field_ok (f : field) : Prop := match f with Group _ n => 0 <= n < 2 ^ 31 | Unbindable => True end.

Record entry_ok (e : entry) : Prop := {
  ok_id : is_u32 (e_id e); ok_parent : is_u32 (e_parent e);
  ok_major : is_u32 (e_major e); ok_minor : is_u32 (e_minor e);
  ok_root : is_word (e_root e); ok_target : is_word (e_target e);
  ok_vfs : is_word (e_vfs_option e);
  ok_optional : Forall field_ok (e_optional e);
  ok_type : is_word (e_type e); ok_source : is_word (e_source e);
  ok_fs : is_word (e_fs_option e)
}.

(** ** Lemmas on the scanner *)

Lemma span_stop p a c r : Forall (λ x, p x = true) a → p c = false → span p (a ++ c :: r) = (a, c :: r).
Proof.
  induction 1 as [|x a Hx _ IH]; intros Hc; simpl; [by rewrite Hc|]. rewrite Hx. by rewrite IH.
Qed.

Lemma drop_while_spaces p pre s : Forall (λ x, p x = true) pre → drop_while p (pre ++ s) = drop_while p s.
Proof. induction 1 as [|x pre Hx _ IH]; [done|]. simpl. by rewrite Hx. Qed.

Lemma drop_while_stop p c s : p c = false → drop_while p (c :: s) = c :: s.
Proof. simpl. by intros ->. Qed.

Lemma drop_while_word w r : is_word w → drop_while isspace (w ++ r) = w ++ r.
Proof. intros [Hn Hw]. destruct Hw as [|c w Hc]; [done|]. simpl. by rewrite Hc. Qed.

Lemma is_word_notspace w : is_word w → Forall (λ c, notspace c = true) w.
Proof. intros [_ H]. eapply Forall_impl; [|exact H]. intros c. unfold notspace. by intros ->. Qed.

Lemma digit_not_space c : is_digit c = true → isspace c = false.
Proof.
  unfold is_digit, isspace. intros. bool_to_prop.
  rewrite (proj2 (Z.eqb_neq _ 32)), (proj2 (Z.leb_gt _ 13)) by lia. by rewrite andb_false_r.
Qed.

Lemma print_dec_wide n :
  0 <= n < 2 ^ 64 →
  Forall (λ c, is_digit c = true) (print_dec n) ∧ dec_val (print_dec n) 0 = n ∧ print_dec n ≠ [].
Proof.
  intros Hn. destruct (dec_digits_spec 20 n) as [H1 H2]; [split; [lia|]|lia|].
  { transitivity (2 ^ 64); [lia|]. by vm_compute. }
  split_and!; [done..|]. unfold print_dec. change 20%nat with (S 19). cbn [dec_digits].
  by intros [_ [=]]%app_nil.
Qed.

Lemma print_dec_spec n :
  is_u32 n →
  Forall (λ c, is_digit c = true) (print_dec n) ∧ dec_val (print_dec n) 0 = n ∧ print_dec n ≠ [].
Proof. unfold is_u32. intros Hn. apply print_dec_wide. lia. Qed.

Lemma print_dec_word n : is_u32 n → is_word (print_dec n).
Proof.
  intros (H & _ & Hn)%print_dec_spec. split; [done|].
  eapply Forall_impl; [|exact H]. apply digit_not_space.
Qed.

Lemma scan_num_dec n c r :
  is_u32 n → is_digit c = false → scan_num (print_dec n ++ c :: r) = Some (n, c :: r).
Proof.
  intros Hn Hc. destruct (print_dec_spec n Hn) as (Hd & Hv & Hne). unfold scan_num.
  destruct (print_dec n) as [|d ds] eqn:E; [done|]. cbn [app]. cbv beta iota.
  assert (is_digit d = true) as Hd1 by by inv Hd.
  rewrite (bool_decide_eq_false_2 (d = "-"%char)), (bool_decide_eq_false_2 (d = "+"%char))
    by by intros ->.
  change (d :: ds ++ c :: r) with ((d :: ds) ++ c :: r). rewrite span_stop by done.
  rewrite Hv. unfold is_u32 in Hn. rewrite Z.min_l by lia. rewrite wrapu_small by lia. done.
Qed.

(** No field has a dash, a newline or a NUL in it. *)
Lemma field_text_chars f c :
  field_ok f → c ∈ field_text f ++ [space] → c ≠ "-"%char ∧ c ≠ newline ∧ c ≠ NUL.
Proof.
  intros Hf. rewrite elem_of_app, list_elem_of_singleton. intros [Hc| ->]; [|done].
  assert (∀ t, forallb (λ c, bool_decide (c ≠ "-"%char ∧ c ≠ newline ∧ c ≠ NUL)) (tag_text t) = true) as Ht
    by by intros [].
  assert (forallb (λ c, bool_decide (c ≠ "-"%char ∧ c ≠ newline ∧ c ≠ NUL)) (txt "unbindable") = true) as Hu by done.
  assert (∀ l, forallb (λ c, bool_decide (c ≠ "-"%char ∧ c ≠ newline ∧ c ≠ NUL)) l = true → c ∈ l →
    c ≠ "-"%char ∧ c ≠ newline ∧ c ≠ NUL) as K.
  { intros l H Hl. rewrite forallb_forall in H. by apply (bool_decide_eq_true _), H, list_elem_of_In. }
  destruct f as [t n|]; cbn [field_text] in Hc; [|by apply (K _ Hu)].
  apply elem_of_app in Hc as [Hc|Hc]; [by apply (K _ (Ht t))|].
  destruct (print_dec_spec n) as (Hd & _); [unfold is_u32; simpl in Hf; lia|].
  rewrite list.Forall_forall in Hd. apply Hd in Hc. split_and!; intros ->; by vm_compute in Hc.
Qed.

Lemma show_optional_chars fs c :
  Forall field_ok fs → c ∈ show_optional fs → c ≠ "-"%char ∧ c ≠ newline ∧ c ≠ NUL.
Proof.
  unfold show_optional. intros Hf Hc. apply list_elem_of_join in Hc as (l & Hc & Hl).
  apply list_elem_of_fmap in Hl as (f & -> & Hin). rewrite list.Forall_forall in Hf. by eapply field_text_chars; [apply Hf|].
Qed.

Lemma field_text_cons f : ∃ c w, field_text f = c :: w.
Proof. destruct f as [[] n|]; simpl; eauto. Qed.

Lemma show_optional_space fs : show_optional fs = [] ∨ ∃ o, o ≠ [] ∧ show_optional fs = o ++ [space].
Proof.
  induction fs as [|f fs IH] using rev_ind; [by left|]. right. unfold show_optional.
  rewrite fmap_app, join_app. cbn [fmap list_fmap mjoin list_join]. rewrite app_nil_r, app_assoc.
  eexists. split; [|reflexivity]. destruct (field_text_cons f) as (c & w & ->). by intros [_ [=]]%app_nil.
Qed.

Section scanner.
Context (fmt : list directive) (pos : Z) (nums offs : list Z) (r : bytes).

Lemma sscanf_num n c :
  is_u32 n → is_digit c = false →
  sscanf (DNum :: fmt) (print_dec n ++ c :: r) pos nums offs =
  sscanf fmt (c :: r) (pos + Z.of_nat (length (print_dec n))) (nums ++ [n]) offs.
Proof.
  intros Hn Hc. cbn [sscanf]. rewrite drop_while_word by by apply print_dec_word.
  rewrite scan_num_dec by done. rewrite length_app. f_equal. lia.
Qed.

Lemma sscanf_space s :
  (∀ c s', s = c :: s' → isspace c = false) →
  sscanf (DSpace :: fmt) (space :: s) pos nums offs = sscanf fmt s (pos + 1) nums offs.
Proof.
  intros Hs. cbn [sscanf drop_while]. change (isspace space) with true. cbv iota.
  replace (drop_while isspace s) with s.
  - f_equal. simpl. lia.
  - destruct s as [|c s]; [done|]. simpl. by rewrite (Hs c s).
Qed.

Lemma sscanf_nospace s :
  (∀ c s', s = c :: s' → isspace c = false) →
  sscanf (DSpace :: fmt) s pos nums offs = sscanf fmt s pos nums offs.
Proof.
  intros Hs. cbn [sscanf]. replace (drop_while isspace s) with s.
  - f_equal. lia.
  - destruct s as [|c s]; [done|]. simpl. by rewrite (Hs c s).
Qed.

Lemma sscanf_lit c : sscanf (DLit c :: fmt) (c :: r) pos nums offs = sscanf fmt r (pos + 1) nums offs.
Proof. cbn [sscanf]. rewrite bool_decide_eq_true_2 by done. f_equal. simpl. lia. Qed.

Lemma sscanf_pos s : sscanf (DPos :: fmt) s pos nums offs = sscanf fmt s pos nums (offs ++ [pos]).
Proof. cbn [sscanf]. f_equal. lia. Qed.

Lemma sscanf_str w c :
  is_word w → isspace c = true →
  sscanf (DStr :: fmt) (w ++ c :: r) pos nums offs =
  sscanf fmt (c :: r) (pos + Z.of_nat (length w)) nums offs.
Proof.
  intros Hw Hc. cbn [sscanf]. rewrite drop_while_word by done.
  rewrite span_stop; [|by apply is_word_notspace | unfold notspace; by rewrite Hc].
  destruct w; [by destruct Hw|]. f_equal. rewrite length_app. lia.
Qed.

Lemma sscanf_notdash w :
  w ≠ [] → Forall (λ c, c ≠ "-"%char) w →
  sscanf (DNotDash :: fmt) (w ++ "-"%char :: r) pos nums offs =
  sscanf fmt ("-"%char :: r) (pos + Z.of_nat (length w)) nums offs.
Proof.
  intros Hn Hw. cbn [sscanf]. rewrite span_stop; [|eapply Forall_impl; [|exact Hw]|done].
  - destruct w; [done|]. f_equal. rewrite length_app. lia.
  - intros c Hc. unfold notdash. by rewrite bool_decide_eq_false_2.
Qed.
End scanner.

(** A word between its two offsets. *)
Lemma sscanf_word fmt pos nums offs r w c :
  is_word w → isspace c = true →
  sscanf (word ++ fmt) (w ++ c :: r) pos nums offs =
  sscanf fmt (c :: r) (pos + Z.of_nat (length w)) nums
    (offs ++ [pos; pos + Z.of_nat (length w)]).
Proof.
  intros Hw Hc. unfold word. simpl app. rewrite sscanf_pos, sscanf_str, sscanf_pos by done.
  by rewrite <- app_assoc.
Qed.

Lemma word_head w r : is_word w → ∀ c s', w ++ r = c :: s' → isspace c = false.
Proof. intros [Hn Hw] c s' E. destruct Hw as [|d w Hd]; [done|]. by injection E as -> _. Qed.

Lemma substr_mid a w b : substr (a ++ w ++ b) (Z.of_nat (length a)) (Z.of_nat (length w)) = Some w.
Proof.
  unfold substr. rewrite (proj2 (Z.ltb_ge _ 0)), (proj2 (Z.ltb_ge _ _)), (proj2 (Z.ltb_ge _ 0))
    by (rewrite ?length_app; lia). cbn [orb].
  by rewrite !Nat2Z.id, drop_app_length, take_app_length.
Qed.

Definition format_tail : list directive :=
  word ++ [DSpace] ++ word ++ [DSpace] ++ word ++
  [DPos; DNotDash; DPos; DSpace; DLit "-"%char; DSpace] ++
  word ++ [DSpace] ++ word ++ [DSpace] ++ word.

Lemma sscanf_head e r :
  entry_ok e → (∀ c s', r = c :: s' → isspace c = false) →
  sscanf mountinfo_format (show_head e ++ r) 0 [] [] =
  sscanf format_tail r (Z.of_nat (length (show_head e)))
    [e_id e; e_parent e; e_major e; e_minor e] [].
Proof.
  intros [] Hr. unfold show_head. rewrite <- ?app_assoc. cbn [app]. rewrite <- !app_assoc. cbn [app].
  rewrite <- !app_assoc. cbn [app]. rewrite <- !app_assoc. cbn [app].
  change mountinfo_format with
    ([DNum; DSpace; DNum; DSpace; DNum; DLit ":"%char; DNum; DSpace] ++ format_tail). cbn [app].
  rewrite sscanf_num, sscanf_space by (done || by apply word_head, print_dec_word).
  rewrite sscanf_num, sscanf_space by (done || by apply word_head, print_dec_word).
  rewrite sscanf_num, sscanf_lit, sscanf_num, sscanf_space by done.
  cbn [app]. f_equal. rewrite !length_app. cbn [length]. rewrite !length_app. cbn [length].
  rewrite !length_app. cbn [length]. rewrite !length_app. cbn [length]. lia.
Qed.

(** The offsets of the words, the first of which starts at [pos]. *)
Definition entry_offsets (e : entry) (pos : Z) : list Z :=
  let t := pos + Z.of_nat (length (e_root e)) + 1 in
  let v := t + Z.of_nat (length (e_target e)) + 1 in
  let o := v + Z.of_nat (length (e_vfs_option e)) in
  let o' := o + Z.of_nat (length (space :: e_opt e)) in
  let ty := o' + 2 in
  let sr := ty + Z.of_nat (length (e_type e)) + 1 in
  let fs := sr + Z.of_nat (length (e_source e)) + 1 in
  [pos; pos + Z.of_nat (length (e_root e));
   t; t + Z.of_nat (length (e_target e));
   v; v + Z.of_nat (length (e_vfs_option e));
   o; o';
   ty; ty + Z.of_nat (length (e_type e));
   sr; sr + Z.of_nat (length (e_source e));
   fs; fs + Z.of_nat (length (e_fs_option e))].

Lemma sscanf_tail e pos nums :
  entry_ok e →
  sscanf format_tail
    (e_root e ++ space :: e_target e ++ space :: e_vfs_option e ++
     space :: e_opt e ++ "-"%char :: space ::
     e_type e ++ space :: e_source e ++ space :: e_fs_option e ++ [newline]) pos nums [] =
  (nums, entry_offsets e pos).
Proof.
  intros [_ _ _ _ Hr Ht Hv Hg Hy Hs Hf]. unfold format_tail.
  assert (Forall (λ c, c ≠ "-"%char) (e_opt e)) as Ho.
  { apply list.Forall_forall. intros c Hc. by apply (show_optional_chars (e_optional e)) in Hc as (Hc & _). }
  rewrite sscanf_word by done. cbn [app].
  rewrite sscanf_space by by apply word_head. rewrite sscanf_word by done. cbn [app].
  rewrite sscanf_space by by apply word_head. rewrite sscanf_word by done. cbn [app].
  rewrite sscanf_pos.
  rewrite (app_comm_cons (e_opt e) _ space), sscanf_notdash by (try constructor; done).
  rewrite sscanf_pos, sscanf_nospace by by intros c s' [= <- _].
  rewrite sscanf_lit, sscanf_space by by apply word_head.
  rewrite sscanf_word by done. cbn [app]. rewrite sscanf_space by by apply word_head.
  rewrite sscanf_word by done. cbn [app]. rewrite sscanf_space by by apply word_head.
  rewrite <- (app_nil_r word) at 1. rewrite sscanf_word by done. cbn [sscanf app].
  unfold entry_offsets. apply (f_equal (pair nums)). repeat (apply (f_equal2 cons); [lia|]). done.
Qed.

Lemma substr_at s start len a w b :
  s = a ++ w ++ b → start = Z.of_nat (length a) → len = Z.of_nat (length w) → substr s start len = Some w.
Proof. intros -> -> ->. apply substr_mid. Qed.

(** The optional fields without the space behind the last one. *)
Definition optional_text (e : entry) : bytes := take (length (e_opt e) - 1) (e_opt e).

Lemma optional_view e :
  entry_ok e →
  let o := Z.of_nat (length (show_head e)) + Z.of_nat (length (e_root e)) + 1 +
           Z.of_nat (length (e_target e)) + 1 + Z.of_nat (length (e_vfs_option e)) in
  let o' := o + Z.of_nat (length (space :: e_opt e)) in
  substr (show_entry e) (o + 1) (if 0 <? o' - 1 - (o + 1) then o' - 1 - (o + 1) else 0) =
  Some (optional_text e).
Proof.
  intros He o o'.
  apply (substr_at _ _ _
    (show_head e ++ e_root e ++ space :: e_target e ++ space :: e_vfs_option e ++ [space])
    (optional_text e) (drop (length (e_opt e) - 1) (e_opt e) ++ "-"%char :: space ::
       e_type e ++ space :: e_source e ++ space :: e_fs_option e ++ [newline])).
  - unfold show_entry, optional_text. rewrite (app_assoc (take _ _)), take_drop.
    repeat (rewrite <- ?app_assoc; cbn [app]). done.
  - unfold o. repeat (rewrite ?length_app; cbn [length]). lia.
  - unfold o', optional_text. rewrite length_take. cbn [length].
    unfold e_opt in *. destruct (show_optional_space (e_optional e)) as [-> | (t & Ht & ->)]; [by rewrite (proj2 (Z.ltb_ge _ _)) by (simpl; lia)|].
    rewrite length_app. cbn [length]. destruct t as [|c t]; [done|]. cbn [length].
    rewrite (proj2 (Z.ltb_lt _ _)) by lia. lia.
Qed.

Definition before_type (e : entry) : bytes :=
  show_head e ++ e_root e ++ space :: e_target e ++ space :: e_vfs_option e ++
  space :: e_opt e ++ ["-"%char; space].

(** Evaluate the next [substr] of an entry to the word [w] between [a] and [b]. *)
Ltac read_field a w b :=
  lazymatch goal with
  | |- mbind _ (substr (show_entry ?e) ?s ?l) = _ =>
      rewrite (substr_at (show_entry e) s l a w b);
      [ cbn [mbind option_bind]
      | unfold show_entry, before_type; repeat (rewrite <- ?app_assoc; cbn [app]); done
      | unfold before_type; repeat (rewrite ?length_app; cbn [length]); lia
      | lia ]
  end.

(** *** Peer groups *)

Lemma find_sub_skip tag w r :
  (∀ i, (i < length w)%nat → starts_with tag (drop i w ++ r) = false) →
  find_sub tag (w ++ r) = Nat.add (length w) <$> find_sub tag r.
Proof.
  induction w as [|c w IH]; intros H; cbn [app length find_sub].
  - by destruct (find_sub tag r).
  - rewrite (H 0%nat ltac:(simpl; lia) : starts_with tag (c :: w ++ r) = false). rewrite IH.
    + by destruct (find_sub tag r).
    + intros i Hi. apply (H (S i)). simpl. lia.
Qed.

Lemma tag_value_skip tag w r :
  (∀ i, (i < length w)%nat → starts_with tag (drop i w ++ r) = false) → tag_value tag (w ++ r) = tag_value tag r.
Proof.
  intros H. unfold tag_value. rewrite find_sub_skip by done. destruct (find_sub tag r) as [pos|]; [|done]. cbn [fmap option_fmap option_map].
  by rewrite <- Nat.add_assoc, drop_app_add.
Qed.

Lemma tag_value_chars t w r :
  Forall (λ c, is_digit c = true ∨ c = space) w → tag_value (tag_text t) (w ++ r) = tag_value (tag_text t) r.
Proof.
  induction 1 as [|c w Hc _ IH]; [done|]. rewrite <- IH.
  apply (tag_value_skip _ [c] (w ++ r)). intros [|i] Hi; [|simpl in Hi; lia]. cbn [drop app].
  destruct t; cbn [tag_text]; cbn;
    rewrite bool_decide_eq_false_2; try done; intros <-; destruct Hc as [Hc|Hc]; by vm_compute in Hc.
Qed.

(** Another field is passed over. *)
Lemma tag_value_other t f r :
  field_ok f → (∀ n, f ≠ Group t n) →
  tag_value (tag_text t) (field_text f ++ r) = tag_value (tag_text t) r.
Proof.
  intros Hf Hn. destruct f as [t' n|]; cbn [field_text].
  - rewrite <- app_assoc, tag_value_skip.
    + apply tag_value_chars. destruct (print_dec_spec n) as (Hd & _); [unfold is_u32; simpl in Hf; lia|].
      eapply Forall_impl; [|exact Hd]. by left.
    + generalize (print_dec n ++ r). intros r' i Hi. destruct t, t'; try (by destruct (Hn n)); cbn in Hi;
        do 15 (destruct i as [|i]; [first [exfalso; lia | reflexivity]|]); lia.
  - apply tag_value_skip. intros i Hi.
    destruct t; cbn in Hi; do 15 (destruct i as [|i]; [first [exfalso; lia | reflexivity]|]); lia.
Qed.

Lemma parse_int_u32 n : 0 <= n < 2 ^ 31 → parse_int (print_dec n) = n.
Proof.
  intros Hn. destruct (print_dec_spec n) as (Hd & Hv & _); [unfold is_u32; lia|].
  unfold parse_int. rewrite <- (app_nil_r (print_dec n)), parse_int_loop_digits by (done || lia).
  done.
Qed.

Lemma tag_value_here tag r : tag_value tag (tag ++ r) = u32 (parse_int r).
Proof.
  unfold tag_value. assert (find_sub tag (tag ++ r) = Some 0%nat) as ->.
  { destruct (tag ++ r) eqn:E; simpl; rewrite <- E, starts_with_app; done. }
  cbn [Nat.add]. by rewrite drop_app_length.
Qed.

(** The number of the group [t] as it is read: 0 where the mount has none, and 4294967295 where
    another field follows, for then [parse_int] meets the space and gives up. *)
Fixpoint group_read (t : peer_tag) (fs : list field) : Z :=
  match fs with
  | [] => 0
  | Group t' n :: fs =>
      if bool_decide (t' = t) then match fs with [] => n | _ => 2 ^ 32 - 1 end else group_read t fs
  | Unbindable :: fs => group_read t fs
  end.

Lemma tag_value_group t n r :
  0 <= n < 2 ^ 31 →
  tag_value (tag_text t) (tag_text t ++ print_dec n) = n ∧
  tag_value (tag_text t) (tag_text t ++ print_dec n ++ space :: r) = 2 ^ 32 - 1.
Proof.
  intros Hn. rewrite !tag_value_here, parse_int_u32 by done. split; [apply wrapu_small; lia|].
  unfold parse_int. destruct (print_dec_spec n) as (Hd & _); [unfold is_u32; lia|].
  by rewrite parse_int_loop_bad.
Qed.

(** The text of the fields without the space behind the last one. *)
Lemma optional_text_cons f fs :
  take (length (show_optional (f :: fs)) - 1) (show_optional (f :: fs)) =
  field_text f ++ match fs with
                  | [] => []
                  | _ => space :: take (length (show_optional fs) - 1) (show_optional fs)
                  end.
Proof.
  change (show_optional (f :: fs)) with ((field_text f ++ [space]) ++ show_optional fs).
  rewrite <- app_assoc. cbn [app]. destruct fs as [|g fs].
  - change (show_optional []) with (@nil byte). rewrite length_app. cbn [length]. rewrite app_nil_r.
    rewrite take_app_length' by lia. done.
  - assert (∃ c w, show_optional (g :: fs) = c :: w) as (c & w & ->).
    { change (show_optional (g :: fs)) with ((field_text g ++ [space]) ++ show_optional fs).
      destruct (field_text_cons g) as (c & w & ->). simpl. eauto. }
    rewrite length_app. cbn [length].
    replace (length (field_text f) + S (S (length w)) - 1)%nat with (length (field_text f) + S (length w))%nat by lia.
    rewrite take_app_add. f_equal. cbn [firstn]. f_equal. simpl. by rewrite Nat.sub_0_r.
Qed.

Lemma group_value t fs :
  Forall field_ok fs →
  tag_value (tag_text t) (take (length (show_optional fs) - 1) (show_optional fs)) = group_read t fs.
Proof.
  induction 1 as [|f fs Hf Hfs IH]; [by destruct t|]. rewrite optional_text_cons.
  assert ((∃ n, f = Group t n) ∨ ∀ n, f ≠ Group t n) as [[n ->]|Hn].
  { destruct f as [t' n|]; [destruct (decide (t' = t)) as [->|]|]; [left; eauto | right; congruence ..]. }
  - cbn [group_read field_text]. rewrite bool_decide_eq_true_2 by done. destruct fs as [|g fs].
    + rewrite app_nil_r. by apply (tag_value_group t n []).
    + rewrite <- app_assoc. by apply tag_value_group.
  - rewrite tag_value_other by done.
    assert (group_read t (f :: fs) = group_read t fs) as ->.
    { destruct f as [t' n|]; [|done]. cbn [group_read]. rewrite bool_decide_eq_false_2; [done|]. intros ->. by eapply Hn. }
    rewrite <- IH. destruct fs as [|g fs]; [done|]. by apply (tag_value_chars t [space]), Forall_singleton; right.
Qed.

(** The entry that stands for what the kernel printed. *)
Definition mount_of (e : entry) : mount_info :=
  mkMount (Some (e_id e)) (Some (e_parent e)) (Some (makedev (e_major e) (e_minor e)))
    (e_root e) (e_target e) (e_vfs_option e)
    (group_read Shared (e_optional e)) (group_read Master (e_optional e)) (group_read PropagateFrom (e_optional e))
    (e_type e) (e_source e) (e_fs_option e).

Lemma parse_mount_line_show e :
  entry_ok e → parse_mount_line (show_entry e) = Some (mount_of e).
Proof.
  intros He. unfold parse_mount_line. unfold show_entry at 1.
  rewrite sscanf_head, sscanf_tail by (done || by apply word_head, He).
  unfold entry_offsets. cbn [lookup list_lookup default from_option option_bind id].
  read_field (show_head e) (e_root e)
    (space :: e_target e ++ space :: e_vfs_option e ++ space :: e_opt e ++ "-"%char :: space ::
     e_type e ++ space :: e_source e ++ space :: e_fs_option e ++ [newline]).
  read_field (show_head e ++ e_root e ++ [space]) (e_target e)
    (space :: e_vfs_option e ++ space :: e_opt e ++ "-"%char :: space ::
     e_type e ++ space :: e_source e ++ space :: e_fs_option e ++ [newline]).
  read_field (show_head e ++ e_root e ++ space :: e_target e ++ [space]) (e_vfs_option e)
    (space :: e_opt e ++ "-"%char :: space ::
     e_type e ++ space :: e_source e ++ space :: e_fs_option e ++ [newline]).
  rewrite (optional_view e He). cbn [mbind option_bind].
  read_field (before_type e) (e_type e) (space :: e_source e ++ space :: e_fs_option e ++ [newline]).
  read_field (before_type e ++ e_type e ++ [space]) (e_source e) (space :: e_fs_option e ++ [newline]).
  read_field (before_type e ++ e_type e ++ space :: e_source e ++ [space]) (e_fs_option e) [newline].
  unfold mount_of. by rewrite <- !(group_value _ (e_optional e) (ok_optional _ He)).
Qed.

(** ** Whole files *)

Lemma lines_from_line b r cur :
  newline ∉ b → lines_from (b ++ newline :: r) cur = (cur ++ b ++ [newline]) :: lines_from r [].
Proof.
  revert cur. induction b as [|c b IH]; intros cur Hb; cbn [app lines_from].
  - by rewrite bool_decide_eq_true_2.
  - rewrite not_elem_of_cons in Hb. destruct Hb as [Hc Hb].
    rewrite bool_decide_eq_false_2 by congruence. rewrite IH by done. by rewrite <- app_assoc.
Qed.

(** A line of the file, newline included, as [getline] finds it. *)
Definition is_line (l : bytes) : Prop := ∃ b, l = b ++ [newline] ∧ newline ∉ b ∧ no_nul b.

Lemma getlines_lines ls : Forall is_line ls → getlines (mjoin ls) = ls.
Proof.
  unfold getlines. induction 1 as [|l ls (b & -> & Hn & _) _ IH]; [done|].
  change (mjoin ((b ++ [newline]) :: ls)) with ((b ++ [newline]) ++ mjoin ls).
  rewrite <- app_assoc. cbn [app]. rewrite lines_from_line by done. cbn [app]. by rewrite IH.
Qed.

Lemma line_view_line l : is_line l → line_view false l = l.
Proof.
  intros (b & -> & _ & Hn). unfold line_view. apply cstr_id. unfold no_nul in *.
  rewrite elem_of_app, list_elem_of_singleton. by intros [|].
Qed.

Lemma word_no_newline w : is_word w → newline ∉ w.
Proof. intros [_ Hw] Hin. rewrite list.Forall_forall in Hw. by specialize (Hw _ Hin). Qed.

Record printable (e : entry) : Prop := {
  pr_ok : entry_ok e;
  pr_nul : no_nul (show_entry e)
}.

Lemma show_entry_line e : printable e → is_line (show_entry e).
Proof.
  intros [[] Hn]. assert (newline ∉ e_opt e) as Ho by (intros Hc; by apply (show_optional_chars (e_optional e)) in Hc as (_ & Hc & _)).
  unfold show_entry in *. eexists. split; [|split].
  - repeat (rewrite ?app_comm_cons || rewrite app_assoc). reflexivity.
  - unfold show_head. repeat (rewrite ?elem_of_app, ?elem_of_cons).
    repeat match goal with H : is_u32 _ |- _ => apply print_dec_word in H end.
    repeat match goal with H : is_word _ |- _ => apply word_no_newline in H end.
    rewrite elem_of_nil. assert (newline ≠ space) by done. assert (newline ≠ ":"%char) by done.
    assert (newline ≠ "-"%char) by done. tauto.
  - unfold no_nul in *. intros H. apply Hn. revert H. repeat (rewrite ?elem_of_app, ?elem_of_cons).
    tauto.
Qed.

Lemma each_line_mounts es acc :
  Forall printable es →
  each_line (show_entry <$> es) false (λ line,
    match parse_mount_line line with
    | None => crash BadAlloc
    | Some info => modify (λ result, result ++ [info]);; mret true
    end) acc = (Ret tt, acc ++ (mount_of <$> es)).
Proof.
  intros H. revert acc. induction H as [|e es He _ IH]; intros acc; [by rewrite app_nil_r|].
  rewrite !fmap_cons. cbn [each_line]. rewrite line_view_line by by apply show_entry_line.
  rewrite parse_mount_line_show by apply He.
  rewrite prog_bind_assoc. step. step. rewrite IH. by rewrite <- app_assoc.
Qed.

(** C7 [parse_mount_info] reads back /proc/<pid>/mountinfo: for any number of mounts, with any
    ids, device numbers, path and option words and optional fields, the vector has one entry
    per line, in order, with the fields the kernel printed.  A peer group is among them if it is the
    last optional field of its mount, and 0 if there is none; if another optional field follows it,
    4294967295 is stored in its place. *)
Theorem parse_mount_info_show es :
  Forall printable es →
  parse_mount_info (Some (mjoin (show_entry <$> es))) [] = (Ret tt, mount_of <$> es).
Proof.
  intros H. unfold parse_mount_info, file_readline. rewrite getlines_lines.
  - by rewrite each_line_mounts.
  - apply Forall_fmap. eapply Forall_impl; [|exact H]. apply show_entry_line.
Qed.

Definition demo_entry : entry :=
  mkEntry 36 35 98 0 (txt "/mnt1") (txt "/data/adb/modules") (txt "rw,noatime") [Group Master 1]
    (txt "ext4") (txt "/dev/block/loop7") (txt "rw,seclabel").

Lemma demo_entry_printable : printable demo_entry.
Proof.
  constructor; [constructor|].
  1-4: unfold is_u32; simpl; lia.
  4: apply Forall_singleton; simpl; lia.
  1-6: split; [done | by repeat (apply Forall_cons_2; [done|])].
  unfold no_nul. by apply (bool_decide_unpack _).
Qed.

Lemma parse_mount_info_show_witness :
  ∃ info, (parse_mount_info (Some (mjoin (show_entry <$> [demo_entry; demo_entry]))) []).2 = [info; info] ∧
    mi_target info = txt "/data/adb/modules" ∧ mi_source info = txt "/dev/block/loop7" ∧
    mi_master info = 1 ∧ mi_shared info = 0.
Proof.
  exists (mount_of demo_entry). rewrite (parse_mount_info_show [demo_entry; demo_entry]); [by vm_compute|].
  repeat apply Forall_cons_2; try apply demo_entry_printable. done.
Defined.

(** A peer group is misread as 4294967295 as soon as another optional field follows it. *)
Theorem shared_value n m :
  0 <= n < 2 ^ 31 →
  tag_value (txt "shared:") (txt "shared:" ++ print_dec n) = n ∧
  tag_value (txt "shared:") (txt "shared:" ++ print_dec n ++ txt " master:" ++ print_dec m) = 2 ^ 32 - 1.
Proof. exact (tag_value_group Shared n (txt "master:" ++ print_dec m)). Qed.

Lemma shared_value_witness :
  tag_value (txt "shared:") (txt "shared:12 master:3") = 2 ^ 32 - 1.
Proof. exact (proj2 (shared_value 12 3 ltac:(lia))). Defined.
