(* ===== verification/Unmount.v ===== *)
(** * Unmount: hiding the root solution's mounts from a process

    [injector/unmount.cpp]: which mount points [revert_unmount_ksu], [revert_unmount_magisk]
    and [revert_unmount_apatch] unmount, and in which order.  The state of a program is the
    list of [umount2] calls so far. *)

From Stdlib Require Import ZArith Lia Ascii.
From stdpp Require Import base tactics strings list numbers.
From S2P Require Import Prelude MountInfo.

Definition MODULE_DIR : bytes := txt "/data/adb/modules".
Definition KSU_OVERLAY_SOURCE : bytes := txt "KSU".
Definition AP_OVERLAY_SOURCE : bytes := txt "APatch".
Definition DEVICE_PARTITIONS : list bytes :=
  txt <$> ["/system"; "/vendor"; "/product"; "/system_ext"; "/odm"; "/oem"]%string.

(** The result of [umount2] is only logged. *)
Definition lazy_unmount (mountpoint : bytes) : prog (list bytes) unit :=
  modify (λ log, log ++ [mountpoint]).

(** [parse_mount_info("self")], reading the file as it is at that moment. *)
Definition read_mounts (file : option bytes) : prog (list bytes) (list mount_info) := λ log,
  match parse_mount_info file [] with
  | (Ret _, infos) => (Ret infos, log)
  | (Exit c, _) => (Exit c, log)
  | (Crash w, _) => (Crash w, log)
  | (OutOfFuel, _) => (OutOfFuel, log)
  end.

Definition under_adb (info : mount_info) : bool := starts_with (txt "/data/adb") (mi_target info).
Definition module_mount (info : mount_info) : bool := bool_decide (mi_target info = MODULE_DIR).

(** [if (cond) targets.emplace_back(info.target)] *)
Definition collect (cond : bool) (info : mount_info) (targets : list bytes) : list bytes :=
  if cond then targets ++ [mi_target info] else targets.

(** An overlay, or the temporary directory, of the root solution named [source]. *)
Definition overlay_mount (source : bytes) (info : mount_info) : bool :=
  bool_decide (mi_type info = txt "overlay") && bool_decide (mi_source info = source) &&
  bool_decide (mi_target info ∈ DEVICE_PARTITIONS).
Definition tmpfs_mount (source : bytes) (info : mount_info) : bool :=
  bool_decide (mi_type info = txt "tmpfs") && bool_decide (mi_source info = source).

(** The body of the first loop: the loop device and the targets so far. *)
Definition first_pass (source : bytes) (st : bytes * list bytes) (info : mount_info)
  : bytes * list bytes :=
  let '(loop, targets) := st in
  if module_mount info then (mi_source info, targets)
  else (loop, collect (tmpfs_mount source info) info
                (collect (overlay_mount source info) info
                   (collect (under_adb info) info targets))).

(** The body of the second one. *)
Definition second_pass (loop : bytes) (targets : list bytes) (info : mount_info) : list bytes :=
  collect (bool_decide (mi_source info = loop) && negb (module_mount info)) info targets.

Definition revert_unmount_overlay (source : bytes) (file1 file2 : option bytes)
  : prog (list bytes) unit :=
  infos ← read_mounts file1;
  let '(loop, targets) := foldl (first_pass source) ([], [MODULE_DIR]) infos in
  infos ← read_mounts file2;
  for_each (reverse (foldl (second_pass loop) targets infos)) lazy_unmount.

Definition revert_unmount_ksu : option bytes → option bytes → prog (list bytes) unit :=
  revert_unmount_overlay KSU_OVERLAY_SOURCE.
Definition revert_unmount_apatch : option bytes → option bytes → prog (list bytes) unit :=
  revert_unmount_overlay AP_OVERLAY_SOURCE.

Definition magisk_pass (targets : list bytes) (info : mount_info) : list bytes :=
  collect (under_adb info) info
    (collect (bool_decide (mi_source info = txt "magisk") || bool_decide (mi_source info = txt "worker")
              || starts_with (txt "/adb/modules") (mi_root info)) info targets).

Definition revert_unmount_magisk (file : option bytes) : prog (list bytes) unit :=
  infos ← read_mounts file;
  for_each (reverse (foldl magisk_pass [] infos)) lazy_unmount.

(** ** Lemmas *)

Lemma for_each_lazy_unmount l log : for_each l lazy_unmount log = (Ret tt, log ++ l).
Proof.
  revert log. induction l as [|t l IH]; intros log; simpl; [by rewrite app_nil_r|].
  unfold lazy_unmount at 1. step. rewrite IH. by rewrite <- app_assoc.
Qed.

(** The targets one entry adds. *)
Definition adds (b : bool) (info : mount_info) : list bytes := if b then [mi_target info] else [].

Lemma collect_adds b info t : collect b info t = t ++ adds b info.
Proof. destruct b; simpl; [done | by rewrite app_nil_r]. Qed.

Lemma adds_elem b info t : t ∈ adds b info ↔ b = true ∧ mi_target info = t.
Proof. destruct b; cbn; rewrite ?list_elem_of_singleton, ?elem_of_nil; naive_solver. Qed.

Definition first_adds (source : bytes) (info : mount_info) : list bytes :=
  if module_mount info then []
  else adds (under_adb info) info ++ adds (overlay_mount source info) info ++
       adds (tmpfs_mount source info) info.
Definition second_adds (loop : bytes) (info : mount_info) : list bytes :=
  adds (bool_decide (mi_source info = loop) && negb (module_mount info)) info.
Definition magisk_adds (info : mount_info) : list bytes :=
  adds (bool_decide (mi_source info = txt "magisk") || bool_decide (mi_source info = txt "worker")
        || starts_with (txt "/adb/modules") (mi_root info)) info ++ adds (under_adb info) info.

(** The loop device: the source of the last mount on the module directory. *)
Definition loop_device (infos : list mount_info) : bytes :=
  default [] (mi_source <$> list.last (filter (λ i, mi_target i = MODULE_DIR) infos)).

Lemma first_pass_spec source infos targets :
  foldl (first_pass source) ([], targets) infos =
  (loop_device infos, targets ++ (infos ≫= first_adds source)).
Proof.
  induction infos as [|i infos IH] using rev_ind; [by rewrite app_nil_r|].
  rewrite foldl_app, IH. cbn [foldl first_pass]. unfold loop_device, first_adds.
  rewrite list.filter_app, bind_app. cbn [mbind list_bind]. rewrite app_nil_r.
  unfold module_mount. case_bool_decide as E.
  - rewrite filter_cons_True, filter_nil by done. rewrite last_snoc. by rewrite app_nil_r.
  - rewrite filter_cons_False, filter_nil, app_nil_r by done.
    rewrite !collect_adds. by rewrite <- !app_assoc.
Qed.

Lemma foldl_adds (step : list bytes → mount_info → list bytes) (f : mount_info → list bytes) :
  (∀ t i, step t i = t ++ f i) → ∀ infos targets, foldl step targets infos = targets ++ (infos ≫= f).
Proof.
  intros H infos. induction infos as [|i infos IH]; intros targets; [by rewrite app_nil_r|].
  cbn [foldl]. rewrite H, IH. cbn [mbind list_bind]. by rewrite <- app_assoc.
Qed.

Lemma first_adds_elem source info t :
  t ∈ first_adds source info ↔
  mi_target info = t ∧ t ≠ MODULE_DIR ∧
  (under_adb info = true ∨ overlay_mount source info = true ∨ tmpfs_mount source info = true).
Proof.
  unfold first_adds, module_mount, adds. case_bool_decide as E.
  - split; [intros H; by apply elem_of_nil in H | intros (<- & H & _); done].
  - destruct (under_adb info), (overlay_mount source info), (tmpfs_mount source info);
      cbn; rewrite ?elem_of_cons, ?elem_of_nil; naive_solver.
Qed.

Lemma second_adds_elem loop info t :
  t ∈ second_adds loop info ↔ mi_target info = t ∧ t ≠ MODULE_DIR ∧ mi_source info = loop.
Proof.
  unfold second_adds, module_mount, adds. repeat case_bool_decide; cbn;
    rewrite ?list_elem_of_singleton, ?elem_of_nil; naive_solver.
Qed.

Lemma read_mounts_run file infos log :
  parse_mount_info file [] = (Ret tt, infos) → read_mounts file log = (Ret infos, log).
Proof. unfold read_mounts. by intros ->. Qed.

Lemma revert_overlay_run source file1 file2 m1 m2 log :
  parse_mount_info file1 [] = (Ret tt, m1) → parse_mount_info file2 [] = (Ret tt, m2) →
  revert_unmount_overlay source file1 file2 log =
    (Ret tt, log ++ reverse (m2 ≫= second_adds (loop_device m1)) ++
             reverse (m1 ≫= first_adds source) ++ [MODULE_DIR]).
Proof.
  intros H1 H2. unfold revert_unmount_overlay. step_with (read_mounts_run _ _ log H1).
  rewrite first_pass_spec. step_with (read_mounts_run _ _ log H2). rewrite for_each_lazy_unmount.
  rewrite (foldl_adds _ (second_adds (loop_device m1))) by (intros; apply collect_adds).
  rewrite !reverse_app. done.
Qed.

(** C8 For KernelSU and for APatch alike, the unmounted paths are exactly: what is mounted below
    /data/adb, the overlays of the root solution on device partitions, its temporary
    directories, whatever else lives on the loop device of the module directory, and the
    module directory itself, which comes last.  Nothing else is unmounted. *)
Theorem revert_unmount_targets source file1 file2 m1 m2 :
  parse_mount_info file1 [] = (Ret tt, m1) → parse_mount_info file2 [] = (Ret tt, m2) →
  ∃ l, revert_unmount_overlay source file1 file2 [] = (Ret tt, l ++ [MODULE_DIR]) ∧
    ∀ t, t ∈ l ↔ t ≠ MODULE_DIR ∧
      ((∃ i, i ∈ m1 ∧ mi_target i = t ∧
          (under_adb i = true ∨ overlay_mount source i = true ∨ tmpfs_mount source i = true)) ∨
       (∃ i, i ∈ m2 ∧ mi_target i = t ∧ mi_source i = loop_device m1)).
Proof.
  intros H1 H2. rewrite (revert_overlay_run source file1 file2 m1 m2 [] H1 H2). cbn [app].
  rewrite (app_assoc (reverse _)). eexists. split; [reflexivity|]. intros t.
  rewrite elem_of_app, !elem_of_reverse, !list_elem_of_bind.
  setoid_rewrite first_adds_elem. setoid_rewrite second_adds_elem. naive_solver.
Qed.

Definition demo_file (es : list entry) : option bytes := Some (mjoin (show_entry <$> es)).

Definition demo_mounts : list entry :=
  [mkEntry 30 1 0 20 (txt "/") (txt "/system") (txt "ro") [] (txt "overlay") (txt "KSU") (txt "ro");
   mkEntry 31 1 0 21 (txt "/") (txt "/data") (txt "rw") [] (txt "f2fs") (txt "/dev/dm-5") (txt "rw");
   mkEntry 32 31 7 1 (txt "/") (txt "/data/adb/modules") (txt "rw") [] (txt "ext4")
     (txt "/dev/block/loop1") (txt "rw");
   mkEntry 33 30 7 1 (txt "/x") (txt "/product/x") (txt "ro") [] (txt "ext4")
     (txt "/dev/block/loop1") (txt "ro")].

Lemma revert_unmount_targets_witness :
  ∃ l, revert_unmount_ksu (demo_file demo_mounts) (demo_file demo_mounts) [] =
       (Ret tt, l ++ [MODULE_DIR]) ∧ txt "/system" ∈ l.
Proof.
  assert (parse_mount_info (demo_file demo_mounts) [] = (Ret tt, mount_of <$> demo_mounts)) as P
    by by vm_compute.
  destruct (revert_unmount_targets KSU_OVERLAY_SOURCE (demo_file demo_mounts) (demo_file demo_mounts)
              _ _ P P) as (l & E & H).
  exists l. split; [exact E|].
  apply H. split; [done|]. left. exists (mount_of (default demo_entry (demo_mounts !! 0%nat))).
  split; [by left | split; [done | right; left; by vm_compute]].
Defined.

(** What an earlier entry adds is unmounted after what a later one adds. *)
Lemma adds_order (f : mount_info → list bytes) x i y j z a b :
  a ∈ f i → b ∈ f j → [b; a] `sublist_of` reverse ((x ++ i :: y ++ j :: z) ≫= f).
Proof.
  intros Ha Hb. rewrite bind_app. cbn [mbind list_bind]. rewrite bind_app. cbn [mbind list_bind].
  rewrite !reverse_app, <- !app_assoc.
  apply sublist_inserts_l, (sublist_app [b] _ [a]);
    [by apply singleton_sublist_l, elem_of_reverse|].
  apply sublist_inserts_l. rewrite <- (app_nil_r [a]).
  apply sublist_app; [by apply singleton_sublist_l, elem_of_reverse | apply sublist_nil_l].
Qed.

(** Mounts are undone in the opposite order of their making: of two mounts the first pass
    selects, the one made later, possibly on top of or inside the earlier one, is unmounted
    first, and both before the module directory. *)
Theorem revert_unmount_order source file1 file2 m1 m2 x i y j z :
  parse_mount_info file1 [] = (Ret tt, m1) → parse_mount_info file2 [] = (Ret tt, m2) →
  m1 = x ++ i :: y ++ j :: z →
  mi_target i ∈ first_adds source i → mi_target j ∈ first_adds source j →
  [mi_target j; mi_target i; MODULE_DIR] `sublist_of` (revert_unmount_overlay source file1 file2 []).2.
Proof.
  intros H1 H2 Hm Hi Hj. rewrite (revert_overlay_run source file1 file2 m1 m2 [] H1 H2). cbn [snd app].
  apply sublist_inserts_l.
  change [mi_target j; mi_target i; MODULE_DIR] with ([mi_target j; mi_target i] ++ [MODULE_DIR]).
  apply sublist_app; [|done]. subst m1. by apply adds_order.
Qed.

Definition demo_overlay : entry :=
  mkEntry 40 1 0 20 (txt "/") (txt "/vendor") (txt "ro") [] (txt "overlay") (txt "APatch") (txt "ro").
Definition demo_tmpfs : entry :=
  mkEntry 41 40 0 21 (txt "/") (txt "/data/adb/x") (txt "rw") [] (txt "tmpfs") (txt "t") (txt "rw").

Lemma revert_unmount_order_witness :
  [mi_target (mount_of demo_tmpfs); mi_target (mount_of demo_overlay); MODULE_DIR] `sublist_of`
    (revert_unmount_apatch (demo_file [demo_overlay; demo_tmpfs]) (demo_file []) []).2.
Proof.
  refine (revert_unmount_order AP_OVERLAY_SOURCE (demo_file [demo_overlay; demo_tmpfs]) (demo_file [])
           [mount_of demo_overlay; mount_of demo_tmpfs] [] [] (mount_of demo_overlay) []
           (mount_of demo_tmpfs) [] _ _ eq_refl _ _); [by vm_compute | by vm_compute | |];
    apply first_adds_elem; (split; [done|]); (split; [done|]);
      [right; left | left]; by vm_compute.
Defined.

(** For Magisk, the unmounted paths are exactly the targets mounted from Magisk's or its
    worker's tmpfs, those bound from a module, and everything below /data/adb; a target is
    unmounted after what was mounted later. *)
Theorem revert_unmount_magisk_targets file m :
  parse_mount_info file [] = (Ret tt, m) →
  revert_unmount_magisk file [] = (Ret tt, reverse (m ≫= magisk_adds)) ∧
  ∀ t, t ∈ reverse (m ≫= magisk_adds) ↔
    ∃ i, i ∈ m ∧ mi_target i = t ∧
      (mi_source i = txt "magisk" ∨ mi_source i = txt "worker" ∨
       txt "/adb/modules" `prefix_of` mi_root i ∨ txt "/data/adb" `prefix_of` t).
Proof.
  intros H. split.
  - unfold revert_unmount_magisk. step_with (read_mounts_run _ _ [] H).
    rewrite for_each_lazy_unmount, (foldl_adds _ magisk_adds); [done|].
    intros t i. unfold magisk_pass. rewrite !collect_adds. by rewrite <- app_assoc.
  - intros t. rewrite elem_of_reverse, list_elem_of_bind. apply exist_proper. intros i.
    rewrite <- !starts_with_spec. unfold magisk_adds, under_adb.
    rewrite elem_of_app, !adds_elem, !orb_true_iff, !bool_decide_eq_true. split.
    + intros [[[H1 <-] | [H1 <-]] Hi]; (split; [done|]); (split; [done|]); tauto.
    + intros (Hi & <- & H1). split; [tauto | done].
Qed.

Lemma revert_unmount_magisk_targets_witness :
  revert_unmount_magisk (demo_file demo_mounts) [] = (Ret tt, [txt "/data/adb/modules"]).
Proof.
  destruct (revert_unmount_magisk_targets (demo_file demo_mounts) (mount_of <$> demo_mounts))
    as [E _]; [by vm_compute|].
  rewrite E. by vm_compute.
Defined.
