(* ===== verification/Files.v ===== *)
(** * Files: streams, directories and memory behind their owners

    The smart pointers of [include/files.hpp] and [common/files.cpp], the first overload of
    [file_readline] with its buffer, and the allocation helpers of [include/misc.hpp].  The state
    holds the open streams and directories and the blocks of the heap; the claim is that reading a
    file line by line does what [MountInfo.file_readline] says, and leaves no stream open and no
    block allocated, whatever the callback answers. *)

From Stdlib Require Import ZArith Lia Ascii.
From stdpp Require Import base tactics strings list gmap numbers.
From S2P Require Import Prelude Misc MountInfo.

(** ** State *)

Record fworld : Type := mkFw {
  fw_files : gmap bytes bytes;        (* what the paths hold *)
  fw_fds : gmap Z bytes;              (* what can be read from descriptors *)
  fw_dir_ok : bytes → bool;           (* whether a path is a directory *)
  fw_streams : gmap Z bytes;          (* open streams: what is left to read *)
  fw_dirs : gset Z;                   (* open directories *)
  fw_heap : gmap Z nat;               (* blocks with their sizes *)
  fw_next : Z                         (* the next pointer *)
}.

Definition set_fw_streams x w := mkFw (fw_files w) (fw_fds w) (fw_dir_ok w) x (fw_dirs w) (fw_heap w) (fw_next w).
Definition set_fw_dirs x w := mkFw (fw_files w) (fw_fds w) (fw_dir_ok w) (fw_streams w) x (fw_heap w) (fw_next w).
Definition set_fw_heap x w := mkFw (fw_files w) (fw_fds w) (fw_dir_ok w) (fw_streams w) (fw_dirs w) x (fw_next w).
Definition set_fw_next x w := mkFw (fw_files w) (fw_fds w) (fw_dir_ok w) (fw_streams w) (fw_dirs w) (fw_heap w) x.

(** Pointers are never 0. *)
Definition new_ptr : prog fworld Z := w ← get; put (set_fw_next (fw_next w + 1) w);; mret (fw_next w).

(** ** The C library *)

Definition stream_on (contents : option bytes) : prog fworld Z :=
  match contents with
  | None => mret 0
  | Some f => p ← new_ptr; modify (λ w, set_fw_streams (<[p := f]> (fw_streams w)) w);; mret p
  end.

Definition fopen (path mode : bytes) : prog fworld Z := w ← get; stream_on (fw_files w !! path).
Definition fdopen (fd : Z) (mode : bytes) : prog fworld Z := w ← get; stream_on (fw_fds w !! fd).

Definition fclose (fp : Z) : prog fworld Z :=
  w ← get;
  match fw_streams w !! fp with
  | None => crash UseAfterFree
  | Some _ => put (set_fw_streams (delete fp (fw_streams w)) w);; mret 0
  end.

Definition dir_on (ok : bool) : prog fworld Z :=
  if ok then p ← new_ptr; modify (λ w, set_fw_dirs ({[p]} ∪ fw_dirs w) w);; mret p else mret 0.

Definition opendir (path : bytes) : prog fworld Z := w ← get; dir_on (fw_dir_ok w path).
Definition fdopendir (is_dir : bool) : prog fworld Z := dir_on is_dir.

Definition closedir (dp : Z) : prog fworld Z :=
  w ← get;
  if bool_decide (dp ∈ fw_dirs w) then put (set_fw_dirs (fw_dirs w ∖ {[dp]}) w);; mret 0 else crash UseAfterFree.

Definition malloc (n : nat) : prog fworld Z :=
  p ← new_ptr; modify (λ w, set_fw_heap (<[p := n]> (fw_heap w)) w);; mret p.

Definition free (p : Z) : prog fworld unit :=
  if p =? 0 then mret tt
  else
    w ← get;
    match fw_heap w !! p with
    | None => crash UseAfterFree
    | Some _ => put (set_fw_heap (delete p (fw_heap w)) w)
    end.

(** The first line of a stream, with its newline, and the rest. *)
Fixpoint cut_line (f : bytes) : bytes * bytes :=
  match f with
  | [] => ([], [])
  | c :: f => if bool_decide (c = newline) then ([c], f) else let '(l, r) := cut_line f in (c :: l, r)
  end.

(** [getline]: a block that is too small is replaced; nothing at the end of the stream. *)
Definition getline (buf fp : Z) : prog fworld (Z * option bytes) :=
  w ← get;
  match fw_streams w !! fp with
  | None => crash UseAfterFree
  | Some [] => mret (buf, None)
  | Some f =>
      let '(line, rest) := cut_line f in
      modify (λ w, set_fw_streams (<[fp := rest]> (fw_streams w)) w);;
      match fw_heap w !! buf with
      | None => crash UseAfterFree
      | Some n =>
          if (length line <? n)%nat then mret (buf, Some line)
          else free buf;; p ← malloc (2 * S (length line)); mret (p, Some line)
      end
  end.

(** ** Owners *)

(** [std::unique_ptr] with its deleter: the deleter does not run on null. *)
Module unique_ptr.
Record t : Type := mk { ptr : Z; deleter : Z → prog fworld Z }.

Definition get (p : t) : Z := ptr p.
Definition to_bool (p : t) : bool := negb (ptr p =? 0).
Definition destroy (p : t) : prog fworld unit := if ptr p =? 0 then mret tt else deleter p (ptr p);; mret tt.
End unique_ptr.

Definition make_dir (dp : Z) : unique_ptr.t := unique_ptr.mk dp (λ dp, if negb (dp =? 0) then closedir dp else mret 1).
Definition make_file (fp : Z) : unique_ptr.t := unique_ptr.mk fp (λ fp, if negb (fp =? 0) then fclose fp else mret 1).

Definition open_dir_at (path : bytes) : prog fworld unique_ptr.t := p ← opendir path; mret (make_dir p).
Definition xopen_dir_at (path : bytes) : prog fworld unique_ptr.t := p ← opendir path; mret (make_dir p).
Definition xopen_dir_fd (is_dir : bool) : prog fworld unique_ptr.t := p ← fdopendir is_dir; mret (make_dir p).
Definition open_file (path mode : bytes) : prog fworld unique_ptr.t := p ← fopen path mode; mret (make_file p).
Definition xopen_file (path mode : bytes) : prog fworld unique_ptr.t := p ← fopen path mode; mret (make_file p).
Definition xopen_file_fd (fd : Z) (mode : bytes) : prog fworld unique_ptr.t := p ← fdopen fd mode; mret (make_file p).

(** ** Lines *)

Section readline.
Context {S : Type}.

(** A routine of the C library, and the callback, on their parts of the state. *)
Definition lib {A} (m : prog fworld A) : prog (fworld * S) A := λ '(w, s), let '(r, w) := m w in (r, (w, s)).
Definition callback {A} (m : prog S A) : prog (fworld * S) A := λ '(w, s), let '(r, s) := m s in (r, (w, s)).

Fixpoint readline_loop (fuel : nat) (trim : bool) (buf fp : Z) (fn : bytes → prog S bool) : prog (fworld * S) Z :=
  match fuel with
  | O => no_fuel
  | Datatypes.S fuel =>
      '(buf, line) ← lib (getline buf fp);
      match line with
      | None => mret buf
      | Some line =>
          go ← callback (fn (line_view trim line));
          if (go : bool) then readline_loop fuel trim buf fp fn else mret buf
      end
  end.

(** Every round takes a byte off the stream. *)
Definition file_readline_fp (trim : bool) (fp : Z) (fn : bytes → prog S bool) : prog (fworld * S) unit :=
  buf ← lib (malloc 1024);
  '(w, _) ← get;
  buf ← readline_loop (Datatypes.S (length (default [] (fw_streams w !! fp)))) trim buf fp fn;
  lib (free buf).

Definition file_readline_path (trim : bool) (file : bytes) (fn : bytes → prog S bool) : prog (fworld * S) unit :=
  fp ← lib (open_file file (txt "re"));
  when (unique_ptr.to_bool fp) (file_readline_fp trim (unique_ptr.get fp) fn);;
  lib (unique_ptr.destroy fp).
End readline.

(** ** Allocation *)

(** [stateless_allocator]: the product is computed in [size_t]. *)
Module stateless_allocator.
Definition allocate (size_bits sizeof_T : Z) (impl : Z → prog fworld Z) (num : Z) : prog fworld Z :=
  impl (wrapu size_bits (sizeof_T * num)).
Definition deallocate (size_bits sizeof_T : Z) (impl : Z → Z → prog fworld unit) (ptr num : Z) : prog fworld unit :=
  impl ptr (wrapu size_bits (sizeof_T * num)).
Definition eqb : bool := true.
Definition neb : bool := false.
End stateless_allocator.

(** [default_new] of a pointer forgets the old object, that of an owner deletes it. *)
Definition default_new (sizeof_T : nat) (p : Z) : prog fworld Z := malloc sizeof_T.
Definition default_new_unique (sizeof_T : nat) (p : Z) : prog fworld Z := n ← malloc sizeof_T; free p;; mret n.

(** ** Lines of a stream *)

Lemma cut_line_lines f cur line rest :
  f ≠ [] → cut_line f = (line, rest) → lines_from f cur = (cur ++ line) :: getlines rest.
Proof.
  revert cur line. induction f as [|c f IH]; intros cur line Hf; [done|]. cbn [cut_line lines_from].
  case_bool_decide; [by intros [= <- <-]|]. destruct (cut_line f) as [l r] eqn:E. intros [= <- <-].
  destruct f as [|d f].
  - injection E as <- <-. cbn. by destruct (cur ++ [c]) eqn:Ec; [apply app_nil in Ec as [_ ?]|].
  - rewrite (IH (cur ++ [c]) l) by done. by rewrite <- app_assoc.
Qed.

Lemma getlines_cut f line rest : f ≠ [] → cut_line f = (line, rest) → getlines f = line :: getlines rest.
Proof. intros Hf E. apply (cut_line_lines f [] line rest Hf E). Qed.

Lemma cut_line_shorter f line rest : f ≠ [] → cut_line f = (line, rest) → (length rest < length f)%nat.
Proof.
  revert line. induction f as [|c f IH]; intros line Hf; [done|]. cbn [cut_line length].
  case_bool_decide; [intros [= _ <-]; lia|]. destruct (cut_line f) as [l r] eqn:E. intros [= _ <-].
  destruct f as [|d f]; [injection E as _ <-; cbn; lia|]. specialize (IH l ltac:(done) eq_refl). cbn in *. lia.
Qed.

(** ** The loop *)

Record fw_ok (w : fworld) : Prop := {
  fo_next : 0 < fw_next w;
  fo_streams : ∀ p, is_Some (fw_streams w !! p) → 0 < p < fw_next w;
  fo_heap : ∀ p, is_Some (fw_heap w !! p) → 0 < p < fw_next w
}.

(** The state while a stream is read: [fp] and [buf] apart, it is [w0]. *)
Record reading (w0 w : fworld) (fp buf : Z) (f : bytes) : Prop := {
  rd_ok : fw_ok w;
  rd_stream : fw_streams w = <[fp := f]> (fw_streams w0);
  rd_buf : ∃ n, fw_heap w = <[buf := n]> (fw_heap w0);
  rd_fresh : fw_heap w0 !! buf = None;
  rd_old : ∀ p, is_Some (fw_heap w0 !! p) → p < fw_next w;
  rd_dirs : fw_dirs w = fw_dirs w0;
  rd_files : fw_files w = fw_files w0
}.

Lemma reading_buf w0 w fp buf f : reading w0 w fp buf f → 0 < buf < fw_next w.
Proof. intros [Hok _ [n Hb] _ _ _ _]. apply (fo_heap w Hok). rewrite Hb, lookup_insert_eq. by eexists. Qed.

Lemma getline_run w0 w fp buf f :
  reading w0 w fp buf f →
  ∃ buf' w', getline buf fp w = (Ret (buf', if bool_decide (f = []) then None else Some (cut_line f).1), w') ∧
    reading w0 w' fp buf' (if bool_decide (f = []) then [] else (cut_line f).2).
Proof.
  intros Hr. pose proof (reading_buf _ _ _ _ _ Hr) as Hbuf. pose proof Hr as [[N Hs Hh] Es [n Eb] Hf Ho Hd Hfi].
  unfold getline. step. rewrite Es, lookup_insert_eq. destruct f as [|c f]; [by exists buf, w|].
  rewrite bool_decide_eq_false_2 by done. destruct (cut_line (c :: f)) as [line rest] eqn:Ec. cbn [fst snd].
  step. rewrite Eb, lookup_insert_eq. set (w1 := set_fw_streams _ w).
  assert (fw_ok w1) as Hok1.
  { split; [done | | done]. cbn. intros p [x [[<- _]|[_ Hp]]%lookup_insert_Some]; apply Hs; [|by eexists].
    rewrite Es, lookup_insert_eq. by eexists. }
  destruct (length line <? n)%nat.
  { exists buf, w1. split; [done|]. constructor; try done; [cbn; by rewrite Es, insert_insert_eq | by exists n]. }
  assert (free buf w1 = (Ret tt, set_fw_heap (delete buf (fw_heap w1)) w1)) as Efree.
  { unfold free. rewrite (proj2 (Z.eqb_neq buf 0)) by lia. step. cbn. by rewrite Eb, lookup_insert_eq. }
  step_with Efree. eexists _, _. split; [reflexivity|]. cbn. constructor; cbn.
  - split; cbn; [lia | |].
    + intros p Hp. destruct (fo_streams w1 Hok1 p Hp). cbn in *. lia.
    + intros p [x [[<- _]|[_ Hp]]%lookup_insert_Some]; [lia|]. destruct (Hh p); [|lia].
      apply lookup_delete_Some in Hp as [_ Hp]. by eexists.
  - by rewrite Es, insert_insert_eq.
  - exists (2 * S (length line))%nat. f_equal. rewrite Eb. by apply delete_insert_id.
  - apply eq_None_not_Some. intros Hp. specialize (Ho _ Hp). lia.
  - intros p Hp. specialize (Ho p Hp). lia.
  - done.
  - done.
Qed.

Section loop.
Context {S : Type} (trim : bool) (fn : bytes → prog S bool).

Lemma lib_run {A} (m : prog fworld A) w (s : S) a w' : m w = (Ret a, w') → lib m (w, s) = (Ret a, (w', s)).
Proof. unfold lib. by intros ->. Qed.

(** What the loop does to the state of the callback is what the lines of the stream say. *)
Lemma readline_loop_run w0 fp fuel f :
  ∀ w buf (s : S), (length f < fuel)%nat → reading w0 w fp buf f →
  ∃ w', (∃ buf' f', readline_loop fuel trim buf fp fn (w, s) =
          (match (each_line (getlines f) trim fn s).1 with
           | Ret _ => Ret buf' | Exit c => Exit c | Crash k => Crash k | OutOfFuel => OutOfFuel
           end, (w', (each_line (getlines f) trim fn s).2)) ∧ reading w0 w' fp buf' f').
Proof.
  revert f. induction fuel as [|fuel IH]; intros f w buf s Hf Hr; [lia|]. cbn [readline_loop].
  destruct (getline_run w0 w fp buf f Hr) as (buf1 & w1 & E & Hr1).
  erewrite bind_run by (by apply lib_run, E). cbv beta iota.
  destruct (decide (f = [])) as [->|Hne].
  { rewrite bool_decide_eq_true_2 by done. exists w1, buf1, []. by rewrite bool_decide_eq_true_2 in Hr1. }
  rewrite bool_decide_eq_false_2 in Hr1 |- * by done. destruct (cut_line f) as [line rest] eqn:Ec. cbn [fst snd] in *.
  pose proof (cut_line_shorter f line rest Hne Ec) as Hlen. rewrite (getlines_cut f line rest Hne Ec). cbn [each_line].
  unfold mbind at 2 3, prog_bind at 2 3. unfold mbind at 1, prog_bind at 1. unfold callback.
  destruct (fn (line_view trim line) s) as [[go|c|k|] s1]; try (by exists w1, buf1, rest).
  destruct go; [|by exists w1, buf1, rest]. apply IH; [lia | done].
Qed.
End loop.

Lemma open_file_run path mode w :
  open_file path mode w =
    match fw_files w !! path with
    | None => (Ret (make_file 0), w)
    | Some f => (Ret (make_file (fw_next w)), set_fw_streams (<[fw_next w := f]> (fw_streams w)) (set_fw_next (fw_next w + 1) w))
    end.
Proof. unfold open_file, fopen, stream_on, mbind, prog_bind, get. by destruct (fw_files w !! path). Qed.

(** C40 [file_readline] runs its callback on the lines of the file as [MountInfo.file_readline] says, and
    ends as the callback ends; when it returns, the stream it opened is closed, once, and its
    buffer freed, however often that was replaced. *)
Theorem file_readline_refines {S} (trim : bool) (fn : bytes → prog S bool) path w (s : S) :
  fw_ok w →
  ∃ w', file_readline_path trim path fn (w, s) =
    ((file_readline trim (fw_files w !! path) fn s).1, (w', (file_readline trim (fw_files w !! path) fn s).2)) ∧
    ((file_readline trim (fw_files w !! path) fn s).1 = Ret tt →
     fw_streams w' = fw_streams w ∧ fw_heap w' = fw_heap w ∧ fw_dirs w' = fw_dirs w).
Proof.
  intros Hok. pose proof Hok as [N Hs Hh]. unfold file_readline_path.
  pose proof (open_file_run path (txt "re") w) as Eo.
  destruct (fw_files w !! path) as [f|] eqn:Ef.
  2:{ erewrite bind_run by (apply lib_run, Eo). by exists w. }
  set (p := fw_next w). set (w1 := set_fw_streams (<[p := f]> (fw_streams w)) (set_fw_next (p + 1) w)).
  erewrite bind_run by (apply lib_run, Eo). fold p. fold w1. cbv beta.
  assert (fw_streams w !! p = None) as Hp by (apply eq_None_not_Some; intros Hx; specialize (Hs _ Hx); unfold p in *; lia).
  unfold unique_ptr.to_bool, unique_ptr.get. cbn [unique_ptr.ptr make_file].
  rewrite (proj2 (Z.eqb_neq p 0)) by (unfold p; lia). cbn [negb when]. unfold file_readline_fp. rewrite ?prog_bind_assoc.
  set (w2 := set_fw_heap (<[p + 1 := 1024%nat]> (fw_heap w1)) (set_fw_next (p + 1 + 1) w1)).
  erewrite bind_run by (by apply (lib_run (malloc 1024) w1 s (p + 1) w2)). cbv beta. rewrite ?prog_bind_assoc. step.
  cbv iota. rewrite ?prog_bind_assoc. change (fw_streams w2 !! p) with (<[p := f]> (fw_streams w) !! p). rewrite lookup_insert_eq.
  change (default [] (Some f)) with f.
  assert (fw_heap w !! (p + 1) = None) as Hb by (apply eq_None_not_Some; intros Hx; specialize (Hh _ Hx); unfold p in *; lia).
  assert (reading w w2 p (p + 1) f) as Hr.
  { constructor; [| done | by exists 1024%nat | done | | done | done].
    - split; cbn; [unfold p; lia | |].
      + intros q [x [[<- _]|[_ Hq]]%lookup_insert_Some]; [unfold p; lia|]. destruct (Hs q); [by eexists | unfold p; lia].
      + intros q [x [[<- _]|[_ Hq]]%lookup_insert_Some]; [unfold p; lia|]. destruct (Hh q); [by eexists | unfold p; lia].
    - intros q Hq. specialize (Hh q Hq). cbn. unfold p. lia. }
  destruct (readline_loop_run trim fn w p (Datatypes.S (length f)) f w2 (p + 1) s ltac:(lia) Hr) as (w3 & buf & f' & E & Hr3).
  cbn [file_readline]. destruct (each_line (getlines f) trim fn s) as [[[]|c|k|] s1]; cbn [fst snd] in E |- *.
  2-4: (exists w3; split; [unfold mbind at 1, prog_bind at 1; by rewrite E | done]).
  pose proof (reading_buf _ _ _ _ _ Hr3) as Hbuf. destruct Hr3 as [_ Es [n Eb] Hf Ho Hd _].
  erewrite bind_run by exact E. cbv beta.
  assert (free buf w3 = (Ret tt, set_fw_heap (fw_heap w) w3)) as Efree.
  { unfold free. rewrite (proj2 (Z.eqb_neq buf 0)) by lia. step. rewrite Eb, lookup_insert_eq. by rewrite delete_insert_id. }
  erewrite bind_run by (apply lib_run, Efree). cbv beta.
  set (w4 := set_fw_heap (fw_heap w) w3).
  exists (set_fw_streams (fw_streams w) w4). split; [|intros _; by split_and!].
  apply lib_run. unfold unique_ptr.destroy. cbn [unique_ptr.ptr unique_ptr.deleter make_file].
  rewrite (proj2 (Z.eqb_neq p 0)) by (unfold p; lia). cbn [negb]. unfold fclose. rewrite ?prog_bind_assoc. step.
  cbn. rewrite Es, lookup_insert_eq. cbn. by rewrite delete_insert_id.
Qed.

(** Two lines, of which the callback wants one; the first is longer than the buffer. *)
Definition demo_fw : fworld :=
  mkFw {[txt "/proc/x" := replicate 2000 "a"%char ++ [newline] ++ txt "b"]} ∅ (λ _, false) {[3 := txt "open"]} ∅ {[4 := 8%nat]} 10.

Lemma demo_fw_ok : fw_ok demo_fw.
Proof.
  split; [done | |]; intros p [x Hx]; cbn in Hx; apply lookup_singleton_Some in Hx as [<- _]; cbn; lia.
Qed.

Lemma file_readline_refines_witness :
  ∃ w', file_readline_path true (txt "/proc/x") (λ l, modify (λ n, (n + length l)%nat);; mret false) (demo_fw, 0%nat) =
    (Ret tt, (w', 2000%nat)) ∧ fw_streams w' = {[3 := txt "open"]} ∧ fw_heap w' = {[4 := 8%nat]}.
Proof.
  destruct (file_readline_refines true (λ l, modify (λ n, (n + length l)%nat);; mret false) (txt "/proc/x") demo_fw 0%nat demo_fw_ok)
    as (w' & E & H).
  exists w'. destruct H as (Hs & Hh & _); [by vm_compute|]. split; [|by split]. rewrite E. by f_equal.
Defined.

(** An array whose size does not fit is allocated too small. *)
Example allocate_wraps n w : (stateless_allocator.allocate 32 8 (λ b, malloc (Z.to_nat b)) (2 ^ 29 + n) w) = malloc (Z.to_nat (wrapu 32 (8 * n))) w.
Proof.
  unfold stateless_allocator.allocate, wrapu. do 2 f_equal. replace (8 * (2 ^ 29 + n)) with (8 * n + 1 * 2 ^ 32) by lia.
  by rewrite Z_mod_plus_full.
Qed.
