(* ===== verification/Maps.v ===== *)
(** * Maps: reading /proc/<pid>/maps

    [MapInfo::Scan] of [ptracer/utils.cpp]: the [sscanf] of one line as a scanner in the option
    monad, the entries built from it, and the whole file.  The claim is a round trip: what the
    kernel prints for a list of mappings is read back as these mappings, with paths that hold
    spaces, anonymous mappings and any padding. *)

From Stdlib Require Import ZArith Lia Ascii.
From stdpp Require Import base tactics strings list numbers.
From S2P Require Import Prelude Misc WaitStatus MountInfo.

Local Open Scope mach_scope.

Record MapInfo : Type := mkMap {
  map_start : Z;
  map_end : Z;
  map_perms : Z;
  map_private : bool;
  map_offset : Z;
  map_dev : Z;
  map_inode : Z;
  map_path : bytes
}.

Definition PROT_READ : Z := 1.
Definition PROT_WRITE : Z := 2.
Definition PROT_EXEC : Z := 4.

(** ** The conversions of sscanf *)

(** The value of a digit of base 16. *)
Definition xdigit (c : byte) : option Z :=
  let z := Z_of_byte c in
  if is_digit c then Some (z - 48)
  else if (97 <=? z) && (z <=? 102) then Some (z - 87)
  else if (65 <=? z) && (z <=? 70) then Some (z - 55)
  else None.
Definition is_xdigit (c : byte) : bool := bool_decide (is_Some (xdigit c)).

Definition hex_val (s : bytes) (acc : Z) : Z := foldl (λ acc c, acc * 16 + default 0 (xdigit c)) acc s.

(** An optional sign: whether it is a minus, and what follows. *)
Definition scan_sign (s : bytes) : bool * bytes :=
  match s with
  | c :: r => if bool_decide (c = "-"%char) then (true, r)
              else if bool_decide (c = "+"%char) then (false, r) else (false, s)
  | [] => (false, s)
  end.

(** An optional [0x], taken only when a digit follows it. *)
Definition strip_0x (s : bytes) : bytes :=
  match s with
  | z :: x :: d :: r =>
      if bool_decide (z = "0"%char) && (bool_decide (x = "x"%char) || bool_decide (x = "X"%char)) && is_xdigit d
      then d :: r else s
  | _ => s
  end.

(** The value [strtoumax] answers, converted to an unsigned variable of [w] bits. *)
Definition store_num (w : Z) (neg : bool) (v : Z) : Z :=
  let v := Z.min v (2 ^ 64 - 1) in wrapu w (if neg then - v else v).

(** [%x], [%lx]. *)
Definition scan_hex (w : Z) (s : bytes) : option (Z * bytes) :=
  let '(neg, s) := scan_sign (drop_while isspace s) in
  match span is_xdigit (strip_0x s) with
  | ([], _) => None
  | (ds, r) => Some (store_num w neg (hex_val ds 0), r)
  end.

(** [%lu]. *)
Definition scan_dec (w : Z) (s : bytes) : option (Z * bytes) :=
  let '(neg, s) := scan_sign (drop_while isspace s) in
  match span is_digit s with
  | ([], _) => None
  | (ds, r) => Some (store_num w neg (dec_val ds 0), r)
  end.

(** At most [n] of the leading bytes that satisfy [p]. *)
Fixpoint span_max (n : nat) (p : byte → bool) (s : bytes) : bytes * bytes :=
  match n, s with
  | S n, c :: s' => if p c then let '(a, b) := span_max n p s' in (c :: a, b) else ([], s)
  | _, _ => ([], s)
  end.

(** [%4s]. *)
Definition scan_str (n : nat) (s : bytes) : option (bytes * bytes) :=
  match span_max n notspace (drop_while isspace s) with
  | ([], _) => None
  | wr => Some wr
  end.

(** An ordinary character of the format. *)
Definition scan_lit (c : byte) (s : bytes) : option bytes :=
  match s with
  | c' :: r => if bool_decide (c' = c) then Some r else None
  | [] => None
  end.

(** ** The scan *)

Section scan.
Context (w : Z).                 (* the width of [uintptr_t] and [ino_t] *)

(** One line, as [getline] returns it; [None] when fewer than seven conversions succeed. *)
Definition scan_line (line : bytes) : option MapInfo :=
  let line := cstr (take (length line - 1) line) in
  '(start, r) ← scan_hex w line;
  r ← scan_lit "-"%char r;
  '(end_, r) ← scan_hex w r;
  '(perm, r) ← scan_str 4 r;
  '(off, r) ← scan_hex w r;
  '(dev_major, r) ← scan_hex 32 r;
  r ← scan_lit ":"%char r;
  '(dev_minor, r) ← scan_hex 32 r;
  '(inode, r) ← scan_dec w r;
  let path := drop_while isspace r in
  let has i c := bool_decide (perm !! i = Some c) in
  Some (mkMap start end_
          ((if has 0%nat "r"%char then PROT_READ else 0) |||
           (if has 1%nat "w"%char then PROT_WRITE else 0) |||
           (if has 2%nat "x"%char then PROT_EXEC else 0))
          (has 3%nat "p"%char) off (makedev dev_major dev_minor) inode path).

(** The text of the file, [None] when it cannot be opened. *)
Definition Scan_text (maps : option bytes) : list MapInfo :=
  match maps with
  | Some f => omap scan_line (getlines f)
  | None => []
  end.
End scan.

(** ** What the kernel prints *)

Record vma : Type := mkVma {
  v_start : Z; v_end : Z;
  v_read : bool; v_write : bool; v_exec : bool; v_private : bool;
  v_offset : Z; v_major : Z; v_minor : Z; v_inode : Z;
  v_pad : nat;                  (* the spaces before the path, one apart *)
  v_path : bytes                (* empty for an anonymous mapping *)
}.

(** [%0<n>x]. *)
Definition hex_pad (n : nat) (z : Z) : bytes :=
  let ds := hex_digits 16 z in replicate (n - length ds) "0"%char ++ ds.

Definition flag (b : bool) (c : byte) : byte := if b then c else "-"%char.

Definition show_perms (v : vma) : bytes :=
  [flag (v_read v) "r"%char; flag (v_write v) "w"%char; flag (v_exec v) "x"%char;
   if v_private v then "p"%char else "s"%char].

Definition show_vma (v : vma) : bytes :=
  hex_pad 8 (v_start v) ++ "-"%char :: hex_pad 8 (v_end v) ++ space :: show_perms v ++
  space :: hex_pad 8 (v_offset v) ++ space :: hex_pad 2 (v_major v) ++ ":"%char ::
  hex_pad 2 (v_minor v) ++ space :: print_dec (v_inode v) ++
  space :: replicate (v_pad v) space ++ v_path v ++ [newline].

Definition map_of_vma (v : vma) : MapInfo :=
  mkMap (v_start v) (v_end v)
    ((if v_read v then PROT_READ else 0) ||| (if v_write v then PROT_WRITE else 0) |||
     (if v_exec v then PROT_EXEC else 0))
    (v_private v) (v_offset v) (makedev (v_major v) (v_minor v)) (v_inode v) (v_path v).

(** The kernel escapes newlines in paths; a path starts with [/] or [[]. *)
Record vma_ok (w : Z) (v : vma) : Prop := {
  vok_start : 0 <= v_start v < 2 ^ w;
  vok_end : 0 <= v_end v < 2 ^ w;
  vok_offset : 0 <= v_offset v < 2 ^ w;
  vok_major : is_u32 (v_major v);
  vok_minor : is_u32 (v_minor v);
  vok_inode : 0 <= v_inode v < 2 ^ w;
  vok_path : newline ∉ v_path v ∧ no_nul (v_path v) ∧ ∀ c p, v_path v = c :: p → isspace c = false
}.

(** ** Lemmas *)

Lemma hex_val_app s t acc : hex_val (s ++ t) acc = hex_val t (hex_val s acc).
Proof. apply foldl_app. Qed.

Lemma hex_val_zeros n s : hex_val (replicate n "0"%char ++ s) 0 = hex_val s 0.
Proof. induction n; [done|]. simpl. done. Qed.

Definition hex_char (d : Z) : byte := if d <? 10 then byte_of_Z (48 + d) else byte_of_Z (87 + d).

Lemma hex_char_val d : 0 <= d < 16 → xdigit (hex_char d) = Some d.
Proof.
  intros H. assert (d ∈ [0;1;2;3;4;5;6;7;8;9;10;11;12;13;14;15]) as Hd.
  { rewrite !elem_of_cons. lia. }
  repeat (apply elem_of_cons in Hd as [->|Hd]; [reflexivity|]). by apply elem_of_nil in Hd.
Qed.

Lemma is_xdigit_char d : 0 <= d < 16 → is_xdigit (hex_char d) = true.
Proof. intros H. apply bool_decide_eq_true. rewrite hex_char_val by done. eauto. Qed.

Lemma hex_digits_spec fuel n :
  0 <= n < 16 ^ Z.of_nat fuel → (0 < fuel)%nat →
  Forall (λ c, is_xdigit c = true) (hex_digits fuel n) ∧ hex_val (hex_digits fuel n) 0 = n ∧
  hex_digits fuel n ≠ [].
Proof.
  revert n. induction fuel as [|fuel IH]; intros n Hn Hf; [lia|].
  pose proof (Z.mod_pos_bound n 16 ltac:(lia)) as Hm.
  assert (hex_digits (S fuel) n =
          (if n <? 16 then [] else hex_digits fuel (n / 16)) ++ [hex_char (n mod 16)]) as ->.
  { cbn [hex_digits]. unfold hex_char. by destruct (n mod 16 <? 10). }
  split_and!; [| |by intros [_ [=]]%app_nil]; destruct (Z.ltb_spec n 16).
  - constructor; [by apply is_xdigit_char | done].
  - rewrite Nat2Z.inj_succ, Z.pow_succ_r in Hn by lia.
    apply Forall_app. split; [|constructor; [by apply is_xdigit_char | done]].
    apply IH; [|destruct fuel; [simpl in Hn; lia | lia]].
    split; [apply Z.div_pos; lia | apply Z.div_lt_upper_bound; lia].
  - unfold hex_val. cbn [app foldl]. rewrite hex_char_val by done. simpl. rewrite Z.mod_small; lia.
  - rewrite Nat2Z.inj_succ, Z.pow_succ_r in Hn by lia. rewrite hex_val_app.
    destruct (IH (n / 16)) as (_ & -> & _);
      [split; [apply Z.div_pos; lia | apply Z.div_lt_upper_bound; lia]
      |destruct fuel; [simpl in Hn; lia | lia]|].
    unfold hex_val. cbn [foldl]. rewrite hex_char_val by done. simpl. pose proof (Z.div_mod n 16). lia.
Qed.

(** The digits of a padded number: their value, and that the scanner sees nothing else in them. *)
Lemma hex_pad_spec n z :
  0 <= z < 2 ^ 64 →
  Forall (λ c, is_xdigit c = true) (hex_pad n z) ∧ hex_val (hex_pad n z) 0 = z ∧ hex_pad n z ≠ [].
Proof.
  intros Hz. destruct (hex_digits_spec 16 z) as (H1 & H2 & H3);
    [change (16 ^ Z.of_nat 16) with (2 ^ 64); done | lia |].
  unfold hex_pad. rewrite hex_val_zeros. split_and!; [|done|by intros [_ ?]%app_nil].
  apply Forall_app. split; [|done]. apply Forall_replicate. reflexivity.
Qed.

Lemma xdigit_class c : is_xdigit c = true →
  isspace c = false ∧ c ≠ "-"%char ∧ c ≠ "+"%char ∧ c ≠ "x"%char ∧ c ≠ "X"%char ∧ c ≠ newline ∧ c ≠ NUL.
Proof.
  intros H. destruct c as [[] [] [] [] [] [] [] []]; vm_compute in H; try discriminate H;
    by split_and!.
Qed.

Lemma strip_0x_digits ds c r :
  Forall (λ x, is_xdigit x = true) ds → ds ≠ [] → c ≠ "x"%char → c ≠ "X"%char →
  strip_0x (ds ++ c :: r) = ds ++ c :: r.
Proof.
  intros Hds Hn Hc Hc'. destruct ds as [|z ds]; [done|].
  destruct (ds ++ c :: r) as [|x [|d t]] eqn:E; cbn [app strip_0x]; rewrite E; [done..|].
  assert (x ≠ "x"%char ∧ x ≠ "X"%char) as [N1 N2].
  { destruct ds as [|y ds]; injection E as -> _; [done|].
    inversion_clear Hds as [|?? _ Hy]. apply Forall_inv in Hy.
    pose proof (xdigit_class _ Hy). tauto. }
  rewrite (bool_decide_eq_false_2 (x = _)), (bool_decide_eq_false_2 (x = _)) by done.
  by rewrite andb_false_r.
Qed.

Lemma scan_sign_none c s : c ≠ "-"%char → c ≠ "+"%char → scan_sign (c :: s) = (false, c :: s).
Proof. intros H1 H2. unfold scan_sign. by rewrite !bool_decide_eq_false_2 by done. Qed.

Lemma store_num_id w v : 0 <= v < 2 ^ w → v < 2 ^ 64 → store_num w false v = v.
Proof. intros H1 H2. unfold store_num. rewrite Z.min_l by lia. by apply wrapu_small. Qed.

(** A padded number behind [b] spaces is read back; the scan stops at the first byte that is no
    digit. *)
Lemma scan_hex_pad w n z pre c r :
  0 <= z < 2 ^ w → z < 2 ^ 64 → Forall (λ x, isspace x = true) pre →
  is_xdigit c = false → c ≠ "x"%char → c ≠ "X"%char →
  scan_hex w (pre ++ hex_pad n z ++ c :: r) = Some (z, c :: r).
Proof.
  intros Hz Hz' Hpre Hc Hx HX. destruct (hex_pad_spec n z) as (Hds & Hv & Hne); [lia|].
  unfold scan_hex. rewrite drop_while_spaces by done.
  destruct (hex_pad n z) as [|d ds] eqn:E; [done|].
  pose proof (xdigit_class d (Forall_inv Hds)) as (Hsp & Hm & Hp & _).
  cbn [app]. rewrite drop_while_stop, scan_sign_none by done.
  rewrite (app_comm_cons ds (c :: r) d). rewrite strip_0x_digits by done.
  rewrite span_stop by done. rewrite Hv. by rewrite store_num_id.
Qed.

Lemma scan_hex_here w n z c r :
  0 <= z < 2 ^ w → z < 2 ^ 64 → is_xdigit c = false → c ≠ "x"%char → c ≠ "X"%char →
  scan_hex w (hex_pad n z ++ c :: r) = Some (z, c :: r).
Proof. intros. by apply (scan_hex_pad w n z []). Qed.

Lemma scan_hex_sp w n z c r :
  0 <= z < 2 ^ w → z < 2 ^ 64 → is_xdigit c = false → c ≠ "x"%char → c ≠ "X"%char →
  scan_hex w (space :: hex_pad n z ++ c :: r) = Some (z, c :: r).
Proof. intros. apply (scan_hex_pad w n z [space]); try done. by repeat constructor. Qed.

Lemma scan_lit_here c r : scan_lit c (c :: r) = Some r.
Proof. unfold scan_lit. by rewrite bool_decide_eq_true_2. Qed.

Lemma scan_dec_sp w n c r :
  0 <= n < 2 ^ w → n < 2 ^ 64 → is_digit c = false →
  scan_dec w (space :: print_dec n ++ c :: r) = Some (n, c :: r).
Proof.
  intros Hn Hn' Hc. destruct (print_dec_wide n) as (Hds & Hv & Hne); [lia|].
  unfold scan_dec. change (drop_while isspace (space :: ?s)) with (drop_while isspace s).
  destruct (print_dec n) as [|d ds] eqn:E; [done|].
  pose proof (Forall_inv Hds) as Hd. cbn [app].
  rewrite drop_while_stop by by apply digit_not_space.
  rewrite scan_sign_none by by intros ->.
  rewrite (app_comm_cons ds (c :: r) d), span_stop by done. rewrite Hv. by rewrite store_num_id.
Qed.

Lemma spaces_replicate n : Forall (λ x, isspace x = true) (replicate n space).
Proof. by apply Forall_replicate. Qed.

Lemma drop_while_path v w : vma_ok w v → drop_while isspace (v_path v) = v_path v.
Proof.
  intros H. destruct (vok_path _ _ H) as (_ & _ & Hs). destruct (v_path v) as [|c p]; [done|].
  apply drop_while_stop. by eapply Hs.
Qed.

Lemma flag_notspace b c : isspace c = false → isspace (flag b c) = false.
Proof. by destruct b. Qed.

Lemma scan_str_perms v r : scan_str 4 (space :: show_perms v ++ space :: r) = Some (show_perms v, space :: r).
Proof. unfold show_perms. by destruct (v_read v), (v_write v), (v_exec v), (v_private v). Qed.

(** Neither a newline nor a NUL: what may stand inside a line. *)
Definition plain (c : byte) : Prop := c ≠ newline ∧ c ≠ NUL.

Lemma plain_hex n z : 0 <= z < 2 ^ 64 → Forall plain (hex_pad n z).
Proof.
  intros (H & _)%(hex_pad_spec n). eapply Forall_impl; [|exact H].
  intros c Hc%xdigit_class. unfold plain. tauto.
Qed.

Lemma plain_dec n : 0 <= n < 2 ^ 64 → Forall plain (print_dec n).
Proof.
  intros (H & _)%print_dec_wide. eapply Forall_impl; [|exact H].
  intros c Hc. split; [by intros ->|by apply is_digit_not_nul].
Qed.

Lemma plain_perms v : Forall plain (show_perms v).
Proof.
  unfold show_perms. destruct (v_read v), (v_write v), (v_exec v), (v_private v);
    by repeat constructor.
Qed.

Lemma plain_path w v : vma_ok w v → Forall plain (v_path v).
Proof.
  intros H. destruct (vok_path _ _ H) as (H1 & H2 & _). apply list.Forall_forall.
  intros c Hc. by split; intros ->.
Qed.

Section line.
Context (w : Z) (Hw : 0 <= w <= 64).

Lemma word_64 z : 0 <= z < 2 ^ w → 0 <= z < 2 ^ 64.
Proof. pose proof (Z.pow_le_mono_r 2 w 64). lia. Qed.

(** The line without its newline. *)
Definition vma_text (v : vma) : bytes :=
  hex_pad 8 (v_start v) ++ "-"%char :: hex_pad 8 (v_end v) ++ space :: show_perms v ++
  space :: hex_pad 8 (v_offset v) ++ space :: hex_pad 2 (v_major v) ++ ":"%char ::
  hex_pad 2 (v_minor v) ++ space :: print_dec (v_inode v) ++
  space :: replicate (v_pad v) space ++ v_path v.

Lemma show_vma_text v : show_vma v = vma_text v ++ [newline].
Proof. unfold show_vma, vma_text. by rewrite <- ?app_assoc, <- ?app_comm_cons, <- ?app_assoc;
  repeat (rewrite <- ?app_assoc, <- ?app_comm_cons). Qed.

Lemma vma_text_plain v : vma_ok w v → Forall plain (vma_text v).
Proof.
  intros H. pose proof (vok_major _ _ H). pose proof (vok_minor _ _ H). unfold is_u32 in *.
  unfold vma_text.
  repeat first
    [ apply plain_hex | apply plain_dec | apply plain_perms | by eapply plain_path
    | by apply Forall_replicate | by split | apply Forall_app; split | apply list.Forall_cons; split ];
  try lia;
  apply word_64, H.
Qed.

Lemma scan_line_show v : vma_ok w v → scan_line w (show_vma v) = Some (map_of_vma v).
Proof.
  intros H. unfold scan_line. rewrite show_vma_text, length_app. cbn [length].
  rewrite Nat.add_sub, take_app_length.
  rewrite cstr_id; [|intros Hin; eapply list.Forall_forall in Hin; [|by apply vma_text_plain]; by destruct Hin].
  pose proof (vok_major _ _ H) as H5. pose proof (vok_minor _ _ H) as H6. unfold is_u32 in H5, H6.
  unfold vma_text.
  pose proof (vok_start _ _ H) as H1. pose proof (vok_end _ _ H) as H2.
  pose proof (vok_offset _ _ H) as H3. pose proof (vok_inode _ _ H) as H4.
  pose proof (word_64 _ H1). pose proof (word_64 _ H2). pose proof (word_64 _ H3). pose proof (word_64 _ H4).
  rewrite scan_hex_here by (done || lia). cbn [mbind option_bind]. rewrite scan_lit_here. cbn [mbind option_bind].
  rewrite scan_hex_here by (done || lia). cbn [mbind option_bind].
  rewrite scan_str_perms. cbn [mbind option_bind].
  rewrite scan_hex_sp by (done || lia). cbn [mbind option_bind].
  rewrite scan_hex_sp by (done || lia). cbn [mbind option_bind]. rewrite scan_lit_here. cbn [mbind option_bind].
  rewrite scan_hex_here by (done || lia). cbn [mbind option_bind].
  rewrite scan_dec_sp by (done || lia). cbn [mbind option_bind].
  change (space :: replicate (v_pad v) space ++ v_path v)
    with (replicate (S (v_pad v)) space ++ v_path v).
  rewrite drop_while_spaces by apply spaces_replicate. rewrite (drop_while_path v w) by done.
  unfold map_of_vma, show_perms. by destruct (v_read v), (v_write v), (v_exec v), (v_private v).
Qed.

Lemma show_vma_line v : vma_ok w v → is_line (show_vma v).
Proof.
  intros H%vma_text_plain. exists (vma_text v). split; [apply show_vma_text|].
  rewrite list.Forall_forall in H. unfold no_nul. split; intros Hin%H; by destruct Hin.
Qed.
End line.

(** ** Properties *)

(** C20 What the kernel prints for a list of mappings, with its zero padding, with paths that may
    hold spaces or be empty, and with any number of spaces before the path, is read by [Scan] as
    exactly these mappings, in order: the addresses, the permission bits, the sharing, the offset,
    the device, the inode and the path of each. *)
Theorem Scan_text_show (w : Z) (vs : list vma) :
  0 <= w <= 64 → Forall (vma_ok w) vs →
  Scan_text w (Some (mjoin (show_vma <$> vs))) = map_of_vma <$> vs.
Proof.
  intros Hw H. unfold Scan_text. rewrite getlines_lines.
  - induction H as [|v vs Hv _ IH]; [done|].
    rewrite !fmap_cons. cbn [omap list_omap]. rewrite scan_line_show by done. by f_equal.
  - apply Forall_fmap. eapply Forall_impl; [|exact H]. intros v Hv. by eapply show_vma_line.
Qed.

Definition demo_vmas : list vma :=
  [mkVma 0x7f12345000 0x7f12346000 true false true true 0x1000 253 5 123456 30 (txt "/system/lib64/a b.so (deleted)");
   mkVma 0x1000 0x2000 true true false false 0 0 0 0 0 []].

Lemma demo_vmas_ok : Forall (vma_ok 64) demo_vmas.
Proof.
  repeat constructor; cbn; unfold is_u32, no_nul; try lia; try (by intros ?%elem_of_nil);
    try (apply (bool_decide_unpack _); by vm_compute); by intros ?? [= <- <-].
Qed.

Lemma Scan_text_show_witness :
  Scan_text 64 (Some (mjoin (show_vma <$> demo_vmas))) =
  [mkMap 0x7f12345000 0x7f12346000 5 true 0x1000 64773 123456 (txt "/system/lib64/a b.so (deleted)");
   mkMap 0x1000 0x2000 3 false 0 0 0 []].
Proof. rewrite (Scan_text_show 64 demo_vmas); [reflexivity | lia | exact demo_vmas_ok]. Defined.

(** [line[read - 1] = 0] takes a last line's final byte for its newline. *)
Example last_line_cut :
  Scan_text 64 (Some (txt "1000-2000 r--p 0 0:0 7 /ab")) = [mkMap 4096 8192 1 true 0 0 7 (txt "/a")].
Proof. reflexivity. Qed.
