(* ===== verification/MntNs.v ===== *)
(** * MntNs: entering another mount namespace and coming back

    [switch_mnt_ns] of [ptracer/utils.cpp] on the descriptors of the process and its namespace:
    every [open], [setns] and [close] of the routine, with the [fd] argument the caller keeps
    the way back in. *)

From Stdlib Require Import ZArith Lia Ascii.
From stdpp Require Import base tactics strings list gmap numbers.
From S2P Require Import Prelude WaitStatus.

(** The process: its mount namespace, what each open descriptor refers to (a mount namespace, or
    something else), the namespace of each process that can be opened, and whether the next
    [setns] is permitted. *)
Inductive fobj : Set := Ns (id : Z) | Other.

Record nsproc : Type := mkNsp {
  ns_cur : Z;
  ns_fds : gmap Z fobj;
  ns_of : bytes → option Z;         (* the namespace behind a path under /proc *)
  ns_setns_ok : list bool
}.

Definition set_ns_fds v s := mkNsp (ns_cur s) v (ns_of s) (ns_setns_ok s).

(** The namespace file of a process; of the calling one it is the current namespace. *)
Definition ns_path (pid : Z) : bytes := txt "/proc/" ++ print_int pid ++ txt "/ns/mnt".

(** [open(path, O_RDONLY | O_CLOEXEC)]. *)
Definition ns_open (target : option Z) : prog nsproc Z :=
  match target with
  | None => mret (-1)
  | Some id =>
      s ← get;
      let fd := lowest_fd (dom (ns_fds s)) in
      put (set_ns_fds (<[fd := Ns id]> (ns_fds s)) s);;
      mret fd
  end.

Definition ns_close (fd : Z) : prog nsproc unit := modify (λ s, set_ns_fds (delete fd (ns_fds s)) s).

(** [setns(fd, CLONE_NEWNS)]: fails on a descriptor that is closed or no mount namespace. *)
Definition setns (fd : Z) : prog nsproc Z :=
  s ← get;
  let ok := default true (head (ns_setns_ok s)) in
  let s := mkNsp (ns_cur s) (ns_fds s) (ns_of s) (tail (ns_setns_ok s)) in
  match ns_fds s !! fd with
  | Some (Ns id) =>
      if ok then put (mkNsp id (ns_fds s) (ns_of s) (ns_setns_ok s));; mret 0
      else put s;; mret (-1)
  | _ => put s;; mret (-1)
  end.

(** The caller's [*fd], [None] for a null pointer; answers with what it holds afterwards.
    [self_ok]: whether the process can open its own namespace. *)
Definition enter (nsfd old_nsfd : Z) (fd : option Z) : prog nsproc (bool * option Z) :=
  r ← setns nsfd;
  if r =? -1 then ns_close nsfd;; ns_close old_nsfd;; mret (false, fd)
  else ns_close nsfd;; mret (true, fd).

Definition enter_pid (pid old_nsfd : Z) (fd : option Z) : prog nsproc (bool * option Z) :=
  s ← get;
  nsfd ← ns_open (ns_of s (ns_path pid));
  if nsfd =? -1 then ns_close old_nsfd;; mret (false, fd)
  else enter nsfd old_nsfd fd.

Definition switch_mnt_ns (self_ok : bool) (pid : Z) (fd : option Z) : prog nsproc (bool * option Z) :=
  if pid =? 0 then
    match fd with
    | None => mret (false, None)
    | Some nsfd => enter nsfd (-1) (Some (-1))
    end
  else
    s ← get;
    old ← match fd with
          | None => mret (Some (-1, None))
          | Some _ =>
              old_nsfd ← ns_open (if self_ok then Some (ns_cur s) else None);
              mret (if old_nsfd =? -1 then None else Some (old_nsfd, Some old_nsfd))
          end;
    match old with
    | None => mret (false, fd)
    | Some (old_nsfd, fd) => enter_pid pid old_nsfd fd
    end.

(** ** Lemmas *)

Definition nsp_ok (s : nsproc) : Prop := ns_fds s !! (-1) = None.

Lemma fresh_lookup (m : gmap Z fobj) : m !! lowest_fd (dom m) = None ∧ 0 <= lowest_fd (dom m).
Proof. destruct (lowest_fd_fresh (dom m)) as [H ?]. split; [by apply not_elem_of_dom | done]. Qed.

Lemma ns_open_run id s :
  let fd := lowest_fd (dom (ns_fds s)) in
  ns_open (Some id) s = (Ret fd, set_ns_fds (<[fd := Ns id]> (ns_fds s)) s).
Proof. reflexivity. Qed.

Lemma setns_run fd id s :
  ns_fds s !! fd = Some (Ns id) →
  setns fd s = if default true (head (ns_setns_ok s))
               then (Ret 0, mkNsp id (ns_fds s) (ns_of s) (tail (ns_setns_ok s)))
               else (Ret (-1), mkNsp (ns_cur s) (ns_fds s) (ns_of s) (tail (ns_setns_ok s))).
Proof. intros E. unfold setns. run_prog. rewrite E. by destruct (default true _). Qed.

(** [enter] on a descriptor of a namespace. *)
Lemma enter_run nsfd old fd id s :
  ns_fds s !! nsfd = Some (Ns id) →
  enter nsfd old fd s =
    if default true (head (ns_setns_ok s))
    then (Ret (true, fd), mkNsp id (delete nsfd (ns_fds s)) (ns_of s) (tail (ns_setns_ok s)))
    else (Ret (false, fd), mkNsp (ns_cur s) (delete old (delete nsfd (ns_fds s))) (ns_of s) (tail (ns_setns_ok s))).
Proof.
  intros E%setns_run. unfold enter, mbind, prog_bind at 1. rewrite E.
  by destruct (default true _).
Qed.

(** ** Properties *)

(** Entering the namespace of a process that can be opened succeeds, opens exactly one
    descriptor, the one put into [*fd], which refers to the namespace that was left; switching
    back with it restores the namespace and the table of descriptors, and [*fd] no longer holds a
    descriptor. *)
Theorem switch_mnt_ns_back (pid id v : Z) (s : nsproc) :
  pid ≠ 0 → ns_of s (ns_path pid) = Some id → ns_setns_ok s = [] →
  ∃ old s1 s2,
    switch_mnt_ns true pid (Some v) s = (Ret (true, Some old), s1) ∧
    ns_cur s1 = id ∧ ns_fds s !! old = None ∧ ns_fds s1 = <[old := Ns (ns_cur s)]> (ns_fds s) ∧
    switch_mnt_ns true 0 (Some old) s1 = (Ret (true, Some (-1)), s2) ∧
    ns_cur s2 = ns_cur s ∧ ns_fds s2 = ns_fds s.
Proof.
  intros Hp Hid Hok. set (old := lowest_fd (dom (ns_fds s))).
  destruct (fresh_lookup (ns_fds s)) as [Hf H0]. fold old in Hf, H0.
  set (s0 := set_ns_fds (<[old := Ns (ns_cur s)]> (ns_fds s)) s).
  set (new := lowest_fd (dom (ns_fds s0))).
  destruct (fresh_lookup (ns_fds s0)) as [Hn Hn0]. fold new in Hn, Hn0.
  assert (switch_mnt_ns true pid (Some v) s =
          (Ret (true, Some old), mkNsp id (ns_fds s0) (ns_of s) [])) as E1.
  { unfold switch_mnt_ns. rewrite (proj2 (Z.eqb_neq pid 0)) by done. step.
    rewrite prog_bind_assoc. step_with (ns_open_run (ns_cur s) s). fold old s0. step.
    rewrite (proj2 (Z.eqb_neq old (-1))) by lia. unfold enter_pid. step.
    change (ns_of s0) with (ns_of s). rewrite Hid. step_with (ns_open_run id s0). fold new.
    rewrite (proj2 (Z.eqb_neq new (-1))) by lia.
    rewrite (enter_run _ _ _ id) by apply lookup_insert_eq. cbn [ns_setns_ok s0 set_ns_fds]. rewrite Hok.
    cbn [head default]. cbn [ns_fds set_ns_fds]. by rewrite delete_insert_id. }
  exists old, (mkNsp id (ns_fds s0) (ns_of s) []), (mkNsp (ns_cur s) (ns_fds s) (ns_of s) []).
  split_and!; try done.
  unfold switch_mnt_ns. cbn [Z.eqb]. rewrite (enter_run _ _ _ (ns_cur s)) by apply lookup_insert_eq.
  cbn [ns_setns_ok head default ns_fds tail]. cbn [ns_fds set_ns_fds s0]. by rewrite delete_insert_id.
Qed.

(** A process with two descriptors that may enter the namespace 7 of process 42. *)
Definition demo_nsproc (ok : list bool) : nsproc :=
  mkNsp 1 {[0 := Other; 1 := Other]}
    (λ p, if bool_decide (p = ns_path 42) then Some 7 else None) ok.

Lemma switch_mnt_ns_back_witness :
  ∃ s1 s2, switch_mnt_ns true 42 (Some 99) (demo_nsproc []) = (Ret (true, Some 2), s1) ∧
           ns_cur s1 = 7 ∧ switch_mnt_ns true 0 (Some 2) s1 = (Ret (true, Some (-1)), s2) ∧ ns_cur s2 = 1.
Proof.
  destruct (switch_mnt_ns_back 42 7 99 (demo_nsproc [])) as (old & s1 & s2 & E1 & C & _ & _ & E2 & C2 & _);
    [done | by vm_compute | done |].
  assert (old = 2) as -> by (vm_compute in E1; congruence).
  by exists s1, s2.
Defined.

(** [enter] on any descriptor, when it fails. *)
Lemma enter_fails nsfd old fd s b fd' s' :
  enter nsfd old fd s = (Ret (b, fd'), s') → b = false →
  fd' = fd ∧ ns_cur s' = ns_cur s ∧ ns_fds s' = delete old (delete nsfd (ns_fds s)).
Proof.
  unfold enter, setns. run_prog. destruct (ns_fds s !! nsfd) as [[id|]|]; run_prog.
  1: destruct (default true _); run_prog; intros [= <- <- <-] [=]; done.
  all: by intros [= <- <- <-].
Qed.

Lemma enter_returns n o f s0 : ∃ b fd' s', enter n o f s0 = (Ret (b, fd'), s').
Proof.
  unfold enter, setns. run_prog.
  destruct (ns_fds s0 !! n) as [[id|]|]; run_prog; try destruct (default true _); run_prog; eauto.
Qed.

(** With the way back opened as [old], the process is entered, or everything is as in [s]. *)
Lemma enter_pid_fails pid old fd fd1 s s0 :
  ns_cur s0 = ns_cur s → ns_of s0 = ns_of s → delete old (ns_fds s0) = ns_fds s →
  fd1 = fd ∨ fd1 = Some old ∧ ns_fds s !! old = None →
  ∃ b fd' s', enter_pid pid old fd1 s0 = (Ret (b, fd'), s') ∧
    (b = false → ns_cur s' = ns_cur s ∧ ns_fds s' = ns_fds s ∧
                 (fd' = fd ∨ ∃ x, fd' = Some x ∧ ns_fds s' !! x = None)).
Proof.
  intros C O D F. unfold enter_pid. step. rewrite O. destruct (ns_of s (ns_path pid)) as [id|].
  - step_with (ns_open_run id s0). destruct (fresh_lookup (ns_fds s0)) as [Hn H0].
    set (new := lowest_fd _) in *. rewrite (proj2 (Z.eqb_neq new (-1))) by lia.
    destruct (enter_returns new old fd1 (set_ns_fds (<[new := Ns id]> (ns_fds s0)) s0)) as (b & fd' & s' & E).
    exists b, fd', s'. split; [done|]. intros Hb.
    destruct (enter_fails _ _ _ _ _ _ _ E Hb) as (-> & Hc & Hfd).
    cbn [ns_fds set_ns_fds] in Hfd. rewrite delete_insert_id, D in Hfd by done.
    split_and!; [by rewrite Hc | done |].
    destruct F as [->|[-> F]]; [by left | right; exists old; by rewrite Hfd].
  - step. exists false, fd1, (set_ns_fds (delete old (ns_fds s0)) s0). split; [done|]. intros _.
    cbn [ns_fds ns_cur set_ns_fds]. rewrite D. split_and!; [done..|].
    destruct F as [->|[-> F]]; [by left | right; by exists old].
Qed.

(** [switch_mnt_ns] always returns.  When it fails to enter the namespace of a process, it has
    stayed in its own, and has closed every descriptor it opened; [*fd] is untouched or holds a
    number that is not open.  When it fails to go back, it has stayed and has closed the
    descriptor it was given. *)
Theorem switch_mnt_ns_fails (self_ok : bool) (pid : Z) (fd : option Z) (s : nsproc) :
  nsp_ok s →
  ∃ b fd' s', switch_mnt_ns self_ok pid fd s = (Ret (b, fd'), s') ∧
    (b = false →
     ns_cur s' = ns_cur s ∧
     if pid =? 0 then ns_fds s' = match fd with Some x => delete x (ns_fds s) | None => ns_fds s end
     else ns_fds s' = ns_fds s ∧ (fd' = fd ∨ ∃ x, fd' = Some x ∧ ns_fds s' !! x = None)).
Proof.
  intros Hs. unfold nsp_ok in Hs. unfold switch_mnt_ns. destruct (Z.eqb_spec pid 0) as [->|Hp].
  - destruct fd as [x|]; [|by exists false, None, s].
    destruct (enter_returns x (-1) (Some (-1)) s) as (b & fd' & s' & E). exists b, fd', s'.
    split; [done|]. intros Hb. destruct (enter_fails _ _ _ _ _ _ _ E Hb) as (-> & Hc & Hfd).
    split; [done|]. rewrite Hfd. apply delete_id. destruct (decide (x = -1)) as [->|];
      [apply lookup_delete_eq | by rewrite lookup_delete_ne].
  - step. destruct fd as [v|].
    + destruct self_ok.
      * rewrite prog_bind_assoc. step_with (ns_open_run (ns_cur s) s).
        destruct (fresh_lookup (ns_fds s)) as [Hn H0]. set (old := lowest_fd _) in *. step.
        rewrite (proj2 (Z.eqb_neq old (-1))) by lia. cbv iota. apply enter_pid_fails; try done.
        -- cbn [ns_fds set_ns_fds]. by apply delete_insert_id.
        -- by right.
      * exists false, (Some v), s. split; [done|]. intros _. split_and!; [done..|]. by left.
    + step. apply enter_pid_fails; try done; [by apply delete_id | by left].
Qed.

Lemma switch_mnt_ns_fails_witness :
  ∃ fd' s', switch_mnt_ns true 42 (Some 99) (demo_nsproc [false]) = (Ret (false, fd'), s') ∧
            ns_fds s' = {[0 := Other; 1 := Other]}.
Proof.
  destruct (switch_mnt_ns_fails true 42 (Some 99) (demo_nsproc [false])) as (b & fd' & s' & E & H);
    [by vm_compute|].
  assert (b = false) as Hb by (vm_compute in E; congruence). subst b.
  exists fd', s'. split; [exact E|]. by destruct (H eq_refl) as (_ & Hf & _).
Defined.
