(* ===== verification/Elf.v ===== *)
(** * Elf: the reader of ELF symbol tables

    [SandHook::ElfImg] of [common/elf_util.cpp] and [include/elf_util.h]: the module is looked up
    among the loaded ones, its file is mapped and its section headers are scanned once; symbols
    are then found through the GNU hash table, the System V hash table or a linear pass over
    .symtab.  The mapped file is a list of bytes, the structures are read at the offsets of the
    ELF specification, and a read outside of the mapping ends the process. *)

From Stdlib Require Import ZArith Lia Ascii.
From stdpp Require Import base tactics strings list gmap numbers.
From S2P Require Import Prelude.

Local Open Scope mach_scope.

(** ** Hash functions *)

Definition elf_hash_step (h : Z) (p : byte) : Z :=
  let h := u32 (u32 (h <<< 4) + Z_of_byte p) in
  let g := h &&& 0xf0000000 in
  let h := h ^^^ g in
  h ^^^ (g >>> 24).

Definition ElfHash (name : bytes) : Z := foldl elf_hash_step 0 name.

Definition gnu_hash_step (h : Z) (p : byte) : Z :=
  u32 (h + u32 (u32 (h <<< 5) + Z_of_byte p)).

Definition GnuHash (name : bytes) : Z := foldl gnu_hash_step 5381 name.

(** ** The object *)

Definition SHT_PROGBITS : Z := 1.
Definition SHT_SYMTAB : Z := 2.
Definition SHT_STRTAB : Z := 3.
Definition SHT_HASH : Z := 5.
Definition SHT_DYNSYM : Z := 11.
Definition SHT_GNU_HASH : Z := 0x6ffffff6.
Definition STT_OBJECT : Z := 1.
Definition STT_FUNC : Z := 2.

(** [bias] before it is known. *)
Definition NO_BIAS : Z := -4396.

(** Pointers into the mapping are offsets from its start, [None] is null; the last five fields
    before the cache are not initialised by the constructor. *)
Record ElfImg : Type := mkElf {
  elf : bytes;
  base : Z;
  size : Z;
  bias : Z;
  header : option bytes;
  section_header : Z;
  symtab : option Z;
  strtab : option Z;
  dynsym : option Z;
  symtab_start : option Z;
  dynsym_start : option Z;
  strtab_start : option Z;
  symtab_count : Z;
  symstr_offset_for_symtab : Z;
  nbucket_ : Z;
  bucket_ : option Z;
  chain_ : option Z;
  gnu_nbucket_ : Z;
  gnu_symndx_ : Z;
  gnu_bloom_size_ : option Z;
  gnu_shift2_ : option Z;
  gnu_bloom_filter_ : option Z;
  gnu_bucket_ : option Z;
  gnu_chain_ : option Z;
  symtabs_ : gmap bytes Z
}.

Definition new_ElfImg (name : bytes) : ElfImg :=
  mkElf name 0 0 NO_BIAS None 0 None None None None None None 0 0 0 None None 0 0
    None None None None None ∅.

Definition set_module (n : bytes) (b : Z) (s : ElfImg) : ElfImg :=
  mkElf n b (size s) (bias s) (header s) (section_header s) (symtab s) (strtab s) (dynsym s)
    (symtab_start s) (dynsym_start s) (strtab_start s) (symtab_count s)
    (symstr_offset_for_symtab s) (nbucket_ s) (bucket_ s) (chain_ s) (gnu_nbucket_ s)
    (gnu_symndx_ s) (gnu_bloom_size_ s) (gnu_shift2_ s) (gnu_bloom_filter_ s) (gnu_bucket_ s)
    (gnu_chain_ s) (symtabs_ s).
Definition set_base (b : Z) (s : ElfImg) : ElfImg :=
  mkElf (elf s) b (size s) (bias s) (header s) (section_header s) (symtab s) (strtab s) (dynsym s)
    (symtab_start s) (dynsym_start s) (strtab_start s) (symtab_count s)
    (symstr_offset_for_symtab s) (nbucket_ s) (bucket_ s) (chain_ s) (gnu_nbucket_ s)
    (gnu_symndx_ s) (gnu_bloom_size_ s) (gnu_shift2_ s) (gnu_bloom_filter_ s) (gnu_bucket_ s)
    (gnu_chain_ s) (symtabs_ s).
Definition set_mapping (n : Z) (f : bytes) (s : ElfImg) : ElfImg :=
  mkElf (elf s) (base s) n (bias s) (Some f) (section_header s) (symtab s) (strtab s) (dynsym s)
    (symtab_start s) (dynsym_start s) (strtab_start s) (symtab_count s)
    (symstr_offset_for_symtab s) (nbucket_ s) (bucket_ s) (chain_ s) (gnu_nbucket_ s)
    (gnu_symndx_ s) (gnu_bloom_size_ s) (gnu_shift2_ s) (gnu_bloom_filter_ s) (gnu_bucket_ s)
    (gnu_chain_ s) (symtabs_ s).
Definition set_section_header (o : Z) (s : ElfImg) : ElfImg :=
  mkElf (elf s) (base s) (size s) (bias s) (header s) o (symtab s) (strtab s) (dynsym s)
    (symtab_start s) (dynsym_start s) (strtab_start s) (symtab_count s)
    (symstr_offset_for_symtab s) (nbucket_ s) (bucket_ s) (chain_ s) (gnu_nbucket_ s)
    (gnu_symndx_ s) (gnu_bloom_size_ s) (gnu_shift2_ s) (gnu_bloom_filter_ s) (gnu_bucket_ s)
    (gnu_chain_ s) (symtabs_ s).
Definition set_dynsym (h o : Z) (s : ElfImg) : ElfImg :=
  mkElf (elf s) (base s) (size s) (bias s) (header s) (section_header s) (symtab s) (strtab s)
    (Some h) (symtab_start s) (Some o) (strtab_start s) (symtab_count s)
    (symstr_offset_for_symtab s) (nbucket_ s) (bucket_ s) (chain_ s) (gnu_nbucket_ s)
    (gnu_symndx_ s) (gnu_bloom_size_ s) (gnu_shift2_ s) (gnu_bloom_filter_ s) (gnu_bucket_ s)
    (gnu_chain_ s) (symtabs_ s).
Definition set_symtab (h o n : Z) (s : ElfImg) : ElfImg :=
  mkElf (elf s) (base s) (size s) (bias s) (header s) (section_header s) (Some h) (strtab s)
    (dynsym s) (Some o) (dynsym_start s) (strtab_start s) n (symstr_offset_for_symtab s)
    (nbucket_ s) (bucket_ s) (chain_ s) (gnu_nbucket_ s) (gnu_symndx_ s) (gnu_bloom_size_ s)
    (gnu_shift2_ s) (gnu_bloom_filter_ s) (gnu_bucket_ s) (gnu_chain_ s) (symtabs_ s).
Definition set_strtab (h o : Z) (s : ElfImg) : ElfImg :=
  mkElf (elf s) (base s) (size s) (bias s) (header s) (section_header s) (symtab s) (Some h)
    (dynsym s) (symtab_start s) (dynsym_start s) (Some o) (symtab_count s)
    (symstr_offset_for_symtab s) (nbucket_ s) (bucket_ s) (chain_ s) (gnu_nbucket_ s)
    (gnu_symndx_ s) (gnu_bloom_size_ s) (gnu_shift2_ s) (gnu_bloom_filter_ s) (gnu_bucket_ s)
    (gnu_chain_ s) (symtabs_ s).
Definition set_symstr (o : Z) (s : ElfImg) : ElfImg :=
  mkElf (elf s) (base s) (size s) (bias s) (header s) (section_header s) (symtab s) (strtab s)
    (dynsym s) (symtab_start s) (dynsym_start s) (strtab_start s) (symtab_count s) o (nbucket_ s)
    (bucket_ s) (chain_ s) (gnu_nbucket_ s) (gnu_symndx_ s) (gnu_bloom_size_ s) (gnu_shift2_ s)
    (gnu_bloom_filter_ s) (gnu_bucket_ s) (gnu_chain_ s) (symtabs_ s).
Definition set_bias (b : Z) (s : ElfImg) : ElfImg :=
  mkElf (elf s) (base s) (size s) b (header s) (section_header s) (symtab s) (strtab s) (dynsym s)
    (symtab_start s) (dynsym_start s) (strtab_start s) (symtab_count s)
    (symstr_offset_for_symtab s) (nbucket_ s) (bucket_ s) (chain_ s) (gnu_nbucket_ s)
    (gnu_symndx_ s) (gnu_bloom_size_ s) (gnu_shift2_ s) (gnu_bloom_filter_ s) (gnu_bucket_ s)
    (gnu_chain_ s) (symtabs_ s).
Definition set_hash (n b c : Z) (s : ElfImg) : ElfImg :=
  mkElf (elf s) (base s) (size s) (bias s) (header s) (section_header s) (symtab s) (strtab s)
    (dynsym s) (symtab_start s) (dynsym_start s) (strtab_start s) (symtab_count s)
    (symstr_offset_for_symtab s) n (Some b) (Some c) (gnu_nbucket_ s) (gnu_symndx_ s)
    (gnu_bloom_size_ s) (gnu_shift2_ s) (gnu_bloom_filter_ s) (gnu_bucket_ s) (gnu_chain_ s)
    (symtabs_ s).
Definition set_gnu_hash (n x z sh f b c : Z) (s : ElfImg) : ElfImg :=
  mkElf (elf s) (base s) (size s) (bias s) (header s) (section_header s) (symtab s) (strtab s)
    (dynsym s) (symtab_start s) (dynsym_start s) (strtab_start s) (symtab_count s)
    (symstr_offset_for_symtab s) (nbucket_ s) (bucket_ s) (chain_ s) n x (Some z) (Some sh)
    (Some f) (Some b) (Some c) (symtabs_ s).
Definition set_symtabs (m : gmap bytes Z) (s : ElfImg) : ElfImg :=
  mkElf (elf s) (base s) (size s) (bias s) (header s) (section_header s) (symtab s) (strtab s)
    (dynsym s) (symtab_start s) (dynsym_start s) (strtab_start s) (symtab_count s)
    (symstr_offset_for_symtab s) (nbucket_ s) (bucket_ s) (chain_ s) (gnu_nbucket_ s)
    (gnu_symndx_ s) (gnu_bloom_size_ s) (gnu_shift2_ s) (gnu_bloom_filter_ s) (gnu_bucket_ s)
    (gnu_chain_ s) m.

(** ** The mapped file *)

(** [n] bytes at [off], if the mapping has them. *)
Definition read_at (f : bytes) (off : Z) (n : nat) : option Z :=
  if (0 <=? off) && (off + Z.of_nat n <=? Z.of_nat (length f))
  then Some (le_val (take n (drop (Z.to_nat off) f))) else None.

(** The C string at [off], if it ends inside the mapping. *)
Definition string_at (f : bytes) (off : Z) : option bytes :=
  if (0 <=? off) && (off <=? Z.of_nat (length f)) then
    let s := cstr (drop (Z.to_nat off) f) in
    if (length s <? length (drop (Z.to_nat off) f))%nat then Some s else None
  else None.

(** [strcmp(l, p) == 0], [None] when it runs out of the mapping first. *)
Fixpoint strcmp_eq (l p : bytes) : option bool :=
  match l, p with
  | [], _ => None
  | c :: _, [] => Some (bool_decide (c = NUL))
  | c :: l, d :: p => if bool_decide (c = d) then strcmp_eq l p else Some false
  end.

Section elf.
Context (lp64 : bool).

Definition word : nat := if lp64 then 8 else 4.
Abbreviation uptr := (wrapu (8 * Z.of_nat word)).

Definition deref (p : option Z) (off : Z) (n : nat) : prog ElfImg Z :=
  s ← get;
  match header s, p with
  | Some f, Some a => match read_at f (a + off) n with Some v => mret v | None => crash OutOfBounds end
  | _, _ => crash NullDeref
  end.

(** [Ehdr], [Shdr], [Sym]: a field by its offset in the 64-bit and in the 32-bit structure. *)
Definition ehdr (o64 o32 n : nat) : prog ElfImg Z :=
  deref (Some 0) (Z.of_nat (if lp64 then o64 else o32)) n.
Definition e_shoff : prog ElfImg Z := ehdr 40 32 word.
Definition e_shentsize : prog ElfImg Z := ehdr 58 46 2.
Definition e_shnum : prog ElfImg Z := ehdr 60 48 2.
Definition e_shstrndx : prog ElfImg Z := ehdr 62 50 2.

Definition shdr (h : Z) (o64 o32 n : nat) : prog ElfImg Z :=
  deref (Some h) (Z.of_nat (if lp64 then o64 else o32)) n.
Definition sh_name (h : Z) := shdr h 0 0 4.
Definition sh_type (h : Z) := shdr h 4 4 4.
Definition sh_addr (h : Z) := shdr h 16 12 word.
Definition sh_offset (h : Z) := shdr h 24 16 word.
Definition sh_size (h : Z) := shdr h 32 20 word.
Definition sh_entsize (h : Z) := shdr h 56 36 word.
Definition sizeof_Shdr : Z := if lp64 then 64 else 40.

Definition sizeof_Sym : Z := if lp64 then 24 else 16.
Definition sym (p : option Z) (i : Z) (o64 o32 n : nat) : prog ElfImg Z :=
  deref p (i * sizeof_Sym + Z.of_nat (if lp64 then o64 else o32)) n.
Definition st_name (p : option Z) (i : Z) := sym p i 0 0 4.
Definition st_info (p : option Z) (i : Z) := sym p i 4 12 1.
Definition st_value (p : option Z) (i : Z) := sym p i 8 4 word.
Definition st_size (p : option Z) (i : Z) := sym p i 16 8 word.

(** [std::string_view(p + off)] *)
Definition string_of (p : option Z) (off : Z) : prog ElfImg bytes :=
  s ← get;
  match header s, p with
  | Some f, Some a => match string_at f (a + off) with Some v => mret v | None => crash OutOfBounds end
  | _, _ => crash NullDeref
  end.

Definition strcmp (a : Z) (p : bytes) : prog ElfImg bool :=
  s ← get;
  match header s with
  | Some f =>
      match (if (0 <=? a) && (a <=? Z.of_nat (length f))
             then strcmp_eq (drop (Z.to_nat a) f) p else None) with
      | Some b => mret b
      | None => crash OutOfBounds
      end
  | None => crash NullDeref
  end.

(** ** The constructor *)

(** The callback over the loaded modules, each with its name (or null) and address. *)
Fixpoint findModuleBase_loop (mods : list (option bytes * Z)) (s : ElfImg) : ElfImg :=
  match mods with
  | [] => s
  | (None, _) :: mods => findModuleBase_loop mods s
  | (Some name, addr) :: mods =>
      if contains (elf s) name then set_module name addr s else findModuleBase_loop mods s
  end.

Definition findModuleBase (mods : list (option bytes * Z)) : prog ElfImg bool :=
  modify (findModuleBase_loop mods);;
  s ← get; mret (negb (base s =? 0)).

(** The body of the loop over the section headers, for the header at [h]. *)
Definition scan_section (section_str h : Z) : prog ElfImg unit :=
  name ← sh_name h;
  let sname := section_str + name in
  entsize ← sh_entsize h;
  type ← sh_type h;
  s ← get;
  if type =? SHT_DYNSYM then
    when (bias s =? NO_BIAS) (o ← sh_offset h; modify (set_dynsym h o))
  else if type =? SHT_SYMTAB then
    eq ← strcmp sname (txt ".symtab");
    when eq
      (o ← sh_offset h; n ← sh_size h;
       if entsize =? 0 then crash OutOfBounds else modify (set_symtab h o (n / entsize)))
  else if type =? SHT_STRTAB then
    when (bias s =? NO_BIAS) (o ← sh_offset h; modify (set_strtab h o));;
    eq ← strcmp sname (txt ".strtab");
    when eq (o ← sh_offset h; modify (set_symstr o))
  else if type =? SHT_PROGBITS then
    match strtab s, dynsym s with
    | Some _, Some _ =>
        when (bias s =? NO_BIAS)
          (a ← sh_addr h; o ← sh_offset h;
           modify (set_bias (wraps (8 * Z.of_nat word) (wraps (8 * Z.of_nat word) a - wraps (8 * Z.of_nat word) o))))
    | _, _ => mret tt
    end
  else if type =? SHT_HASH then
    o ← sh_offset h;
    n ← deref (Some o) 0 4;
    modify (set_hash n (o + 8) (o + 8 + 4 * n))
  else if type =? SHT_GNU_HASH then
    o ← sh_offset h;
    n ← deref (Some o) 0 4;
    x ← deref (Some o) 4 4;
    z ← deref (Some o) 8 4;
    sh ← deref (Some o) 12 4;
    let filter := o + 16 in
    let bucket := filter + Z.of_nat word * z in
    modify (set_gnu_hash n x z sh filter bucket (bucket + 4 * n - 4 * x))
  else mret tt.

Fixpoint scan_sections (n : nat) (section_str shoff : Z) : prog ElfImg unit :=
  match n with
  | O => mret tt
  | S n =>
      scan_section section_str shoff;;
      step ← e_shentsize;
      scan_sections n section_str (shoff + step)
  end.

(** [mods]: the loaded modules; [open]: the file a path names, if it can be opened. *)
Definition ctor (mods : list (option bytes * Z)) (open : bytes → option bytes) : prog ElfImg unit :=
  found ← findModuleBase mods;
  if negb found then modify (set_base 0)
  else
    s ← get;
    match open (elf s) with
    | None => mret tt
    | Some f =>
        (* an empty file cannot be mapped, and MAP_FAILED is used as a pointer *)
        if (length f =? 0)%nat then crash OutOfBounds
        else
          modify (set_mapping (Z.of_nat (length f)) f);;
          shoff ← e_shoff;
          modify (set_section_header shoff);;
          ndx ← e_shstrndx;
          section_str ← sh_offset (shoff + ndx * sizeof_Shdr);
          num ← e_shnum;
          scan_sections (Z.to_nat num) section_str shoff
    end.

Definition isValid (s : ElfImg) : bool := negb (base s =? 0).

(** The destructor, by the sizes it gives to [munmap]; [buffer] is never set. *)
Definition dtor (s : ElfImg) : list Z := match header s with Some _ => [size s] | None => [] end.

(** ** Look-up *)

Fixpoint elf_chain (fuel : nat) (name : bytes) (n : Z) : prog ElfImg Z :=
  match fuel with
  | O => no_fuel
  | S fuel =>
      if n =? 0 then mret 0
      else
        s ← get;
        off ← st_name (dynsym_start s) n;
        str ← string_of (strtab_start s) off;
        if bool_decide (name = str) then st_value (dynsym_start s) n
        else next ← deref (chain_ s) (4 * n) 4; elf_chain fuel name next
  end.

Definition ElfLookup (fuel : nat) (name : bytes) (hash : Z) : prog ElfImg Z :=
  s ← get;
  if nbucket_ s =? 0 then mret 0
  else n ← deref (bucket_ s) (4 * (hash mod nbucket_ s)) 4; elf_chain fuel name n.

(** The loop over a bucket; [sym_index] only grows, so that it leaves the mapping after as many
    rounds as the file has bytes. *)
Fixpoint gnu_chain (fuel : nat) (name : bytes) (hash sym_index : Z) : prog ElfImg Z :=
  match fuel with
  | O => no_fuel
  | S fuel =>
      s ← get;
      c ← deref (gnu_chain_ s) (4 * sym_index) 4;
      found ←
        (if (c ^^^ hash) >>> 1 =? 0 then
           off ← st_name (dynsym_start s) sym_index;
           str ← string_of (strtab_start s) off;
           mret (bool_decide (name = str))
         else mret false);
      if (found : bool) then st_value (dynsym_start s) sym_index
      else if c &&& 1 =? 0 then gnu_chain fuel name hash (u32 (sym_index + 1)) else mret 0
  end.

Definition bloom_mask_bits : Z := 8 * Z.of_nat word.

Definition bloom_mask (hash shift2 : Z) : Z :=
  (1 <<< (hash mod bloom_mask_bits)) ||| (1 <<< ((hash >>> shift2) mod bloom_mask_bits)).

Definition GnuLookup (name : bytes) (hash : Z) : prog ElfImg Z :=
  s ← get;
  if (gnu_nbucket_ s =? 0) then mret 0
  else
    match gnu_bloom_size_ s, gnu_shift2_ s with
    | Some size, Some shift2 =>
        if size =? 0 then mret 0
        else
          bloom_word ← deref (gnu_bloom_filter_ s) (Z.of_nat word * ((hash / bloom_mask_bits) mod size)) word;
          let mask := bloom_mask hash shift2 in
          if mask &&& bloom_word =? mask then
            sym_index ← deref (gnu_bucket_ s) (4 * (hash mod gnu_nbucket_ s)) 4;
            if gnu_symndx_ s <=? sym_index
            then gnu_chain (S (length (default [] (header s)))) name hash sym_index
            else mret 0
          else mret 0
    | _, _ => crash Uninit
    end.

(** [symtabs_.emplace] for the symbols from [i] on. *)
Fixpoint fill_symtabs (n : nat) (i : Z) : prog ElfImg unit :=
  match n with
  | O => mret tt
  | S n =>
      s ← get;
      info ← st_info (symtab_start s) i;
      off ← st_name (symtab_start s) i;
      len ← st_size (symtab_start s) i;
      when ((((info &&& 0xf) =? STT_FUNC) || ((info &&& 0xf) =? STT_OBJECT)) && negb (len =? 0))
        (str ← string_of (Some (symstr_offset_for_symtab s)) off;
         modify (λ s, match symtabs_ s !! str with
                      | Some _ => s
                      | None => set_symtabs (<[str := i]> (symtabs_ s)) s
                      end));;
      fill_symtabs n (i + 1)
  end.

Definition LinearLookup (name : bytes) : prog ElfImg Z :=
  s ← get;
  when (bool_decide (symtabs_ s = ∅))
    (match symtab_start s with
     | Some _ => when (negb (symstr_offset_for_symtab s =? 0)) (fill_symtabs (Z.to_nat (symtab_count s)) 0)
     | None => mret tt
     end);;
  s ← get;
  match symtabs_ s !! name with
  | Some i => st_value (symtab_start s) i
  | None => mret 0
  end.

Definition getSymbOffset (fuel : nat) (name : bytes) (gnu_hash elf_hash : Z) : prog ElfImg Z :=
  offset ← GnuLookup name gnu_hash;
  if 0 <? offset then mret offset
  else
    offset ← ElfLookup fuel name elf_hash;
    if 0 <? offset then mret offset
    else
      offset ← LinearLookup name;
      if 0 <? offset then mret offset else mret 0.

Definition getSymbAddress (fuel : nat) (name : bytes) : prog ElfImg Z :=
  offset ← getSymbOffset fuel name (GnuHash name) (ElfHash name);
  s ← get;
  if (0 <? offset) && negb (base s =? 0) then mret (uptr (base s + offset - bias s)) else mret 0.
End elf.

(** ** The hash functions, against their usual definitions *)

Lemma gnu_hash_step_eq h p : gnu_hash_step h p = (h * 33 + Z_of_byte p) mod 2 ^ 32.
Proof.
  unfold gnu_hash_step, wrapu. rewrite Z.shiftl_mul_pow2 by lia.
  rewrite Z.add_mod_idemp_r, Z.add_assoc by lia.
  rewrite (Z.add_comm h), <- (Z.add_assoc (_ mod _)), Z.add_mod_idemp_l by lia. f_equal. lia.
Qed.

Lemma GnuHash_range name : 0 <= GnuHash name < 2 ^ 32.
Proof.
  unfold GnuHash. induction name as [|c name IH] using rev_ind; [simpl; lia|].
  rewrite foldl_app. cbn [foldl]. apply Z.mod_pos_bound. lia.
Qed.

Lemma testbit_out n x i : 0 <= n <= i → 0 <= x < 2 ^ n → Z.testbit x i = false.
Proof.
  intros Hi Hx. destruct (decide (x = 0)) as [->|]; [apply Z.testbit_0_l|].
  apply Z.bits_above_log2; [lia|]. apply Z.lt_le_trans with n; [|lia]. apply Z.log2_lt_pow2; lia.
Qed.

Lemma range_testbit n x : 0 <= n → 0 <= x → (∀ i, n <= i → Z.testbit x i = false) → x < 2 ^ n.
Proof.
  intros Hn Hx H. destruct (decide (x = 0)) as [->|]; [by apply Z.pow_pos_nonneg|].
  destruct (Z.lt_ge_cases x (2 ^ n)) as [|Hge]; [done|]. exfalso.
  apply Z.log2_le_pow2 in Hge; [|lia]. specialize (H _ Hge). rewrite Z.bit_log2 in H by lia. done.
Qed.

(** The four top bits are folded back. *)
Lemma elf_hash_step_range h p : 0 <= h < 2 ^ 28 → 0 <= elf_hash_step h p < 2 ^ 28.
Proof.
  intros Hh. unfold elf_hash_step. set (k := u32 (u32 (h <<< 4) + Z_of_byte p)).
  assert (0 <= k < 2 ^ 32) as Hk by (apply wrapu_range; lia).
  set (g := k &&& 0xf0000000). assert (0 <= g) as Hg by (apply Z.land_nonneg; lia).
  assert (0 <= g >>> 24) as Hs by (by apply Z.shiftr_nonneg).
  assert (0 <= (k ^^^ g) ^^^ (g >>> 24)) as H0.
  { apply Z.lxor_nonneg. split; intros; [done|]. apply Z.lxor_nonneg. split; intros; [done | lia]. }
  split; [done|]. apply range_testbit; [lia | done |]. intros i Hi.
  rewrite !Z.lxor_spec, Z.shiftr_spec by lia. unfold g.
  rewrite !Z.land_spec. destruct (Z.le_gt_cases 32 i).
  - rewrite (testbit_out 32 k i), (testbit_out 32 k (i + 24)) by lia. done.
  - rewrite (testbit_out 32 k (i + 24)) by lia.
    assert (i = 28 ∨ i = 29 ∨ i = 30 ∨ i = 31) as [-> | [-> | [-> | ->]]] by lia;
      destruct (Z.testbit k _); done.
Qed.

Lemma ElfHash_range name : 0 <= ElfHash name < 2 ^ 28.
Proof.
  unfold ElfHash. induction name as [|c name IH] using rev_ind; [simpl; lia|].
  rewrite foldl_app. cbn [foldl]. by apply elf_hash_step_range.
Qed.

(** ** Well-formed symbol tables *)

(** A read that succeeds and changes nothing. *)
Definition Yields {A} (p : prog ElfImg A) (s : ElfImg) (v : A) : Prop := p s = (Ret v, s).

Section tables.
Context (lp64 : bool).

(** Entry [i] of the dynamic symbol table. *)
Definition dyn_entry (s : ElfImg) (i : Z) (name : bytes) (value : Z) : Prop :=
  Yields (st_value lp64 (dynsym_start s) i) s value ∧
  ∃ off, Yields (st_name lp64 (dynsym_start s) i) s off ∧ Yields (string_of (strtab_start s) off) s name.

(** The reference: the value of the first symbol of that name. *)
Definition dyn_find (syms : list (bytes * Z)) (name : bytes) : Z :=
  match list_find (λ e, e.1 = name) syms with Some (_, (_, v)) => v | None => 0 end.

(** The bucket of symbol [i]. *)
Definition in_bucket (hash : bytes → Z) (nbucket b : Z) (syms : list (bytes * Z)) (i : nat) : Prop :=
  ∃ name v, syms !! i = Some (name, v) ∧ hash name mod nbucket = b.

(** A GNU hash table as the format specification describes it: the hashed symbols, from
    [gnu_symndx_] on, are sorted by bucket; a bucket names its first symbol; the chain holds the
    hashes, the lowest bit marking the end of a bucket; the filter knows every hash. *)
Record gnu_table (s : ElfImg) (syms : list (bytes * Z)) : Prop := {
  gt_nbucket : 0 < gnu_nbucket_ s;
  gt_symndx : 0 < gnu_symndx_ s;
  gt_count : Z.of_nat (length syms) < 2 ^ 32;
  gt_entries : ∀ i name v, syms !! i = Some (name, v) → dyn_entry s (Z.of_nat i) name v;
  gt_bloom : ∃ size shift2,
    gnu_bloom_size_ s = Some size ∧ 0 < size ∧ gnu_shift2_ s = Some shift2 ∧ 0 <= shift2 < 32 ∧
    ∀ j, 0 <= j < size → ∃ w,
      Yields (deref (gnu_bloom_filter_ s) (Z.of_nat (word lp64) * j) (word lp64)) s w ∧
      ∀ i name v, gnu_symndx_ s <= Z.of_nat i → syms !! i = Some (name, v) →
        (GnuHash name / bloom_mask_bits lp64) mod size = j →
        bloom_mask lp64 (GnuHash name) shift2 &&& w = bloom_mask lp64 (GnuHash name) shift2;
  gt_buckets : ∀ b, 0 <= b < gnu_nbucket_ s →
    (Yields (deref (gnu_bucket_ s) (4 * b) 4) s 0 ∧
     ∀ i, gnu_symndx_ s <= Z.of_nat i → ¬ in_bucket GnuHash (gnu_nbucket_ s) b syms i) ∨
    ∃ lo hi : nat,
      Yields (deref (gnu_bucket_ s) (4 * b) 4) s (Z.of_nat lo) ∧
      gnu_symndx_ s <= Z.of_nat lo ∧ (lo <= hi < length syms)%nat ∧
      (∀ i, gnu_symndx_ s <= Z.of_nat i → in_bucket GnuHash (gnu_nbucket_ s) b syms i → (lo <= i <= hi)%nat) ∧
      ∀ i name v, (lo <= i <= hi)%nat → syms !! i = Some (name, v) → ∃ c,
        Yields (deref (gnu_chain_ s) (4 * Z.of_nat i) 4) s c ∧
        (c ^^^ GnuHash name) >>> 1 = 0 ∧ (c &&& 1 =? 0) = negb (i =? hi)%nat
}.

(** ** Searching *)

Lemma dyn_find_None syms name :
  (∀ i v, syms !! i ≠ Some (name, v)) → dyn_find syms name = 0.
Proof.
  intros H. unfold dyn_find. destruct (list_find _ syms) as [[i [n v]]|] eqn:E; [|done].
  apply list_find_Some in E as (E & Hn & _). simpl in Hn. subst. by apply H in E.
Qed.

Lemma dyn_find_Some syms name i v :
  syms !! i = Some (name, v) → (∀ j w, (j < i)%nat → syms !! j ≠ Some (name, w)) →
  dyn_find syms name = v.
Proof.
  intros Hi Hj. unfold dyn_find.
  assert (list_find (λ e : bytes * Z, e.1 = name) syms = Some (i, (name, v))) as ->; [|done].
  apply list_find_Some. split_and!; [done | done |]. intros j [n w] E Hlt. simpl. intros ->.
  by eapply Hj.
Qed.

Lemma deref_len p off n s v :
  Yields (deref p off n) s v →
  ∃ a f, p = Some a ∧ header s = Some f ∧ 0 <= a + off ∧ a + off + Z.of_nat n <= Z.of_nat (length f).
Proof.
  unfold Yields, deref. unfold mbind at 1, prog_bind, get. simpl.
  destruct (header s) as [f|]; [|done]. destruct p as [a|]; [|done].
  unfold read_at. destruct (_ && _) eqn:E; [|done]. intros _. bool_to_prop. eauto 10.
Qed.

Lemma yields_step {A B} (p : prog ElfImg A) (f : A → prog ElfImg B) s v :
  Yields p s v → (p ≫= f) s = f v s.
Proof. apply bind_run. Qed.

Lemma chain_mismatch c a b : (c ^^^ a) >>> 1 = 0 → (c ^^^ b) >>> 1 ≠ 0 → a ≠ b.
Proof. congruence. Qed.

Lemma gnu_chain_run s syms name b lo hi :
  gnu_table s syms → b = GnuHash name mod gnu_nbucket_ s →
  (hi < length syms)%nat →
  (∀ i n v, (lo <= i <= hi)%nat → syms !! i = Some (n, v) → ∃ c,
        Yields (deref (gnu_chain_ s) (4 * Z.of_nat i) 4) s c ∧
        (c ^^^ GnuHash n) >>> 1 = 0 ∧ (c &&& 1 =? 0) = negb (i =? hi)%nat) →
  ∀ fuel i, (lo <= i <= hi)%nat → (hi - i < fuel)%nat →
  gnu_chain lp64 fuel name (GnuHash name) (Z.of_nat i) s =
  (Ret (dyn_find (drop i (take (S hi) syms)) name), s).
Proof.
  intros Ht -> Hhi Hch fuel. induction fuel as [|fuel IH]; intros i Hi Hf; [lia|].
  destruct (lookup_lt_is_Some_2 syms i ltac:(lia)) as [[n v] Hn].
  destruct (Hch i n v Hi Hn) as (c & Hc & Hx & Hlast).
  destruct (gt_entries _ _ Ht i n v Hn) as (Hv & off & Ho & Hs).
  assert (drop i (take (S hi) syms) = (n, v) :: drop (S i) (take (S hi) syms)) as Hd.
  { apply drop_S. rewrite lookup_take_lt by lia. done. }
  cbn [gnu_chain]. step. rewrite (yields_step _ _ _ _ Hc). rewrite Hd.
  assert ((if (c ^^^ GnuHash name) >>> 1 =? 0
           then off ← st_name lp64 (dynsym_start s) (Z.of_nat i);
                str ← string_of (strtab_start s) off; mret (bool_decide (name = str))
           else mret false) s = (Ret (bool_decide (name = n)), s)) as E.
  { destruct (_ >>> 1 =? 0) eqn:E; bool_to_prop.
    - rewrite (yields_step _ _ _ _ Ho), (yields_step _ _ _ _ Hs). done.
    - rewrite bool_decide_eq_false_2; [done|]. intros ->. congruence. }
  step_with E. unfold dyn_find. cbn [list_find].
  case_bool_decide as Hname.
  - rewrite decide_True by done. exact Hv.
  - rewrite decide_False by (simpl; congruence). rewrite Hlast.
    destruct (i =? hi)%nat eqn:Ei; cbn [negb].
    + apply Nat.eqb_eq in Ei as ->. rewrite drop_ge by (rewrite length_take; lia). done.
    + apply Nat.eqb_neq in Ei. pose proof (gt_count _ _ Ht).
      rewrite wrapu_small by lia. replace (Z.of_nat i + 1) with (Z.of_nat (S i)) by lia.
      rewrite IH by lia. unfold dyn_find. by destruct (list_find _ (drop (S i) _)) as [[? [? ?]]|].
Qed.
(** Names that only occur in a window are found by searching the window. *)
Lemma dyn_find_window syms name k lo hi :
  (k <= lo)%nat →
  (∀ i v, (k <= i)%nat → syms !! i = Some (name, v) → (lo <= i <= hi)%nat) →
  dyn_find (drop k syms) name = dyn_find (drop lo (take (S hi) syms)) name.
Proof.
  intros Hk Hw. unfold dyn_find at 2.
  assert (∀ j, drop lo (take (S hi) syms) !! j = if decide (lo + j <= hi)%nat then syms !! (lo + j)%nat else None) as Hl.
  { intros j. rewrite lookup_drop. destruct (decide _); [by rewrite lookup_take_lt by lia |
      rewrite lookup_take_ge by lia; done]. }
  destruct (list_find _ (drop lo _)) as [[j [n v]]|] eqn:E.
  - apply list_find_Some in E as (E & Hn & Hlt). simpl in Hn. subst n.
    rewrite Hl in E. destruct (decide _); [|done].
    apply (dyn_find_Some _ _ (lo + j - k)).
    + rewrite lookup_drop. replace (k + (lo + j - k))%nat with (lo + j)%nat by lia. done.
    + intros m w Hm Hs. rewrite lookup_drop in Hs. destruct (Hw (k + m)%nat w ltac:(lia) Hs).
      apply (Hlt (k + m - lo)%nat (name, w)); [|lia|done]. rewrite Hl.
      rewrite decide_True by lia. by replace (lo + (k + m - lo))%nat with (k + m)%nat by lia.
  - apply list_find_None in E. apply dyn_find_None. intros i v Hs. rewrite lookup_drop in Hs.
    destruct (Hw (k + i)%nat v ltac:(lia) Hs).
    rewrite list.Forall_forall in E. apply (E (name, v)); [|done].
    apply (list_elem_of_lookup_2 _ (k + i - lo)). rewrite Hl, decide_True by lia.
    by replace (lo + (k + i - lo))%nat with (k + i)%nat by lia.
Qed.

(** A look-up in a well-formed table. *)
Lemma GnuLookup_run s syms name :
  gnu_table s syms →
  GnuLookup lp64 name (GnuHash name) s =
  (Ret (dyn_find (drop (Z.to_nat (gnu_symndx_ s)) syms) name), s).
Proof.
  intros Ht. pose proof (gt_nbucket _ _ Ht) as Hnb. pose proof (gt_symndx _ _ Ht) as Hx.
  destruct (gt_bloom _ _ Ht) as (size & shift2 & Hz & Hz0 & Hsh & _ & Hb).
  unfold GnuLookup. step. rewrite (proj2 (Z.eqb_neq _ _)), Hz, Hsh, (proj2 (Z.eqb_neq _ _)) by lia.
  destruct (Hb ((GnuHash name / bloom_mask_bits lp64) mod size)) as (w & Hw & Hbits);
    [apply Z.mod_pos_bound; lia|].
  rewrite (yields_step _ _ _ _ Hw).
  destruct (_ =? _) eqn:Em; bool_to_prop.
  2: { unfold mret, prog_ret. f_equal. f_equal. symmetry. apply dyn_find_None.
       intros i v Hi. rewrite lookup_drop in Hi. apply Em. eapply (Hbits _ name v); [|exact Hi|done]. lia. }
  destruct (gt_buckets _ _ Ht (GnuHash name mod gnu_nbucket_ s)) as [[Hy Hno]|(lo & hi & Hy & Hlo & Hhi & Hin & Hch)];
    [apply Z.mod_pos_bound; lia | |]; rewrite (yields_step _ _ _ _ Hy).
  - rewrite (proj2 (Z.leb_gt _ _)) by lia. unfold mret, prog_ret. f_equal. f_equal. symmetry.
    apply dyn_find_None. intros i v Hi. rewrite lookup_drop in Hi.
    eapply Hno; [|by exists name, v]. lia.
  - rewrite (proj2 (Z.leb_le _ _)) by lia.
    assert (hi - lo < S (length (default [] (header s))))%nat as Hf.
    { destruct (lookup_lt_is_Some_2 syms lo ltac:(lia)) as [[n1 v1] H1].
      destruct (lookup_lt_is_Some_2 syms hi ltac:(lia)) as [[n2 v2] H2].
      destruct (Hch lo n1 v1 ltac:(lia) H1) as (c1 & (a & f & Ea & Ef & Hge & _)%deref_len & _).
      destruct (Hch hi n2 v2 ltac:(lia) H2) as (c2 & (a' & f' & Ea' & Ef' & _ & Hle)%deref_len & _).
      rewrite Ef. simpl. rewrite Ea in Ea'. rewrite Ef in Ef'. injection Ea' as <-. injection Ef' as <-. lia. }
    rewrite (gnu_chain_run s syms name _ lo hi Ht eq_refl) by (done || lia).
    f_equal. f_equal. symmetry. apply dyn_find_window; [lia|]. intros i v Hi Hs.
    apply Hin; [lia|]. by exists name, v.
Qed.
(** ** The System V table *)

(** [l] are the symbols on the chain that starts at [n]. *)
Fixpoint on_chain (s : ElfImg) (l : list nat) (n : Z) : Prop :=
  match l with
  | [] => n = 0
  | i :: l => n = Z.of_nat i ∧ (0 < i)%nat ∧
              ∃ next, Yields (deref (chain_ s) (4 * n) 4) s next ∧ on_chain s l next
  end.

(** Every symbol but the first, which is reserved, is on the chain of its bucket. *)
Record elf_table (s : ElfImg) (syms : list (bytes * Z)) : Prop := {
  et_nbucket : 0 < nbucket_ s;
  et_entries : ∀ i name v, syms !! i = Some (name, v) → dyn_entry s (Z.of_nat i) name v;
  et_names : NoDup (syms.*1);
  et_buckets : ∀ b, 0 <= b < nbucket_ s → ∃ l n,
    Yields (deref (bucket_ s) (4 * b) 4) s n ∧ on_chain s l n ∧ (length l <= length syms)%nat ∧
    (∀ i, i ∈ l → (i < length syms)%nat) ∧
    ∀ i, (0 < i)%nat → in_bucket ElfHash (nbucket_ s) b syms i → i ∈ l
}.

Lemma elf_chain_run s syms name :
  elf_table s syms → ∀ l fuel n,
  on_chain s l n → (length l < fuel)%nat → (∀ i, i ∈ l → (i < length syms)%nat) →
  (∀ i v, (0 < i)%nat → syms !! i = Some (name, v) → i ∈ l) →
  elf_chain lp64 fuel name n s = (Ret (dyn_find (drop 1 syms) name), s).
Proof.
  intros Ht l. induction l as [|i l IH]; intros fuel n Hc Hf Hlt Hin; (destruct fuel as [|fuel]; [simpl in Hf; lia|]).
  - simpl in Hc. subst. cbn [elf_chain Z.eqb]. unfold mret, prog_ret. do 2 f_equal. symmetry.
    apply dyn_find_None. intros j v Hj. rewrite lookup_drop in Hj.
    by apply Hin in Hj as ?%not_elem_of_nil; [|lia].
  - destruct Hc as (-> & H0 & next & Hnext & Hc). cbn [elf_chain].
    rewrite (proj2 (Z.eqb_neq _ _)) by lia. step.
    destruct (lookup_lt_is_Some_2 syms i) as [[m v] Hm]; [apply Hlt; by left|].
    destruct (et_entries _ _ Ht i m v Hm) as (Hv & off & Ho & Hs).
    rewrite (yields_step _ _ _ _ Ho), (yields_step _ _ _ _ Hs). case_bool_decide as Hname.
    + subst m. rewrite Hv. do 2 f_equal. symmetry. apply (dyn_find_Some _ _ (i - 1)).
      * rewrite lookup_drop. by replace (1 + (i - 1))%nat with i by lia.
      * intros j w Hj Hw. rewrite lookup_drop in Hw. pose proof (et_names _ _ Ht) as Hnd.
        assert ((1 + j)%nat = i); [|lia].
        eapply (NoDup_lookup _ _ _ name Hnd); rewrite list_lookup_fmap, ?Hw, ?Hm; done.
    + rewrite (yields_step _ _ _ _ Hnext). apply IH; [done | simpl in Hf; lia | |].
      * intros. apply Hlt. by right.
      * intros j w Hj Hw. pose proof (Hin j w Hj Hw) as [->|?]%elem_of_cons; [|done]. congruence.
Qed.

Lemma ElfLookup_run s syms name fuel :
  elf_table s syms → (length syms < fuel)%nat →
  ElfLookup lp64 fuel name (ElfHash name) s = (Ret (dyn_find (drop 1 syms) name), s).
Proof.
  intros Ht Hf. pose proof (et_nbucket _ _ Ht). unfold ElfLookup. step.
  rewrite (proj2 (Z.eqb_neq _ _)) by lia.
  destruct (et_buckets _ _ Ht (ElfHash name mod nbucket_ s)) as (l & n & Hy & Hc & Hlen & Hlt & Hin);
    [apply Z.mod_pos_bound; lia|].
  rewrite (yields_step _ _ _ _ Hy). apply (elf_chain_run s syms name Ht l); [done | lia | done |].
  intros i v Hi Hs. apply Hin; [done|]. by exists name, v.
Qed.

(** ** The linear pass *)

(** What the linear pass takes from a symbol: its type, name, value and size. *)
Record tab_sym : Type := mkTab { ts_info : Z; ts_name : bytes; ts_value : Z; ts_size : Z }.

Definition defined (t : tab_sym) : bool :=
  ((ts_info t &&& 0xf =? STT_FUNC) || (ts_info t &&& 0xf =? STT_OBJECT)) && negb (ts_size t =? 0).

(** The first function or object of that name with a size. *)
Definition tab_find (tabs : list tab_sym) (name : bytes) : Z :=
  match list_find (λ t, defined t = true ∧ ts_name t = name) tabs with
  | Some (_, t) => ts_value t
  | None => 0
  end.

Record symtab_ok (s : ElfImg) (tabs : list tab_sym) : Prop := {
  so_start : is_Some (symtab_start s);
  so_count : symtab_count s = Z.of_nat (length tabs);
  so_str : symstr_offset_for_symtab s ≠ 0;
  so_entries : ∀ i t, tabs !! i = Some t →
    Yields (st_info lp64 (symtab_start s) (Z.of_nat i)) s (ts_info t) ∧
    Yields (st_value lp64 (symtab_start s) (Z.of_nat i)) s (ts_value t) ∧
    Yields (st_size lp64 (symtab_start s) (Z.of_nat i)) s (ts_size t) ∧
    ∃ off, Yields (st_name lp64 (symtab_start s) (Z.of_nat i)) s off ∧
           Yields (string_of (Some (symstr_offset_for_symtab s)) off) s (ts_name t)
}.

(** The cache after the pass over [tabs], the first of which has index [i]. *)
Fixpoint fill (tabs : list tab_sym) (i : Z) (m : gmap bytes Z) : gmap bytes Z :=
  match tabs with
  | [] => m
  | t :: tabs =>
      fill tabs (i + 1)
        (if defined t then match m !! ts_name t with Some _ => m | None => <[ts_name t := i]> m end else m)
  end.

Lemma deref_cache p off n s m v :
  Yields (deref p off n) s v → Yields (deref p off n) (set_symtabs m s) v.
Proof.
  unfold Yields, deref, mbind, prog_bind, get, mret, prog_ret, crash. simpl.
  destruct (header s) as [f|]; [|done]. destruct p as [a|]; [|done].
  destruct (read_at _ _ _); congruence.
Qed.

Lemma string_cache p off s m v :
  Yields (string_of p off) s v → Yields (string_of p off) (set_symtabs m s) v.
Proof.
  unfold Yields, string_of, mbind, prog_bind, get, mret, prog_ret, crash. simpl.
  destruct (header s) as [f|]; [|done]. destruct p as [a|]; [|done].
  destruct (string_at _ _); congruence.
Qed.

(** The cache is not part of what the tables are read from. *)
Lemma symtab_ok_cache s tabs m : symtab_ok s tabs → symtab_ok (set_symtabs m s) tabs.
Proof.
  intros []. constructor; [done..|]. intros i t Ht.
  destruct (so_entries0 i t Ht) as (H1 & H2 & H3 & off & H4 & H5).
  split_and!; [by apply deref_cache..|]. exists off. split; [by apply deref_cache | by apply string_cache].
Qed.

Lemma fill_symtabs_run tabs n i s m :
  symtab_ok s tabs → (i + n = length tabs)%nat →
  fill_symtabs lp64 n (Z.of_nat i) (set_symtabs m s) =
  (Ret tt, set_symtabs (fill (drop i tabs) (Z.of_nat i) m) s).
Proof.
  intros Hs. revert i m. induction n as [|n IH]; intros i m Hi.
  - rewrite drop_ge by lia. done.
  - destruct (lookup_lt_is_Some_2 tabs i ltac:(lia)) as [t Ht].
    rewrite (drop_S _ _ _ Ht). cbn [fill_symtabs fill]. step.
    destruct (so_entries _ _ (symtab_ok_cache s tabs m Hs) i t Ht) as (H1 & _ & H3 & off & H4 & H5).
    rewrite (yields_step _ _ _ _ H1), (yields_step _ _ _ _ H4), (yields_step _ _ _ _ H3).
    fold (defined t). replace (Z.of_nat i + 1) with (Z.of_nat (S i)) by lia.
    destruct (defined t); cbn [when]; [|step; apply IH; lia].
    rewrite prog_bind_assoc, (yields_step _ _ _ _ H5). step.
    cbn [symtabs_ set_symtabs]. destruct (m !! ts_name t); apply IH; lia.
Qed.

Lemma fill_lookup tabs i m name :
  fill tabs i m !! name =
  match m !! name with
  | Some x => Some x
  | None => (λ p, i + Z.of_nat p.1) <$> list_find (λ t, defined t = true ∧ ts_name t = name) tabs
  end.
Proof.
  revert i m. induction tabs as [|t tabs IH]; intros i m; cbn [fill list_find].
  - by destruct (m !! name).
  - rewrite IH. destruct (decide (defined t = true ∧ ts_name t = name)) as [[Hd Hn]|Hno].
    + rewrite Hd, Hn. destruct (m !! name) as [x|] eqn:E; [by rewrite E|].
      rewrite lookup_insert_eq. simpl. f_equal. lia.
    + assert ((if defined t then match m !! ts_name t with Some _ => m | None => <[ts_name t := i]> m end else m)
               !! name = m !! name) as ->.
      { destruct (defined t) eqn:Hd; [|done]. destruct (m !! ts_name t) eqn:E; [done|].
        apply lookup_insert_ne. naive_solver. }
      destruct (m !! name); [done|]. destruct (list_find _ tabs) as [[j u]|]; simpl; [f_equal; lia | done].
Qed.

(** The first look-up fills the cache; the image that it leaves behind answers every look-up
    the same way. *)
Lemma LinearLookup_run s tabs name :
  symtab_ok s tabs → symtabs_ s = ∅ ∨ symtabs_ s = fill tabs 0 ∅ →
  LinearLookup lp64 name s = (Ret (tab_find tabs name), set_symtabs (fill tabs 0 ∅) s).
Proof.
  intros Hs Hm. destruct (so_start _ _ Hs) as [p Hp].
  pose proof (so_count _ _ Hs) as Hcount. pose proof (so_str _ _ Hs) as Hstr.
  unfold LinearLookup. step.
  assert (when (bool_decide (symtabs_ s = ∅))
    (match symtab_start s with
     | Some _ => when (negb (symstr_offset_for_symtab s =? 0)) (fill_symtabs lp64 (Z.to_nat (symtab_count s)) 0)
     | None => mret tt
     end) s = (Ret tt, set_symtabs (fill tabs 0 ∅) s)) as E.
  { case_bool_decide as He; cbn [when].
    - rewrite Hp, (proj2 (Z.eqb_neq _ _) Hstr). cbn [negb when]. rewrite Hcount, Nat2Z.id.
      replace s with (set_symtabs ∅ s) at 1 by (rewrite <- He; by destruct s).
      exact (fill_symtabs_run tabs (length tabs) 0 s ∅ Hs eq_refl).
    - destruct Hm as [|Hm]; [done|]. rewrite <- Hm. by destruct s. }
  step_with E. step. cbn [symtabs_ set_symtabs symtab_start]. rewrite fill_lookup, lookup_empty.
  unfold tab_find. destruct (list_find _ tabs) as [[j t]|] eqn:Ef; [|done].
  apply list_find_Some in Ef as (Ht & _ & _). rewrite fmap_Some_2 with (x := (j, t)) by done.
  cbn [fst]. rewrite Z.add_0_l.
  destruct (so_entries _ _ (symtab_ok_cache s tabs (fill tabs 0 ∅) Hs) j t Ht) as (_ & Hv & _). exact Hv.
Qed.
(** ** Termination *)

Lemma deref_outcome p off n s :
  (∃ v, deref p off n s = (Ret v, s)) ∨ (∃ w, deref p off n s = (Crash w, s)).
Proof.
  unfold deref, mbind, prog_bind, get, crash. simpl. destruct (header s); [|eauto].
  destruct p; [|eauto]. destruct (read_at _ _ _); [left; eauto | eauto].
Qed.

Lemma deref_halts p off n s : Halts (deref p off n) s.
Proof. destruct (deref_outcome p off n s) as [[v E]|[w E]]; by eapply halts_pure. Qed.

Lemma string_of_halts p off s : Halts (string_of p off) s.
Proof.
  unfold string_of. walk_halts.
Qed.

Lemma deref_same p off n s v s' : deref p off n s = (Ret v, s') → s' = s.
Proof. destruct (deref_outcome p off n s) as [[? E]|[? E]]; rewrite E; congruence. Qed.

Lemma string_of_same p off s v s' : string_of p off s = (Ret v, s') → s' = s.
Proof.
  unfold string_of, mbind, prog_bind, get, mret, prog_ret, crash. simpl.
  destruct (header s); [|done]. destruct p; [|done]. destruct (string_at _ _); congruence.
Qed.

Lemma deref_crash_halts {B} p off n (g : Z → prog ElfImg B) s w :
  deref p off n s = (Crash w, s) → Halts (deref p off n ≫= g) s.
Proof. intros E. apply halts_bind; [by eapply halts_pure|]. intros v s'. by rewrite E. Qed.

Lemma deref_before p off n s a f :
  header s = Some f → p = Some a → a + off < 0 → deref p off n s = (Crash OutOfBounds, s).
Proof.
  intros Hf -> Hlt. unfold deref. step. rewrite Hf. unfold read_at.
  by rewrite (proj2 (Z.leb_gt 0 (a + off)) Hlt).
Qed.

(** The index grows until the chain ends or the mapping does; it cannot wrap around inside of
    a mapping of less than 16 GiB. *)
Lemma gnu_chain_halts fuel name hash i s f a :
  header s = Some f → gnu_chain_ s = Some a → Z.of_nat (length f) < 2 ^ 34 →
  0 <= i < 2 ^ 32 → Z.of_nat (length f) - (a + 4 * i) < 4 * Z.of_nat fuel → (0 < fuel)%nat →
  Halts (gnu_chain lp64 fuel name hash i) s.
Proof.
  intros Hf Ha Hlen. revert i. induction fuel as [|fuel IH]; intros i Hi Hfuel Hpos; [lia|].
  cbn [gnu_chain]. apply halts_get_bind. apply halts_bind; [apply deref_halts|]. intros c s' E.
  pose proof (deref_same _ _ _ _ _ _ E) as ->.
  destruct (deref_len _ _ _ _ _ E) as (a' & f' & Ea & Ef & Hge & Hle).
  rewrite Ha in Ea. rewrite Hf in Ef. injection Ea as <-. injection Ef as <-.
  apply halts_bind.
  - walk_halts; [apply deref_halts | apply string_of_halts].
  - intros found s' E'. assert (s' = s) as ->.
    { destruct (_ =? 0); [|by injection E' as _ <-]. apply bind_inv in E' as (off & s1 & E1 & E2).
      apply deref_same in E1 as ->. apply bind_inv in E2 as (str & s2 & E2 & E3).
      apply string_of_same in E2 as ->. unfold mret, prog_ret in E3. congruence. }
    walk_halts; [apply deref_halts|].
    destruct (Z.eq_dec (i + 1) (2 ^ 32)) as [Ei|].
    + rewrite Ei. destruct fuel as [|fuel]; [lia|]. change (u32 (2 ^ 32)) with 0. cbn [gnu_chain].
      apply halts_get_bind. eapply deref_crash_halts, deref_before; [done..|lia].
    + rewrite wrapu_small by lia. apply IH; lia.
Qed.

Lemma read_at_nonneg f off n v : read_at f off n = Some v → 0 <= v < 256 ^ Z.of_nat n.
Proof.
  unfold read_at. destruct (_ && _) eqn:E; [|done]. intros [= <-]. bool_to_prop.
  pose proof (le_val_range (take n (drop (Z.to_nat off) f))) as Hr.
  rewrite length_take, length_drop in Hr. rewrite Nat.min_l in Hr by lia. lia.
Qed.

Lemma deref_range p off n s v s' : deref p off n s = (Ret v, s') → 0 <= v < 256 ^ Z.of_nat n.
Proof.
  unfold deref, mbind, prog_bind, get, mret, prog_ret, crash. simpl. destruct (header s) as [f|]; [|done].
  destruct p as [a|]; [|done]. destruct (read_at _ _ _) eqn:E; [|done]. intros [= <- _].
  by eapply read_at_nonneg.
Qed.

(** [GnuLookup] terminates on every image, however malformed its hash table is, as long as the
    file has less than 16 GiB: the search leaves the mapping, and with it the process, after as
    many rounds as the file has bytes, or returns before. *)
Theorem GnuLookup_terminates s f name hash :
  header s = Some f → Z.of_nat (length f) < 2 ^ 34 → (GnuLookup lp64 name hash s).1 ≠ OutOfFuel.
Proof.
  intros Hf Hlen. change (Halts (GnuLookup lp64 name hash) s). unfold GnuLookup.
  apply halts_get_bind. destruct (_ =? 0); [by eapply halts_pure|].
  destruct (gnu_bloom_size_ s), (gnu_shift2_ s); try by eapply halts_pure.
  destruct (_ =? 0); [by eapply halts_pure|].
  apply halts_bind; [apply deref_halts|]. intros w s' ->%deref_same. walk_halts; [apply deref_halts|].
  match goal with H : deref _ _ _ s = _ |- _ => pose proof (deref_range _ _ _ _ _ _ H); apply deref_same in H as -> end.
  rewrite Hf. simpl default. destruct (gnu_chain_ s) as [c|] eqn:Ec.
  - destruct (Z.le_gt_cases 0 (c + 4 * a)).
    + eapply gnu_chain_halts; try done; lia.
    + cbn [gnu_chain]. apply halts_get_bind. eapply deref_crash_halts, deref_before; [done..|lia].
  - cbn [gnu_chain]. apply halts_get_bind. eapply deref_crash_halts.
    unfold deref. step. by rewrite Hf, Ec.
Qed.
(** ** Whole images *)

Lemma dyn_entry_cache s i name v m : dyn_entry s i name v → dyn_entry (set_symtabs m s) i name v.
Proof.
  intros (Hv & off & Ho & Hs). split; [by apply deref_cache|]. exists off.
  split; [by apply deref_cache | by apply string_cache].
Qed.

Lemma gnu_table_cache s syms m : gnu_table s syms → gnu_table (set_symtabs m s) syms.
Proof.
  intros [Hn Hx Hc He Hb Hk]. constructor; [done.. | | |].
  - intros. apply dyn_entry_cache. by apply He.
  - destruct Hb as (size & sh & H1 & H2 & H3 & H4 & Hb). exists size, sh. split_and!; try (done || lia).
    intros j Hj. destruct (Hb j Hj) as (w & Hw & ?). exists w. split; [by apply deref_cache | done].
  - intros b Hb'. destruct (Hk b Hb') as [[Hy ?]|(lo & hi & Hy & ? & ? & ? & Hch)]; [left | right].
    + split; [by apply deref_cache | done].
    + exists lo, hi. split; [by apply deref_cache|]. do 3 (split; [done|]).
      intros i name v Hi Hs. destruct (Hch i name v Hi Hs) as (c & Hy' & ?). exists c.
      split; [by apply deref_cache | done].
Qed.

Lemma on_chain_cache s l n m : on_chain s l n → on_chain (set_symtabs m s) l n.
Proof.
  revert n. induction l as [|i l IH]; intros n; [done|]. intros (-> & H0 & next & Hy & Hc).
  split_and!; [done | done |]. exists next. split; [by apply deref_cache | by apply IH].
Qed.

Lemma elf_table_cache s syms m : elf_table s syms → elf_table (set_symtabs m s) syms.
Proof.
  intros [Hn He Hd Hk]. constructor; [done | | done |].
  - intros. apply dyn_entry_cache. by apply He.
  - intros b Hb. destruct (Hk b Hb) as (l & n & Hy & Hc & ?). exists l, n.
    split_and!; [by apply deref_cache | by apply on_chain_cache | tauto..].
Qed.

(** An image each of whose tables is well formed or absent. *)
Record image (s : ElfImg) (syms : list (bytes * Z)) (tabs : list tab_sym) : Prop := {
  im_gnu : gnu_nbucket_ s = 0 ∨ gnu_table s syms;
  im_elf : nbucket_ s = 0 ∨ elf_table s syms;
  im_tab : (symtab_start s = None ∧ symtabs_ s = ∅) ∨
           (symtab_ok s tabs ∧ (symtabs_ s = ∅ ∨ symtabs_ s = fill tabs 0 ∅))
}.

(** The reference: the symbol in the hashed part of the dynamic table, in the rest of it, or in
    .symtab, whichever is found first. *)
Definition find_symbol (s : ElfImg) (syms : list (bytes * Z)) (tabs : list tab_sym) (name : bytes) : Z :=
  let g := if gnu_nbucket_ s =? 0 then 0 else dyn_find (drop (Z.to_nat (gnu_symndx_ s)) syms) name in
  if 0 <? g then g
  else
    let e := if nbucket_ s =? 0 then 0 else dyn_find (drop 1 syms) name in
    if 0 <? e then e
    else
      let t := match symtab_start s with Some _ => tab_find tabs name | None => 0 end in
      if 0 <? t then t else 0.

Lemma image_linear s syms tabs name :
  image s syms tabs →
  ∃ m, LinearLookup lp64 name s =
         (Ret (match symtab_start s with Some _ => tab_find tabs name | None => 0 end), set_symtabs m s) ∧
       image (set_symtabs m s) syms tabs.
Proof.
  intros [Hg He Ht]. destruct Ht as [[Hn Hm]|[Hs Hm]].
  - exists ∅. assert (set_symtabs ∅ s = s) as Es by (rewrite <- Hm; by destruct s). rewrite Es. split.
    + unfold LinearLookup. step. rewrite Hn, bool_decide_eq_true_2 by done. cbn [when]. step. step.
      by rewrite Hm, lookup_empty.
    + constructor; [done | done | by left].
  - exists (fill tabs 0 ∅). rewrite (LinearLookup_run s tabs name Hs Hm).
    destruct (so_start _ _ Hs) as [p Hp]. rewrite Hp. split; [done|]. constructor.
    + destruct Hg; [by left | right; by apply gnu_table_cache].
    + destruct He; [by left | right; by apply elf_table_cache].
    + right. split; [by apply symtab_ok_cache | by right].
Qed.

Lemma getSymbOffset_run s syms tabs name fuel :
  image s syms tabs → (length syms < fuel)%nat →
  ∃ m, getSymbOffset lp64 fuel name (GnuHash name) (ElfHash name) s =
         (Ret (find_symbol s syms tabs name), set_symtabs m s) ∧ image (set_symtabs m s) syms tabs.
Proof.
  intros Hi Hf. assert (s = set_symtabs (symtabs_ s) s) as Es by (by destruct s).
  pose proof (im_gnu _ _ _ Hi) as Hg. pose proof (im_elf _ _ _ Hi) as He. unfold getSymbOffset, find_symbol.
  assert (GnuLookup lp64 name (GnuHash name) s =
    (Ret (if gnu_nbucket_ s =? 0 then 0 else dyn_find (drop (Z.to_nat (gnu_symndx_ s)) syms) name), s)) as Eg.
  { destruct Hg as [Hn|Hg]; [unfold GnuLookup; step; by rewrite Hn|].
    pose proof (gt_nbucket _ _ Hg). rewrite (proj2 (Z.eqb_neq _ _)) by lia. by apply GnuLookup_run. }
  step_with Eg. destruct (0 <? _) eqn:E1; [exists (symtabs_ s); by rewrite <- Es|].
  assert (ElfLookup lp64 fuel name (ElfHash name) s =
    (Ret (if nbucket_ s =? 0 then 0 else dyn_find (drop 1 syms) name), s)) as Ee.
  { destruct He as [Hn|He]; [unfold ElfLookup; step; by rewrite Hn|].
    pose proof (et_nbucket _ _ He). rewrite (proj2 (Z.eqb_neq _ _)) by lia. by apply ElfLookup_run. }
  step_with Ee. destruct (0 <? if nbucket_ s =? 0 then _ else _) eqn:E2; [exists (symtabs_ s); by rewrite <- Es|].
  destruct (image_linear s syms tabs name Hi) as (m & E & Hm). exists m. step_with E.
  split; [|done]. by destruct (0 <? match symtab_start s with Some _ => _ | None => _ end).
Qed.

(** C21 Symbol look-up, through whichever of the GNU hash table, the System V hash table and
    .symtab the file has, gives the address a plain search of the symbol tables gives: base plus
    value minus bias, and 0 for a symbol that is not there.  The cache it leaves behind does not
    change the answer of any later look-up. *)
Theorem getSymbAddress_equiv s syms tabs name fuel :
  image s syms tabs → (length syms < fuel)%nat →
  ∃ s', image s' syms tabs ∧ base s' = base s ∧ bias s' = bias s ∧
    getSymbAddress lp64 fuel name s =
    (Ret (if (0 <? find_symbol s syms tabs name) && negb (base s =? 0)
          then wrapu (8 * Z.of_nat (word lp64)) (base s + find_symbol s syms tabs name - bias s) else 0), s').
Proof.
  intros Hi Hf. destruct (getSymbOffset_run s syms tabs name fuel Hi Hf) as (m & E & Hm).
  exists (set_symtabs m s). split_and!; [done | done | done |].
  unfold getSymbAddress. step_with E. step. cbn [base bias set_symtabs]. by destruct (_ && _).
Qed.

(** An image whose file was never mapped. *)
Definition unmapped (s : ElfImg) : Prop :=
  gnu_nbucket_ s = 0 ∧ nbucket_ s = 0 ∧ symtab_start s = None ∧ symtabs_ s = ∅.

Lemma unmapped_lookup s fuel name : unmapped s → getSymbAddress lp64 fuel name s = (Ret 0, s).
Proof.
  intros (Hg & He & Ht & Hm). unfold getSymbAddress, getSymbOffset.
  assert (GnuLookup lp64 name (GnuHash name) s = (Ret 0, s)) as E1 by (unfold GnuLookup; step; by rewrite Hg).
  assert (ElfLookup lp64 fuel name (ElfHash name) s = (Ret 0, s)) as E2 by (unfold ElfLookup; step; by rewrite He).
  assert (LinearLookup lp64 name s = (Ret 0, s)) as E3.
  { unfold LinearLookup. step. rewrite Ht, bool_decide_eq_true_2 by done. cbn [when]. step. step.
    by rewrite Hm, lookup_empty. }
  rewrite prog_bind_assoc. step_with E1. cbn [Z.ltb Z.compare]. rewrite prog_bind_assoc. step_with E2.
  cbn [Z.ltb Z.compare]. rewrite prog_bind_assoc. step_with E3. done.
Qed.

Lemma findModuleBase_unmapped mods s : unmapped s → unmapped (findModuleBase_loop mods s).
Proof.
  revert s. induction mods as [|[[k|] a] mods IH]; intros s H; simpl; [done | | by apply IH].
  destruct (contains _ k); [done | by apply IH].
Qed.

(** No module has a name that contains the one asked for. *)
Definition not_loaded (name : bytes) (mods : list (option bytes * Z)) : Prop :=
  Forall (λ m, match m.1 with Some k => contains name k = false | None => True end) mods.

Lemma findModuleBase_none mods s :
  not_loaded (elf s) mods → base s = 0 → base (findModuleBase_loop mods s) = 0.
Proof.
  intros Hall Hb. induction mods as [|[[k|] a] mods IH]; simpl; [done | |];
    pose proof (Forall_inv Hall) as Hk; apply Forall_inv_tail in Hall; simpl in Hk;
    [rewrite Hk|]; by apply IH.
Qed.

(** A library that is not loaded, or whose file cannot be opened, has no symbols: every look-up
    answers 0, without touching memory, so that callers see a null pointer. *)
Theorem absent_image mods open n name fuel :
  not_loaded n mods ∨ (∀ path, open path = None) →
  ∃ s, ctor lp64 mods open (new_ElfImg n) = (Ret tt, s) ∧
       getSymbAddress lp64 fuel name s = (Ret 0, s).
Proof.
  intros Hcase. pose proof (findModuleBase_unmapped mods (new_ElfImg n) ltac:(done)) as Hu.
  unfold ctor, findModuleBase. rewrite prog_bind_assoc. step. rewrite prog_bind_assoc. step. step.
  set (s1 := findModuleBase_loop mods (new_ElfImg n)) in *.
  destruct (base s1 =? 0) eqn:Eb; cbn [negb].
  - exists (set_base 0 s1). split; [done|]. by apply unmapped_lookup.
  - destruct Hcase as [Hall|Hopen].
    + unfold s1 in Eb. by rewrite findModuleBase_none in Eb.
    + step. rewrite Hopen. exists s1. split; [done|]. by apply unmapped_lookup.
Qed.
End tables.

(** ** A small library *)

Definition elf_sym (name info value size : Z) : bytes :=
  le_bytes 4 name ++ le_bytes 1 info ++ le_bytes 1 0 ++ le_bytes 2 4 ++ le_bytes 8 value ++ le_bytes 8 size.

Definition elf_section (name type addr off size entsize : Z) : bytes :=
  le_bytes 4 name ++ le_bytes 4 type ++ le_bytes 8 2 ++ le_bytes 8 addr ++ le_bytes 8 off ++
  le_bytes 8 size ++ le_bytes 4 0 ++ le_bytes 4 0 ++ le_bytes 8 8 ++ le_bytes 8 entsize.


(** Header, .dynsym at 64, .dynstr at 136, .gnu.hash at 148, .shstrtab at 184, section headers
    at 192. *)
Definition demo_file : bytes :=
  repeat NUL 40 ++ le_bytes 8 192 ++ repeat NUL 10 ++ le_bytes 2 64 ++ le_bytes 2 6 ++ le_bytes 2 5 ++
  elf_sym 0 0 0 0 ++ elf_sym 1 18 0x1040 8 ++ elf_sym 7 18 0x1080 8 ++
  (NUL :: txt "alpha" ++ NUL :: txt "beta" ++ [NUL]) ++
  le_bytes 4 1 ++ le_bytes 4 1 ++ le_bytes 4 1 ++ le_bytes 4 6 ++
  le_bytes 8 (bloom_mask true (GnuHash (txt "alpha")) 6 ||| bloom_mask true (GnuHash (txt "beta")) 6) ++
  le_bytes 4 1 ++ le_bytes 4 (GnuHash (txt "alpha") / 2 * 2) ++ le_bytes 4 (GnuHash (txt "beta") / 2 * 2 + 1) ++
  repeat NUL 8 ++
  elf_section 0 0 0 0 0 0 ++
  elf_section 0 SHT_DYNSYM 64 64 72 24 ++
  elf_section 0 SHT_STRTAB 136 136 12 0 ++
  elf_section 0 SHT_GNU_HASH 148 148 36 0 ++
  elf_section 0 SHT_PROGBITS 0x1000 0x400 256 0 ++
  elf_section 0 SHT_STRTAB 0 184 8 0.

(** What is mapped is what will be unmapped. *)
Definition mapped_whole (s : ElfImg) : Prop := ∀ f, header s = Some f → size s = Z.of_nat (length f).

Lemma deref_keeps p off n s : Moves (keeps mapped_whole) (deref p off n) s.
Proof. unfold deref. walk. Qed.

Lemma scan_section_keeps lp64 str h s : Moves (keeps mapped_whole) (scan_section lp64 str h) s.
Proof.
  unfold scan_section, sh_name, sh_entsize, sh_type, sh_offset, sh_size, sh_addr, shdr, strcmp.
  walk; try apply deref_keeps; apply moves_modify; intros Hk; exact Hk.
Qed.

Lemma scan_sections_keeps lp64 n str h s : Moves (keeps mapped_whole) (scan_sections lp64 n str h) s.
Proof.
  revert h s. induction n as [|n IH]; intros h s; cbn [scan_sections]; unfold e_shentsize, ehdr; walk;
    first [apply scan_section_keeps | apply deref_keeps | apply IH].
Qed.

Lemma findModuleBase_keeps mods s : mapped_whole s → mapped_whole (findModuleBase_loop mods s).
Proof.
  intros Hk. induction mods as [|[[name|] a] mods IH]; cbn [findModuleBase_loop]; [exact Hk | | exact IH].
  destruct (contains _ _); [exact Hk | exact IH].
Qed.

Lemma ctor_dtor lp64 mods open n s' :
  ctor lp64 mods open (new_ElfImg n) = (Ret tt, s') →
  dtor s' = match header s' with Some f => [Z.of_nat (length f)] | None => [] end.
Proof.
  intros E. assert (mapped_whole s') as Hm; [|unfold dtor; destruct (header s') as [f|] eqn:Ef; [by rewrite (Hm f Ef) | done]].
  assert (Moves (keeps mapped_whole) (ctor lp64 mods open) (new_ElfImg n)) as H.
  { unfold ctor, findModuleBase, e_shoff, e_shstrndx, e_shnum, sh_offset, shdr, ehdr.
    walk; try apply deref_keeps; try apply scan_sections_keeps; apply moves_modify; try (intros Hk; exact Hk).
    - intros Hk. by apply findModuleBase_keeps.
    - by intros _ f' [= <-]. }
  by apply (moves_run _ _ _ _ _ E) in H; apply H.
Qed.

Definition demo_modules : list (option bytes * Z) :=
  [(None, 4096); (Some (txt "/lib/libc.so"), 8192); (Some (txt "/bin/linker64"), 0x700000)].

Definition demo_open (path : bytes) : option bytes :=
  if bool_decide (path = txt "/bin/linker64") then Some demo_file else None.

Definition demo_image : ElfImg := (ctor true demo_modules demo_open (new_ElfImg (txt "/linker"))).2.

Definition demo_syms : list (bytes * Z) := [([], 0); (txt "alpha", 0x1040); (txt "beta", 0x1080)].

(** The constructor finds the tables, and the bias of the first loaded section. *)
Lemma demo_ctor :
  ctor true demo_modules demo_open (new_ElfImg (txt "/linker")) = (Ret tt, demo_image) ∧
  base demo_image = 0x700000 ∧ bias demo_image = 0xc00 ∧ dynsym_start demo_image = Some 64 ∧
  strtab_start demo_image = Some 136.
Proof. split_and!; by vm_compute. Defined.

Lemma demo_entries i name v :
  demo_syms !! i = Some (name, v) → dyn_entry true demo_image (Z.of_nat i) name v.
Proof.
  intros H. destruct i as [|[|[|i]]]; simplify_eq/=; (split; [by vm_compute|]).
  - exists 0. by vm_compute.
  - exists 1. by vm_compute.
  - exists 7. by vm_compute.
Defined.

Lemma demo_gnu_table : gnu_table true demo_image demo_syms.
Proof.
  constructor; [by vm_compute.. | apply demo_entries | |].
  - exists 1, 6. split_and!; [by vm_compute.. |]. intros j Hj. assert (j = 0) as -> by lia.
    exists (bloom_mask true (GnuHash (txt "alpha")) 6 ||| bloom_mask true (GnuHash (txt "beta")) 6).
    split; [by vm_compute|]. intros i name v Hi Hs _.
    destruct i as [|[|[|i]]]; simplify_eq/=; by vm_compute.
  - intros b Hb. right. exists 1%nat, 2%nat. change (gnu_nbucket_ demo_image) with 1 in *.
    assert (b = 0) as -> by lia. change (gnu_symndx_ demo_image) with 1. split_and!; [by vm_compute | lia | lia | simpl; lia | |].
    + intros i Hi (name & v & Hs & _). change (gnu_symndx_ demo_image) with 1 in Hi.
      apply lookup_lt_Some in Hs. simpl in Hs. lia.
    + intros i name v Hi Hs. destruct i as [|[|[|i]]]; simplify_eq/=; [lia | |];
        eexists; (split; [by vm_compute|]); by vm_compute.
Defined.

Lemma demo_is_image : image true demo_image demo_syms [].
Proof. constructor; [right; apply demo_gnu_table | by left | left; by vm_compute]. Defined.

Lemma getSymbAddress_equiv_witness :
  ∃ s', getSymbAddress true 4 (txt "beta") demo_image = (Ret 0x700480, s') ∧
        image true s' demo_syms [].
Proof.
  destruct (getSymbAddress_equiv true demo_image demo_syms [] (txt "beta") 4 demo_is_image ltac:(simpl; lia))
    as (s' & Hi & _ & _ & E).
  exists s'. split; [|exact Hi]. rewrite E. by vm_compute.
Defined.

Lemma GnuLookup_terminates_witness :
  (GnuLookup true (txt "gamma") (GnuHash (txt "gamma")) demo_image).1 ≠ OutOfFuel.
Proof.
  apply (GnuLookup_terminates true demo_image demo_file (txt "gamma") (GnuHash (txt "gamma"))); by vm_compute.
Defined.

Lemma absent_image_witness :
  ∃ s, ctor true demo_modules demo_open (new_ElfImg (txt "libart.so")) = (Ret tt, s) ∧
       getSymbAddress true 1 (txt "beta") s = (Ret 0, s).
Proof.
  apply (absent_image true demo_modules demo_open (txt "libart.so") (txt "beta") 1). left.
  unfold not_loaded, demo_modules. repeat constructor.
Defined.
