(* ===== verification/Remote.v ===== *)
(** * Remote: reading, writing and calling into a stopped process

    The tracer's tool box in [ptracer/utils.cpp]: memory and registers of the traced process,
    [align_stack], [push_string], [remote_call] for the four architectures, the look-ups in
    memory maps, and [wait_for_trace].

    The traced process is its registers, its memory and a script of what it does each time it
    is resumed; between two stops it may change anything. *)

From Stdlib Require Import ZArith Lia Ascii.
From stdpp Require Import base tactics strings list gmap functions numbers.
From S2P Require Import Prelude WaitStatus Maps.

Local Open Scope mach_scope.

(** ** Architectures and registers *)

Inductive arch : Set := X86_64 | I386 | AARCH64 | ARM.

Definition word_size (a : arch) : nat := match a with X86_64 | AARCH64 => 8 | I386 | ARM => 4 end.
Definition word_bits (a : arch) : Z := 8 * Z.of_nat (word_size a).

(** [REG_SP], [REG_IP], the status register of arm, and the numbered registers: [regs[n]] and
    [uregs[n]] on arm; on x86 rdi, rsi, rdx, rcx, r8, r9 are 0 to 5 and rax is 6. *)
Inductive reg : Set := SP | IP | CPSR | G (n : nat).

#[export] Instance reg_eq_dec : EqDecision reg.
Proof. solve_decision. Defined.

Abbreviation user_regs := (reg → Z).

Definition REG_RET (a : arch) : reg := match a with X86_64 | I386 => G 6 | _ => G 0 end.

(** ** The traced process *)

Abbreviation mem := (gmap Z byte).

(** What [waitpid] on the process answers. *)
Inductive wait_ans : Type :=
| WaErr (errno : Z)
| WaStatus (status : Z).

Inductive tevent : Type :=
| TSeize
| TCont
| TDetach (sig : Z)
| TKill (sig : Z)
| TSetRegs (r : user_regs)
| TWrite (addr : Z) (data : bytes).   (* the bytes that were written *)

(** One resumption: the registers and the memory at the next stop, and the answers of the
    [waitpid]s until then. *)
Definition resume : Type := user_regs → mem → user_regs * mem * list wait_ans.

Record tproc : Type := mkProc {
  t_regs : user_regs;
  t_mem : mem;
  t_waits : list wait_ans;
  t_resumes : list resume;
  t_cont_ok : list bool;         (* whether the next PTRACE_CONT succeeds *)
  t_regs_ok : list bool;         (* whether the next transfer of registers succeeds *)
  t_scans : list (option bytes); (* /proc/<pid>/maps at each [MapInfo::Scan] *)
  t_log : list tevent
}.

Definition set_t_regs r p := mkProc r (t_mem p) (t_waits p) (t_resumes p) (t_cont_ok p)
  (t_regs_ok p) (t_scans p) (t_log p).
Definition set_t_mem m p := mkProc (t_regs p) m (t_waits p) (t_resumes p) (t_cont_ok p)
  (t_regs_ok p) (t_scans p) (t_log p).
Definition set_t_waits w p := mkProc (t_regs p) (t_mem p) w (t_resumes p) (t_cont_ok p)
  (t_regs_ok p) (t_scans p) (t_log p).
Definition set_t_regs_ok l p := mkProc (t_regs p) (t_mem p) (t_waits p) (t_resumes p) (t_cont_ok p)
  l (t_scans p) (t_log p).
Definition set_t_scans l p := mkProc (t_regs p) (t_mem p) (t_waits p) (t_resumes p) (t_cont_ok p)
  (t_regs_ok p) l (t_log p).
Definition add_t_log e p := mkProc (t_regs p) (t_mem p) (t_waits p) (t_resumes p) (t_cont_ok p)
  (t_regs_ok p) (t_scans p) (t_log p ++ [e]).

Definition t_emit (e : tevent) : prog tproc unit := modify (add_t_log e).

(** ** Memory *)

(** The mapped bytes from [addr] on, [n] at most: what [process_vm_readv] transfers. *)
Fixpoint read_bytes (m : mem) (addr : Z) (n : nat) : bytes :=
  match n with
  | O => []
  | S n => match m !! addr with Some b => b :: read_bytes m (addr + 1) n | None => [] end
  end.

(** [process_vm_writev]: up to the first unmapped byte. *)
Fixpoint write_bytes (m : mem) (addr : Z) (data : bytes) : mem * nat :=
  match data with
  | [] => (m, 0%nat)
  | b :: data =>
      match m !! addr with
      | Some _ => let '(m', k) := write_bytes (<[addr := b]> m) (addr + 1) data in (m', S k)
      | None => (m, 0%nat)
      end
  end.

(** The number of bytes, -1 if there was something to write and nothing could be. *)
Definition write_proc (addr : Z) (data : bytes) : prog tproc Z :=
  s ← get;
  let '(m, k) := write_bytes (t_mem s) addr data in
  put (add_t_log (TWrite addr (take k data)) (set_t_mem m s));;
  mret (if (k =? 0)%nat && negb (bool_decide (data = [])) then -1 else Z.of_nat k).

(** What arrives in the buffer; the rest of it keeps what it held. *)
Definition read_proc (addr : Z) (len : nat) : prog tproc bytes :=
  s ← get; mret (read_bytes (t_mem s) addr len).

(** [read_proc] into a fresh variable of [n] bytes. *)
Definition read_var (addr : Z) (n : nat) : prog tproc Z :=
  b ← read_proc addr n;
  if (length b =? n)%nat then mret (le_val b) else crash Uninit.

(** ** Registers *)

Definition next_regs_ok : prog tproc bool :=
  s ← get;
  put (set_t_regs_ok (tail (t_regs_ok s)) s);;
  mret (default true (head (t_regs_ok s))).

Definition get_regs : prog tproc (option user_regs) :=
  ok ← next_regs_ok;
  s ← get;
  mret (if ok : bool then Some (t_regs s) else None).

Definition set_regs (r : user_regs) : prog tproc bool :=
  ok ← next_regs_ok;
  when ok (modify (λ s, add_t_log (TSetRegs r) (set_t_regs r s)));;
  mret ok.

(** ** Running the process *)

(** [ptrace(PTRACE_CONT, pid, 0, 0)]. *)
Definition ptrace_cont : prog tproc bool :=
  s ← get;
  let ok := default true (head (t_cont_ok s)) in
  let s := mkProc (t_regs s) (t_mem s) (t_waits s) (t_resumes s) (tail (t_cont_ok s)) (t_regs_ok s)
             (t_scans s) (t_log s) in
  put s;;
  when ok
    (t_emit TCont;;
     match t_resumes s with
     | [] => mret tt
     | f :: fs =>
         let '(r, m, w) := f (t_regs s) (t_mem s) in
         modify (λ s', mkProc r m (t_waits s ++ w) fs (t_cont_ok s') (t_regs_ok s') (t_scans s')
                         (t_log s'))
     end);;
  mret ok.

Definition EINTR : Z := 4.

(** The loop of [wait_for_trace] on the answers of [waitpid]; without an answer it blocks. *)
Fixpoint wait_loop (w : list wait_ans) : prog tproc Z :=
  match w with
  | [] => no_fuel
  | WaErr e :: w => if e =? EINTR then wait_loop w else exit 1
  | WaStatus status :: w =>
      modify (set_t_waits w);;
      if WIFSTOPPED status then mret status else exit 1
  end.

Definition wait_for_trace : prog tproc Z := s ← get; wait_loop (t_waits s).

(** ** The stack *)

Section abi.
Context (a : arch).

Definition uptr (z : Z) : Z := wrapu (word_bits a) z.

Definition align_stack (regs : user_regs) (preserve : Z) : user_regs :=
  <[SP := uptr (regs SP - preserve) &&& uptr (-16)]> regs.

Definition push_string (regs : user_regs) (str : bytes) : prog tproc (Z * user_regs) :=
  let len := Z.of_nat (length str) + 1 in
  let regs := <[SP := uptr (regs SP - len)]> regs in
  let regs := align_stack regs 0 in
  write_proc (regs SP) (str ++ [NUL]);;
  mret (regs SP, regs).

(** The words of the argument vector, as they lie in memory. *)
Definition words (args : list Z) : bytes := args ≫= λ x, le_bytes (word_size a) x.

Definition max_reg_args : nat := match a with X86_64 => 6 | I386 => 0 | AARCH64 => 8 | ARM => 4 end.

(** [args[0]] to the first argument register, and so on. *)
Fixpoint set_args (i : nat) (args : list Z) (regs : user_regs) : user_regs :=
  match args with
  | [] => regs
  | x :: args => set_args (S i) args (<[G i := x]> regs)
  end.

(** The arguments that do not fit the registers.  [args.data()] points to the first argument,
    not to the first of these. *)
Definition push_args (args : list Z) (regs : user_regs) : prog tproc user_regs :=
  if (max_reg_args <? length args)%nat then
    let remain := (length args - max_reg_args)%nat in
    let regs := align_stack regs (Z.of_nat (remain * word_size a)) in
    write_proc (regs SP) (words (take remain args));;
    mret regs
  else mret regs.

Definition CPSR_T_MASK : Z := 32.

(** The return address and the program counter. *)
Definition set_call (func_addr return_addr : Z) (regs : user_regs) : prog tproc user_regs :=
  match a with
  | X86_64 | I386 =>
      let regs := <[SP := uptr (regs SP - Z.of_nat (word_size a))]> regs in
      write_proc (regs SP) (le_bytes (word_size a) return_addr);;
      mret (<[IP := func_addr]> regs)
  | AARCH64 => mret (<[IP := func_addr]> (<[G 30 := return_addr]> regs))
  | ARM =>
      let regs := <[IP := func_addr]> (<[G 14 := return_addr]> regs) in
      if negb (regs IP &&& 1 =? 0)
      then mret (<[CPSR := regs CPSR ||| CPSR_T_MASK]> (<[IP := regs IP &&& uptr (-2)]> regs))
      else mret (<[CPSR := regs CPSR &&& uptr (Z.lnot CPSR_T_MASK)]> regs)
  end.

(** The value of the call and the registers of the process behind it. *)
Definition remote_call (regs : user_regs) (func_addr return_addr : Z) (args : list Z)
  : prog tproc (Z * user_regs) :=
  let regs := align_stack regs 0 in
  let regs := set_args 0 (take max_reg_args args) regs in
  regs ← push_args args regs;
  regs ← set_call func_addr return_addr regs;
  ok ← set_regs regs;
  if negb ok then mret (0, regs)
  else
    ptrace_cont;;
    status ← wait_for_trace;
    got ← get_regs;
    match got with
    | None => mret (0, regs)
    | Some regs =>
        if WSTOPSIG status =? SIGSEGV
        then if regs IP =? return_addr then mret (regs (REG_RET a), regs) else mret (0, regs)
        else mret (0, regs)
    end.
End abi.

(** ** Memory maps *)

(** [MapInfo::Scan]: the file is read anew at each call. *)
Definition Scan (a : arch) : prog tproc (list MapInfo) :=
  s ← get;
  put (set_t_scans (tail (t_scans s)) s);;
  mret (Scan_text (word_bits a) (default None (head (t_scans s)))).

Definition perm_char (perms bit : Z) (c : byte) : byte :=
  if perms &&& bit =? 0 then "-"%char else c.

Definition get_addr_mem_region (info : list MapInfo) (addr : Z) : bytes :=
  match List.find (λ m, (map_start m <=? addr) && (addr <? map_end m)) info with
  | Some m =>
      map_path m ++ [" "%char; perm_char (map_perms m) PROT_READ "r"%char;
                     perm_char (map_perms m) PROT_WRITE "w"%char;
                     perm_char (map_perms m) PROT_EXEC "x"%char]
  | None => txt "<unknown>"
  end.

(** 0 stands for [NULL]. *)
Definition find_module_return_addr (info : list MapInfo) (suffix : bytes) : Z :=
  match List.find (λ m, (map_perms m &&& PROT_EXEC =? 0) && ends_with suffix (map_path m)) info with
  | Some m => map_start m
  | None => 0
  end.

Definition find_module_base (info : list MapInfo) (suffix : bytes) : Z :=
  match List.find (λ m, (map_offset m =? 0) && ends_with suffix (map_path m)) info with
  | Some m => map_start m
  | None => 0
  end.

Section find_func.
Context (a : arch).
(** The dynamic linker of the tracer's own process: [None] when [dlopen] fails, 0 when
    [dlsym] does. *)
Context (dlsym_local : bytes → bytes → option Z).

Definition find_func_addr (local_info remote_info : list MapInfo) (module func : bytes) : Z :=
  match dlsym_local module func with
  | None => 0
  | Some sym =>
      if sym =? 0 then 0
      else
        let local_base := find_module_base local_info module in
        if local_base =? 0 then 0
        else
          let remote_base := find_module_base remote_info module in
          if remote_base =? 0 then 0
          else uptr a (sym - local_base + remote_base)
  end.
End find_func.

(** ** Lemmas on memory *)

Definition mapped (m : mem) (lo hi : Z) : Prop := ∀ x, lo <= x < hi → is_Some (m !! x).

Lemma mapped_sub m lo hi lo' hi' : mapped m lo hi → lo <= lo' → hi' <= hi → mapped m lo' hi'.
Proof. unfold mapped. intros H H1 H2 x Hx. apply H. lia. Qed.

Lemma mapped_insert m lo hi x b : mapped m lo hi → mapped (<[x := b]> m) lo hi.
Proof.
  intros H y Hy. destruct (decide (x = y)) as [->|Hn]; [rewrite lookup_insert_eq; eauto|].
  rewrite lookup_insert_ne by done. by apply H.
Qed.

Lemma write_bytes_outside m addr data x :
  x < addr ∨ addr + Z.of_nat (length data) <= x → (write_bytes m addr data).1 !! x = m !! x.
Proof.
  revert m addr. induction data as [|b data IH]; intros m addr Hx; [done|]. cbn [write_bytes].
  destruct (m !! addr) eqn:E; [|done].
  specialize (IH (<[addr := b]> m) (addr + 1)).
  destruct (write_bytes (<[addr := b]> m) (addr + 1) data) as [m' k]. cbn [fst length] in *.
  rewrite IH by lia. apply lookup_insert_ne. lia.
Qed.

Lemma write_bytes_mapped m addr data lo hi : mapped m lo hi → mapped (write_bytes m addr data).1 lo hi.
Proof.
  revert m addr. induction data as [|b data IH]; intros m addr H; [done|]. cbn [write_bytes].
  destruct (m !! addr) eqn:E; [|done].
  specialize (IH (<[addr := b]> m) (addr + 1) (mapped_insert _ _ _ _ _ H)).
  by destruct (write_bytes (<[addr := b]> m) (addr + 1) data).
Qed.

(** Into mapped memory everything is written, and can be read back. *)
Lemma write_bytes_read m addr data :
  mapped m addr (addr + Z.of_nat (length data)) →
  read_bytes (write_bytes m addr data).1 addr (length data) = data ∧
  (write_bytes m addr data).2 = length data.
Proof.
  revert m addr. induction data as [|b data IH]; intros m addr H; [done|].
  cbn [length] in H. destruct (H addr ltac:(lia)) as [b0 E]. cbn [write_bytes]. rewrite E.
  destruct (IH (<[addr := b]> m) (addr + 1)) as [H1 H2].
  { apply mapped_insert. eapply mapped_sub; [exact H | lia..]. }
  pose proof (write_bytes_outside (<[addr := b]> m) (addr + 1) data addr ltac:(lia)) as Ho.
  destruct (write_bytes (<[addr := b]> m) (addr + 1) data) as [m' k]. cbn [fst snd length read_bytes] in *.
  rewrite Ho, lookup_insert_eq, H1, H2. done.
Qed.

Lemma read_bytes_ext m m' addr n :
  (∀ x, addr <= x < addr + Z.of_nat n → m !! x = m' !! x) → read_bytes m addr n = read_bytes m' addr n.
Proof.
  revert addr. induction n as [|n IH]; intros addr H; [done|]. cbn [read_bytes].
  rewrite (H addr) by lia. destruct (m' !! addr); [|done]. f_equal. apply IH. intros. apply H. lia.
Qed.

Lemma read_bytes_app m addr n k :
  length (read_bytes m addr n) = n →
  read_bytes m addr (n + k) = read_bytes m addr n ++ read_bytes m (addr + Z.of_nat n) k.
Proof.
  revert addr. induction n as [|n IH]; intros addr H; [simpl; by rewrite Z.add_0_r|].
  cbn [read_bytes Nat.add] in *. destruct (m !! addr); [|done]. cbn [length app] in *.
  rewrite IH by lia. do 2 f_equal. f_equal. lia.
Qed.

Lemma write_proc_run addr data s :
  mapped (t_mem s) addr (addr + Z.of_nat (length data)) →
  write_proc addr data s =
    (Ret (Z.of_nat (length data)),
     add_t_log (TWrite addr data) (set_t_mem (write_bytes (t_mem s) addr data).1 s)).
Proof.
  intros H. destruct (write_bytes_read (t_mem s) addr data H) as [_ E]. unfold write_proc. step.
  destruct (write_bytes (t_mem s) addr data) as [m k]. cbn [fst snd] in *. step. subst k.
  rewrite firstn_all. destruct data; [done|]. cbn [length]. done.
Qed.

(** ** The stack pointer *)

Section stack.
Context (a : arch).

Lemma word_bits_ge : 32 <= word_bits a.
Proof. by destruct a. Qed.

Lemma uptr_small z : 0 <= z < 2 ^ word_bits a → uptr a z = z.
Proof. apply wrapu_small. Qed.

Lemma land_align x : 0 <= x < 2 ^ word_bits a → x &&& uptr a (-16) = x - x mod 16.
Proof.
  intros Hx. pose proof word_bits_ge.
  assert (2 ^ 4 <= 2 ^ word_bits a) by (apply Z.pow_le_mono_r; lia).
  assert (uptr a (-16) = Z.ldiff (Z.ones (word_bits a)) (Z.ones 4)) as ->.
  { destruct a; by vm_compute. }
  rewrite Z.ldiff_land, Z.land_assoc, Z.land_ones by lia. rewrite Z.mod_small by done.
  rewrite <- Z.ldiff_land.
  rewrite Z.ldiff_ones_r, Z.shiftl_mul_pow2, Z.shiftr_div_pow2 by lia.
  change (2 ^ 4) with 16. Z.to_euclidean_division_equations. lia.
Qed.

Lemma align_stack_sp regs preserve :
  0 <= preserve <= regs SP → regs SP < 2 ^ word_bits a →
  align_stack a regs preserve SP = regs SP - preserve - (regs SP - preserve) mod 16.
Proof.
  intros H1 H2. unfold align_stack. rewrite fn_lookup_insert.
  rewrite uptr_small, land_align by lia. done.
Qed.

Lemma align_stack_other regs preserve r : r ≠ SP → align_stack a regs preserve r = regs r.
Proof. intros H. unfold align_stack. by rewrite fn_lookup_insert_ne. Qed.

Definition push_addr (sp : Z) (str : bytes) : Z :=
  let t := sp - (Z.of_nat (length str) + 1) in t - t mod 16.

Lemma push_addr_bounds sp str :
  push_addr sp str mod 16 = 0 ∧
  sp - Z.of_nat (length str) - 16 <= push_addr sp str <= sp - (Z.of_nat (length str) + 1).
Proof.
  unfold push_addr. cbv zeta. Z.to_euclidean_division_equations. lia.
Qed.
End stack.

(** [push_string] stores the string and its terminator just below the stack pointer: at a
    16-byte aligned address, which becomes the stack pointer; every byte at or above the old
    stack pointer, and every other register, is unchanged. *)
Theorem push_string_spec a regs str s :
  Z.of_nat (length str) + 16 <= regs SP < 2 ^ word_bits a →
  mapped (t_mem s) (regs SP - Z.of_nat (length str) - 16) (regs SP) →
  ∃ addr regs' s', push_string a regs str s = (Ret (addr, regs'), s') ∧
    regs' SP = addr ∧ addr mod 16 = 0 ∧ addr + Z.of_nat (length str) + 1 <= regs SP ∧
    (∀ r, r ≠ SP → regs' r = regs r) ∧
    read_bytes (t_mem s') addr (length str + 1) = str ++ [NUL] ∧
    (∀ x, regs SP <= x → t_mem s' !! x = t_mem s !! x).
Proof.
  intros Hsp Hm. pose proof (push_addr_bounds (regs SP) str) as [Ha Hb].
  set (regs1 := <[SP := uptr a (regs SP - (Z.of_nat (length str) + 1))]> regs).
  assert (align_stack a regs1 0 SP = push_addr (regs SP) str) as E.
  { assert (regs1 SP = regs SP - (Z.of_nat (length str) + 1)) as E1
      by (unfold regs1; rewrite fn_lookup_insert, uptr_small by lia; done).
    rewrite align_stack_sp by lia. rewrite E1, Z.sub_0_r. done. }
  set (addr := push_addr (regs SP) str) in *.
  assert (length (str ++ [NUL]) = (length str + 1)%nat) as L by by rewrite length_app.
  assert (mapped (t_mem s) addr (addr + Z.of_nat (length (str ++ [NUL])))) as Hm'
    by (eapply mapped_sub; [exact Hm | lia..]).
  exists addr, (align_stack a regs1 0). eexists. unfold push_string. fold regs1. rewrite E.
  split; [step_with (write_proc_run _ _ _ Hm'); reflexivity|]. split_and!.
  - done.
  - done.
  - lia.
  - intros r Hr. rewrite align_stack_other by done. unfold regs1. by rewrite fn_lookup_insert_ne.
  - cbn [t_mem add_t_log set_t_mem]. rewrite <- L. apply write_bytes_read. exact Hm'.
  - intros x Hx. cbn [t_mem add_t_log set_t_mem]. apply write_bytes_outside. lia.
Qed.

(** A process with a small stack. *)
Definition demo_mem (lo : Z) (n : nat) : mem := list_to_map ((λ i, (lo + Z.of_nat i, NUL)) <$> seq 0 n).
Definition demo_regs (sp : Z) : user_regs := λ r, if bool_decide (r = SP) then sp else 7.
Definition demo_proc : tproc := mkProc (demo_regs 4101) (demo_mem 4000 200) [] [] [] [] [] [].

Lemma demo_mem_mapped lo n : mapped (demo_mem lo n) lo (lo + Z.of_nat n).
Proof.
  intros x Hx. unfold demo_mem.
  assert (∃ b, (x, b) ∈ (λ i, (lo + Z.of_nat i, NUL)) <$> seq 0 n) as [b Hb].
  { exists NUL. apply list_elem_of_fmap. exists (Z.to_nat (x - lo)). split; [f_equal; lia|].
    apply elem_of_seq. lia. }
  destruct (list_to_map (M := mem) ((λ i, (lo + Z.of_nat i, NUL)) <$> seq 0 n) !! x) eqn:E; [eauto|].
  apply not_elem_of_list_to_map in E. exfalso. apply E, list_elem_of_fmap. by exists (x, b).
Qed.

Lemma push_string_spec_witness :
  ∃ addr regs' s', push_string X86_64 (demo_regs 4101) (txt "entry") demo_proc = (Ret (addr, regs'), s') ∧
    addr mod 16 = 0 ∧ read_bytes (t_mem s') addr 6 = txt "entry" ++ [NUL].
Proof.
  destruct (push_string_spec X86_64 (demo_regs 4101) (txt "entry") demo_proc)
    as (addr & regs' & s' & E & _ & A & _ & _ & R & _); [by vm_compute | |by exists addr, regs', s'].
  apply (mapped_sub _ 4000 (4000 + Z.of_nat 200)); [apply demo_mem_mapped | by vm_compute ..].
Defined.

(** ** Calls *)

(** What lies between the stack pointer and the arguments on the stack: the return address on x86. *)
Definition ret_size (a : arch) : Z := match a with X86_64 => 8 | I386 => 4 | AARCH64 | ARM => 0 end.

(** The arguments that do not fit the registers. *)
Definition stack_args (a : arch) (args : list Z) : nat := (length args - max_reg_args a)%nat.

(** The registers [r] and the memory [m] with which a function is entered that was called with
    stack pointer [sp] over memory [m0].  This is what the calling convention of [a] asks for, but
    for [ready_stack]: it asks there for the last arguments, where the first are. *)
Record abi_ready (a : arch) (sp : Z) (m0 : mem) (func ret : Z) (args : list Z)
    (r : user_regs) (m : mem) : Prop := {
  ready_code :
    match a with
    | ARM => r IP = func - func mod 2 ∧ Z.testbit (r CPSR) 5 = Z.odd func
    | _ => r IP = func
    end;
  ready_args : ∀ i x, (i < max_reg_args a)%nat → args !! i = Some x → r (G i) = x;
  ready_stack : read_bytes m (r SP + ret_size a) (stack_args a args * word_size a) =
    words a (take (stack_args a args) args);
  ready_return :
    match a with
    | X86_64 => read_bytes m (r SP) 8 = le_bytes 8 ret ∧ (r SP + 8) mod 16 = 0
    | I386 => read_bytes m (r SP) 4 = le_bytes 4 ret ∧ (r SP + 4) mod 16 = 0
    | AARCH64 => r (G 30) = ret ∧ r SP mod 16 = 0
    | ARM => r (G 14) = ret ∧ r SP mod 16 = 0
    end;
  ready_frame : ∀ x, sp <= x → m !! x = m0 !! x
}.

Lemma set_args_other i args regs r : (∀ j, r ≠ G j) → set_args i args regs r = regs r.
Proof.
  intros Hr. revert i regs. induction args as [|x args IH]; intros i regs; [done|]. cbn [set_args].
  rewrite IH. by rewrite fn_lookup_insert_ne by congruence.
Qed.

Lemma set_args_below i args regs j : (j < i)%nat → set_args i args regs (G j) = regs (G j).
Proof.
  revert i regs. induction args as [|x args IH]; intros i regs Hj; [done|]. cbn [set_args].
  rewrite IH by lia. rewrite fn_lookup_insert_ne; [done|]. intros [= ->]. lia.
Qed.

Lemma set_args_lookup i args regs j x :
  args !! j = Some x → set_args i args regs (G (i + j)) = x.
Proof.
  revert i j regs. induction args as [|y args IH]; intros i j regs Hj; [done|]. cbn [set_args].
  destruct j as [|j].
  - injection Hj as ->. rewrite Nat.add_0_r, set_args_below by lia. by rewrite fn_lookup_insert.
  - rewrite <- Nat.add_succ_comm. by apply IH.
Qed.

Lemma length_words a args : length (words a args) = (length args * word_size a)%nat.
Proof.
  induction args as [|x args IH]; [done|].
  change (words a (x :: args)) with (le_bytes (word_size a) x ++ words a args).
  rewrite length_app, length_le_bytes, IH. cbn [length]. lia.
Qed.

(** The scripts of the process are untouched by writes. *)
Definition same_script (s s' : tproc) : Prop :=
  t_waits s' = t_waits s ∧ t_resumes s' = t_resumes s ∧ t_cont_ok s' = t_cont_ok s ∧
  t_regs_ok s' = t_regs_ok s ∧ t_scans s' = t_scans s.

Definition prepare_call (a : arch) (regs : user_regs) (func ret : Z) (args : list Z)
  : prog tproc user_regs :=
  regs ← push_args a args (set_args 0 (take (max_reg_args a) args) (align_stack a regs 0));
  set_call a func ret regs.

(** The stack a call may need below the stack pointer. *)
Definition call_room (args : list Z) : Z := 64 + 8 * Z.of_nat (length args).

Section calls.
Context (regs : user_regs) (func ret : Z) (args : list Z) (s : tproc).
Hypothesis Hroom : call_room args <= regs SP.
Hypothesis Hmap : mapped (t_mem s) (regs SP - call_room args) (regs SP).

(** The instance of the goal for one architecture. *)
Definition prepared (a : arch) : Prop :=
  ∃ r s', prepare_call a regs func ret args s = (Ret r, s') ∧ same_script s s' ∧
    abi_ready a (regs SP) (t_mem s) func ret args r (t_mem s').

Let asp := regs SP - regs SP mod 16.

Lemma aligned_sp a :
  regs SP < 2 ^ word_bits a → align_stack a regs 0 SP = asp ∧ regs SP - 16 < asp <= regs SP ∧ asp mod 16 = 0.
Proof.
  intros Hb. unfold call_room in Hroom. rewrite align_stack_sp by lia. rewrite Z.sub_0_r. unfold asp.
  split; [done|]. Z.to_euclidean_division_equations. lia.
Qed.

Lemma set_args_aligned a r :
  (∀ j, r ≠ G j) → set_args 0 (take (max_reg_args a) args) (align_stack a regs 0) r = align_stack a regs 0 r.
Proof. apply set_args_other. Qed.

Lemma set_args_get a i x :
  (i < max_reg_args a)%nat → args !! i = Some x →
  set_args 0 (take (max_reg_args a) args) (align_stack a regs 0) (G i) = x.
Proof. intros Hl Hi. apply (set_args_lookup 0). by rewrite lookup_take_lt. Qed.

Lemma push_args_run a r :
  r SP = asp → regs SP < 2 ^ word_bits a →
  ∃ b r' s', push_args a args r s = (Ret r', s') ∧ r' SP = b ∧ (∀ q, q ≠ SP → r' q = r q) ∧ b mod 16 = 0 ∧
    regs SP - call_room args + 16 <= b ∧ b + Z.of_nat (stack_args a args * word_size a) <= regs SP ∧
    read_bytes (t_mem s') b (stack_args a args * word_size a) = words a (take (stack_args a args) args) ∧
    mapped (t_mem s') (regs SP - call_room args) (regs SP) ∧ same_script s s' ∧
    (∀ x, regs SP <= x → t_mem s' !! x = t_mem s !! x).
Proof.
  intros Er Hb. destruct (aligned_sp a Hb) as (E & B & M). unfold push_args, stack_args.
  assert (word_size a <= 8)%nat as Hw by (destruct a; simpl; lia).
  unfold call_room in *. destruct (Nat.ltb_spec (max_reg_args a) (length args)) as [Hl|Hl]; cycle 1.
  { replace (length args - max_reg_args a)%nat with 0%nat by lia. exists asp, r, s. split_and!; try done; simpl; lia. }
  set (k := (length args - max_reg_args a)%nat). set (n := Z.of_nat (k * word_size a)).
  assert (0 <= n <= 8 * Z.of_nat (length args)) as Hn by (unfold n, k; nia).
  assert (align_stack a r n SP = asp - n - (asp - n) mod 16) as Ea
    by (rewrite align_stack_sp, Er by (rewrite Er; lia); done).
  set (b := asp - n - (asp - n) mod 16) in *.
  assert (asp - n - 15 <= b <= asp - n ∧ b mod 16 = 0) as [Bb Mb]
    by (unfold b; clear -n; Z.to_euclidean_division_equations; lia).
  rewrite Ea.
  assert (length (words a (take k args)) = k * word_size a)%nat as Lw
    by (rewrite length_words, length_take_le by (unfold k; lia); done).
  assert (mapped (t_mem s) b (b + Z.of_nat (length (words a (take k args))))) as Hm
    by (rewrite Lw; eapply mapped_sub; [exact Hmap | lia..]).
  step_with (write_proc_run _ _ _ Hm).
  exists b, (align_stack a r n). eexists. split_and!; try done; cbn [t_mem add_t_log set_t_mem].
  - intros q Hq. by apply align_stack_other.
  - lia.
  - lia.
  - rewrite <- Lw. by apply write_bytes_read.
  - by apply write_bytes_mapped.
  - intros x Hx. apply write_bytes_outside. lia.
Qed.

(** The registers before the return address is set. *)
Lemma args_pushed a :
  regs SP < 2 ^ word_bits a →
  ∃ b r1 s1, prepare_call a regs func ret args s = set_call a func ret r1 s1 ∧ r1 SP = b ∧ b mod 16 = 0 ∧
    regs SP - call_room args + 16 <= b <= regs SP ∧ b + Z.of_nat (stack_args a args * word_size a) <= regs SP ∧
    (∀ i x, (i < max_reg_args a)%nat → args !! i = Some x → r1 (G i) = x) ∧
    read_bytes (t_mem s1) b (stack_args a args * word_size a) = words a (take (stack_args a args) args) ∧
    mapped (t_mem s1) (regs SP - call_room args) (regs SP) ∧ same_script s s1 ∧
    (∀ x, regs SP <= x → t_mem s1 !! x = t_mem s !! x).
Proof.
  intros Hb. destruct (aligned_sp a Hb) as (E & B & M). unfold prepare_call.
  destruct (push_args_run a (set_args 0 (take (max_reg_args a) args) (align_stack a regs 0)))
    as (b & r' & s1 & Ep & Eb & Ho & Mb & Lb & Ub & Rb & Mp & Sc & Fr); [by rewrite set_args_aligned|done|].
  exists b, r', s1. step_with Ep. split_and!; try done; [lia|].
  intros i x Hi Hx. rewrite Ho by done. by apply set_args_get.
Qed.

(** On x86 the return address is pushed. *)
Lemma prepared_pushed a :
  a = X86_64 ∨ a = I386 → regs SP < 2 ^ word_bits a → prepared a.
Proof.
  intros Ha Hb. destruct (args_pushed a Hb) as (b & r1 & s1 & Ep & Eb & Mb & Lb & Ub & Ra & Rb & Mp & Sc & Fr).
  unfold prepared. rewrite Ep. unfold call_room in *.
  set (w := Z.of_nat (word_size a)) in *. assert (4 <= w <= 8) as Hw by (unfold w; destruct a; simpl; lia).
  assert (uptr a (r1 SP - w) = b - w) as Eu by (rewrite uptr_small by lia; lia).
  assert (mapped (t_mem s1) (b - w) (b - w + Z.of_nat (length (le_bytes (word_size a) ret)))) as Hm
    by (rewrite length_le_bytes; eapply mapped_sub; [exact Mp | lia..]).
  assert (∃ s', set_call a func ret r1 s1 = (Ret (<[IP := func]> (<[SP := b - w]> r1)), s') ∧ same_script s s' ∧
    t_mem s' = (write_bytes (t_mem s1) (b - w) (le_bytes (word_size a) ret)).1) as (s' & Es & Sc' & Em).
  { unfold set_call. destruct Ha as [-> | ->]; fold w; rewrite Eu, fn_lookup_insert; step_with (write_proc_run _ _ _ Hm);
      eexists; by split_and!. }
  eexists _, s'. split; [exact Es|]. split; [done|]. rewrite Em.
  assert (∀ x, b <= x → (write_bytes (t_mem s1) (b - w) (le_bytes (word_size a) ret)).1 !! x = t_mem s1 !! x) as Ho
    by (intros x Hx; apply write_bytes_outside; rewrite length_le_bytes; fold w; lia).
  assert (ret_size a = w) as Es' by by destruct Ha as [-> | ->].
  constructor; rewrite ?fn_lookup_insert_ne, ?fn_lookup_insert by done.
  - by destruct Ha as [-> | ->].
  - intros i x Hi Hx. rewrite !fn_lookup_insert_ne by done. by apply Ra.
  - rewrite Es', <- Rb. replace (b - w + w) with b by lia. apply read_bytes_ext. intros x Hx. apply Ho. lia.
  - pose proof (proj1 (write_bytes_read _ _ _ Hm)) as Hr. rewrite length_le_bytes in Hr.
    assert ((b - w + w) mod 16 = 0) as Hal by by replace (b - w + w) with b by lia.
    destruct Ha as [-> | ->]; exact (conj Hr Hal).
  - intros x Hx. rewrite Ho by lia. by apply Fr.
Qed.

Lemma prepared_aarch64 : regs SP < 2 ^ 64 → prepared AARCH64.
Proof.
  intros Hb. destruct (args_pushed AARCH64 Hb) as (b & r1 & s1 & Ep & Eb & Mb & _ & _ & Ra & Rb & _ & Sc & Fr).
  unfold prepared. rewrite Ep. do 2 eexists. split; [reflexivity|]. split; [done|].
  constructor; [| | | |done].
  - by rewrite fn_lookup_insert.
  - intros i x Hi Hx. cbn [max_reg_args] in Hi.
    rewrite !fn_lookup_insert_ne by (try intros [=]; (done || lia)). by apply Ra.
  - rewrite !fn_lookup_insert_ne, Eb by done. cbn [ret_size]. by rewrite Z.add_0_r.
  - rewrite fn_lookup_insert_ne, fn_lookup_insert by done. by rewrite !fn_lookup_insert_ne, Eb by done.
Qed.

Lemma land_even x : 0 <= x < 2 ^ 32 → x &&& uptr ARM (-2) = x - x mod 2.
Proof.
  intros Hx. assert (uptr ARM (-2) = Z.ldiff (Z.ones 32) (Z.ones 1)) as -> by by vm_compute.
  rewrite Z.ldiff_land, Z.land_assoc, Z.land_ones by lia. rewrite Z.mod_small by done.
  rewrite <- Z.ldiff_land, Z.ldiff_ones_r, Z.shiftl_mul_pow2, Z.shiftr_div_pow2 by lia.
  change (2 ^ 1) with 2. Z.to_euclidean_division_equations. lia.
Qed.

Lemma prepared_arm : regs SP < 2 ^ 32 → 0 <= func < 2 ^ 32 → prepared ARM.
Proof.
  intros Hb Hf. destruct (args_pushed ARM Hb) as (b & r0 & s1 & Ep & Eb & Mb & _ & _ & Ra & Rb & _ & Sc & Fr).
  unfold prepared. rewrite Ep. unfold set_call. rewrite fn_lookup_insert.
  assert (func &&& 1 = func mod 2) as -> by (change 1 with (Z.ones 1); by rewrite Z.land_ones).
  set (r1 := <[IP := func]> (<[G 14 := ret]> r0)).
  assert (∀ r c, (∀ q, q ≠ IP → q ≠ CPSR → r q = r1 q) →
    r IP = func - func mod 2 → r CPSR = c → Z.testbit c 5 = Z.odd func →
    abi_ready ARM (regs SP) (t_mem s) func ret args r (t_mem s1)) as H.
  { intros r c H1 H2 H3 H4. constructor; [by rewrite H3 | | | |done]; rewrite ?H1 by done; unfold r1.
    - intros i x Hi Hx. cbn [max_reg_args] in Hi. rewrite H1 by done. unfold r1.
      rewrite !fn_lookup_insert_ne by (try intros [=]; (done || lia)). by apply Ra.
    - rewrite !fn_lookup_insert_ne, Eb by done. cbn [ret_size]. by rewrite Z.add_0_r.
    - rewrite fn_lookup_insert_ne, fn_lookup_insert by done. split; [done|]. by rewrite !fn_lookup_insert_ne, Eb by done. }
  rewrite land_even by done.
  assert (Z.odd func = negb (func mod 2 =? 0)) as Ho by (rewrite Zmod_odd; by destruct (Z.odd func)).
  destruct (func mod 2 =? 0) eqn:Ev; cbn [negb] in *; do 2 eexists; (split; [reflexivity|]);
    (split; [done|]).
  - eapply H.
    + intros q H1 H2. by rewrite fn_lookup_insert_ne.
    + rewrite fn_lookup_insert_ne by done. unfold r1. rewrite fn_lookup_insert.
      apply Z.eqb_eq in Ev. lia.
    + by rewrite fn_lookup_insert.
    + rewrite Z.land_spec. change (Z.testbit (uptr ARM (Z.lnot CPSR_T_MASK)) 5) with false.
      by rewrite andb_false_r.
  - eapply H.
    + intros q H1 H2. by rewrite !fn_lookup_insert_ne.
    + rewrite fn_lookup_insert_ne, fn_lookup_insert by done. done.
    + by rewrite fn_lookup_insert.
    + rewrite Z.lor_spec. change (Z.testbit CPSR_T_MASK 5) with true. by rewrite orb_true_r.
Qed.
End calls.

Lemma prepare_call_ready a regs func ret args s :
  call_room args <= regs SP < 2 ^ word_bits a → 0 <= func < 2 ^ word_bits a →
  mapped (t_mem s) (regs SP - call_room args) (regs SP) →
  prepared regs func ret args s a.
Proof.
  intros [Hr Hb] Hf Hm.
  destruct a; [apply prepared_pushed | apply prepared_pushed | apply prepared_aarch64 | apply prepared_arm]; auto.
Qed.

(** ** Running *)

Lemma set_regs_run r s :
  t_regs_ok s = [] → set_regs r s = (Ret true, add_t_log (TSetRegs r) (set_t_regs r s)).
Proof. intros H. unfold set_regs, next_regs_ok. destruct s; simpl in *. by subst. Qed.

Lemma get_regs_run s : t_regs_ok s = [] → get_regs s = (Ret (Some (t_regs s)), s).
Proof. intros H. unfold get_regs, next_regs_ok. destruct s; simpl in *. by subst. Qed.

Lemma ptrace_cont_run s f fs r m w :
  t_cont_ok s = [] → t_resumes s = f :: fs → f (t_regs s) (t_mem s) = (r, m, w) →
  ptrace_cont s =
    (Ret true, mkProc r m (t_waits s ++ w) fs [] (t_regs_ok s) (t_scans s) (t_log s ++ [TCont])).
Proof.
  intros Hc Hs Hf. unfold ptrace_cont. destruct s; simpl in *; subst. simpl. unfold t_emit.
  step. step. cbn [when default from_option head]. unfold mbind, prog_bind, modify. cbn. by rewrite Hf.
Qed.

Lemma wait_for_trace_run s st w :
  t_waits s = WaStatus st :: w → WIFSTOPPED st = true →
  wait_for_trace s = (Ret st, set_t_waits w s).
Proof.
  intros Hw Hst. unfold wait_for_trace. step. rewrite Hw. cbn [wait_loop]. step. by rewrite Hst.
Qed.

(** C6 A remote call, on each of the four architectures and with any number of arguments, when there is
    mapped stack for it and ptrace does not fail: the function is entered with its arguments in
    the registers of its calling convention, an aligned stack, the return address and the Thumb
    bit, with nothing at or above the stack pointer overwritten; if the function returns, that is,
    the process faults at the return address, the call yields its result, and 0 if the process
    stops anywhere else or for another reason.  Of the arguments that go to the stack there are as
    many words as there should be, but they are those of the first arguments: right on x86, where
    every argument goes there, and wrong on the others once there is one too many for the registers. *)
Theorem remote_call_spec a regs func ret args s f fs :
  call_room args <= regs SP < 2 ^ word_bits a → 0 <= func < 2 ^ word_bits a →
  mapped (t_mem s) (regs SP - call_room args) (regs SP) →
  t_waits s = [] → t_resumes s = f :: fs → t_cont_ok s = [] → t_regs_ok s = [] →
  ∃ r m, abi_ready a (regs SP) (t_mem s) func ret args r m ∧
    ∀ r' m' st, f r m = (r', m', [WaStatus st]) → WIFSTOPPED st = true →
      ∃ s', remote_call a regs func ret args s =
        (Ret (if (WSTOPSIG st =? SIGSEGV) && (r' IP =? ret) then r' (REG_RET a) else 0, r'), s') ∧
        t_regs s' = r' ∧ t_mem s' = m'.
Proof.
  intros Hr Hf Hm Hw Hs Hc Ho.
  destruct (prepare_call_ready a regs func ret args s Hr Hf Hm) as (r & s1 & E & Sc & R).
  exists r, (t_mem s1). split; [done|]. intros r' m' st Ef Hst.
  destruct Sc as (S1 & S2 & S3 & S4 & S5). unfold remote_call. unfold prepare_call in E.
  rewrite <- prog_bind_assoc. step_with E.
  step_with (set_regs_run r s1 ltac:(congruence)). cbn [negb].
  step_with (ptrace_cont_run (add_t_log (TSetRegs r) (set_t_regs r s1)) f fs r' m' _
    ltac:(cbn; congruence) ltac:(cbn; congruence) Ef).
  erewrite bind_run by (apply wait_for_trace_run; [cbn; rewrite S1, Hw; reflexivity | done]).
  cbv beta. erewrite bind_run by (apply get_regs_run; cbn; congruence). cbv beta.
  cbn [t_regs set_t_waits]. destruct (WSTOPSIG st =? SIGSEGV); cbn [andb];
    [destruct (r' IP =? ret)|]; eexists; by split; [reflexivity|].
Qed.

(** A function that returns 42 to the address it was given. *)
Definition demo_resume (ret : Z) : resume := λ r m,
  (<[IP := ret]> (<[G 6 := 42]> r), m, [WaStatus (stop_status SIGSEGV 0)]).
Definition demo_callee : tproc :=
  mkProc (demo_regs 4101) (demo_mem 4000 200) [] [demo_resume 777] [] [] [] [].

Lemma remote_call_spec_witness :
  ∃ r' s', remote_call X86_64 (demo_regs 4101) 1234 777 [1; 2] demo_callee = (Ret (42, r'), s').
Proof.
  destruct (remote_call_spec X86_64 (demo_regs 4101) 1234 777 [1; 2] demo_callee (demo_resume 777) [])
    as (r & m & _ & H); try done; try (by vm_compute).
  - apply (mapped_sub _ 4000 (4000 + Z.of_nat 200)); [apply demo_mem_mapped | by vm_compute ..].
  - destruct (H _ _ _ eq_refl eq_refl) as (s' & E & _). rewrite fn_lookup_insert in E.
    rewrite fn_lookup_insert_ne, fn_lookup_insert in E by done. by eexists _, s'.
Defined.
