(* ===== verification/SoList.v ===== *)
(** * SoList: hiding the libraries from the linker's list

    [include/solist.hpp]: finding the dynamic linker's list of libraries through its symbols, and
    overwriting the paths of those whose path holds a given word.  The memory of the process is
    that of [Remote]; the linker's symbols come through the interface [Linker], which the images of
    [Elf] implement; what [soinfo::get_realpath] and [soinfo::get_soname] of the linker answer for
    an element is a parameter. *)

From Stdlib Require Import ZArith Lia Ascii.
From stdpp Require Import base tactics strings list gmap numbers.
From S2P Require Import Prelude Remote.
From S2P Require Elf.

(** What the list needs from an image of the linker: the address of a symbol, 0 without one. *)
Class Linker (T : Type) : Type := getSymbAddress : T → bytes → Z.

#[export] Instance elf_linker : Linker (bool * nat * Elf.ElfImg) := λ t name,
  let '(lp64, fuel, img) := t in
  match (Elf.getSymbAddress lp64 fuel name img).1 with Ret a => a | _ => 0 end.

Record so_state : Type := mkSo {
  so_mem : mem;
  solist : Z;
  somain : Z;
  solist_next_offset : Z;
  get_realpath_sym : Z;
  get_soname_sym : Z
}.

Definition set_so_mem m s := mkSo m (solist s) (somain s) (solist_next_offset s) (get_realpath_sym s)
  (get_soname_sym s).

Section solist.
Context (ws : nat).                          (* [sizeof(void * )] *)
Context (realpath soname : Z → Z).           (* where the linker's functions say the texts are *)
Context (c_str : Z → Z).                     (* [std::string::c_str] of the string at an address *)
Context (empty_string : Z).                  (* the address of the static [empty_string] *)
Context (max_text : nat).                    (* a bound on the texts in memory *)

Definition solist_realpath_offset : Z := if (ws =? 8)%nat then 0x1a8 else 0x174.

(** A pointer in memory; the process dies on an unmapped address. *)
Definition read_word (addr : Z) : prog so_state Z :=
  s ← get;
  let b := read_bytes (so_mem s) addr ws in
  if (length b =? ws)%nat then mret (le_val b) else crash OutOfBounds.

(** The C string at an address. *)
Definition text_at (m : mem) (addr : Z) : option bytes :=
  let b := read_bytes m addr max_text in
  if bool_decide (NUL ∈ b) then Some (cstr b) else None.

Definition read_text (addr : Z) : prog so_state bytes :=
  s ← get; match text_at (so_mem s) addr with Some t => mret t | None => crash OutOfBounds end.

Definition get_next (this : Z) : prog so_state Z := s ← get; read_word (this + solist_next_offset s).

Definition get_path (this : Z) : prog so_state Z :=
  s ← get; mret (if get_realpath_sym s =? 0 then c_str (this + solist_realpath_offset) else realpath this).

Definition get_name (this : Z) : prog so_state Z :=
  s ← get;
  if get_soname_sym s =? 0 then read_word (this + solist_realpath_offset - Z.of_nat ws)
  else mret (soname this).

(** The pointer the linker's function returns is taken for a pointer to a pointer: the first bytes
    of the text are overwritten with an address. *)
Definition nullify_path (this : Z) : prog so_state unit :=
  s ← get;
  if get_realpath_sym s =? 0 then crash NullDeref
  else
    let '(m, k) := write_bytes (so_mem s) (realpath this) (le_bytes ws empty_string) in
    if (k =? ws)%nat then put (set_so_mem m s) else crash OutOfBounds.

Definition nullify_name (this : Z) : prog so_state unit :=
  s ← get;
  if get_soname_sym s =? 0 then crash NullDeref
  else
    let '(m, k) := write_bytes (so_mem s) (soname this) (le_bytes ws empty_string) in
    if (k =? ws)%nat then put (set_so_mem m s) else crash OutOfBounds.

(** The test of both loops. *)
Definition matches (target_name : bytes) (iter : Z) : prog so_state bool :=
  n ← get_name iter;
  if n =? 0 then mret false
  else
    p ← get_path iter;
    if p =? 0 then mret false
    else t ← read_text p; mret (contains target_name t).

(** [stop]: whether the loop ends at the first match. *)
Fixpoint nullify_loop (fuel : nat) (stop : bool) (target_name : bytes) (iter : Z) : prog so_state unit :=
  if iter =? 0 then mret tt
  else
    match fuel with
    | O => no_fuel
    | S fuel =>
        found ← matches target_name iter;
        when found (nullify_path iter);;
        if found && stop then mret tt
        else next ← get_next iter; nullify_loop fuel stop target_name next
    end.

Definition NullifySoName (fuel : nat) (target_name : bytes) : prog so_state unit :=
  s ← get;
  nullify_loop fuel false target_name (solist s);;
  s ← get;
  nullify_loop fuel true target_name (somain s).

(** ** Finding the list *)

Section init.
Context {T : Type} `{Linker T} (linker : T).

Definition getStaticPointer (name : bytes) : prog so_state Z :=
  let addr := getSymbAddress linker name in
  if addr =? 0 then mret 0 else read_word addr.

(** The loop over the words of the first element, [n] of them left. *)
Fixpoint find_next_offset (n : nat) (off vdso : Z) : prog so_state unit :=
  match n with
  | O => mret tt
  | S n =>
      s ← get;
      possible_next ← read_word (solist s + off);
      if (possible_next =? somain s) || (negb (vdso =? 0) && (possible_next =? vdso))
      then modify (λ s, mkSo (so_mem s) (solist s) (somain s) off (get_realpath_sym s) (get_soname_sym s))
      else find_next_offset n (off + Z.of_nat ws) vdso
  end.

Definition Initialize : prog so_state bool :=
  l ← getStaticPointer (txt "__dl__ZL6solist");
  modify (λ s, mkSo (so_mem s) l (somain s) (solist_next_offset s) (get_realpath_sym s) (get_soname_sym s));;
  m ← getStaticPointer (txt "__dl__ZL6somain");
  modify (λ s, mkSo (so_mem s) (solist s) m (solist_next_offset s) (get_realpath_sym s) (get_soname_sym s));;
  if (l =? 0) || (m =? 0) then mret false
  else
    let rp := getSymbAddress linker (txt "__dl__ZNK6soinfo12get_realpathEv") in
    let sn := getSymbAddress linker (txt "__dl__ZNK6soinfo10get_sonameEv") in
    modify (λ s, mkSo (so_mem s) (solist s) (somain s) (solist_next_offset s) rp sn);;
    vdso ← getStaticPointer (txt "__dl__ZL4vdso");
    find_next_offset (1024 / ws) 0 vdso;;
    mret (negb (rp =? 0) && negb (sn =? 0)).

(** What [run_modules_post] does with the list. *)
Definition hide_libraries (fuel : nat) (target_name : bytes) : prog so_state unit :=
  solist_res ← Initialize;
  when solist_res (NullifySoName fuel target_name).
End init.

(** ** What the clean-up does to a list

    The list as the linker keeps it: elements chained through the offset, each with a text of its
    own that does not overlap the links or the other texts. *)

Fixpoint chain (m : mem) (off head : Z) (nodes : list (Z * bytes)) : Prop :=
  match nodes with
  | [] => head = 0
  | n :: nodes =>
      head = n.1 ∧ n.1 ≠ 0 ∧ length (read_bytes m (n.1 + off) ws) = ws ∧
      chain m off (le_val (read_bytes m (n.1 + off) ws)) nodes
  end.

Definition has_text (m : mem) (n : Z * bytes) : Prop :=
  no_nul n.2 ∧ (length n.2 < max_text)%nat ∧
  read_bytes m (realpath n.1) (length n.2 + 1) = n.2 ++ [NUL].

Definition apart (a la b lb : Z) : Prop := a + la <= b ∨ b + lb <= a.

Definition text_room (n : Z * bytes) : Z := Z.of_nat (length n.2) + 1.

Definition texts_apart (n n' : Z * bytes) : Prop :=
  apart (realpath n.1) (text_room n) (realpath n'.1) (text_room n').

Definition links_apart (off : Z) (nodes : list (Z * bytes)) : Prop :=
  ∀ n n', n ∈ nodes → n' ∈ nodes →
    apart (n.1 + off) (Z.of_nat ws) (realpath n'.1) (text_room n').

(** The bytes that the clean-up may change. *)
Definition patched (target : bytes) (nodes : list (Z * bytes)) (x : Z) : Prop :=
  ∃ n, n ∈ nodes ∧ contains target n.2 = true ∧ realpath n.1 <= x < realpath n.1 + Z.of_nat ws.

Record listed (s : so_state) (nodes : list (Z * bytes)) : Prop := {
  li_realpath : get_realpath_sym s ≠ 0;
  li_soname : get_soname_sym s ≠ 0;
  li_chain : chain (so_mem s) (solist_next_offset s) (solist s) nodes;
  li_named : Forall (λ n, soname n.1 ≠ 0 ∧ realpath n.1 ≠ 0) nodes;
  li_texts : Forall (has_text (so_mem s)) nodes;
  li_links : links_apart (solist_next_offset s) nodes;
  li_apart : ForallOrdPairs texts_apart nodes
}.

Lemma chain_ext m m' off head nodes :
  (∀ n x, n ∈ nodes → n.1 + off <= x < n.1 + off + Z.of_nat ws → m !! x = m' !! x) →
  chain m off head nodes → chain m' off head nodes.
Proof.
  revert head. induction nodes as [|n nodes IH]; intros head H; [done|]. cbn [chain].
  rewrite <- (read_bytes_ext m m') by (intros x Hx; by apply (H n x (list_elem_of_here _ _))).
  intros (-> & ? & ? & Hc). repeat split; try done. apply IH; [|done].
  intros n' x Hn. apply H. by apply list_elem_of_further.
Qed.

Lemma has_text_ext m m' n :
  (∀ x, realpath n.1 <= x < realpath n.1 + text_room n → m !! x = m' !! x) →
  has_text m n → has_text m' n.
Proof.
  unfold has_text, text_room. intros H (? & ? & E). repeat split; try done. rewrite <- E. symmetry.
  apply read_bytes_ext. intros x Hx. apply H. lia.
Qed.

Lemma has_text_length m n : has_text m n → length (read_bytes m (realpath n.1) (length n.2 + 1)) = (length n.2 + 1)%nat.
Proof. intros (_ & _ & ->). by rewrite length_app. Qed.

(** [strlen] and friends see exactly that text. *)
Lemma text_at_intro m addr t :
  no_nul t → (length t < max_text)%nat → read_bytes m addr (length t + 1) = t ++ [NUL] →
  text_at m addr = Some t.
Proof.
  intros Hn Hl E. unfold text_at.
  replace max_text with ((length t + 1) + (max_text - (length t + 1)))%nat by lia.
  rewrite read_bytes_app, E by (rewrite E, length_app; done). rewrite <- app_assoc. cbn [app].
  rewrite bool_decide_eq_true_2 by (apply elem_of_app; right; apply list_elem_of_here).
  by rewrite cstr_nul.
Qed.

Lemma contains_length p t : contains p t = true → (length p <= length t)%nat.
Proof. intros [k E]%bool_decide_eq_true_1. apply find_sub_bound in E. lia. Qed.

Lemma read_bytes_mapped m addr n : length (read_bytes m addr n) = n → mapped m addr (addr + Z.of_nat n).
Proof.
  revert addr. induction n as [|n IH]; intros addr H x Hx; [lia|]. cbn [read_bytes] in H.
  destruct (m !! addr) eqn:E; [|done]. cbn [length] in H.
  destruct (decide (x = addr)) as [->|]; [by rewrite E|]. apply (IH (addr + 1)); lia.
Qed.

Lemma matches_run s target n :
  get_realpath_sym s ≠ 0 → get_soname_sym s ≠ 0 → soname n.1 ≠ 0 → realpath n.1 ≠ 0 →
  has_text (so_mem s) n →
  matches target n.1 s = (Ret (contains target n.2), s).
Proof.
  intros H1 H2 H3 H4 (Hn & Hl & E). unfold matches, get_name, get_path, read_text.
  rewrite prog_bind_assoc. step. rewrite (proj2 (Z.eqb_neq _ _) H2).
  step. rewrite (proj2 (Z.eqb_neq _ _) H3). rewrite prog_bind_assoc. step.
  rewrite (proj2 (Z.eqb_neq _ _) H1). step. rewrite (proj2 (Z.eqb_neq _ _) H4).
  rewrite prog_bind_assoc. step. by rewrite (text_at_intro _ _ _ Hn Hl E).
Qed.

Lemma get_next_run s n :
  length (read_bytes (so_mem s) (n + solist_next_offset s) ws) = ws →
  get_next n s = (Ret (le_val (read_bytes (so_mem s) (n + solist_next_offset s) ws)), s).
Proof. intros E. unfold get_next, read_word. step. step. by rewrite E, Nat.eqb_refl. Qed.

(** A list on which nothing matches is left alone by either loop. *)
Lemma nullify_loop_idle fuel stop target nodes head s :
  get_realpath_sym s ≠ 0 → get_soname_sym s ≠ 0 →
  chain (so_mem s) (solist_next_offset s) head nodes →
  Forall (λ n, soname n.1 ≠ 0 ∧ realpath n.1 ≠ 0) nodes →
  Forall (has_text (so_mem s)) nodes → Forall (λ n, contains target n.2 = false) nodes →
  (length nodes <= fuel)%nat →
  nullify_loop fuel stop target head s = (Ret tt, s).
Proof.
  intros H1 H2. revert fuel head. induction nodes as [|n nodes IH]; intros fuel head Hc Hn Ht Hm Hf.
  { cbn [chain] in Hc. subst head. by destruct fuel. }
  destruct Hc as (-> & Hz & Hl & Hc). destruct fuel as [|fuel]; [cbn [length] in Hf; lia|].
  inversion Hn as [|? ? [N1 N2] Hn']; inversion Ht as [|? ? T Ht']; inversion Hm as [|? ? C Hm']; subst.
  cbn [nullify_loop]. rewrite (proj2 (Z.eqb_neq _ _) Hz).
  step_with (matches_run s target n H1 H2 N1 N2 T). rewrite C. cbn [andb when]. step.
  step_with (get_next_run s n.1 Hl). apply IH; try done. cbn [length] in Hf. lia.
Qed.

(** One element: its text is overwritten when it matches. *)
Lemma patch_run target n s :
  get_realpath_sym s ≠ 0 → has_text (so_mem s) n → (ws <= length target)%nat →
  ∃ m, when (contains target n.2) (nullify_path n.1) s = (Ret tt, set_so_mem m s) ∧
    (∀ x, ¬ patched target [n] x → m !! x = so_mem s !! x) ∧
    (contains target n.2 = true → read_bytes m (realpath n.1) ws = le_bytes ws empty_string).
Proof.
  intros H1 T Hw. destruct (contains target n.2) eqn:C; cbn [when].
  2:{ exists (so_mem s). by destruct s. }
  pose proof (contains_length _ _ C) as Hl.
  pose proof (read_bytes_mapped _ _ _ (has_text_length _ _ T)) as Hm.
  set (d := le_bytes ws empty_string). assert (Ld : length d = ws) by apply length_le_bytes.
  destruct (write_bytes_read (so_mem s) (realpath n.1) d) as [R K].
  { apply (mapped_sub _ _ _ _ _ Hm); lia. }
  exists (write_bytes (so_mem s) (realpath n.1) d).1. split; [|split].
  - unfold nullify_path. step. rewrite (proj2 (Z.eqb_neq _ _) H1). fold d.
    destruct (write_bytes (so_mem s) (realpath n.1) d) as [m k]. cbn [fst snd] in *.
    by rewrite K, Ld, Nat.eqb_refl.
  - intros x Hx. apply write_bytes_outside. rewrite Ld.
    destruct (decide (x < realpath n.1)) as [|L1]; [by left|].
    destruct (decide (realpath n.1 + Z.of_nat ws <= x)) as [|L2]; [by right|].
    exfalso. apply Hx. exists n. split; [apply list_elem_of_here | split; [done | lia]].
  - intros _. by rewrite <- Ld at 1.
Qed.

Lemma patched_in_text target (n : Z * bytes) x :
  (ws <= length target)%nat → contains target n.2 = true →
  realpath n.1 <= x < realpath n.1 + Z.of_nat ws → realpath n.1 <= x < realpath n.1 + text_room n.
Proof. intros Hw C%contains_length Hx. unfold text_room. lia. Qed.

(** The links are no part of a text. *)
Lemma link_not_patched off target nodes nodes' n x :
  (ws <= length target)%nat → links_apart off nodes → nodes' ⊆ nodes → n ∈ nodes →
  n.1 + off <= x < n.1 + off + Z.of_nat ws → ¬ patched target nodes' x.
Proof.
  intros Hw Hl Hs Hn Hx (n' & Hn' & C & Hx'). apply Hs in Hn'.
  pose proof (patched_in_text target n' x Hw C Hx').
  destruct (Hl n n' Hn Hn'); lia.
Qed.

(** A text apart from others is not touched when they are patched. *)
Lemma text_not_patched target nodes n x :
  (ws <= length target)%nat → Forall (texts_apart n) nodes →
  realpath n.1 <= x < realpath n.1 + text_room n → ¬ patched target nodes x.
Proof.
  intros Hw Ha Hx (n' & Hn' & C & Hx').
  pose proof (patched_in_text target n' x Hw C Hx').
  rewrite list.Forall_forall in Ha. destruct (Ha n' Hn'); lia.
Qed.

Lemma texts_apart_sym n n' : texts_apart n n' → texts_apart n' n.
Proof. unfold texts_apart, apart. lia. Qed.

Lemma patched_cons target n nodes x :
  patched target (n :: nodes) x ↔ patched target [n] x ∨ patched target nodes x.
Proof.
  unfold patched. split.
  - intros (n' & [->|]%elem_of_cons & ?); [left; exists n | right; by exists n'].
    split; [apply list_elem_of_here | done].
  - intros [(n' & ->%list_elem_of_singleton & ?)|(n' & ? & ?)].
    + exists n. split; [apply list_elem_of_here | done].
    + exists n'. split; [by apply list_elem_of_further | done].
Qed.

Lemma nullify_loop_run fuel target nodes head s :
  get_realpath_sym s ≠ 0 → get_soname_sym s ≠ 0 →
  chain (so_mem s) (solist_next_offset s) head nodes →
  Forall (λ n, soname n.1 ≠ 0 ∧ realpath n.1 ≠ 0) nodes →
  Forall (has_text (so_mem s)) nodes → links_apart (solist_next_offset s) nodes →
  ForallOrdPairs texts_apart nodes → (ws <= length target)%nat → (length nodes <= fuel)%nat →
  ∃ m, nullify_loop fuel false target head s = (Ret tt, set_so_mem m s) ∧
    (∀ x, ¬ patched target nodes x → m !! x = so_mem s !! x) ∧
    (∀ n, n ∈ nodes → contains target n.2 = true → read_bytes m (realpath n.1) ws = le_bytes ws empty_string).
Proof.
  intros H1 H2 Hc Hn Ht Hl Ha Hw. revert fuel head s H1 H2 Hc Ht Hl.
  induction nodes as [|n nodes IH]; intros fuel head s H1 H2 Hc Ht Hl Hf.
  { cbn [chain] in Hc. subst head. exists (so_mem s). destruct s, fuel; (split; [done|split; [done|]]);
      by intros ? ?%elem_of_nil. }
  destruct Hc as (-> & Hz & Hlen & Hc). destruct fuel as [|fuel]; [cbn [length] in Hf; lia|].
  inversion Hn as [|? ? [N1 N2] Hn']; inversion Ht as [|? ? T Ht']; inversion Ha as [|? ? A Ha']; subst.
  destruct (patch_run target n s H1 T Hw) as (m1 & E1 & F1 & R1).
  assert (Hsub : links_apart (solist_next_offset s) nodes).
  { intros a b Ia Ib. apply Hl; by apply list_elem_of_further. }
  assert (Hlink : ∀ k x, k ∈ n :: nodes → k.1 + solist_next_offset s <= x < k.1 + solist_next_offset s + Z.of_nat ws →
    so_mem s !! x = m1 !! x).
  { intros k x Hk Hx. symmetry. apply F1. eapply (link_not_patched _ _ (n :: nodes)); try done.
    intros y ->%list_elem_of_singleton. apply list_elem_of_here. }
  assert (Hnext : read_bytes m1 (n.1 + solist_next_offset s) ws = read_bytes (so_mem s) (n.1 + solist_next_offset s) ws).
  { symmetry. apply read_bytes_ext. intros x. apply Hlink, list_elem_of_here. }
  destruct (IH Hn' Ha' fuel (le_val (read_bytes m1 (n.1 + solist_next_offset s) ws)) (set_so_mem m1 s))
    as (m2 & E2 & F2 & R2); try done.
  { cbn [so_mem solist_next_offset set_so_mem]. rewrite Hnext. eapply chain_ext; [|exact Hc].
    intros k x Hk. apply Hlink. by apply list_elem_of_further. }
  { cbn [so_mem set_so_mem]. rewrite list.Forall_forall in Ht', A |- *. intros k Hk.
    eapply has_text_ext; [|by apply Ht']. intros x Hx. symmetry. apply F1.
    eapply (text_not_patched _ _ k); [done| |done]. apply list.Forall_singleton.
    by apply texts_apart_sym, A. }
  { cbn [length] in Hf. lia. }
  exists m2. split; [|split].
  - cbn [nullify_loop]. rewrite (proj2 (Z.eqb_neq _ _) Hz).
    step_with (matches_run s target n H1 H2 N1 N2 T). step_with E1. rewrite andb_false_r.
    rewrite <- Hnext in Hlen. step_with (get_next_run (set_so_mem m1 s) n.1 Hlen). exact E2.
  - intros x Hx. rewrite patched_cons in Hx. rewrite F2 by tauto. apply F1. tauto.
  - intros k [->|Hk]%elem_of_cons C; [|by apply R2]. rewrite <- (R1 C). apply read_bytes_ext.
    intros x Hx. apply F2. eapply (text_not_patched _ _ n); [done..|].
    by eapply patched_in_text; [..|lia].
Qed.

(** What a text becomes. *)
Definition cleared (target : bytes) (n : Z * bytes) : Z * bytes :=
  if contains target n.2 then (n.1, cstr (le_bytes ws empty_string)) else n.

Lemma cstr_split (b : bytes) : NUL ∈ b → ∃ r, b = cstr b ++ NUL :: r.
Proof.
  induction b as [|c b IH]; [by intros ?%elem_of_nil|]. cbn [cstr]. intros H.
  case_bool_decide as E; [subst c; by exists b|].
  apply elem_of_cons in H as [e|H]; [by destruct E|]. destruct (IH H) as [r Er].
  exists r. cbn [app]. by rewrite <- Er.
Qed.

Lemma read_bytes_take m addr k n : (k <= n)%nat → read_bytes m addr k = take k (read_bytes m addr n).
Proof.
  revert addr n. induction k as [|k IH]; intros addr n H; [done|]. destruct n as [|n]; [lia|].
  cbn [read_bytes]. destruct (m !! addr); [|done]. cbn [take]. f_equal. apply IH. lia.
Qed.

Section hiding.
Context (target : bytes) (s : so_state) (nodes : list (Z * bytes)) (m : mem).
Hypothesis Hlist : listed s nodes.
Hypothesis Hlong : (ws <= length target)%nat.
Hypothesis Hnul : NUL ∈ le_bytes ws empty_string.
Hypothesis Hframe : ∀ x, ¬ patched target nodes x → m !! x = so_mem s !! x.
Hypothesis Hpatch : ∀ n, n ∈ nodes → contains target n.2 = true →
  read_bytes m (realpath n.1) ws = le_bytes ws empty_string.

Lemma cstr_address : (length (cstr (le_bytes ws empty_string)) < ws)%nat.
Proof.
  destruct (cstr_split _ Hnul) as [r E]. pose proof (length_le_bytes ws empty_string) as L.
  rewrite E, length_app in L. cbn [length] in L. lia.
Qed.

Lemma cleared_unmatched n : contains target (cleared target n).2 = false.
Proof.
  unfold cleared. destruct (contains target n.2) eqn:C; [|done]. cbn [snd].
  destruct (contains target (cstr _)) eqn:C'; [|done]. apply contains_length in C'.
  pose proof cstr_address. lia.
Qed.

Lemma cleared_shorter n : text_room (cleared target n) <= text_room n.
Proof.
  unfold cleared, text_room. destruct (contains target n.2) eqn:C; [|lia]. cbn [snd].
  apply contains_length in C. pose proof cstr_address. lia.
Qed.

Lemma cleared_addr n : (cleared target n).1 = n.1.
Proof. unfold cleared. by destruct (contains _ _). Qed.

Lemma kept_text n : n ∈ nodes → contains target n.2 = false →
  ∀ x, realpath n.1 <= x < realpath n.1 + text_room n → ¬ patched target nodes x.
Proof.
  intros Hn C x Hx (n' & Hn' & C' & Hx').
  pose proof (patched_in_text target n' x Hlong C' Hx') as Hi.
  pose proof (li_apart _ _ Hlist) as Ha. rewrite list_elem_of_In in Hn, Hn'.
  destruct (ForallOrdPairs_In Ha _ _ Hn Hn') as [->|[H|H]]; [congruence|..]; destruct H; lia.
Qed.

Lemma cleared_text n : n ∈ nodes → has_text m (cleared target n).
Proof.
  intros Hn. pose proof (proj1 (list.Forall_forall _ _) (li_texts _ _ Hlist) n Hn) as T.
  unfold cleared. destruct (contains target n.2) eqn:C.
  - pose proof cstr_address as Hs. pose proof (contains_length _ _ C). destruct T as (_ & Hl & _).
    split; [apply cstr_no_nul|]. cbn [fst snd]. split; [lia|].
    rewrite (read_bytes_take _ _ _ ws), (Hpatch n Hn C) by lia.
    destruct (cstr_split _ Hnul) as [r E]. set (t := cstr _) in *. rewrite E, firstn_app, take_ge by lia.
    f_equal. by replace (length t + 1 - length t)%nat with 1%nat by lia.
  - eapply has_text_ext; [|exact T]. intros x Hx. symmetry. apply Hframe. by eapply kept_text.
Qed.

Lemma cleared_listed : listed (set_so_mem m s) (cleared target <$> nodes).
Proof.
  pose proof Hlist as [H1 H2 Hc Hn Ht Hl Ha]. constructor; try done.
  - cbn [so_mem solist_next_offset solist set_so_mem].
    assert (G : chain m (solist_next_offset s) (solist s) nodes).
    { eapply chain_ext; [|exact Hc]. intros n x Hi Hx. symmetry. apply Hframe.
      by eapply (link_not_patched _ _ nodes). }
    clear -G. revert G. generalize (solist s). induction nodes as [|n l IH]; [done|]. intros h.
    cbn [fmap list_fmap chain]. rewrite cleared_addr. intros (-> & ? & ? & G). auto.
  - apply Forall_fmap. eapply Forall_impl; [|exact Hn]. intros n. cbn. by rewrite cleared_addr.
  - apply Forall_fmap, list.Forall_forall. intros n Hi. by apply cleared_text.
  - intros n n' (a & -> & Ia)%list_elem_of_fmap (b & -> & Ib)%list_elem_of_fmap.
    pose proof (Hl a b Ia Ib) as H. pose proof (cleared_shorter b). rewrite !cleared_addr.
    unfold apart in *. cbn [solist_next_offset set_so_mem]. lia.
  - clear -Ha Hlong Hnul. induction Ha as [|n l F Ha IH]; [constructor|]. cbn [fmap list_fmap].
    constructor; [|done]. apply Forall_fmap. eapply Forall_impl; [|exact F]. intros n' H. cbn.
    unfold texts_apart, apart in *. rewrite !cleared_addr.
    pose proof (cleared_shorter n). pose proof (cleared_shorter n'). lia.
Qed.
End hiding.

Lemma chain_suffix m off pre main head :
  chain m off head (pre ++ main) → chain m off (from_option fst 0 (list.head main)) main.
Proof.
  revert head. induction pre as [|n pre IH]; intros h; [|intros (_ & _ & _ & H); by eapply IH].
  destruct main as [|n main]; [done|]. by intros (-> & ? & ? & ?).
Qed.

(** [NullifySoName] hides every library whose path holds the word, when the word is at least as long
    as a pointer and the address it writes has a zero byte (as every 64-bit user address): it
    returns, afterwards the linker's list is chained as before, no path of it holds the word, the
    paths that did not hold it are unchanged, and so is all other memory. *)
Theorem NullifySoName_hides fuel target pre main s :
  listed s (pre ++ main) → somain s = from_option fst 0 (list.head main) →
  (ws <= length target)%nat → NUL ∈ le_bytes ws empty_string →
  (length (pre ++ main) <= fuel)%nat →
  ∃ m, NullifySoName fuel target s = (Ret tt, set_so_mem m s) ∧
    listed (set_so_mem m s) (cleared target <$> pre ++ main) ∧
    (∀ n, n ∈ pre ++ main → ∃ t, text_at m (realpath n.1) = Some t ∧ contains target t = false ∧
      (contains target n.2 = false → t = n.2)) ∧
    (∀ x, ¬ patched target (pre ++ main) x → m !! x = so_mem s !! x).
Proof.
  intros Hlist Hmain Hw Hnul Hf. pose proof Hlist as [H1 H2 Hc Hn Ht Hl Ha].
  destruct (nullify_loop_run fuel target (pre ++ main) (solist s) s) as (m & E & F & R); try done.
  pose proof (cleared_listed target s _ m Hlist Hw Hnul F R) as Hlist'.
  exists m. split; [|split; [done | split; [|done]]].
  - unfold NullifySoName. step. step_with E. step. cbn [somain set_so_mem].
    pose proof Hlist' as [_ _ Hc' Hn' Ht' _ _].
    rewrite fmap_app in Hc', Hn', Ht'. apply (nullify_loop_idle _ _ _ (cleared target <$> main)); try done.
    + apply chain_suffix in Hc'. cbn [so_mem solist_next_offset set_so_mem] in *. rewrite Hmain.
      destruct main as [|n main]; [done|]. cbn [fmap list_fmap list.head from_option] in Hc'.
      by rewrite cleared_addr in Hc'.
    + by apply Forall_app in Hn' as [_ ?].
    + by apply Forall_app in Ht' as [_ ?].
    + apply Forall_fmap, list.Forall_forall. intros n _. by apply cleared_unmatched.
    + rewrite length_fmap. rewrite length_app in Hf. lia.
  - intros n Hi. destruct (cleared_text target s _ m Hlist Hw Hnul F R n Hi) as (T1 & T2 & T3).
    exists (cleared target n).2. rewrite cleared_addr in T3. split; [by apply text_at_intro|].
    split; [by apply cleared_unmatched|]. intros C. unfold cleared. by rewrite C.
Qed.

(** ** Finding the list, and clearing it *)

Section found.
Context {T : Type} `{Linker T} (linker : T).

Definition pointer (m : mem) (addr v : Z) : Prop :=
  length (read_bytes m addr ws) = ws ∧ le_val (read_bytes m addr ws) = v.

(** The test of [Initialize] on a word of the first element. *)
Definition links_on (main vdso x : Z) : bool := (x =? main) || (negb (vdso =? 0) && (x =? vdso)).

(** The static pointer behind a symbol is [v]; without the symbol, [v] is null. *)
Definition static_is (m : mem) (name : bytes) (v : Z) : Prop :=
  (getSymbAddress linker name = 0 ∧ v = 0) ∨
  (getSymbAddress linker name ≠ 0 ∧ pointer m (getSymbAddress linker name) v).

(** The linker as [Initialize] expects it: the symbols are there, and word [k] of the first element
    is the first that holds the address of the main program or of the vdso. *)
Record linker_ready (m : mem) (l main vdso : Z) (k : nat) : Prop := {
  lr_solist : static_is m (txt "__dl__ZL6solist") l;
  lr_somain : static_is m (txt "__dl__ZL6somain") main;
  lr_vdso : static_is m (txt "__dl__ZL4vdso") vdso;
  lr_found : l ≠ 0 ∧ main ≠ 0;
  lr_realpath : getSymbAddress linker (txt "__dl__ZNK6soinfo12get_realpathEv") ≠ 0;
  lr_soname : getSymbAddress linker (txt "__dl__ZNK6soinfo10get_sonameEv") ≠ 0;
  lr_within : (k < 1024 / ws)%nat;
  lr_before : ∀ i, (i < k)%nat → ∃ x, pointer m (l + Z.of_nat i * Z.of_nat ws) x ∧ links_on main vdso x = false;
  lr_next : ∃ x, pointer m (l + Z.of_nat k * Z.of_nat ws) x ∧ links_on main vdso x = true
}.

Lemma read_word_run s addr v : pointer (so_mem s) addr v → read_word addr s = (Ret v, s).
Proof. intros [L <-]. unfold read_word. step. by rewrite L, Nat.eqb_refl. Qed.

Lemma getStaticPointer_run s name v :
  static_is (so_mem s) name v → getStaticPointer linker name s = (Ret v, s).
Proof.
  unfold getStaticPointer. intros [[-> ->]|[Hn Hp]]; [done|].
  rewrite (proj2 (Z.eqb_neq _ _) Hn). by apply read_word_run.
Qed.

Lemma find_next_offset_run n k (off : nat) vdso s :
  (k < n)%nat →
  (∀ i, (i < k)%nat → ∃ x, pointer (so_mem s) (solist s + Z.of_nat (off + i) * Z.of_nat ws) x ∧
                           links_on (somain s) vdso x = false) →
  (∃ x, pointer (so_mem s) (solist s + Z.of_nat (off + k) * Z.of_nat ws) x ∧ links_on (somain s) vdso x = true) →
  find_next_offset n (Z.of_nat off * Z.of_nat ws) vdso s =
  (Ret tt, mkSo (so_mem s) (solist s) (somain s) (Z.of_nat (off + k) * Z.of_nat ws) (get_realpath_sym s) (get_soname_sym s)).
Proof.
  revert k off. induction n as [|n IH]; intros k off Hk Hb (x & Hx & Hm); [lia|].
  cbn [find_next_offset]. step. destruct k as [|k].
  - rewrite Nat.add_0_r in Hx |- *. step_with (read_word_run s _ _ Hx). fold (links_on (somain s) vdso x).
    by rewrite Hm.
  - destruct (Hb 0%nat ltac:(lia)) as (y & Hy & Hn). rewrite Nat.add_0_r in Hy.
    step_with (read_word_run s _ _ Hy). fold (links_on (somain s) vdso y). rewrite Hn.
    replace (Z.of_nat off * Z.of_nat ws + Z.of_nat ws) with (Z.of_nat (S off) * Z.of_nat ws) by lia.
    replace (off + S k)%nat with (S off + k)%nat in * by lia.
    apply IH; [lia | | by exists x]. intros i Hi. destruct (Hb (S i) ltac:(lia)) as (z & Hz).
    exists z. by replace (S off + i)%nat with (off + S i)%nat by lia.
Qed.

Definition initialized (m : mem) (l main : Z) (k : nat) : so_state :=
  mkSo m l main (Z.of_nat k * Z.of_nat ws)
    (getSymbAddress linker (txt "__dl__ZNK6soinfo12get_realpathEv"))
    (getSymbAddress linker (txt "__dl__ZNK6soinfo10get_sonameEv")).

Lemma Initialize_run s l main vdso k :
  linker_ready (so_mem s) l main vdso k →
  Initialize linker s = (Ret true, initialized (so_mem s) l main k).
Proof.
  intros [H1 H2 H3 [Hl Hm] Hr Hn Hk Hb Hx]. unfold Initialize.
  step_with (getStaticPointer_run s _ _ H1). step. set (s1 := mkSo _ _ _ _ _ _).
  step_with (getStaticPointer_run s1 _ _ H2). step.
  rewrite (proj2 (Z.eqb_neq _ _) Hl), (proj2 (Z.eqb_neq _ _) Hm). cbn [orb]. step.
  set (s2 := mkSo _ _ _ _ _ _). step_with (getStaticPointer_run s2 _ _ H3).
  step_with (find_next_offset_run (1024 / ws) k 0 vdso s2 Hk Hb Hx).
  by rewrite (proj2 (Z.eqb_neq _ _) Hr), (proj2 (Z.eqb_neq _ _) Hn).
Qed.

(** C34 The clean-up of the linker's list as [run_modules_post] does it: when the linker has the
    symbols and its first element links on to the main program or the vdso, the list is found and
    every library whose path holds the word is hidden.  The word has to be at least as long as a
    pointer, and the address that is written must have a zero byte (as every 64-bit user address
    has).  The routine returns, the list is chained as before, no path of it holds the word, the
    paths that did not hold it are unchanged, and so is all other memory. *)
Theorem hide_libraries_hides fuel target pre main s l k vdso :
  linker_ready (so_mem s) l (from_option fst 0 (list.head main)) vdso k →
  listed (initialized (so_mem s) l (from_option fst 0 (list.head main)) k) (pre ++ main) →
  (ws <= length target)%nat → NUL ∈ le_bytes ws empty_string →
  (length (pre ++ main) <= fuel)%nat →
  ∃ m, hide_libraries linker fuel target s =
         (Ret tt, initialized m l (from_option fst 0 (list.head main)) k) ∧
    listed (initialized m l (from_option fst 0 (list.head main)) k) (cleared target <$> pre ++ main) ∧
    (∀ n, n ∈ pre ++ main → ∃ t, text_at m (realpath n.1) = Some t ∧ contains target t = false ∧
      (contains target n.2 = false → t = n.2)) ∧
    (∀ x, ¬ patched target (pre ++ main) x → m !! x = so_mem s !! x).
Proof.
  intros Hr Hl Hw Hnul Hf.
  destruct (NullifySoName_hides fuel target pre main _ Hl eq_refl Hw Hnul Hf) as (m & E & H1 & H2 & H3).
  exists m. split; [|done]. unfold hide_libraries. by step_with (Initialize_run s _ _ _ _ Hr).
Qed.
End found.

End solist.

(** ** A list of three libraries *)

Definition demo_so (ws : nat) (next : Z) (path : bytes) : bytes :=
  repeat NUL 48 ++ le_bytes ws next ++ repeat NUL 16 ++ path ++ [NUL].

Definition demo_at (addr : Z) (b : bytes) : list (Z * byte) := imap (λ i c, (addr + Z.of_nat i, c)) b.

Definition demo_so_mem (ws : nat) : mem := list_to_map (
  demo_at 100 (le_bytes ws 4096 ++ le_bytes ws 8192) ++
  demo_at 4096 (demo_so ws 8192 (txt "/linker64")) ++
  demo_at 8192 (demo_so ws 12288 (txt "/memfd:jit-cache-zygisk")) ++
  demo_at 12288 (demo_so ws 0 (txt "/libc.so"))).

Definition demo_so_state (ws : nat) : so_state := mkSo (demo_so_mem ws) 4096 8192 48 1 1.

Definition demo_path (ws : nat) (n : Z) : Z := n + Z.of_nat (64 + ws).

Definition demo_nodes : list (Z * bytes) :=
  [(4096, txt "/linker64"); (8192, txt "/memfd:jit-cache-zygisk"); (12288, txt "/libc.so")].

Lemma demo_listed : listed 8 (demo_path 8) (λ n, n) 64 (demo_so_state 8) demo_nodes.
Proof.
  constructor; [done | done | by vm_compute | | | |].
  - repeat (constructor; [by split|]). constructor.
  - assert (T : ∀ t : bytes, bool_decide (NUL ∉ t) = true → no_nul t)
      by (intros t; apply bool_decide_eq_true_1).
    repeat (constructor; [split; [by apply T | by split; [vm_compute; lia|]]|]). constructor.
  - assert (F : Forall (λ n, Forall (λ n', apart (n.1 + 48) 8 (demo_path 8 n'.1) (text_room n')) demo_nodes) demo_nodes).
    { repeat (constructor; [repeat (constructor; [unfold apart, demo_path, text_room; cbn; lia|]); constructor|]).
      constructor. }
    intros n n' Hn Hn'. rewrite list.Forall_forall in F. specialize (F n Hn).
    rewrite list.Forall_forall in F. exact (F n' Hn').
  - repeat (constructor; [repeat (constructor; [unfold texts_apart, apart, demo_path, text_room; cbn; lia|]); constructor|]).
    constructor.
Qed.

(** A linker without a vdso. *)
#[local] Instance table_linker : Linker (list (bytes * Z)) := λ t name,
  from_option snd 0 (List.find (λ p, bool_decide (p.1 = name)) t).

Definition demo_linker : list (bytes * Z) :=
  [(txt "__dl__ZL6solist", 100); (txt "__dl__ZL6somain", 108);
   (txt "__dl__ZNK6soinfo12get_realpathEv", 1); (txt "__dl__ZNK6soinfo10get_sonameEv", 1)].

Lemma demo_linker_ready : linker_ready 8 demo_linker (demo_so_mem 8) 4096 8192 0 6.
Proof.
  constructor; [right; by split | right; by split | by left | done | done | done | by vm_compute; lia | |].
  - intros i Hi. exists 0. do 6 (destruct i as [|i]; [by split; [split|]|]). lia.
  - exists 8192. by split; [split|].
Qed.

Lemma hide_libraries_hides_witness :
  ∃ m, hide_libraries 8 (demo_path 8) (λ n, n) (λ n, n) 0x7f1122334455 64 demo_linker 3 (txt "jit-cache")
        (mkSo (demo_so_mem 8) 0 0 0x30 0 0) = (Ret tt, mkSo m 4096 8192 48 1 1) ∧
    text_at 64 m (demo_path 8 12288) = Some (txt "/libc.so").
Proof.
  destruct (hide_libraries_hides 8 (demo_path 8) (λ n, n) (λ n, n) 0x7f1122334455 64 demo_linker 3 (txt "jit-cache")
    [(4096, txt "/linker64")] [(8192, txt "/memfd:jit-cache-zygisk"); (12288, txt "/libc.so")]
    (mkSo (demo_so_mem 8) 0 0 0x30 0 0) 4096 6 0 demo_linker_ready
    demo_listed ltac:(vm_compute; lia) ltac:(apply (bool_decide_unpack _); by vm_compute) ltac:(vm_compute; lia))
    as (m & E & _ & H & _).
  exists m. split; [exact E|].
  destruct (H (12288, txt "/libc.so")) as (t & Ht & _ & Hk); [apply (bool_decide_unpack _); by vm_compute|].
  etransitivity; [exact Ht|]. f_equal. apply Hk. by vm_compute.
Defined.

(** On a 32-bit device a pointer need not have a zero byte: only its four bytes are overwritten, and
    the path of a library loaded from a memory file still holds the word. *)
Example nullify_32_misses :
  match NullifySoName 4 (demo_path 4) (λ n, n) (λ n, n) 0xf1223344 64 3 (txt "jit-cache") (demo_so_state 4) with
  | (Ret _, s) => contains (txt "jit-cache") <$> text_at 64 (so_mem s) (demo_path 4 8192)
  | _ => None
  end = Some true.
Proof. by vm_compute. Qed.
