(* ===== verification/Inject.v ===== *)
(** * Inject: loading the library into a stopped zygote

    [inject_on_main] and [trace_zygote] of [ptracer/ptracer.cpp]: the walk over the kernel
    argument block to the entry address, the detour over an invalid entry, the remote calls
    of dlopen, dlsym and the library's entry, and the return to the real entry. *)

From Stdlib Require Import ZArith Lia Ascii.
From stdpp Require Import base tactics strings list gmap functions numbers.
From S2P Require Import Prelude WaitStatus Maps Remote.

Local Open Scope mach_scope.

Definition AT_NULL : Z := 0.
Definition AT_ENTRY : Z := 9.

Section inject.
Context (a : arch).
(** The dynamic linker of the tracer's own process. *)
Context (dlsym_local : bytes → bytes → option Z).
Context (tmp_path : bytes).
Context (fuel : nat).

Let ws : Z := Z.of_nat (word_size a).

Definition RTLD_NOW : Z := match a with X86_64 | AARCH64 => 2 | I386 | ARM => 0 end.

(** ** The kernel argument block *)

(** [while (1) { read_proc(p); if (buf == NULL) break; p++; }] *)
Fixpoint skip_envp (fuel : nat) (p : Z) : prog tproc Z :=
  match fuel with
  | O => no_fuel
  | S fuel =>
      buf ← read_var p (word_size a);
      if buf =? 0 then mret p else skip_envp fuel (uptr a (p + ws))
  end.

(** The entry address and where it is stored. *)
Fixpoint find_entry (fuel : nat) (v : Z) : prog tproc (option (Z * Z)) :=
  match fuel with
  | O => no_fuel
  | S fuel =>
      a_type ← read_var v (word_size a);
      a_val ← read_var (uptr a (v + ws)) (word_size a);
      if a_type =? AT_ENTRY then mret (Some (a_val, uptr a (v + ws)))
      else if a_type =? AT_NULL then mret None
      else find_entry fuel (uptr a (v + 2 * ws))
  end.

Definition locate_entry (arg : Z) : prog tproc (option (Z * Z)) :=
  argc ← read_var arg 4;
  p ← skip_envp fuel (uptr a (arg + ws + (i32 argc + 1) * ws));
  r ← find_entry fuel (uptr a (p + ws));
  match r with
  | Some (entry_addr, addr) => mret (if entry_addr =? 0 then None else Some (entry_addr, addr))
  | None => mret None
  end.

(** The invalid entry: the lowest bit is that of the real one. *)
Definition break_addr (entry_addr : Z) : Z :=
  uptr a (- 0x05ec1cff &&& Z.lnot 1) ||| (entry_addr &&& 1).

(** [write_proc] returns -1 when it fails; only 0 is taken for a failure. *)
Definition write_ok (addr value : Z) : prog tproc bool :=
  n ← write_proc addr (le_bytes (word_size a) value); mret (negb (n =? 0)).

(** ** The calls *)

Definition find_remote (local_map map : list MapInfo) (module func : bytes) : Z :=
  find_func_addr a dlsym_local local_map map module func.

(** Fetch and log what dlerror says. *)
Definition report_dlerror (local_map map : list MapInfo) (ret : Z) (regs : user_regs)
  : prog tproc unit :=
  let dlerror_addr := find_remote local_map map (txt "libdl.so") (txt "dlerror") in
  if dlerror_addr =? 0 then mret tt
  else
    '(str_addr, regs) ← remote_call a regs dlerror_addr ret [];
    if str_addr =? 0 then mret tt
    else
      let strlen_addr := find_remote local_map map (txt "libc.so") (txt "strlen") in
      if strlen_addr =? 0 then mret tt
      else
        '(len, regs) ← remote_call a regs strlen_addr ret [str_addr];
        if len =? 0 then mret tt
        else read_proc str_addr (Z.to_nat len);; mret tt.

(** dlopen, dlsym and the call of the library's entry; [false] where the source gives up. *)
Definition load_library (regs : user_regs) (lib_path : bytes) : prog tproc bool :=
  map ← Scan a;
  local_map ← Scan a;
  let ret := find_module_return_addr map (txt "libc.so") in
  let dlopen_addr := find_remote local_map map (txt "libdl.so") (txt "dlopen") in
  if dlopen_addr =? 0 then mret false
  else
    '(str, regs) ← push_string a regs lib_path;
    '(handle, regs) ← remote_call a regs dlopen_addr ret [str; RTLD_NOW];
    if handle =? 0 then report_dlerror local_map map ret regs;; mret false
    else
      let dlsym_addr := find_remote local_map map (txt "libdl.so") (txt "dlsym") in
      if dlsym_addr =? 0 then mret false
      else
        '(str, regs) ← push_string a regs (txt "entry");
        '(injector_entry, regs) ← remote_call a regs dlsym_addr ret [handle; str];
        if injector_entry =? 0 then mret false
        else
          '(str, regs) ← push_string a regs tmp_path;
          remote_call a regs injector_entry ret [handle; str];;
          mret true.

(** ** inject_on_main *)

(** From the stop at the invalid entry on. *)
Definition at_entry (lib_path : bytes) (entry_addr addr : Z) : prog tproc bool :=
  got ← get_regs;
  match got with
  | None => mret false
  | Some regs =>
      if negb (regs IP &&& uptr a (-2) =? break_addr entry_addr &&& uptr a (-2)) then mret false
      else
        ok ← write_ok addr entry_addr;
        if negb ok then mret false
        else
          let backup := regs in
          loaded ← load_library regs lib_path;
          if negb loaded then mret false
          else set_regs (<[IP := entry_addr]> backup)
  end.

Definition inject_on_main (lib_path : bytes) : prog tproc bool :=
  map ← Scan a;
  got ← get_regs;
  match got with
  | None => mret false
  | Some regs =>
      r ← locate_entry (regs SP);
      match r with
      | None => mret false
      | Some (entry_addr, addr) =>
          ok ← write_ok addr (break_addr entry_addr);
          if negb ok then mret false
          else
            ptrace_cont;;
            status ← wait_for_trace;
            if WIFSTOPPED status && (WSTOPSIG status =? SIGSEGV)
            then at_entry lib_path entry_addr addr
            else mret false
      end
  end.

(** ** trace_zygote *)

Context (seize_ok kill_ok : bool).

Definition detach (sig : Z) : prog tproc unit := t_emit (TDetach sig).

Definition lib_path : bytes :=
  tmp_path ++ txt "/lib" ++ match a with X86_64 | AARCH64 => txt "64" | I386 | ARM => [] end ++
  txt "/libzygisk.so".

Definition trace_zygote : prog tproc bool :=
  if negb seize_ok then mret false
  else
    t_emit TSeize;;
    status ← wait_for_trace;
    if STOPPED_WITH_tracer SIGSTOP PTRACE_EVENT_STOP status then
      injected ← inject_on_main lib_path;
      if negb injected then mret false
      else
        t_emit (TKill SIGCONT);;
        if negb kill_ok then mret false
        else
          cont ← ptrace_cont;
          if negb cont then mret false
          else
            status ← wait_for_trace;
            if STOPPED_WITH_tracer SIGTRAP PTRACE_EVENT_STOP status then
              cont ← ptrace_cont;
              if negb cont then mret false
              else
                status ← wait_for_trace;
                when (STOPPED_WITH_tracer SIGCONT 0 status) (detach SIGCONT);;
                mret true
            else detach 0;; mret false
    else detach 0;; mret false.
End inject.

(** ** Words in memory *)

Lemma read_bytes_split m addr b1 b2 :
  read_bytes m addr (length b1 + length b2) = b1 ++ b2 →
  read_bytes m addr (length b1) = b1 ∧ read_bytes m (addr + Z.of_nat (length b1)) (length b2) = b2.
Proof.
  revert addr. induction b1 as [|c b1 IH]; intros addr H.
  - simpl in *. by rewrite Z.add_0_r.
  - cbn [length Nat.add read_bytes app] in *. destruct (m !! addr) as [c'|]; [|done].
    injection H as -> H. apply IH in H as [-> H]. split; [done|].
    replace (addr + Z.of_nat (S (length b1))) with (addr + 1 + Z.of_nat (length b1)) by lia. done.
Qed.

Section block.
Context (a : arch).
Let ws : Z := Z.of_nat (word_size a).
Let top : Z := 2 ^ word_bits a.

Definition words_at (m : mem) (addr : Z) (l : list Z) : Prop :=
  read_bytes m addr (length (words a l)) = words a l.

Definition word_ok (x : Z) : Prop := 0 <= x < 2 ^ word_bits a.

Lemma words_app l k : words a (l ++ k) = words a l ++ words a k.
Proof. unfold words. apply bind_app. Qed.

Lemma words_at_app m addr l k :
  words_at m addr (l ++ k) →
  words_at m addr l ∧ words_at m (addr + ws * Z.of_nat (length l)) k.
Proof.
  unfold words_at. rewrite words_app, length_app. intros H.
  apply read_bytes_split in H as [H1 H2]. split; [done|].
  replace (addr + ws * Z.of_nat (length l)) with (addr + Z.of_nat (length (words a l)))
    by (rewrite length_words; unfold ws; lia). done.
Qed.

Lemma word_size_pow : 256 ^ Z.of_nat (word_size a) = 2 ^ word_bits a.
Proof. by destruct a. Qed.

Lemma read_var_run s addr n b :
  read_bytes (t_mem s) addr n = b → length b = n → read_var addr n s = (Ret (le_val b), s).
Proof.
  intros Hb Hl. unfold read_var, read_proc. rewrite prog_bind_assoc. step. step.
  by rewrite Hb, Hl, Nat.eqb_refl.
Qed.

Lemma read_word s addr x l :
  words_at (t_mem s) addr (x :: l) → word_ok x → read_var addr (word_size a) s = (Ret x, s).
Proof.
  intros H Hx. apply (words_at_app _ _ [x] l) in H as [H _]. unfold words_at in H.
  change (words a [x]) with (le_bytes (word_size a) x ++ []) in H. rewrite app_nil_r in H.
  rewrite (read_var_run s addr (word_size a) (le_bytes (word_size a) x)).
  - rewrite le_val_bytes_id; [done|]. rewrite word_size_pow. exact Hx.
  - by rewrite length_le_bytes in H.
  - apply length_le_bytes.
Qed.

Lemma words_at_tail m addr x l : words_at m addr (x :: l) → words_at m (addr + ws) l.
Proof.
  intros H. apply (words_at_app m addr [x] l) in H as [_ H]. simpl in H.
  by rewrite Z.mul_1_r in H.
Qed.

Lemma uptr_id x : word_ok x → uptr a x = x.
Proof. apply uptr_small. Qed.

Lemma skip_envp_run fuel s p envp l :
  words_at (t_mem s) p (envp ++ 0 :: l) → Forall (λ x, word_ok x ∧ x ≠ 0) envp →
  0 <= p → p + ws * Z.of_nat (length envp) < top → (length envp < fuel)%nat →
  skip_envp a fuel p s = (Ret (p + ws * Z.of_nat (length envp)), s).
Proof.
  revert p fuel. induction envp as [|x envp IH]; intros p fuel Hw Hx Hp Ht Hf;
    (destruct fuel as [|fuel]; [simpl in Hf; lia|]); cbn [skip_envp].
  - assert (word_ok 0) by (unfold word_ok; destruct a; by vm_compute).
    step_with (read_word s p 0 l Hw ltac:(done)). simpl. by rewrite Z.mul_0_r, Z.add_0_r.
  - inv Hx. destruct H1 as [Hx0 Hne]. cbn [length] in *.
    step_with (read_word s p x _ Hw Hx0). rewrite (proj2 (Z.eqb_neq x 0) Hne).
    assert (0 < ws) by (unfold ws; destruct a; by vm_compute). fold ws.
    rewrite uptr_id by (unfold word_ok; fold top; lia).
    replace (p + ws * Z.of_nat (S (length envp))) with (p + ws + ws * Z.of_nat (length envp)) by lia.
    apply IH; [by apply words_at_tail in Hw | done | lia | lia | lia].
Qed.

(** The auxiliary vector before its entry. *)
Definition flat (aux : list (Z * Z)) : list Z := aux ≫= λ '(t, v), [t; v].

Lemma find_entry_run fuel s v aux e l :
  words_at (t_mem s) v (flat aux ++ AT_ENTRY :: e :: l) → word_ok e →
  Forall (λ '(t, x), word_ok t ∧ word_ok x ∧ t ≠ AT_ENTRY ∧ t ≠ AT_NULL) aux →
  0 <= v → v + 2 * ws * Z.of_nat (length aux) + ws < top → (length aux < fuel)%nat →
  find_entry a fuel v s = (Ret (Some (e, v + 2 * ws * Z.of_nat (length aux) + ws)), s).
Proof.
  assert (0 < ws) by (unfold ws; destruct a; by vm_compute).
  revert v fuel. induction aux as [|[t x] aux IH]; intros v fuel Hw He Hx Hp Ht Hf;
    (destruct fuel as [|fuel]; [simpl in Hf; lia|]); cbn [find_entry]; fold ws.
  - assert (word_ok AT_ENTRY) by (unfold word_ok; destruct a; by vm_compute).
    simpl in Ht. rewrite Z.mul_0_r in Ht.
    step_with (read_word s v AT_ENTRY (e :: l) Hw ltac:(done)).
    rewrite uptr_id by (unfold word_ok; fold top; lia).
    step_with (read_word s (v + ws) e l (words_at_tail _ _ _ _ Hw) He).
    cbn [length]. by replace (v + 2 * ws * Z.of_nat 0 + ws) with (v + ws) by lia.
  - inv Hx. destruct H2 as (Ht0 & Hx0 & N1 & N2). cbn [length] in *.
    change (flat ((t, x) :: aux) ++ AT_ENTRY :: e :: l) with
      (t :: x :: flat aux ++ AT_ENTRY :: e :: l) in Hw.
    step_with (read_word s v t _ Hw Ht0).
    rewrite uptr_id by (unfold word_ok; fold top; lia).
    step_with (read_word s (v + ws) x _ (words_at_tail _ _ _ _ Hw) Hx0).
    rewrite (proj2 (Z.eqb_neq t _) N1), (proj2 (Z.eqb_neq t _) N2).
    rewrite uptr_id by (unfold word_ok; fold top; lia).
    replace (v + 2 * ws * Z.of_nat (S (length aux)) + ws)
      with (v + 2 * ws + 2 * ws * Z.of_nat (length aux) + ws) by lia.
    apply IH; [| done | done | lia | lia | lia].
    apply words_at_tail, words_at_tail in Hw. by replace (v + 2 * ws) with (v + ws + ws) by lia.
Qed.

Lemma read_argc s addr argc l :
  words_at (t_mem s) addr (argc :: l) → 0 <= argc < 2 ^ 31 → read_var addr 4 s = (Ret argc, s).
Proof.
  intros H Hc. apply (words_at_app _ _ [argc] l) in H as [H _]. unfold words_at in H.
  rewrite (read_var_run s addr 4 (le_bytes 4 argc)); [| |apply length_le_bytes].
  - by rewrite le_val_bytes_id by (simpl; lia).
  - assert (∃ b, words a [argc] = le_bytes 4 argc ++ b) as [b E].
    { destruct a; [by eexists [_; _; _; _] | by exists [] | by eexists [_; _; _; _] | by exists []]. }
    rewrite E, length_app in H. by apply read_bytes_split in H as [H _].
Qed.
End block.

(** The walk over the kernel argument block finds the entry address: behind argc, the argument
    pointers, the environment pointers and whatever auxiliary entries come first, the value
    of [AT_ENTRY] and the address it is stored at, on 32 and 64 bit, in as many steps as
    there are pointers and entries. *)
Theorem locate_entry_spec a fuel s arg argv envp aux e l :
  words_at a (t_mem s) arg
    (Z.of_nat (length argv) :: argv ++ 0 :: envp ++ 0 :: flat aux ++ AT_ENTRY :: e :: l) →
  Z.of_nat (length argv) < 2 ^ 31 →
  Forall (λ x, word_ok a x ∧ x ≠ 0) envp →
  Forall (λ '(t, x), word_ok a t ∧ word_ok a x ∧ t ≠ AT_ENTRY ∧ t ≠ AT_NULL) aux →
  word_ok a e → e ≠ 0 → 0 <= arg →
  let addr := arg + Z.of_nat (word_size a) *
                    (Z.of_nat (length argv + length envp + 2 * length aux) + 4) in
  addr < 2 ^ word_bits a → (length envp < fuel)%nat → (length aux < fuel)%nat →
  locate_entry a fuel arg s = (Ret (Some (e, addr)), s).
Proof.
  intros Hw Hc Hx Hy He Hn Ha addr Ht Hf1 Hf2. unfold locate_entry.
  set (ws := Z.of_nat (word_size a)) in *.
  assert (0 < ws) by (unfold ws; destruct a; by vm_compute).
  step_with (read_argc a s arg _ _ Hw ltac:(lia)). rewrite wraps_small by lia.
  assert (words_at a (t_mem s) (arg + ws + (Z.of_nat (length argv) + 1) * ws)
            (envp ++ 0 :: flat aux ++ AT_ENTRY :: e :: l)) as Hw1.
  { apply words_at_tail in Hw. apply words_at_app in Hw as [_ Hw]. apply words_at_tail in Hw.
    fold ws in Hw. by replace (arg + ws + (Z.of_nat (length argv) + 1) * ws) with
      (arg + ws + ws * Z.of_nat (length argv) + ws) by lia. }
  rewrite uptr_small by (unfold addr in Ht; nia).
  step_with (skip_envp_run a fuel s _ _ _ Hw1 Hx ltac:(nia) ltac:(fold ws; unfold addr in Ht; nia) Hf1).
  fold ws. rewrite uptr_small by (unfold addr in Ht; nia).
  apply words_at_app in Hw1 as [_ Hw2]. apply words_at_tail in Hw2. fold ws in Hw2.
  step_with (find_entry_run a fuel s _ _ _ _ Hw2 He Hy ltac:(nia)
    ltac:(fold ws; unfold addr in Ht; nia) Hf2).
  rewrite (proj2 (Z.eqb_neq e 0) Hn). fold ws.
  replace addr with (arg + ws + (Z.of_nat (length argv) + 1) * ws + ws * Z.of_nat (length envp) + ws +
    2 * ws * Z.of_nat (length aux) + ws) by (unfold addr; nia). done.
Qed.

(** The argument block of a process with one argument and one environment variable. *)
Definition demo_block : list Z := [1; 5000; 0; 6000; 0; 3; 64; AT_ENTRY; 4096; 0; 0].
Definition demo_stack : mem :=
  list_to_map (zip_with (λ i b, (8192 + Z.of_nat i, b)) (seq 0 88) (words AARCH64 demo_block)).
Definition demo_zygote : tproc := mkProc (demo_regs 8192) demo_stack [] [] [] [] [] [].

Lemma locate_entry_spec_witness :
  locate_entry AARCH64 10 8192 demo_zygote = (Ret (Some (4096, 8256)), demo_zygote).
Proof.
  pose proof (locate_entry_spec AARCH64 10 demo_zygote 8192 [5000] [6000] [(3, 64)] 4096 [0; 0]) as H.
  cbv zeta in H. apply H; clear H.
  - vm_compute. reflexivity.
  - vm_compute. reflexivity.
  - repeat constructor; vm_compute; congruence.
  - repeat constructor; vm_compute; congruence.
  - repeat constructor; vm_compute; congruence.
  - done.
  - done.
  - done.
  - simpl. lia.
  - simpl. lia.
Defined.

(** ** What the tracer leaves behind *)

Definition t_log_grows (s s' : tproc) : Prop := t_log s `prefix_of` t_log s'.

#[export] Instance t_log_grows_preorder : PreOrder t_log_grows.
Proof. split; [intros ?; unfold t_log_grows; done | intros ? y ?; unfold t_log_grows; by transitivity (t_log y)]. Qed.

Lemma same_t_log s s' : t_log s' = t_log s → t_log_grows s s'.
Proof. unfold t_log_grows. by intros ->. Qed.

Lemma added_t_log s s' l : t_log s' = t_log s ++ l → t_log_grows s s'.
Proof. unfold t_log_grows. intros ->. by exists l. Qed.

Ltac t_log_step :=
  first [apply moves_modify | apply moves_put];
  first [by apply same_t_log | by eapply added_t_log].

Section log.
Context (a : arch) (dlsym_local : bytes → bytes → option Z) (tmp_path : bytes) (fuel : nat).

Lemma write_proc_log addr data s : Moves t_log_grows (write_proc addr data) s.
Proof. unfold write_proc. walk. t_log_step. Qed.

Lemma set_regs_log r s : Moves t_log_grows (set_regs r) s.
Proof. unfold set_regs, next_regs_ok. walk; t_log_step. Qed.

Lemma get_regs_log s : Moves t_log_grows get_regs s.
Proof. unfold get_regs, next_regs_ok. walk; t_log_step. Qed.

Lemma wait_log s : Moves t_log_grows wait_for_trace s.
Proof.
  unfold wait_for_trace. apply moves_get_bind. generalize (t_waits s). intros w. revert s.
  induction w as [|[e|st] w IH]; intros s; cbn [wait_loop]; walk; first [apply IH | t_log_step].
Qed.

Lemma cont_log s : Moves t_log_grows ptrace_cont s.
Proof. unfold ptrace_cont, t_emit. walk; t_log_step. Qed.

Lemma remote_call_log regs f r args s : Moves t_log_grows (remote_call a regs f r args) s.
Proof.
  unfold remote_call, push_args, set_call.
  walk; first [apply write_proc_log | apply set_regs_log | apply get_regs_log | apply wait_log
              | apply cont_log].
Qed.

Lemma push_string_log regs str s : Moves t_log_grows (push_string a regs str) s.
Proof. unfold push_string. walk. apply write_proc_log. Qed.

Lemma load_library_log regs path s :
  Moves t_log_grows (load_library a dlsym_local tmp_path regs path) s.
Proof.
  unfold load_library, report_dlerror, Scan, read_proc.
  walk; first [apply remote_call_log | apply push_string_log | t_log_step].
Qed.

(** Looking does not change anything. *)
Definition unchanged (s s' : tproc) : Prop := s' = s.

#[local] Instance unchanged_preorder : PreOrder unchanged.
Proof. split; [done | intros ???; unfold unchanged; congruence]. Qed.

Lemma read_var_unchanged p n s : Moves unchanged (read_var p n) s.
Proof. unfold read_var, read_proc. walk. Qed.

Lemma skip_envp_unchanged n p s : Moves unchanged (skip_envp a n p) s.
Proof. revert p s. induction n as [|n IH]; intros p s; cbn [skip_envp]; walk; auto using read_var_unchanged. Qed.

Lemma find_entry_unchanged n v s : Moves unchanged (find_entry a n v) s.
Proof. revert v s. induction n as [|n IH]; intros v s; cbn [find_entry]; walk; auto using read_var_unchanged. Qed.

Lemma locate_entry_unchanged arg s : Moves unchanged (locate_entry a fuel arg) s.
Proof.
  unfold locate_entry. walk; auto using read_var_unchanged, skip_envp_unchanged, find_entry_unchanged.
Qed.







End log.





(** A zygote that loads the library: it faults at the invalid entry, then dlopen, dlsym and the
    library's entry return. *)
Definition demo_returns (v : Z) : resume := λ r m,
  (<[IP := 28672]> (<[G 0 := v]> r), m, [WaErr EINTR; WaStatus (stop_status SIGSEGV 0)]).
Definition demo_faults : resume := λ r m,
  (<[IP := break_addr AARCH64 4096]> r, m, [WaStatus (stop_status SIGSEGV 0)]).
Definition demo_maps (base : Z) : option bytes := Some (mjoin (show_vma <$>
  [mkVma 28672 32768 true false false true 0 0 0 0 3 (txt "/apex/bionic/libc.so");
   mkVma base (base + 4096) true false false true 0 0 0 0 3 (txt "/apex/bionic/libdl.so")])).
Definition demo_dlsym : bytes → bytes → option Z := λ _ _, Some 65600.


(** ** Tracing *)

Lemma cont_true s s' : ptrace_cont s = (Ret true, s') → t_log s' = t_log s ++ [TCont].
Proof.
  unfold ptrace_cont. intros H. apply bind_inv in H as (x & s1 & [= <- <-] & H). cbv zeta in H.
  apply bind_inv in H as (y & s2 & [= <- <-] & H).
  apply bind_inv in H as (z & s3 & E & [= Hok <-]). rewrite Hok in E. unfold when in E.
  unfold t_emit in E. apply bind_inv in E as (w & s4 & [= <- <-] & E). cbn [t_resumes] in E.
  destruct (t_resumes s) as [|f fs]; [by injection E as _ <-|].
  destruct (f _ _) as [[r m] ans]. by injection E as _ <-.
Qed.

Lemma wait_loop_same w s st s' :
  wait_loop w s = (Ret st, s') → t_log s' = t_log s.
Proof.
  revert s. induction w as [|[e|st0] w IH]; intros s; cbn [wait_loop]; [done| |].
  - destruct (e =? EINTR); [apply IH | done].
  - intros H. apply bind_inv in H as (x & s1 & [= <- <-] & H).
    destruct (WIFSTOPPED st0); [by injection H as _ <- | done].
Qed.

Lemma wait_same s st s' : wait_for_trace s = (Ret st, s') → t_log s' = t_log s.
Proof. unfold wait_for_trace. apply wait_loop_same. Qed.

Lemma inject_log a dlsym_local tmp_path fuel path s s' :
  inject_on_main a dlsym_local tmp_path fuel path s = (Ret true, s') → ∃ l, t_log s' = t_log s ++ l.
Proof.
  intros H. apply (moves_run t_log_grows) in H; [exact H|]. unfold inject_on_main, at_entry, write_ok, Scan.
  walk; first
    [ apply write_proc_log | apply get_regs_log | apply set_regs_log | apply wait_log | apply cont_log
    | apply load_library_log | t_log_step
    | eapply moves_mono, locate_entry_unchanged; by intros ?? -> ].
Qed.

(** When [trace_zygote] reports success, the zygote was seized, the library injected, SIGCONT
    sent and the zygote resumed twice, in this order; but it has been detached only if its
    last stop was the SIGCONT: otherwise success is reported with the zygote still attached,
    and seized with PTRACE_O_EXITKILL it dies when the tracer exits. *)
Theorem trace_zygote_true a dlsym_local tmp_path fuel seize_ok kill_ok s s' :
  trace_zygote a dlsym_local tmp_path fuel seize_ok kill_ok s = (Ret true, s') →
  ∃ s1 s2 l status,
    inject_on_main a dlsym_local tmp_path fuel (lib_path a tmp_path) s1 = (Ret true, s2) ∧
    t_log s2 = t_log s ++ TSeize :: l ∧
    t_log s' = t_log s2 ++ [TKill SIGCONT; TCont; TCont] ++
      (if STOPPED_WITH_tracer SIGCONT 0 status then [TDetach SIGCONT] else []).
Proof.
  unfold trace_zygote. destruct seize_ok; [|done]. cbn [negb]. intros H. unfold t_emit in H.
  apply bind_inv in H as (x & s1 & [= <- <-] & H).
  apply bind_inv in H as (st & s2 & E2%wait_same & H).
  destruct (STOPPED_WITH_tracer SIGSTOP _ st); [|by apply bind_inv in H as (? & ? & _ & [=])].
  apply bind_inv in H as (ok & s3 & E3 & H). destruct ok; [|done]. cbn [negb] in H.
  apply bind_inv in H as (y & s4 & [= <- <-] & H). destruct kill_ok; [|done]. cbn [negb] in H.
  apply bind_inv in H as ([] & s5 & E5 & H); [|done]. apply cont_true in E5. cbn [negb] in H.
  apply bind_inv in H as (st1 & s6 & E6%wait_same & H).
  destruct (STOPPED_WITH_tracer SIGTRAP _ st1); [|by apply bind_inv in H as (? & ? & _ & [=])].
  apply bind_inv in H as ([] & s7 & E7 & H); [|done]. apply cont_true in E7. cbn [negb] in H.
  apply bind_inv in H as (st2 & s8 & E8%wait_same & H).
  apply bind_inv in H as (z & s9 & E9 & [= <-]).
  destruct (inject_log _ _ _ _ _ _ _ E3) as [l L]. cbn [t_log add_t_log] in *.
  exists s2, s3, l, st2. split_and!; [done | by rewrite L, E2, <- app_assoc|].
  unfold when, detach, t_emit, modify in E9.
  destruct (STOPPED_WITH_tracer SIGCONT 0 st2); injection E9 as _ <-; cbn [t_log add_t_log];
    rewrite E8, E7, E6, E5, <- !app_assoc; done.
Qed.

(** The zygote is stopped for the tracer, loads the library, and after SIGCONT stops once more
    for another signal. *)
Definition demo_stops (st : Z) : resume := λ r m, (r, m, [WaStatus st]).
Definition demo_traced : tproc :=
  mkProc (demo_regs 8192) (demo_mem 7000 1192 ∪ demo_stack)
    [WaStatus (stop_status SIGSTOP PTRACE_EVENT_STOP)]
    [demo_faults; demo_returns 111; demo_returns 222; demo_returns 0;
     demo_stops (stop_status SIGTRAP PTRACE_EVENT_STOP); demo_stops (stop_status SIGCHLD 0)] [] []
    [demo_maps 40960; demo_maps 40960; demo_maps 65536] [].

Lemma trace_zygote_true_witness :
  let r := trace_zygote AARCH64 demo_dlsym (txt "/t") 20 true true demo_traced in
  r.1 = Ret true ∧ ∃ l, t_log r.2 = TSeize :: l.
Proof.
  cbv zeta. set (r := trace_zygote AARCH64 demo_dlsym (txt "/t") 20 true true demo_traced).
  assert (r.1 = Ret true) as E by by vm_compute.
  split; [exact E|].
  destruct (trace_zygote_true AARCH64 demo_dlsym (txt "/t") 20 true true demo_traced r.2)
    as (s1 & s2 & l & st & _ & L2 & L).
  - rewrite <- E. apply surjective_pairing.
  - rewrite L, L2. by eexists.
Defined.

Definition is_detach (e : tevent) : bool := match e with TDetach _ => true | _ => false end.

(** The last stop decides: here success is reported without any detach. *)
Theorem trace_zygote_success_without_detach :
  let r := trace_zygote AARCH64 demo_dlsym (txt "/t") 20 true true demo_traced in
  r.1 = Ret true ∧ existsb is_detach (t_log r.2) = false.
Proof. by vm_compute. Qed.
