(* ===== verification/Main.v ===== *)
(** * Main: the command line of the tracer

    [main] of [ptracer/main.cpp] over the monitor, the tracer and the client of the daemon: how
    its arguments select an operation, [strtol] of the pid, the exit codes and the report of
    [info].  The claims join the programs: the command line the monitor executes traces the very
    process that was handed over, and [ctl] sends what the monitor's socket handler serves. *)

From Stdlib Require Import ZArith Lia Ascii.
From stdpp Require Import base tactics strings list gmap functions numbers.
From S2P Require Import Prelude Misc WaitStatus MountInfo Maps Remote Inject.
From S2P Require SocketUtils Zygiskd Daemon MonitorState MonitorSocket MonitorSigchld Monitor.

(** ** strtol *)

Definition in_base (base : Z) (c : byte) : bool :=
  match xdigit c with Some d => d <? base | None => false end.

Definition base_val (base : Z) (s : bytes) : Z :=
  foldl (λ acc c, acc * base + default 0 (xdigit c)) 0 s.

(** [strtol(s, NULL, 0)] with a [long] of [w] bits; 0 where there is no number. *)
Definition strtol (w : Z) (s : bytes) : Z :=
  let '(neg, s) := scan_sign (drop_while isspace s) in
  let '(base, s) :=
    match s with
    | z :: _ => if bool_decide (z = "0"%char)
                then if bool_decide (strip_0x s = s) then (8, s) else (16, strip_0x s)
                else (10, s)
    | [] => (10, s)
    end in
  let v := base_val base (span (in_base base) s).1 in
  let v := if neg : bool then - v else v in
  Z.max (- 2 ^ (w - 1)) (Z.min v (2 ^ (w - 1) - 1)).

(** ** The process *)

Record cli : Type := mkCli {
  c_daemon : Daemon.dworld;
  c_mon : MonitorState.mon;        (* the globals of monitor.cpp in this process *)
  c_procs : Z → tproc;             (* the processes it may trace *)
  c_kills : list (Z * Z);          (* the signals [main] sends *)
  c_out : bytes                    (* what was printed *)
}.

Definition set_c_daemon v s := mkCli v (c_mon s) (c_procs s) (c_kills s) (c_out s).
Definition set_c_mon v s := mkCli (c_daemon s) v (c_procs s) (c_kills s) (c_out s).
Definition set_c_procs v s := mkCli (c_daemon s) (c_mon s) v (c_kills s) (c_out s).

(** Running a component on its part of the state. *)
Definition on_daemon {A} (m : prog Daemon.dworld A) : prog cli A := λ s,
  let '(r, d) := m (c_daemon s) in (r, set_c_daemon d s).
Definition on_mon {A} (m : prog MonitorState.mon A) : prog cli A := λ s,
  let '(r, d) := m (c_mon s) in (r, set_c_mon d s).
Definition on_proc {A} (pid : Z) (m : prog tproc A) : prog cli A := λ s,
  let '(r, p) := m (c_procs s pid) in (r, set_c_procs (<[pid := p]> (c_procs s)) s).

Definition say (t : bytes) : prog cli unit :=
  modify (λ s, mkCli (c_daemon s) (c_mon s) (c_procs s) (c_kills s) (c_out s ++ t)).
Definition kill (pid sig : Z) : prog cli unit :=
  modify (λ s, mkCli (c_daemon s) (c_mon s) (c_procs s) (c_kills s ++ [(pid, sig)]) (c_out s)).

(** [zygiskd::Init]. *)
Definition Init (path : bytes) : prog Daemon.dworld unit := modify (λ w,
  Daemon.mkDworld path (Daemon.d_socket w) (Daemon.d_connects w) (Daemon.d_mallocs w)
    (Daemon.d_conn w) (Daemon.d_log w)).

(** A variable that is read: undefined where nothing was ever stored. *)
Definition use {A} (v : option A) : prog cli A :=
  match v with Some x => mret x | None => crash Uninit end.

Definition line (t : bytes) : bytes := t ++ [newline].

Section main.
Context (a : arch) (version : bytes).
(** The environment of the components: the monitor's (but for its path), the tracer's linker,
    the outcome of its system calls on each process, the daemon's connection, and [sendto]. *)
Context (env : Monitor.menv).
Context (dlsym_local : bytes → bytes → option Z) (fuel : nat) (seize_ok kill_ok : Z → bool).
Context (junk : nat → bytes) (fs : bytes → option bytes).
Context (sockfd : Z) (sendto : bytes → Z → bytes → Z).

Definition env_at (tmp : bytes) : Monitor.menv :=
  Monitor.mkEnv tmp (Monitor.orig_prop env) (Monitor.socket_ok env) (Monitor.bind_ok env)
    (Monitor.sigmask_ok env) (Monitor.signalfd_ok env) (Monitor.epolls env) (Monitor.socket_fuel env)
    (Monitor.signames env).

(** [argv[i]], a null pointer at [argc]. *)
Definition arg_is (argv : list bytes) (i : nat) (t : bytes) : bool :=
  bool_decide (argv !! i = Some t).

(** The argument the monitor passes to [trace_zygote] is an [int]. *)
Definition trace (pid : Z) : prog cli Z :=
  s ← get;
  ok ← on_proc (i32 pid) (trace_zygote a dlsym_local (Daemon.d_tmp (c_daemon s)) fuel
                            (seize_ok (i32 pid)) (kill_ok (i32 pid)));
  if negb ok then kill (i32 pid) SIGKILL;; mret 1
  else say (line (txt "[ReZygisk]: Tracing " ++ print_int pid ++ txt "..."));; mret 0.

(** [strcmp(argv[2], ...)] on the null pointer that ends [argv]. *)
Definition ctl (argv : list bytes) : prog cli Z :=
  match argv !! 2%nat with
  | None => crash NullDeref
  | Some c =>
      let send cmd :=
        s ← get;
        if Monitor.send_control_command (Daemon.d_tmp (c_daemon s)) sockfd sendto cmd =? -1
        then say (line (txt "[ReZygisk]: Failed to send the command, is the daemon running?"));; mret 1
        else say (line (txt "[ReZygisk]: command sent"));; mret 0 in
      if bool_decide (c = txt "start") then send MonitorSocket.START
      else if bool_decide (c = txt "stop") then send MonitorSocket.STOP
      else if bool_decide (c = txt "exit") then send MonitorSocket.EXIT
      else say (line (txt "[ReZygisk]: Usage: " ++ default [] (argv !! 0%nat) ++
                      txt " ctl <start|stop|exit>"));; mret 1
  end.

Definition root_text (r : Daemon.zygote_root_impl) : bytes :=
  match r with
  | Daemon.ZYGOTE_ROOT_IMPL_NONE => txt "none"
  | Daemon.ZYGOTE_ROOT_IMPL_APATCH => txt "APatch"
  | Daemon.ZYGOTE_ROOT_IMPL_KERNELSU => txt "KernelSU"
  | Daemon.ZYGOTE_ROOT_IMPL_MAGISK => txt "Magisk"
  end.

Definition yes_no (b : bool) : bytes := if b then txt "yes" else txt "no".

Definition status_report (m : MonitorState.mon) : bytes :=
  match a with
  | X86_64 | AARCH64 =>
      line (txt "Daemon64 running: " ++
            if MonitorState.daemon_running (MonitorState.status64 m) then txt "1" else txt "0") ++
      line (txt "Zygote64 injected: " ++ yes_no (MonitorState.zygote_injected (MonitorState.status64 m)))
  | I386 | ARM =>
      line (txt "Daemon32 running: " ++ yes_no (MonitorState.daemon_running (MonitorState.status32 m))) ++
      line (txt "Zygote32 injected: " ++ yes_no (MonitorState.zygote_injected (MonitorState.status32 m)))
  end.

Definition tracing_report (m : MonitorState.mon) : bytes :=
  let reason := line (txt "Stop reason: " ++ MonitorState.monitor_stop_reason m) in
  match MonitorState.tracing_state m with
  | MonitorState.TRACING => line (txt "Tracing state: TRACING")
  | MonitorState.STOPPING => line (txt "Tracing state: STOPPING") ++ reason
  | MonitorState.STOPPED => line (txt "Tracing state: STOPPED") ++ reason
  | MonitorState.EXITING => line (txt "Tracing state: EXITING")
  end.

Fixpoint say_modules (ns : list (option bytes)) : prog cli unit :=
  match ns with
  | [] => mret tt
  | n :: ns => name ← use n; say (line (txt " - " ++ name));; say_modules ns
  end.

Definition report_modules (m : Daemon.zygote_modules) : prog cli unit :=
  if negb (Daemon.modules_count m =? 0) then
    say (line (txt "Modules: " ++ print_dec (Daemon.modules_count m)));;
    say_modules (Daemon.names m)
  else say (line (txt "Modules: N/A")).

Definition info : prog cli Z :=
  i ← on_daemon (Daemon.GetInfo (word_size a) junk fs);
  pid ← use (Daemon.info_pid i);
  say (line (txt "Daemon process PID: " ++ print_int pid));;
  impl ← use (Daemon.root_impl i);
  say (line (txt "Root implementation: " ++ root_text impl));;
  s ← get;
  say (status_report (c_mon s));;
  say (tracing_report (c_mon s));;
  ms ← use (Daemon.modules i);
  report_modules ms;;
  mret 0.

Definition usage : bytes :=
  line (txt "Available commands:") ++ line (txt " - monitor") ++ line (txt " - trace <pid> [--restart]") ++
  line (txt " - ctl <start|stop|exit>") ++ line (txt " - version: Shows the version of ReZygisk.") ++
  line (txt " - info: Shows information about the created daemon/injection.") ++ line [] ++
  line (txt "<...>: Obligatory") ++ line (txt "[...]: Optional").

(** [main(argc, argv)]; the code it returns. *)
Definition main (argv : list bytes) : prog cli Z :=
  on_daemon (Init (txt "/data/adb/rezygisk"));;
  say (line (line (txt "The ReZygisk Tracer " ++ version)));;
  let argc := length argv in
  if (2 <=? argc)%nat && arg_is argv 1 (txt "monitor") then
    s ← get;
    on_mon (Monitor.init_monitor (env_at (Daemon.d_tmp (c_daemon s))));;
    say (line (txt "[ReZygisk]: Started monitoring..."));;
    mret 0
  else if (3 <=? argc)%nat && arg_is argv 1 (txt "trace") then
    when ((4 <=? argc)%nat && arg_is argv 3 (txt "--restart"))
      (on_daemon (Daemon.ZygoteRestart (word_size a)));;
    trace (strtol (word_bits a) (default [] (argv !! 2%nat)))
  else if (2 <=? argc)%nat && arg_is argv 1 (txt "ctl") then ctl argv
  else if (2 <=? argc)%nat && arg_is argv 1 (txt "version") then mret 0
  else if (2 <=? argc)%nat && arg_is argv 1 (txt "info") then info
  else say usage;; mret 1.
End main.

(** ** Reading back a printed pid *)

Lemma dec_digits_head fuel n c r :
  0 < n < 10 ^ Z.of_nat fuel → dec_digits fuel n = c :: r → c ≠ "0"%char.
Proof.
  revert n r. induction fuel as [|fuel IH]; intros n r Hn; cbn [dec_digits]; [done|].
  rewrite Nat2Z.inj_succ, Z.pow_succ_r in Hn by lia. destruct (Z.ltb_spec n 10).
  - intros [= <- _] E. apply (f_equal Z_of_byte) in E. rewrite Z_of_byte_of_Z in E.
    change (Z_of_byte "0"%char) with 48 in E. rewrite (Z.mod_small n), Z.mod_small in E by lia. lia.
  - destruct (dec_digits fuel (n / 10)) as [|d ds] eqn:E; cbn [app].
    + destruct fuel; [simpl in Hn; lia | cbn [dec_digits] in E; by apply app_nil in E as [_ ?]].
    + intros [= -> _]. eapply IH; [|exact E].
      split; [apply Z.div_str_pos; lia | apply Z.div_lt_upper_bound; lia].
Qed.

Lemma digit_in_base c : is_digit c = true → in_base 10 c = true ∧ xdigit c = Some (Z_of_byte c - 48).
Proof.
  intros H. unfold in_base, xdigit. rewrite H. split; [|done].
  apply digit_range in H. lia.
Qed.

Lemma base_val_dec s acc :
  Forall (λ c, is_digit c = true) s →
  foldl (λ acc c, acc * 10 + default 0 (xdigit c)) acc s = dec_val s acc.
Proof.
  intros H. revert acc. induction H as [|c s Hc _ IH]; intros acc; [done|]. cbn [foldl].
  rewrite (proj2 (digit_in_base c Hc)). cbn [default]. apply IH.
Qed.

Lemma span_all p s : Forall (λ c, p c = true) s → span p s = (s, []).
Proof. induction 1 as [|c s Hc _ IH]; [done|]. simpl. by rewrite Hc, IH. Qed.

(** What the monitor prints with [%d] is what the tracer reads with [strtol]. *)
Lemma strtol_print w n : 32 <= w → 0 < n < 2 ^ 31 → strtol w (print_int n) = n.
Proof.
  intros Hw Hn. unfold print_int. rewrite (proj2 (Z.ltb_ge n 0)) by lia.
  destruct (print_dec_wide n) as (Hds & Hv & Hne); [lia|].
  destruct (print_dec n) as [|c r] eqn:E; [done|].
  assert (c ≠ "0"%char) as H0.
  { eapply (dec_digits_head 20 n); [|exact E]. split; [lia|].
    transitivity (2 ^ 31); [lia | by vm_compute]. }
  pose proof (Forall_inv Hds) as Hc. unfold strtol.
  rewrite drop_while_stop by by apply digit_not_space.
  rewrite scan_sign_none by by intros ->. rewrite bool_decide_eq_false_2 by done.
  rewrite span_all by (eapply Forall_impl; [|exact Hds]; intros x Hx; by apply digit_in_base).
  unfold base_val. cbn [fst]. rewrite base_val_dec, Hv by done.
  pose proof (Z.pow_le_mono_r 2 31 (w - 1)). lia.
Qed.

(** ** The components inside main *)

(** The daemon that listens for a tracer of this ABI has been told of a restart between [w] and
    [w']: one connection is tried, to its socket, and closed; if the daemon takes it, and no write
    to it fails, one byte arrives before that, which the daemon reads as the announcement. *)
Definition announced (sz : nat) (w w' : Daemon.dworld) : Prop :=
  let ok := bool_decide (0 <= Daemon.d_socket w) && default false (head (Daemon.d_connects w)) in
  let path := txt "/data/adb/rezygisk/" ++ (if (sz =? 8)%nat then txt "cp64.sock" else txt "cp32.sock") in
  Daemon.d_connects w' = tail (Daemon.d_connects w) ∧
  Daemon.d_log w' = Daemon.d_log w ++ [Daemon.EvConnect path ok; Daemon.EvClose (Daemon.d_socket w)] ∧
  if ok then
    SocketUtils.accepting (SocketUtils.txq (Daemon.d_conn w)) →
    ∃ b, SocketUtils.sent (Daemon.d_conn w') = SocketUtils.sent (Daemon.d_conn w) ++ [b] ∧
      Zygiskd.try_from (Z_of_byte b) = Some Zygiskd.ZygoteRestart
  else Daemon.d_conn w' = Daemon.d_conn w.

(** Announcing a restart always returns, daemon or not. *)
Lemma ZygoteRestart_announces sz w :
  Daemon.d_tmp w = txt "/data/adb/rezygisk" →
  ∃ w', Daemon.ZygoteRestart sz w = (Ret tt, w') ∧ Daemon.d_tmp w' = Daemon.d_tmp w ∧ announced sz w w'.
Proof.
  intros Ht. unfold Daemon.ZygoteRestart, Daemon.Connect. rewrite prog_bind_assoc. step.
  assert (cstr (Daemon.d_tmp w ++ Daemon.kCPSocketName sz) =
    txt "/data/adb/rezygisk/" ++ (if (sz =? 8)%nat then txt "cp64.sock" else txt "cp32.sock")) as Ep
    by (rewrite Ht; unfold Daemon.kCPSocketName; by destruct (sz =? 8)%nat).
  rewrite Ep. rewrite (proj2 (Nat.leb_gt _ _)) by (destruct (sz =? 8)%nat; vm_compute; lia).
  unfold announced. set (path := txt _ ++ _).
  cbn [Daemon.connect_loop]. unfold Daemon.sys_connect, Daemon.dlog. run_prog.
  destruct (bool_decide (0 <= Daemon.d_socket w)) eqn:E0; cbn [andb]; [|run_prog; eexists; by rewrite <- app_assoc].
  apply bool_decide_eq_true in E0.
  destruct (default false _); run_prog; [|eexists; by rewrite <- app_assoc].
  destruct (Z.eqb_spec (Daemon.d_socket w) (-1)); [lia|].
  unfold Daemon.send_action, Daemon.on_conn, SocketUtils.write_u8, SocketUtils.write_exact, SocketUtils.xwrite.
  run_prog. destruct (Daemon.d_conn w) as [q t o].
  destruct (SocketUtils.xwrite_loop_total t (length t + 2) (le_bytes 1 7) 0 q o) as (m & t' & E & _ & Hacc);
    [lia | simpl; lia |].
  cbn [SocketUtils.txq le_bytes] in *. rewrite E. unfold Daemon.unique_fd_close, Daemon.dlog.
  run_prog. rewrite (proj2 (Z.leb_le _ _) E0). run_prog. eexists. split; [done|]. split; [done|].
  cbn. split; [done|]. split; [by rewrite <- app_assoc|].
  intros Ha. destruct (Hacc Ha) as [-> _]. by eexists.
Qed.

(** Without a daemon the report stays empty. *)
Lemma GetInfo_absent sz junk fs w :
  (length (cstr (Daemon.d_tmp w ++ Daemon.kCPSocketName sz)) < Daemon.UNIX_PATH_MAX)%nat →
  Daemon.d_connects w = [] →
  ∃ w', Daemon.GetInfo sz junk fs w = (Ret (Daemon.mkInfo None None None false), w').
Proof.
  intros Hl Hc. unfold Daemon.GetInfo, Daemon.Connect. rewrite prog_bind_assoc. step.
  rewrite (proj2 (Nat.leb_gt _ _)) by done. set (path := cstr _).
  cbn [Daemon.connect_loop]. unfold Daemon.sys_connect, Daemon.dlog. run_prog.
  rewrite Hc. simpl. rewrite andb_false_r. run_prog. eauto.
Qed.

Definition tmp : bytes := txt "/data/adb/rezygisk".

Section claims.
Context (a : arch) (version : bytes) (env : Monitor.menv).
Context (dlsym_local : bytes → bytes → option Z) (fuel : nat) (seize_ok kill_ok : Z → bool).
Context (junk : nat → bytes) (fs : bytes → option bytes).
Context (sockfd : Z) (sendto : bytes → Z → bytes → Z).

(** After the two statements every command starts with. *)
Definition started (s : cli) : cli :=
  mkCli (Init tmp (c_daemon s)).2 (c_mon s) (c_procs s) (c_kills s)
    (c_out s ++ line (line (txt "The ReZygisk Tracer " ++ version))).

(** [trace] on a pid that fits an [int]. *)
Lemma trace_run pid ok p' s :
  - 2 ^ 31 <= pid < 2 ^ 31 → Daemon.d_tmp (c_daemon s) = tmp →
  trace_zygote a dlsym_local tmp fuel (seize_ok pid) (kill_ok pid) (c_procs s pid) = (Ret ok, p') →
  ∃ s', trace a dlsym_local fuel seize_ok kill_ok pid s = (Ret (if ok then 0 else 1), s') ∧
    c_procs s' = <[pid := p']> (c_procs s) ∧ c_daemon s' = c_daemon s ∧
    c_kills s' = c_kills s ++ (if ok then [] else [(pid, SIGKILL)]).
Proof.
  intros Hp Ht E. unfold trace. step. rewrite Ht, (wraps_small 32) by lia.
  assert (on_proc pid (trace_zygote a dlsym_local tmp fuel (seize_ok pid) (kill_ok pid)) s =
          (Ret ok, set_c_procs (<[pid := p']> (c_procs s)) s)) as E'
    by (unfold on_proc; by rewrite E).
  step_with E'. destruct ok; cbn [negb]; eexists; split_and!; try done. cbn. by rewrite app_nil_r.
Qed.

Lemma main_trace x n s :
  main a version env dlsym_local fuel seize_ok kill_ok junk fs sockfd sendto
    [x; txt "trace"; n; txt "--restart"] s =
  (on_daemon (Daemon.ZygoteRestart (word_size a));;
   trace a dlsym_local fuel seize_ok kill_ok (strtol (word_bits a) n)) (started s).
Proof. reflexivity. Qed.

(** ** Properties *)

(** C19 The tracer started with the argument vector the monitor gives to [execl] for a process
    announces the restart to the daemon of its ABI (one connection to its socket and, if it is
    taken and no write fails, the one byte the daemon understands as that announcement, nothing after
    it), traces exactly that process, whatever its pid, and returns 0; when tracing fails it kills
    that process, so that no zygote is left stopped, and returns 1.  This is for a run of
    [trace_zygote] that returns. *)
Theorem main_traces_handed_over (t : MonitorState.abi) (pid : Z) (ok : bool) (p' : tproc) (s : cli) :
  0 < pid < 2 ^ 31 →
  trace_zygote a dlsym_local tmp fuel (seize_ok pid) (kill_ok pid) (c_procs s pid) = (Ret ok, p') →
  ∃ s',
    main a version env dlsym_local fuel seize_ok kill_ok junk fs sockfd sendto
      [MonitorSigchld.SigChldHandler.tracer_name t; txt "trace"; print_int pid; txt "--restart"] s =
      (Ret (if ok then 0 else 1), s') ∧
    announced (word_size a) (c_daemon s) (c_daemon s') ∧
    c_procs s' = <[pid := p']> (c_procs s) ∧
    c_kills s' = c_kills s ++ (if ok then [] else [(pid, SIGKILL)]).
Proof.
  intros Hp E. destruct (ZygoteRestart_announces (word_size a) (c_daemon (started s))) as (d & Ed & Td & Ha); [done|].
  destruct (trace_run pid ok p' (set_c_daemon d (started s))) as (s' & E1 & E2 & E3 & E4); [lia| |done|].
  { exact Td. }
  exists s'. rewrite E3. split_and!; try done. rewrite main_trace, strtol_print by (done || by destruct a).
  assert (on_daemon (Daemon.ZygoteRestart (word_size a)) (started s) =
          (Ret tt, set_c_daemon d (started s))) as E0 by (unfold on_daemon; by rewrite Ed).
  step_with E0. exact E1.
Qed.

(** The words of [ctl] and what they stand for. *)
Definition ctl_words : list (bytes * MonitorSocket.Command) :=
  [(txt "start", MonitorSocket.START); (txt "stop", MonitorSocket.STOP); (txt "exit", MonitorSocket.EXIT)].

(** [ctl start], [ctl stop] and [ctl exit] send to the socket the monitor binds, under the
    same path, the datagram of a control message that the monitor's handler accepts; the exit
    code is 0 exactly when the kernel took the whole datagram.  Any other word sends nothing
    and fails. *)
Theorem main_ctl_sends (x word : bytes) (s : cli) :
  let path := Monitor.socket_path tmp in
  ∃ out, main a version env dlsym_local fuel seize_ok kill_ok junk fs sockfd sendto [x; txt "ctl"; word] s =
    (Ret (match List.find (λ p, bool_decide (word = p.1)) ctl_words with
          | Some (_, c) =>
              if negb (sockfd =? -1) &&
                 (sendto path (2 + Z.of_nat (length path))
                    (MonitorSocket.SocketHandler.encode (MonitorSocket.SocketHandler.Control c)) =? 4)
              then 0 else 1
          | None => 1
          end),
     mkCli (c_daemon (started s)) (c_mon s) (c_procs s) (c_kills s) (c_out (started s) ++ out)) ∧
  Forall (λ p, MonitorSocket.SocketHandler.message_ok (MonitorSocket.SocketHandler.Control p.2)) ctl_words.
Proof.
  cbv zeta.
  assert (main a version env dlsym_local fuel seize_ok kill_ok junk fs sockfd sendto [x; txt "ctl"; word] s =
          ctl sockfd sendto [x; txt "ctl"; word] (started s)) as -> by reflexivity.
  assert (∀ c, Monitor.send_control_command tmp sockfd sendto c =
     if negb (sockfd =? -1) &&
        (sendto (Monitor.socket_path tmp) (2 + Z.of_nat (length (Monitor.socket_path tmp)))
           (MonitorSocket.SocketHandler.encode (MonitorSocket.SocketHandler.Control c)) =? 4)
     then 0 else -1) as Hc.
  { intros c. unfold Monitor.send_control_command. by destruct (sockfd =? -1). }
  unfold ctl. cbn [lookup list_lookup]. cbn [List.find ctl_words fst].
  repeat case_bool_decide; cbv zeta; try (step; change (Daemon.d_tmp _) with tmp; rewrite Hc);
    try (destruct (negb (sockfd =? -1) && _)); (eexists; split; [reflexivity | by repeat constructor]).
Qed.

(** The error paths of the command line.  Without a command, with an unknown one, and for
    [trace] without a pid, the usage is printed and the exit code is 1.  But [ctl] without a word
    dereferences the null pointer at the end of [argv], and [info] without a daemon reads a
    structure that was never filled. *)
Theorem main_errors (x c : bytes) (s : cli) :
  let run := main a version env dlsym_local fuel seize_ok kill_ok junk fs sockfd sendto in
  let refused := mkCli (c_daemon (started s)) (c_mon s) (c_procs s) (c_kills s)
                   (c_out (started s) ++ usage) in
  run [] s = (Ret 1, refused) ∧ run [x] s = (Ret 1, refused) ∧
  run [x; txt "trace"] s = (Ret 1, refused) ∧
  (c ∉ [txt "monitor"; txt "trace"; txt "ctl"; txt "version"; txt "info"] →
   ∀ l, run (x :: c :: l) s = (Ret 1, refused)) ∧
  run [x; txt "ctl"] s = (Crash NullDeref, started s) ∧
  (Daemon.d_connects (c_daemon s) = [] → (run [x; txt "info"] s).1 = Crash Uninit).
Proof.
  cbv zeta. split_and!; try reflexivity.
  - rewrite !not_elem_of_cons. intros (H1 & H2 & H3 & H4 & H5 & _) l. unfold main. step. step.
    assert (∀ t, c ≠ t → arg_is (x :: c :: l) 1 t = false) as Hne
      by (intros t Ht; apply bool_decide_eq_false_2; cbn; congruence).
    by rewrite !Hne, !andb_false_r by done.
  - intros H.
    assert (main a version env dlsym_local fuel seize_ok kill_ok junk fs sockfd sendto [x; txt "info"] s =
            info a junk fs (started s)) as -> by reflexivity.
    destruct (GetInfo_absent (word_size a) junk fs (c_daemon (started s))) as [w E];
      [destruct a; vm_compute; lia | by rewrite <- H|].
    unfold info, on_daemon. unfold mbind at 1, prog_bind at 1. by rewrite E.
Qed.

Lemma say_modules_out ns s r s' : say_modules ns s = (r, s') → ∃ t, c_out s' = c_out s ++ t.
Proof.
  revert s. induction ns as [|n ns IH]; intros s; cbn [say_modules].
  - intros [= <- <-]. exists []. by rewrite app_nil_r.
  - destruct n as [n|]; [|intros [= <- <-]; exists []; by rewrite app_nil_r].
    unfold use. rewrite prog_bind_ret. erewrite bind_run by reflexivity. intros [t E]%IH.
    eexists. rewrite E. cbn. rewrite <- app_assoc. reflexivity.
Qed.

Lemma report_modules_out m s r s' : report_modules m s = (r, s') → ∃ t, c_out s' = c_out s ++ t.
Proof.
  unfold report_modules. destruct (negb _).
  - erewrite bind_run by reflexivity. intros [t E]%say_modules_out. eexists. rewrite E. cbn.
    rewrite <- app_assoc. reflexivity.
  - intros [= <- <-]. by eexists.
Qed.

(** What [info] prints once it has an answer from the daemon. *)
Lemma info_out s code s' :
  info a junk fs s = (Ret code, s') →
  ∃ t1 t2, c_out s' = c_out s ++ t1 ++ (status_report a (c_mon s) ++ tracing_report (c_mon s)) ++ t2.
Proof.
  unfold info. intros H. apply bind_inv in H as (i & s1 & E1 & H).
  unfold on_daemon in E1. destruct (Daemon.GetInfo _ _ _ _) as [r d]. injection E1 as -> <-.
  unfold use in H. destruct (Daemon.info_pid i) as [pid|]; [|done]. rewrite prog_bind_ret in H.
  erewrite bind_run in H by reflexivity. cbv beta in H.
  destruct (Daemon.root_impl i) as [impl|]; [|done]. rewrite prog_bind_ret in H.
  erewrite bind_run in H by reflexivity. cbv beta in H.
  erewrite bind_run in H by reflexivity. cbv beta in H.
  erewrite bind_run in H by reflexivity. cbv beta in H.
  erewrite bind_run in H by reflexivity. cbv beta in H.
  destruct (Daemon.modules i) as [ms|]; [|done]. rewrite prog_bind_ret in H.
  apply bind_inv in H as (u & s2 & [t E2]%report_modules_out & [= _ <-]).
  exists (line (txt "Daemon process PID: " ++ print_int pid) ++
          line (txt "Root implementation: " ++ root_text impl)), t.
  rewrite E2. cbn [c_out c_mon set_c_daemon]. rewrite <- !app_assoc. reflexivity.
Qed.

(** Whatever the monitor and the zygote are doing, a run of [info] that completes prints that
    no zygote is injected and that the state is TRACING: it prints the globals of monitor.cpp in
    its own process, which nothing has changed since it started. *)
Theorem main_info_own_globals (x : bytes) (k : MonitorState.kern) (s s' : cli) (code : Z) :
  c_mon s = MonitorState.init_mon k →
  main a version env dlsym_local fuel seize_ok kill_ok junk fs sockfd sendto [x; txt "info"] s =
    (Ret code, s') →
  ∃ t1 t2, c_out s' = t1 ++
    (match a with
     | X86_64 | AARCH64 => line (txt "Daemon64 running: 0") ++ line (txt "Zygote64 injected: no")
     | I386 | ARM => line (txt "Daemon32 running: no") ++ line (txt "Zygote32 injected: no")
     end ++ line (txt "Tracing state: TRACING")) ++ t2.
Proof.
  intros Hm H. change (info a junk fs (started s) = (Ret code, s')) in H.
  apply info_out in H as (t1 & t2 & E). exists (c_out (started s) ++ t1), t2.
  rewrite E. change (c_mon (started s)) with (c_mon s). rewrite Hm.
  rewrite (app_assoc (c_out (started s)) t1). destruct a; reflexivity.
Qed.
End claims.

(** A zygote as the monitor leaves it for the tracer, and an empty rest of the world. *)
Definition demo_cli (p : tproc) : cli :=
  mkCli (Daemon.mkDworld [] 3 [] [] (SocketUtils.mkSock [] [] []) [])
    (MonitorState.init_mon MonitorState.demo_kern) (λ _, p) [] [].

Definition demo_env : Monitor.menv := Monitor.mkEnv [] None true true true true [] 0 (λ _, []).

(** The daemon takes the connection; the process of pid 4242 cannot be seized and is killed. *)
Lemma main_traces_handed_over_witness :
  ∃ s' b, main AARCH64 (txt "v4") demo_env demo_dlsym 20 (λ _, false) (λ _, true)
          (λ _, []) (λ _, None) 5 (λ _ _ _, 4)
          [txt "zygisk-ptrace64"; txt "trace"; txt "4242"; txt "--restart"]
          (set_c_daemon (Daemon.mkDworld [] 3 [true] [] (SocketUtils.mkSock [] [] []) []) (demo_cli demo_traced)) =
        (Ret 1, s') ∧ c_kills s' = [(4242, 9)] ∧ SocketUtils.sent (Daemon.d_conn (c_daemon s')) = [b].
Proof.
  destruct (main_traces_handed_over AARCH64 (txt "v4") demo_env demo_dlsym 20 (λ _, false) (λ _, true)
              (λ _, []) (λ _, None) 5 (λ _ _ _, 4) MonitorState.abi64 4242 false demo_traced
              (set_c_daemon (Daemon.mkDworld [] 3 [true] [] (SocketUtils.mkSock [] [] []) []) (demo_cli demo_traced)))
    as (s' & E & (_ & _ & Hd) & _ & K); [lia | reflexivity |].
  destruct Hd as (b & Hb & _); [constructor|].
  exists s', b. split; [exact E|]. split; [exact K | exact Hb].
Defined.

Lemma main_errors_witness :
  let run := main AARCH64 (txt "v4") demo_env demo_dlsym 20 (λ _, false) (λ _, true)
               (λ _, []) (λ _, None) 5 (λ _ _ _, 4) in
  (run [txt "p"; txt "status"] (demo_cli demo_traced)).1 = Ret 1 ∧
  (run [txt "p"; txt "info"] (demo_cli demo_traced)).1 = Crash Uninit.
Proof.
  destruct (main_errors AARCH64 (txt "v4") demo_env demo_dlsym 20 (λ _, false) (λ _, true)
              (λ _, []) (λ _, None) 5 (λ _ _ _, 4) (txt "p") (txt "status") (demo_cli demo_traced))
    as (_ & _ & _ & H & _ & I).
  split; [|apply I; reflexivity]. rewrite H; [reflexivity|].
  apply (bool_decide_unpack _). by vm_compute.
Defined.

(** The daemon answers: Magisk, pid 77, no modules. *)
Definition demo_daemon : Daemon.dworld :=
  Daemon.mkDworld [] 3 [true] []
    (SocketUtils.mkSock [SocketUtils.Data (le_bytes 4 (2 ^ 30) ++ le_bytes 4 77 ++ le_bytes 8 0)] [] []) [].

Lemma main_info_own_globals_witness :
  let r := main AARCH64 (txt "v4") demo_env demo_dlsym 20 (λ _, false) (λ _, true)
             (λ _, []) (λ _, None) 5 (λ _ _ _, 4) [txt "p"; txt "info"]
             (set_c_daemon demo_daemon (demo_cli demo_traced)) in
  r.1 = Ret 0 ∧ ∃ t1 t2, c_out r.2 = t1 ++ line (txt "Zygote64 injected: no") ++ t2.
Proof.
  cbv zeta. set (r := main _ _ _ _ _ _ _ _ _ _ _ _ _).
  assert (r.1 = Ret 0) as E by by vm_compute. split; [exact E|].
  destruct (main_info_own_globals AARCH64 (txt "v4") demo_env demo_dlsym 20 (λ _, false) (λ _, true)
              (λ _, []) (λ _, None) 5 (λ _ _ _, 4) (txt "p") MonitorState.demo_kern
              (set_c_daemon demo_daemon (demo_cli demo_traced)) r.2 0) as (t1 & t2 & H);
    [reflexivity | rewrite <- E; apply surjective_pairing |].
  exists (t1 ++ line (txt "Daemon64 running: 0")), (line (txt "Tracing state: TRACING") ++ t2).
  rewrite H, <- !app_assoc. reflexivity.
Defined.
