(* ===== verification/Jni.v ===== *)
(** * Jni: the hooked native methods of the zygote

    [injector/jni_hooks.hpp] and the argument structures of [injector/module.hpp]: for every
    Android version and vendor the parameters of the hooked method, the references handed to the
    modules, the call of the original, and the tables that register them under a JNI signature.

    JNI does not check that a native function has the type its signature promises.  The claims
    here do: every entry of the tables has the type of its signature, forwards every parameter in
    its place, and hands out exactly the references a version of the module interface declares. *)

From Stdlib Require Import ZArith Lia Ascii.
From stdpp Require Import base tactics strings list functions numbers.
From S2P Require Import Prelude.

(** ** Types and parameters *)

Inductive ctype : Set := jint | jlong | jboolean | jstring | jintArray | jobjectArray | void.

#[export] Instance ctype_eq_dec : EqDecision ctype.
Proof. solve_decision. Defined.

(** The parameters by name; vendor parameters have only a number. *)
Module P.
Inductive t : Set :=
| uid | gid | gids | runtime_flags | rlimits | mount_external | se_info | nice_name
| fds_to_close | fds_to_ignore | is_child_zygote | instruction_set | app_data_dir | is_top_app
| pkg_data_info_list | whitelisted_data_info_list | mount_data_dirs | mount_storage_dirs
| mount_sysprop_overrides | permitted_capabilities | effective_capabilities
| unnamed (n : nat).

#[global] Instance eq_dec : EqDecision t.
Proof. solve_decision. Defined.
End P.

Inductive kind : Set := KFork | KSpecialize | KServer.

(** One replacement function, behind [env] and [clazz]. *)
Record variant : Type := mkVariant {
  v_params : list (ctype * P.t);
  v_ret : ctype;
  v_kind : kind;                  (* which of the context's functions surround the call *)
  v_ctor : list P.t;              (* the arguments of the constructor of [args] *)
  v_ptrs : list (P.t * P.t);      (* [args.<field> = &<parameter>] *)
  v_call : list P.t               (* the arguments of the original *)
}.

Record table_entry : Type := mkEntry { te_name : bytes; te_sig : bytes; te_fn : variant }.

(** ** The functions and the tables *)

Definition nativeForkAndSpecialize_l : variant := mkVariant
  [(jint, P.uid); (jint, P.gid); (jintArray, P.gids); (jint, P.runtime_flags);
   (jobjectArray, P.rlimits); (jint, P.mount_external); (jstring, P.se_info);
   (jstring, P.nice_name); (jintArray, P.fds_to_close); (jstring, P.instruction_set);
   (jstring, P.app_data_dir)]
  jint KFork
  [P.uid; P.gid; P.gids; P.runtime_flags; P.rlimits; P.mount_external; P.se_info; P.nice_name;
   P.instruction_set; P.app_data_dir]
  []
  [P.uid; P.gid; P.gids; P.runtime_flags; P.rlimits; P.mount_external; P.se_info; P.nice_name;
   P.fds_to_close; P.instruction_set; P.app_data_dir].

Definition nativeForkAndSpecialize_o : variant := mkVariant
  [(jint, P.uid); (jint, P.gid); (jintArray, P.gids); (jint, P.runtime_flags);
   (jobjectArray, P.rlimits); (jint, P.mount_external); (jstring, P.se_info);
   (jstring, P.nice_name); (jintArray, P.fds_to_close); (jintArray, P.fds_to_ignore);
   (jstring, P.instruction_set); (jstring, P.app_data_dir)]
  jint KFork
  [P.uid; P.gid; P.gids; P.runtime_flags; P.rlimits; P.mount_external; P.se_info; P.nice_name;
   P.instruction_set; P.app_data_dir]
  [(P.fds_to_ignore, P.fds_to_ignore)]
  [P.uid; P.gid; P.gids; P.runtime_flags; P.rlimits; P.mount_external; P.se_info; P.nice_name;
   P.fds_to_close; P.fds_to_ignore; P.instruction_set; P.app_data_dir].

Definition nativeForkAndSpecialize_p : variant := mkVariant
  [(jint, P.uid); (jint, P.gid); (jintArray, P.gids); (jint, P.runtime_flags);
   (jobjectArray, P.rlimits); (jint, P.mount_external); (jstring, P.se_info);
   (jstring, P.nice_name); (jintArray, P.fds_to_close); (jintArray, P.fds_to_ignore);
   (jboolean, P.is_child_zygote); (jstring, P.instruction_set); (jstring, P.app_data_dir)]
  jint KFork
  [P.uid; P.gid; P.gids; P.runtime_flags; P.rlimits; P.mount_external; P.se_info; P.nice_name;
   P.instruction_set; P.app_data_dir]
  [(P.fds_to_ignore, P.fds_to_ignore); (P.is_child_zygote, P.is_child_zygote)]
  [P.uid; P.gid; P.gids; P.runtime_flags; P.rlimits; P.mount_external; P.se_info; P.nice_name;
   P.fds_to_close; P.fds_to_ignore; P.is_child_zygote; P.instruction_set; P.app_data_dir].

Definition nativeForkAndSpecialize_q_alt : variant := mkVariant
  [(jint, P.uid); (jint, P.gid); (jintArray, P.gids); (jint, P.runtime_flags);
   (jobjectArray, P.rlimits); (jint, P.mount_external); (jstring, P.se_info);
   (jstring, P.nice_name); (jintArray, P.fds_to_close); (jintArray, P.fds_to_ignore);
   (jboolean, P.is_child_zygote); (jstring, P.instruction_set); (jstring, P.app_data_dir);
   (jboolean, P.is_top_app)]
  jint KFork
  [P.uid; P.gid; P.gids; P.runtime_flags; P.rlimits; P.mount_external; P.se_info; P.nice_name;
   P.instruction_set; P.app_data_dir]
  [(P.fds_to_ignore, P.fds_to_ignore); (P.is_child_zygote, P.is_child_zygote);
   (P.is_top_app, P.is_top_app)]
  [P.uid; P.gid; P.gids; P.runtime_flags; P.rlimits; P.mount_external; P.se_info; P.nice_name;
   P.fds_to_close; P.fds_to_ignore; P.is_child_zygote; P.instruction_set; P.app_data_dir;
   P.is_top_app].

Definition nativeForkAndSpecialize_r : variant := mkVariant
  [(jint, P.uid); (jint, P.gid); (jintArray, P.gids); (jint, P.runtime_flags);
   (jobjectArray, P.rlimits); (jint, P.mount_external); (jstring, P.se_info);
   (jstring, P.nice_name); (jintArray, P.fds_to_close); (jintArray, P.fds_to_ignore);
   (jboolean, P.is_child_zygote); (jstring, P.instruction_set); (jstring, P.app_data_dir);
   (jboolean, P.is_top_app); (jobjectArray, P.pkg_data_info_list);
   (jobjectArray, P.whitelisted_data_info_list); (jboolean, P.mount_data_dirs);
   (jboolean, P.mount_storage_dirs)]
  jint KFork
  [P.uid; P.gid; P.gids; P.runtime_flags; P.rlimits; P.mount_external; P.se_info; P.nice_name;
   P.instruction_set; P.app_data_dir]
  [(P.fds_to_ignore, P.fds_to_ignore); (P.is_child_zygote, P.is_child_zygote);
   (P.is_top_app, P.is_top_app); (P.pkg_data_info_list, P.pkg_data_info_list);
   (P.whitelisted_data_info_list, P.whitelisted_data_info_list);
   (P.mount_data_dirs, P.mount_data_dirs); (P.mount_storage_dirs, P.mount_storage_dirs)]
  [P.uid; P.gid; P.gids; P.runtime_flags; P.rlimits; P.mount_external; P.se_info; P.nice_name;
   P.fds_to_close; P.fds_to_ignore; P.is_child_zygote; P.instruction_set; P.app_data_dir;
   P.is_top_app; P.pkg_data_info_list; P.whitelisted_data_info_list; P.mount_data_dirs;
   P.mount_storage_dirs].

Definition nativeForkAndSpecialize_u : variant := mkVariant
  [(jint, P.uid); (jint, P.gid); (jintArray, P.gids); (jint, P.runtime_flags);
   (jobjectArray, P.rlimits); (jint, P.mount_external); (jstring, P.se_info);
   (jstring, P.nice_name); (jintArray, P.fds_to_close); (jintArray, P.fds_to_ignore);
   (jboolean, P.is_child_zygote); (jstring, P.instruction_set); (jstring, P.app_data_dir);
   (jboolean, P.is_top_app); (jobjectArray, P.pkg_data_info_list);
   (jobjectArray, P.whitelisted_data_info_list); (jboolean, P.mount_data_dirs);
   (jboolean, P.mount_storage_dirs); (jboolean, P.mount_sysprop_overrides)]
  jint KFork
  [P.uid; P.gid; P.gids; P.runtime_flags; P.rlimits; P.mount_external; P.se_info; P.nice_name;
   P.instruction_set; P.app_data_dir]
  [(P.fds_to_ignore, P.fds_to_ignore); (P.is_child_zygote, P.is_child_zygote);
   (P.is_top_app, P.is_top_app); (P.pkg_data_info_list, P.pkg_data_info_list);
   (P.whitelisted_data_info_list, P.whitelisted_data_info_list);
   (P.mount_data_dirs, P.mount_data_dirs); (P.mount_storage_dirs, P.mount_storage_dirs);
   (P.mount_sysprop_overrides, P.mount_sysprop_overrides)]
  [P.uid; P.gid; P.gids; P.runtime_flags; P.rlimits; P.mount_external; P.se_info; P.nice_name;
   P.fds_to_close; P.fds_to_ignore; P.is_child_zygote; P.instruction_set; P.app_data_dir;
   P.is_top_app; P.pkg_data_info_list; P.whitelisted_data_info_list; P.mount_data_dirs;
   P.mount_storage_dirs; P.mount_sysprop_overrides].

Definition nativeForkAndSpecialize_samsung_m : variant := mkVariant
  [(jint, P.uid); (jint, P.gid); (jintArray, P.gids); (jint, P.runtime_flags);
   (jobjectArray, P.rlimits); (jint, P.mount_external); (jstring, P.se_info);
   (jint, P.unnamed 0); (jint, P.unnamed 1); (jstring, P.nice_name); (jintArray, P.fds_to_close);
   (jstring, P.instruction_set); (jstring, P.app_data_dir)]
  jint KFork
  [P.uid; P.gid; P.gids; P.runtime_flags; P.rlimits; P.mount_external; P.se_info; P.nice_name;
   P.instruction_set; P.app_data_dir]
  []
  [P.uid; P.gid; P.gids; P.runtime_flags; P.rlimits; P.mount_external; P.se_info; P.unnamed 0;
   P.unnamed 1; P.nice_name; P.fds_to_close; P.instruction_set; P.app_data_dir].

Definition nativeForkAndSpecialize_samsung_n : variant := mkVariant
  [(jint, P.uid); (jint, P.gid); (jintArray, P.gids); (jint, P.runtime_flags);
   (jobjectArray, P.rlimits); (jint, P.mount_external); (jstring, P.se_info);
   (jint, P.unnamed 2); (jint, P.unnamed 3); (jstring, P.nice_name); (jintArray, P.fds_to_close);
   (jstring, P.instruction_set); (jstring, P.app_data_dir); (jint, P.unnamed 4)]
  jint KFork
  [P.uid; P.gid; P.gids; P.runtime_flags; P.rlimits; P.mount_external; P.se_info; P.nice_name;
   P.instruction_set; P.app_data_dir]
  []
  [P.uid; P.gid; P.gids; P.runtime_flags; P.rlimits; P.mount_external; P.se_info; P.unnamed 2;
   P.unnamed 3; P.nice_name; P.fds_to_close; P.instruction_set; P.app_data_dir; P.unnamed 4].

Definition nativeForkAndSpecialize_samsung_o : variant := mkVariant
  [(jint, P.uid); (jint, P.gid); (jintArray, P.gids); (jint, P.runtime_flags);
   (jobjectArray, P.rlimits); (jint, P.mount_external); (jstring, P.se_info);
   (jint, P.unnamed 5); (jint, P.unnamed 6); (jstring, P.nice_name); (jintArray, P.fds_to_close);
   (jintArray, P.fds_to_ignore); (jstring, P.instruction_set); (jstring, P.app_data_dir)]
  jint KFork
  [P.uid; P.gid; P.gids; P.runtime_flags; P.rlimits; P.mount_external; P.se_info; P.nice_name;
   P.instruction_set; P.app_data_dir]
  [(P.fds_to_ignore, P.fds_to_ignore)]
  [P.uid; P.gid; P.gids; P.runtime_flags; P.rlimits; P.mount_external; P.se_info; P.unnamed 5;
   P.unnamed 6; P.nice_name; P.fds_to_close; P.fds_to_ignore; P.instruction_set; P.app_data_dir].

Definition nativeForkAndSpecialize_samsung_p : variant := mkVariant
  [(jint, P.uid); (jint, P.gid); (jintArray, P.gids); (jint, P.runtime_flags);
   (jobjectArray, P.rlimits); (jint, P.mount_external); (jstring, P.se_info);
   (jint, P.unnamed 7); (jint, P.unnamed 8); (jstring, P.nice_name); (jintArray, P.fds_to_close);
   (jintArray, P.fds_to_ignore); (jboolean, P.is_child_zygote); (jstring, P.instruction_set);
   (jstring, P.app_data_dir)]
  jint KFork
  [P.uid; P.gid; P.gids; P.runtime_flags; P.rlimits; P.mount_external; P.se_info; P.nice_name;
   P.instruction_set; P.app_data_dir]
  [(P.fds_to_ignore, P.fds_to_ignore); (P.is_child_zygote, P.is_child_zygote)]
  [P.uid; P.gid; P.gids; P.runtime_flags; P.rlimits; P.mount_external; P.se_info; P.unnamed 7;
   P.unnamed 8; P.nice_name; P.fds_to_close; P.fds_to_ignore; P.is_child_zygote;
   P.instruction_set; P.app_data_dir].

Definition nativeForkAndSpecialize_methods : list table_entry :=
  [mkEntry (txt "nativeForkAndSpecialize")
     (txt "(II[II[[IILjava/lang/String;Ljava/lang/String;[ILjava/lang/String;Ljava/lang/String;)I")
     nativeForkAndSpecialize_l;
   mkEntry (txt "nativeForkAndSpecialize")
     (txt "(II[II[[IILjava/lang/String;Ljava/lang/String;[I[ILjava/lang/String;Ljava/lang/String;)I")
     nativeForkAndSpecialize_o;
   mkEntry (txt "nativeForkAndSpecialize")
     (txt "(II[II[[IILjava/lang/String;Ljava/lang/String;[I[IZLjava/lang/String;Ljava/lang/String;)I")
     nativeForkAndSpecialize_p;
   mkEntry (txt "nativeForkAndSpecialize")
     (txt "(II[II[[IILjava/lang/String;Ljava/lang/String;[I[IZLjava/lang/String;Ljava/lang/String;Z)I")
     nativeForkAndSpecialize_q_alt;
   mkEntry (txt "nativeForkAndSpecialize")
     (txt "(II[II[[IILjava/lang/String;Ljava/lang/String;[I[IZLjava/lang/String;Ljava/lang/String;Z[Ljava/lang/String;[Ljava/lang/String;ZZ)I")
     nativeForkAndSpecialize_r;
   mkEntry (txt "nativeForkAndSpecialize")
     (txt "(II[II[[IILjava/lang/String;Ljava/lang/String;[I[IZLjava/lang/String;Ljava/lang/String;Z[Ljava/lang/String;[Ljava/lang/String;ZZZ)I")
     nativeForkAndSpecialize_u;
   mkEntry (txt "nativeForkAndSpecialize")
     (txt "(II[II[[IILjava/lang/String;IILjava/lang/String;[ILjava/lang/String;Ljava/lang/String;)I")
     nativeForkAndSpecialize_samsung_m;
   mkEntry (txt "nativeForkAndSpecialize")
     (txt "(II[II[[IILjava/lang/String;IILjava/lang/String;[ILjava/lang/String;Ljava/lang/String;I)I")
     nativeForkAndSpecialize_samsung_n;
   mkEntry (txt "nativeForkAndSpecialize")
     (txt "(II[II[[IILjava/lang/String;IILjava/lang/String;[I[ILjava/lang/String;Ljava/lang/String;)I")
     nativeForkAndSpecialize_samsung_o;
   mkEntry (txt "nativeForkAndSpecialize")
     (txt "(II[II[[IILjava/lang/String;IILjava/lang/String;[I[IZLjava/lang/String;Ljava/lang/String;)I")
     nativeForkAndSpecialize_samsung_p].

Definition nativeSpecializeAppProcess_q : variant := mkVariant
  [(jint, P.uid); (jint, P.gid); (jintArray, P.gids); (jint, P.runtime_flags);
   (jobjectArray, P.rlimits); (jint, P.mount_external); (jstring, P.se_info);
   (jstring, P.nice_name); (jboolean, P.is_child_zygote); (jstring, P.instruction_set);
   (jstring, P.app_data_dir)]
  void KSpecialize
  [P.uid; P.gid; P.gids; P.runtime_flags; P.rlimits; P.mount_external; P.se_info; P.nice_name;
   P.instruction_set; P.app_data_dir]
  [(P.is_child_zygote, P.is_child_zygote)]
  [P.uid; P.gid; P.gids; P.runtime_flags; P.rlimits; P.mount_external; P.se_info; P.nice_name;
   P.is_child_zygote; P.instruction_set; P.app_data_dir].

Definition nativeSpecializeAppProcess_q_alt : variant := mkVariant
  [(jint, P.uid); (jint, P.gid); (jintArray, P.gids); (jint, P.runtime_flags);
   (jobjectArray, P.rlimits); (jint, P.mount_external); (jstring, P.se_info);
   (jstring, P.nice_name); (jboolean, P.is_child_zygote); (jstring, P.instruction_set);
   (jstring, P.app_data_dir); (jboolean, P.is_top_app)]
  void KSpecialize
  [P.uid; P.gid; P.gids; P.runtime_flags; P.rlimits; P.mount_external; P.se_info; P.nice_name;
   P.instruction_set; P.app_data_dir]
  [(P.is_child_zygote, P.is_child_zygote); (P.is_top_app, P.is_top_app)]
  [P.uid; P.gid; P.gids; P.runtime_flags; P.rlimits; P.mount_external; P.se_info; P.nice_name;
   P.is_child_zygote; P.instruction_set; P.app_data_dir; P.is_top_app].

Definition nativeSpecializeAppProcess_r : variant := mkVariant
  [(jint, P.uid); (jint, P.gid); (jintArray, P.gids); (jint, P.runtime_flags);
   (jobjectArray, P.rlimits); (jint, P.mount_external); (jstring, P.se_info);
   (jstring, P.nice_name); (jboolean, P.is_child_zygote); (jstring, P.instruction_set);
   (jstring, P.app_data_dir); (jboolean, P.is_top_app); (jobjectArray, P.pkg_data_info_list);
   (jobjectArray, P.whitelisted_data_info_list); (jboolean, P.mount_data_dirs);
   (jboolean, P.mount_storage_dirs)]
  void KSpecialize
  [P.uid; P.gid; P.gids; P.runtime_flags; P.rlimits; P.mount_external; P.se_info; P.nice_name;
   P.instruction_set; P.app_data_dir]
  [(P.is_child_zygote, P.is_child_zygote); (P.is_top_app, P.is_top_app);
   (P.pkg_data_info_list, P.pkg_data_info_list);
   (P.whitelisted_data_info_list, P.whitelisted_data_info_list);
   (P.mount_data_dirs, P.mount_data_dirs); (P.mount_storage_dirs, P.mount_storage_dirs)]
  [P.uid; P.gid; P.gids; P.runtime_flags; P.rlimits; P.mount_external; P.se_info; P.nice_name;
   P.is_child_zygote; P.instruction_set; P.app_data_dir; P.is_top_app; P.pkg_data_info_list;
   P.whitelisted_data_info_list; P.mount_data_dirs; P.mount_storage_dirs].

Definition nativeSpecializeAppProcess_u : variant := mkVariant
  [(jint, P.uid); (jint, P.gid); (jintArray, P.gids); (jint, P.runtime_flags);
   (jobjectArray, P.rlimits); (jint, P.mount_external); (jstring, P.se_info);
   (jstring, P.nice_name); (jboolean, P.is_child_zygote); (jstring, P.instruction_set);
   (jstring, P.app_data_dir); (jboolean, P.is_top_app); (jobjectArray, P.pkg_data_info_list);
   (jobjectArray, P.whitelisted_data_info_list); (jboolean, P.mount_data_dirs);
   (jboolean, P.mount_storage_dirs); (jboolean, P.mount_sysprop_overrides)]
  void KSpecialize
  [P.uid; P.gid; P.gids; P.runtime_flags; P.rlimits; P.mount_external; P.se_info; P.nice_name;
   P.instruction_set; P.app_data_dir]
  [(P.is_child_zygote, P.is_child_zygote); (P.is_top_app, P.is_top_app);
   (P.pkg_data_info_list, P.pkg_data_info_list);
   (P.whitelisted_data_info_list, P.whitelisted_data_info_list);
   (P.mount_data_dirs, P.mount_data_dirs); (P.mount_storage_dirs, P.mount_storage_dirs);
   (P.mount_sysprop_overrides, P.mount_sysprop_overrides)]
  [P.uid; P.gid; P.gids; P.runtime_flags; P.rlimits; P.mount_external; P.se_info; P.nice_name;
   P.is_child_zygote; P.instruction_set; P.app_data_dir; P.is_top_app; P.pkg_data_info_list;
   P.whitelisted_data_info_list; P.mount_data_dirs; P.mount_storage_dirs;
   P.mount_sysprop_overrides].

Definition nativeSpecializeAppProcess_samsung_q : variant := mkVariant
  [(jint, P.uid); (jint, P.gid); (jintArray, P.gids); (jint, P.runtime_flags);
   (jobjectArray, P.rlimits); (jint, P.mount_external); (jstring, P.se_info);
   (jint, P.unnamed 9); (jint, P.unnamed 10); (jstring, P.nice_name);
   (jboolean, P.is_child_zygote); (jstring, P.instruction_set); (jstring, P.app_data_dir)]
  void KSpecialize
  [P.uid; P.gid; P.gids; P.runtime_flags; P.rlimits; P.mount_external; P.se_info; P.nice_name;
   P.instruction_set; P.app_data_dir]
  [(P.is_child_zygote, P.is_child_zygote)]
  [P.uid; P.gid; P.gids; P.runtime_flags; P.rlimits; P.mount_external; P.se_info; P.unnamed 9;
   P.unnamed 10; P.nice_name; P.is_child_zygote; P.instruction_set; P.app_data_dir].

Definition nativeSpecializeAppProcess_methods : list table_entry :=
  [mkEntry (txt "nativeSpecializeAppProcess")
     (txt "(II[II[[IILjava/lang/String;Ljava/lang/String;ZLjava/lang/String;Ljava/lang/String;)V")
     nativeSpecializeAppProcess_q;
   mkEntry (txt "nativeSpecializeAppProcess")
     (txt "(II[II[[IILjava/lang/String;Ljava/lang/String;ZLjava/lang/String;Ljava/lang/String;Z)V")
     nativeSpecializeAppProcess_q_alt;
   mkEntry (txt "nativeSpecializeAppProcess")
     (txt "(II[II[[IILjava/lang/String;Ljava/lang/String;ZLjava/lang/String;Ljava/lang/String;Z[Ljava/lang/String;[Ljava/lang/String;ZZ)V")
     nativeSpecializeAppProcess_r;
   mkEntry (txt "nativeSpecializeAppProcess")
     (txt "(II[II[[IILjava/lang/String;Ljava/lang/String;ZLjava/lang/String;Ljava/lang/String;Z[Ljava/lang/String;[Ljava/lang/String;ZZZ)V")
     nativeSpecializeAppProcess_u;
   mkEntry (txt "nativeSpecializeAppProcess")
     (txt "(II[II[[IILjava/lang/String;IILjava/lang/String;ZLjava/lang/String;Ljava/lang/String;)V")
     nativeSpecializeAppProcess_samsung_q].

Definition nativeForkSystemServer_l : variant := mkVariant
  [(jint, P.uid); (jint, P.gid); (jintArray, P.gids); (jint, P.runtime_flags);
   (jobjectArray, P.rlimits); (jlong, P.permitted_capabilities);
   (jlong, P.effective_capabilities)]
  jint KServer
  [P.uid; P.gid; P.gids; P.runtime_flags; P.permitted_capabilities; P.effective_capabilities]
  []
  [P.uid; P.gid; P.gids; P.runtime_flags; P.rlimits; P.permitted_capabilities;
   P.effective_capabilities].

Definition nativeForkSystemServer_samsung_q : variant := mkVariant
  [(jint, P.uid); (jint, P.gid); (jintArray, P.gids); (jint, P.runtime_flags);
   (jint, P.unnamed 11); (jint, P.unnamed 12); (jobjectArray, P.rlimits);
   (jlong, P.permitted_capabilities); (jlong, P.effective_capabilities)]
  jint KServer
  [P.uid; P.gid; P.gids; P.runtime_flags; P.permitted_capabilities; P.effective_capabilities]
  []
  [P.uid; P.gid; P.gids; P.runtime_flags; P.unnamed 11; P.unnamed 12; P.rlimits;
   P.permitted_capabilities; P.effective_capabilities].

Definition nativeForkSystemServer_methods : list table_entry :=
  [mkEntry (txt "nativeForkSystemServer")
     (txt "(II[II[[IJJ)I")
     nativeForkSystemServer_l;
   mkEntry (txt "nativeForkSystemServer")
     (txt "(II[IIII[[IJJ)I")
     nativeForkSystemServer_samsung_q].

(** ** Signatures *)

(** One type of a signature, and what follows it.  An array of [int]s is a [jintArray], an array
    of arrays or objects a [jobjectArray]. *)
Definition String_tail : bytes := txt "java/lang/String;".

Fixpoint parse_type (fuel : nat) (s : bytes) : option (ctype * bytes) :=
  match fuel, s with
  | S fuel, c :: r =>
      if bool_decide (c = "I"%char) then Some (jint, r)
      else if bool_decide (c = "J"%char) then Some (jlong, r)
      else if bool_decide (c = "Z"%char) then Some (jboolean, r)
      else if bool_decide (c = "V"%char) then Some (void, r)
      else if bool_decide (c = "L"%char) then
        if starts_with String_tail r then Some (jstring, drop (length String_tail) r) else None
      else if bool_decide (c = "["%char) then
        '(t, r) ← parse_type fuel r;
        match t with
        | jint => Some (jintArray, r)
        | jstring | jintArray | jobjectArray => Some (jobjectArray, r)
        | _ => None
        end
      else None
  | _, _ => None
  end.

(** The parameter types up to the closing parenthesis, then the result. *)
Fixpoint parse_types (fuel : nat) (s : bytes) : option (list ctype * bytes) :=
  match fuel, s with
  | S fuel, c :: r =>
      if bool_decide (c = ")"%char) then Some ([], r)
      else
        '(t, r) ← parse_type (length s) s;
        '(ts, r) ← parse_types fuel r;
        Some (t :: ts, r)
  | _, _ => None
  end.

Definition parse_sig (s : bytes) : option (list ctype * ctype) :=
  match s with
  | c :: r =>
      if bool_decide (c = "("%char) then
        '(ts, r) ← parse_types (length r) r;
        '(t, r) ← parse_type (length r) r;
        if bool_decide (r = []) then Some (ts, t) else None
      else None
  | [] => None
  end.

(** ** The arguments as the modules see them *)

(** The references of [AppSpecializeArgs_v5] and [ServerSpecializeArgs_v1]: the parameter each
    field refers to, [None] for a null pointer. *)
Abbreviation refs := (P.t → option P.t).

Definition app_fields : list P.t :=
  [P.uid; P.gid; P.gids; P.runtime_flags; P.rlimits; P.mount_external; P.se_info; P.nice_name;
   P.instruction_set; P.app_data_dir].

Definition app_pointers : list P.t :=
  [P.fds_to_ignore; P.is_child_zygote; P.is_top_app; P.pkg_data_info_list;
   P.whitelisted_data_info_list; P.mount_data_dirs; P.mount_storage_dirs].

(** The pointer that [AppSpecializeArgs_v5] adds. *)
Definition v5_pointers : list P.t := [P.mount_sysprop_overrides].

Definition server_fields : list P.t :=
  [P.uid; P.gid; P.gids; P.runtime_flags; P.permitted_capabilities; P.effective_capabilities].

Definition bind_all (l : list (P.t * P.t)) (r : refs) : refs :=
  foldl (λ r fp, <[fp.1 := Some fp.2]> r) r l.

(** [AppSpecializeArgs_v5(uid, ...)] or [ServerSpecializeArgs_v1(uid, ...)]: the pointers start out null. *)
Definition construct (fields actual : list P.t) : refs := bind_all (zip fields actual) (λ _, None).

Definition args_of (v : variant) : refs :=
  bind_all (v_ptrs v)
    (construct (match v_kind v with KServer => server_fields | _ => app_fields end) (v_ctor v)).

(** [AppSpecializeArgs_v1], made from the newer structure: the references it copies. *)
Definition v1_fields : list P.t :=
  [P.uid; P.gid; P.gids; P.runtime_flags; P.mount_external; P.se_info; P.nice_name;
   P.instruction_set; P.app_data_dir; P.is_child_zygote; P.is_top_app; P.pkg_data_info_list;
   P.whitelisted_data_info_list; P.mount_data_dirs; P.mount_storage_dirs].

Definition AppSpecializeArgs_v1 (a : refs) : refs := λ f, if bool_decide (f ∈ v1_fields) then a f else None.

(** What [call_app] hands to a module of version [version]: nothing when there is no such case. *)
Definition call_app_args (version : Z) (a : refs) : option refs :=
  if (version =? 1) || (version =? 2) then Some (AppSpecializeArgs_v1 a)
  else if (version =? 3) || (version =? 4) || (version =? 5) then Some a
  else None.

(** A module stores to a field; a null pointer is its own fault, here nothing happens. *)
Abbreviation frame := (P.t → Z).
Definition store (a : refs) (f : P.t) (x : Z) (fr : frame) : frame :=
  match a f with Some p => <[p := x]> fr | None => fr end.

(** The stores of the modules, each with the version of its module. *)
Definition edit : Type := Z * P.t * Z.
Definition apply_edit (v : variant) (fr : frame) (e : edit) : frame :=
  let '(version, f, x) := e in
  match v_kind v with
  | KServer => store (args_of v) f x fr
  | _ => match call_app_args version (args_of v) with
         | Some a => store a f x fr
         | None => fr
         end
  end.
Definition apply_edits (v : variant) (fr : frame) (es : list edit) : frame := foldl (apply_edit v) fr es.

(** [*args.app->fds_to_ignore = array] of [sanitize_fds], which runs after the modules and before the
    original: [array] is the new array, if [NewIntArray] was called and gave one. *)
Definition store_array (v : variant) (array : option Z) (fr : frame) : frame :=
  match array with Some a => store (args_of v) P.fds_to_ignore a fr | None => fr end.

(** What the original is called with. *)
Definition forwarded (v : variant) (fr : frame) (es : list edit) (array : option Z) : list Z :=
  store_array v array (apply_edits v fr es) <$> v_call v.

(** ** What the tables promise *)

Definition all_entries : list table_entry :=
  nativeForkAndSpecialize_methods ++ nativeSpecializeAppProcess_methods ++ nativeForkSystemServer_methods.

(** The fields of the structure the modules get. *)
Definition struct_fields (k : kind) : list P.t :=
  match k with KServer => server_fields | _ => app_fields ++ app_pointers ++ v5_pointers end.

(** The parameters a module of [version] may change. *)
Definition editable (k : kind) (version : Z) (p : P.t) : bool :=
  match k with
  | KServer => bool_decide (p ∈ server_fields)
  | _ => if (version =? 1) || (version =? 2) then bool_decide (p ∈ v1_fields)
         else ((version =? 3) || (version =? 4) || (version =? 5)) && bool_decide (p ∈ struct_fields k)
  end.

(** The value a parameter should arrive with: that of the last module that may change it. *)
Definition wanted (k : kind) (fr : frame) (es : list edit) (p : P.t) : Z :=
  foldl (λ x (e : edit), let '(version, f, y) := e in
           if bool_decide (f = p) && editable k version p then y else x) (fr p) es.

(** The array of [fds_to_ignore] is replaced by that of [sanitize_fds] when it has made one. *)
Definition arrives (k : kind) (fr : frame) (es : list edit) (array : option Z) (p : P.t) : Z :=
  match p, array with
  | P.fds_to_ignore, Some a => a
  | _, _ => wanted k fr es p
  end.

(** ** Lemmas *)

Definition params (v : variant) : list P.t := (v_params v).*2.

(** Each field refers to the parameter of its name; without such a parameter it is null. *)
Definition refs_exact (v : variant) : Prop :=
  ∀ f, args_of v f = if bool_decide (f ∈ struct_fields (v_kind v)) && bool_decide (f ∈ params v)
                     then Some f else None.

Lemma tables_refs : Forall (λ e, refs_exact (te_fn e)) all_entries.
Proof. repeat constructor; intros []; reflexivity. Qed.

Lemma tables_call : Forall (λ e, v_call (te_fn e) = params (te_fn e)) all_entries.
Proof. repeat constructor. Qed.

Lemma v1_fields_struct p : bool_decide (p ∈ v1_fields) = true → bool_decide (p ∈ struct_fields KFork) = true.
Proof. destruct p; by vm_compute. Qed.

(** One store through references that each refer to the parameter of their name. *)
Lemma store_at (a : refs) (b : bool) f x fr p :
  (a p = if b then Some p else None) → (∀ g, a g = None ∨ a g = Some g) →
  store a f x fr p = if bool_decide (f = p) && b then x else fr p.
Proof.
  intros Hp Ha. unfold store. case_bool_decide as E; cbn [andb].
  - subst f. rewrite Hp. destruct b; [by rewrite fn_lookup_insert | done].
  - destruct (Ha f) as [-> | ->]; [done | by rewrite fn_lookup_insert_ne].
Qed.

Lemma refs_exact_self v g : refs_exact v → args_of v g = None ∨ args_of v g = Some g.
Proof. intros ->. destruct (_ && _); auto. Qed.

Lemma v1_exact v g :
  refs_exact v → v_kind v ≠ KServer →
  AppSpecializeArgs_v1 (args_of v) g =
  if bool_decide (g ∈ v1_fields) && bool_decide (g ∈ params v) then Some g else None.
Proof.
  intros Hr Hk. unfold AppSpecializeArgs_v1. rewrite Hr.
  destruct (bool_decide (g ∈ v1_fields)) eqn:E; [|done]. apply v1_fields_struct in E.
  replace (struct_fields (v_kind v)) with (struct_fields KFork) by by destruct (v_kind v).
  by rewrite E.
Qed.

(** It changes the parameter of its name if the module may, and no other. *)
Lemma apply_edit_at v fr version f x p :
  refs_exact v → p ∈ params v →
  apply_edit v fr (version, f, x) p =
  if bool_decide (f = p) && editable (v_kind v) version p then x else fr p.
Proof.
  intros Hr Hp. unfold apply_edit, editable, call_app_args.
  assert (v_kind v ≠ KServer →
    match (if (version =? 1) || (version =? 2) then Some (AppSpecializeArgs_v1 (args_of v))
           else if (version =? 3) || (version =? 4) || (version =? 5) then Some (args_of v) else None) with
    | Some a => store a f x fr
    | None => fr
    end p =
    if bool_decide (f = p) &&
       (if (version =? 1) || (version =? 2) then bool_decide (p ∈ v1_fields)
        else ((version =? 3) || (version =? 4) || (version =? 5)) &&
             bool_decide (p ∈ struct_fields (v_kind v)))
    then x else fr p) as Happ.
  { intros Hk. destruct ((version =? 1) || (version =? 2)).
    - apply store_at.
      + rewrite v1_exact by done. by rewrite (bool_decide_eq_true_2 (p ∈ params v)), andb_true_r.
      + intros g. rewrite v1_exact by done. destruct (_ && _); auto.
    - destruct ((version =? 3) || (version =? 4) || (version =? 5)); cbn [andb].
      + apply store_at; [|intros g; by apply refs_exact_self].
        rewrite Hr. by rewrite (bool_decide_eq_true_2 (p ∈ params v)), andb_true_r.
      + by rewrite andb_false_r. }
  destruct (v_kind v) eqn:Ek; [by apply Happ..|].
  apply store_at; [|intros g; by apply refs_exact_self].
  rewrite Hr, Ek. by rewrite (bool_decide_eq_true_2 (p ∈ params v)), andb_true_r.
Qed.

Lemma apply_edits_at v fr es p :
  refs_exact v → p ∈ params v → apply_edits v fr es p = wanted (v_kind v) fr es p.
Proof.
  intros Hr Hp. unfold apply_edits, wanted. revert fr.
  induction es as [|[[version f] x] es IH]; intros fr; [done|]. cbn [foldl].
  rewrite IH. f_equal. by apply apply_edit_at.
Qed.

(** The last store before the original: with it the field of a forked application refers to the
    new array. *)
Lemma store_array_at v fr array p :
  refs_exact v → p ∈ params v → (v_kind v ≠ KFork → array = None) →
  store_array v array fr p = if bool_decide (p = P.fds_to_ignore) then default (fr p) array else fr p.
Proof.
  intros Hr Hp Ha. unfold store_array. destruct array as [a|]; [|by case_bool_decide].
  assert (v_kind v = KFork) as Hk by (destruct (v_kind v); [done | by discriminate Ha..]).
  rewrite (store_at _ (bool_decide (p ∈ struct_fields KFork))).
  - case_bool_decide as E; cbn [andb].
    + subst p. reflexivity.
    + by rewrite bool_decide_eq_false_2 by congruence.
  - rewrite Hr, Hk. by rewrite (bool_decide_eq_true_2 (p ∈ params v)), andb_true_r.
  - intros g. by apply refs_exact_self.
Qed.

(** ** Properties *)

(** Every entry of the three tables registers a function of the type its JNI signature
    promises: the signature parses to the C types of its parameters, in order, and of its
    result; and no two entries share a signature, so that a Java method is matched by at most one
    of them. *)
Theorem tables_typed :
  Forall (λ e, parse_sig (te_sig e) = Some ((v_params (te_fn e)).*1, v_ret (te_fn e))) all_entries ∧
  NoDup ((λ e, (te_name e, te_sig e)) <$> all_entries).
Proof. split; [by repeat constructor | apply (bool_decide_unpack _); by vm_compute]. Qed.

(** C25 Whatever the modules store through their arguments, the original method is called with as
    many arguments as the replacement has, each in its place.  Each but [fds_to_ignore] has the value
    of the last module that may change it, or the caller's: modules of version 1 and 2 reach the
    fields of the old structure, newer ones also rlimits and fds_to_ignore, those of the system server
    its six fields.  [fds_to_ignore] is the array that [sanitize_fds] has made for an application
    that is forked, when it made one; only without one it is as the modules or the caller left it.
    In particular fds_to_close and the vendor parameters arrive unchanged. *)
Theorem forwarded_spec (e : table_entry) (fr : frame) (es : list edit) (array : option Z) :
  e ∈ all_entries → (v_kind (te_fn e) ≠ KFork → array = None) →
  let k := v_kind (te_fn e) in
  forwarded (te_fn e) fr es array = arrives k fr es array <$> (v_params (te_fn e)).*2 ∧
  arrives k fr es array P.fds_to_close = fr P.fds_to_close ∧
  ∀ n, arrives k fr es array (P.unnamed n) = fr (P.unnamed n).
Proof.
  intros He Ha. cbv zeta. pose proof tables_refs as Hr. pose proof tables_call as Hc.
  rewrite list.Forall_forall in Hr, Hc. specialize (Hr e He). specialize (Hc e He).
  assert (∀ p, (∀ k version, editable k version p = false) →
               wanted (v_kind (te_fn e)) fr es p = fr p) as Hkeep.
  { intros p Hp. unfold wanted. induction es as [|[[version f] x] es IH]; [done|]. cbn [foldl].
    by rewrite Hp, andb_false_r. }
  split_and!.
  - unfold forwarded. rewrite Hc. apply list_fmap_ext. intros i p Hp. apply list_elem_of_lookup_2 in Hp.
    rewrite store_array_at by done. unfold arrives. by destruct p, array; try (by apply apply_edits_at).
  - apply Hkeep. intros [] version; unfold editable; by repeat destruct (_ || _).
  - intros n. apply Hkeep. intros [] version; unfold editable; by repeat destruct (_ || _).
Qed.

(** A forked application: a module stores to the uid and to the array of descriptors, which
    [sanitize_fds] then replaces by the array 500. *)
Lemma forwarded_spec_witness :
  forwarded nativeForkAndSpecialize_o (λ p, if bool_decide (p = P.uid) then 1000 else 7)
    [(4, P.uid, 0); (4, P.fds_to_ignore, 9)] (Some 500) = [0; 7; 7; 7; 7; 7; 7; 7; 7; 500; 7; 7].
Proof.
  destruct (forwarded_spec (mkEntry (txt "nativeForkAndSpecialize")
      (txt "(II[II[[IILjava/lang/String;Ljava/lang/String;[I[ILjava/lang/String;Ljava/lang/String;)I") nativeForkAndSpecialize_o)
    (λ p, if bool_decide (p = P.uid) then 1000 else 7) [(4, P.uid, 0); (4, P.fds_to_ignore, 9)] (Some 500)) as [H _].
  - do 1 (apply list_elem_of_further). apply list_elem_of_here.
  - by intros [].
  - exact H.
Defined.

(** The methods of Android 9 and older have no [fds_to_ignore]: the pointer stays null. *)
Lemma no_fds_to_ignore :
  (λ e, args_of (te_fn e) P.fds_to_ignore) <$> nativeForkAndSpecialize_methods =
  let some := Some P.fds_to_ignore in [None; some; some; some; some; some; None; None; some; some].
Proof. reflexivity. Qed.
