(* ===== verification/JniEnv.v ===== *)
(** * JniEnv: the Java environment the injected library talks to

    The functions of [JNIEnv] that [injector/jni_helper.hpp] uses, by what the JNI specification
    says of local references, pending exceptions, string buffers and array elements.  Which object
    a call returns and whether it throws comes from a script.  Misuse ends the process, as it does
    on Android: a function called while an exception is pending, a reference that was deleted, a
    null receiver, class or identifier. *)

From Stdlib Require Import ZArith Lia Ascii.
From stdpp Require Import base tactics strings list gmap gmultiset numbers.
From S2P Require Import Prelude.

(** ** Functions and types *)

Inductive jtype : Set :=
| TObject | TBoolean | TByte | TChar | TShort | TInt | TLong | TFloat | TDouble | TVoid.

#[export] Instance jtype_eq_dec : EqDecision jtype.
Proof. solve_decision. Defined.

(** The functions, those that exist for every type by the type in their name. *)
Inductive jnifn : Set :=
| FindClass | GetObjectClass | NewStringUTF
| GetFieldID | GetField (t : jtype) | SetField (t : jtype)
| GetStaticFieldID | GetStaticField (t : jtype) | SetStaticField (t : jtype)
| ToReflectedMethod | FromReflectedMethod
| GetMethodID | CallMethod (t : jtype)
| GetStaticMethodID | CallStaticMethod (t : jtype)
| CallNonvirtualMethod (t : jtype)
| NewObject | NewDirectByteBuffer | RegisterNatives | IsInstanceOf
| GetArrayLength | GetObjectArrayElement | SetObjectArrayElement
| NewObjectArray | NewArray (t : jtype).

#[export] Instance jnifn_eq_dec : EqDecision jnifn.
Proof. solve_decision. Defined.

(** What a function returns: nothing, a number, an identifier, a reference, a reference to an array. *)
Inductive jret : Set := RVoid | RPrim (t : jtype) | RId | RRef | RArray (t : jtype).

Definition ret_of_type (t : jtype) : jret :=
  match t with TVoid => RVoid | TObject => RRef | t => RPrim t end.

Definition jni_ret (f : jnifn) : jret :=
  match f with
  | FindClass | GetObjectClass | NewStringUTF | ToReflectedMethod | NewObject | NewDirectByteBuffer
  | GetObjectArrayElement => RRef
  | GetFieldID | GetStaticFieldID | GetMethodID | GetStaticMethodID | FromReflectedMethod => RId
  | GetField t | GetStaticField t | CallMethod t | CallStaticMethod t | CallNonvirtualMethod t => ret_of_type t
  | SetField _ | SetStaticField _ | SetObjectArrayElement => RVoid
  | RegisterNatives | GetArrayLength => RPrim TInt
  | IsInstanceOf => RPrim TBoolean
  | NewObjectArray => RArray TObject
  | NewArray t => RArray t
  end.

(** An argument: a reference (0: null), an identifier of a field or method (0: null), a number or
    pointer, a string. *)
Inductive jval : Type := JRef (r : Z) | JId (i : Z) | JNum (z : Z) | JText (b : bytes).

(** The answer to a call: a number, an object (0: null), or an exception that is thrown. *)
Record janswer : Type := mkAns { ja_value : Z; ja_object : Z; ja_throw : option Z }.

(** ** The state of the environment *)

Record jworld : Type := mkJw {
  jw_locals : gmap Z Z;                   (* the local references of the current frame, and their objects *)
  jw_frames : list (gmap Z Z);            (* those of the outer frames *)
  jw_globals : gmap Z Z;                  (* the global references *)
  jw_next : Z;                            (* references and buffers are numbered from here *)
  jw_exn : option Z;                      (* the pending exception *)
  jw_statics : option (Z * Z);            (* the two static variables of [ClearException] *)
  jw_chars : gset Z;                      (* string buffers that were not released *)
  jw_heap : gmap Z (list Z);              (* the contents of arrays, by object *)
  jw_bufs : gmap Z (Z * list Z);          (* element buffers that were not released: the array, the elements *)
  jw_monitors : gmultiset Z;              (* the monitors entered *)
  jw_answers : list janswer;              (* what the virtual machine answers next *)
  jw_calls : list (jnifn * list jval);    (* the calls made *)
  jw_printed : list Z                     (* the string buffers printed to the log *)
}.

Definition set_jw_locals v s := mkJw v (jw_frames s) (jw_globals s) (jw_next s) (jw_exn s)
  (jw_statics s) (jw_chars s) (jw_heap s) (jw_bufs s) (jw_monitors s) (jw_answers s) (jw_calls s)
  (jw_printed s).
Definition set_jw_frames v s := mkJw (jw_locals s) v (jw_globals s) (jw_next s) (jw_exn s)
  (jw_statics s) (jw_chars s) (jw_heap s) (jw_bufs s) (jw_monitors s) (jw_answers s) (jw_calls s)
  (jw_printed s).
Definition set_jw_globals v s := mkJw (jw_locals s) (jw_frames s) v (jw_next s) (jw_exn s)
  (jw_statics s) (jw_chars s) (jw_heap s) (jw_bufs s) (jw_monitors s) (jw_answers s) (jw_calls s)
  (jw_printed s).
Definition set_jw_next v s := mkJw (jw_locals s) (jw_frames s) (jw_globals s) v (jw_exn s)
  (jw_statics s) (jw_chars s) (jw_heap s) (jw_bufs s) (jw_monitors s) (jw_answers s) (jw_calls s)
  (jw_printed s).
Definition set_jw_exn v s := mkJw (jw_locals s) (jw_frames s) (jw_globals s) (jw_next s) v
  (jw_statics s) (jw_chars s) (jw_heap s) (jw_bufs s) (jw_monitors s) (jw_answers s) (jw_calls s)
  (jw_printed s).
Definition set_jw_statics v s := mkJw (jw_locals s) (jw_frames s) (jw_globals s) (jw_next s)
  (jw_exn s) v (jw_chars s) (jw_heap s) (jw_bufs s) (jw_monitors s) (jw_answers s) (jw_calls s)
  (jw_printed s).
Definition set_jw_chars v s := mkJw (jw_locals s) (jw_frames s) (jw_globals s) (jw_next s)
  (jw_exn s) (jw_statics s) v (jw_heap s) (jw_bufs s) (jw_monitors s) (jw_answers s) (jw_calls s)
  (jw_printed s).
Definition set_jw_heap v s := mkJw (jw_locals s) (jw_frames s) (jw_globals s) (jw_next s) (jw_exn s)
  (jw_statics s) (jw_chars s) v (jw_bufs s) (jw_monitors s) (jw_answers s) (jw_calls s)
  (jw_printed s).
Definition set_jw_bufs v s := mkJw (jw_locals s) (jw_frames s) (jw_globals s) (jw_next s) (jw_exn s)
  (jw_statics s) (jw_chars s) (jw_heap s) v (jw_monitors s) (jw_answers s) (jw_calls s)
  (jw_printed s).
Definition set_jw_monitors v s := mkJw (jw_locals s) (jw_frames s) (jw_globals s) (jw_next s)
  (jw_exn s) (jw_statics s) (jw_chars s) (jw_heap s) (jw_bufs s) v (jw_answers s) (jw_calls s)
  (jw_printed s).
Definition set_jw_answers v s := mkJw (jw_locals s) (jw_frames s) (jw_globals s) (jw_next s)
  (jw_exn s) (jw_statics s) (jw_chars s) (jw_heap s) (jw_bufs s) (jw_monitors s) v (jw_calls s)
  (jw_printed s).
Definition set_jw_calls v s := mkJw (jw_locals s) (jw_frames s) (jw_globals s) (jw_next s)
  (jw_exn s) (jw_statics s) (jw_chars s) (jw_heap s) (jw_bufs s) (jw_monitors s) (jw_answers s) v
  (jw_printed s).
Definition set_jw_printed v s := mkJw (jw_locals s) (jw_frames s) (jw_globals s) (jw_next s)
  (jw_exn s) (jw_statics s) (jw_chars s) (jw_heap s) (jw_bufs s) (jw_monitors s) (jw_answers s)
  (jw_calls s) v.

Definition pending (s : jworld) : bool := bool_decide (is_Some (jw_exn s)).

(** ** Local references *)

(** A reference some frame or the table of globals holds. *)
Definition live (s : jworld) (r : Z) : bool :=
  bool_decide (is_Some (jw_locals s !! r)) || bool_decide (is_Some (jw_globals s !! r)) ||
  existsb (λ f, bool_decide (is_Some (f !! r))) (jw_frames s).

(** A new local reference to [o]; null for null. *)
Definition new_local (o : Z) : prog jworld Z :=
  if o =? 0 then mret 0
  else
    s ← get;
    put (set_jw_locals (<[jw_next s := o]> (jw_locals s)) (set_jw_next (jw_next s + 1) s));;
    mret (jw_next s).

Definition DeleteLocalRef (r : Z) : prog jworld unit :=
  if r =? 0 then mret tt
  else
    s ← get;
    if bool_decide (is_Some (jw_locals s !! r))
    then put (set_jw_locals (delete r (jw_locals s)) s)
    else crash UseAfterFree.

(** The object of a reference. *)
Definition object_of (s : jworld) (r : Z) : Z :=
  match jw_locals s !! r with
  | Some o => o
  | None =>
      match jw_globals s !! r with
      | Some o => o
      | None => default 0 (head (omap (λ f : gmap Z Z, f !! r) (jw_frames s)))
      end
  end.

Definition NewGlobalRef (r : Z) : prog jworld Z :=
  s ← get;
  if pending s then crash PendingException
  else if r =? 0 then mret 0
  else if negb (live s r) then crash UseAfterFree
  else
    put (set_jw_globals (<[jw_next s := object_of s r]> (jw_globals s)) (set_jw_next (jw_next s + 1) s));;
    mret (jw_next s).

Definition PushLocalFrame : prog jworld unit :=
  modify (λ s, set_jw_locals ∅ (set_jw_frames (jw_locals s :: jw_frames s) s)).

Definition PopLocalFrame : prog jworld unit :=
  s ← get;
  match jw_frames s with
  | f :: fs => put (set_jw_locals f (set_jw_frames fs s))
  | [] => crash OutOfBounds
  end.

Definition MonitorEnter (r : Z) : prog jworld unit :=
  s ← get;
  if pending s then crash PendingException
  else if negb (live s r) then crash UseAfterFree
  else put (set_jw_monitors ({[+ object_of s r +]} ⊎ jw_monitors s) s).

(** Leaving a monitor the thread has not entered throws. *)
Definition MonitorExit (illegal_state : Z) (r : Z) : prog jworld unit :=
  s ← get;
  if negb (live s r) then crash UseAfterFree
  else if bool_decide (object_of s r ∈ jw_monitors s)
  then put (set_jw_monitors (jw_monitors s ∖ {[+ object_of s r +]}) s)
  else put (set_jw_exn (Some illegal_state) s).

(** ** Exceptions *)

Definition ExceptionOccurred : prog jworld Z :=
  s ← get; match jw_exn s with Some e => new_local e | None => mret 0 end.

Definition ExceptionClear : prog jworld unit := modify (set_jw_exn None).

(** ** Strings *)

Definition next_answer : prog jworld janswer :=
  s ← get;
  put (set_jw_answers (tail (jw_answers s)) s);;
  mret (default (mkAns 0 0 None) (head (jw_answers s))).

Definition GetStringUTFChars (r : Z) : prog jworld Z :=
  s ← get;
  if pending s then crash PendingException
  else if negb (live s r) then crash UseAfterFree
  else
    a ← next_answer;
    match ja_throw a with
    | Some e => modify (set_jw_exn (Some e));; mret 0
    | None =>
        s ← get;
        put (set_jw_chars ({[jw_next s]} ∪ jw_chars s) (set_jw_next (jw_next s + 1) s));;
        mret (jw_next s)
    end.

(** Releasing a null buffer does nothing. *)
Definition ReleaseStringUTFChars (r chars : Z) : prog jworld unit :=
  s ← get;
  if negb (live s r) then crash UseAfterFree
  else if chars =? 0 then mret tt
  else if bool_decide (chars ∈ jw_chars s) then put (set_jw_chars (jw_chars s ∖ {[chars]}) s)
  else crash UseAfterFree.

(** ** Calls *)

Definition live_arg (s : jworld) (v : jval) : bool :=
  match v with JRef r => (r =? 0) || live s r | _ => true end.

(** The first reference is the receiver or the class, and no identifier may be null; only
    [IsInstanceOf] accepts a null object. *)
Definition null_arg (f : jnifn) (args : list jval) : bool :=
  match f with
  | IsInstanceOf => false
  | _ =>
      match List.find (λ v, match v with JRef _ => true | _ => false end) args with
      | Some (JRef r) => r =? 0
      | _ => false
      end || existsb (λ v, match v with JId 0 => true | _ => false end) args
  end.

(** The contents of the array behind a reference. *)
Definition contents (s : jworld) (r : Z) : list Z := default [] (jw_heap s !! object_of s r).

(** ArrayIndexOutOfBoundsException. *)
Definition out_of_range : Z := -1.

(** The result of a call that is allowed: array accesses by what the array holds, anything else by
    the script. *)
Definition answer (f : jnifn) (args : list jval) : prog jworld Z :=
  s ← get;
  match f, args with
  | GetArrayLength, JRef r :: _ => mret (Z.of_nat (length (contents s r)))
  | GetObjectArrayElement, JRef r :: JNum i :: _ =>
      match (if i <? 0 then None else contents s r !! Z.to_nat i) with
      | Some o => new_local o
      | None => modify (set_jw_exn (Some out_of_range));; mret 0
      end
  | SetObjectArrayElement, JRef r :: JNum i :: JRef v :: _ =>
      if (0 <=? i) && (i <? Z.of_nat (length (contents s r)))
      then modify (λ s, set_jw_heap (<[object_of s r := <[Z.to_nat i := object_of s v]> (contents s r)]> (jw_heap s)) s);; mret 0
      else modify (set_jw_exn (Some out_of_range));; mret 0
  | _, _ =>
      a ← next_answer;
      match ja_throw a with
      | Some e => modify (set_jw_exn (Some e));; mret 0
      | None =>
          match jni_ret f with
          | RRef | RArray _ => new_local (ja_object a)
          | RVoid => mret 0
          | RPrim _ | RId => mret (ja_value a)
          end
      end
  end.

Definition jcall (f : jnifn) (args : list jval) : prog jworld Z :=
  s ← get;
  if pending s then crash PendingException
  else if negb (forallb (live_arg s) args) then crash UseAfterFree
  else if null_arg f args then crash NullDeref
  else
    modify (λ s, set_jw_calls (jw_calls s ++ [(f, args)]) s);;
    answer f args.

(** ** Elements of arrays of numbers *)

Definition JNI_COMMIT : Z := 1.
Definition JNI_ABORT : Z := 2.

(** [Get<Type>ArrayElements] hands out a copy. *)
Definition GetArrayElements (r : Z) : prog jworld Z :=
  s ← get;
  if pending s then crash PendingException
  else if negb (live s r) then crash UseAfterFree
  else
    put (set_jw_bufs (<[jw_next s := (object_of s r, contents s r)]> (jw_bufs s)) (set_jw_next (jw_next s + 1) s));;
    mret (jw_next s).

(** [Release<Type>ArrayElements]: mode 0 copies back and frees, [JNI_COMMIT] only copies back,
    [JNI_ABORT] only frees. *)
Definition ReleaseArrayElements (r buf mode : Z) : prog jworld unit :=
  s ← get;
  if negb (live s r) then crash UseAfterFree
  else
    match jw_bufs s !! buf with
    | None => crash UseAfterFree
    | Some (o, data) =>
        modify (λ s, if mode =? JNI_ABORT then s else set_jw_heap (<[o := data]> (jw_heap s)) s);;
        modify (λ s, if mode =? JNI_COMMIT then s else set_jw_bufs (delete buf (jw_bufs s)) s)
    end.
