(* ===== verification/JniRefs.v ===== *)
(** * JniRefs: scoped references, strings and guarded calls of [injector/jni_helper.hpp]

    The C++ objects that own a local reference or a string buffer, as values: an operation takes
    the object and returns what it has become.  [JNI_SafeInvoke] makes a call, wraps its result in
    such an object, and clears and prints a pending exception.  The claims: references are neither
    leaked nor deleted twice over any sequence of operations, and a guarded call leaves no
    exception and no reference behind but its result. *)

From Stdlib Require Import ZArith Lia Ascii.
From stdpp Require Import base tactics strings list gmap gmultiset numbers.
From S2P Require Import Prelude JniEnv.

(** ** ScopedLocalRef, for references that are no arrays *)

Module ScopedLocalRef.

(** [local_ref_]; there is one environment, [env_] is not kept. *)
Record t : Type := mk { get : Z }.

Definition reset (ptr : Z) (this : t) : prog jworld t :=
  if ptr =? get this then mret this
  else
    when (negb (get this =? 0)) (DeleteLocalRef (get this));;
    mret (mk ptr).

Definition new (local_ref : Z) : prog jworld t := reset local_ref (mk 0).

(** The reference, and the object without it. *)
Definition release (this : t) : Z * t := (get this, mk 0).

(** Move construction: the new object, and what is left of the old one. *)
Definition move (s : t) : prog jworld (t * t) :=
  let '(r, s) := release s in
  this ← new r; mret (this, s).

(** Move assignment to another object. *)
Definition assign (this s : t) : prog jworld (t * t) :=
  let '(r, s) := release s in
  this ← reset r this; mret (this, s).

Definition destroy (this : t) : prog jworld unit := this ← reset 0 this; mret tt.

Definition to_bool (this : t) : bool := negb (get this =? 0).
End ScopedLocalRef.

(** ** JNIScopeFrame and JNIMonitor: what a block between construction and destruction does *)

Definition JNIScopeFrame {A} (body : prog jworld A) : prog jworld A :=
  PushLocalFrame;; a ← body; PopLocalFrame;; mret a.

Definition JNIMonitor {A} (illegal_state obj : Z) (body : prog jworld A) : prog jworld A :=
  MonitorEnter obj;; a ← body; MonitorExit illegal_state obj;; mret a.

(** ** Exceptions *)

(** The static variables are initialised the first time an exception is cleared.  The local
    reference of the class that the global one is made from is not kept. *)
Definition init_statics : prog jworld (Z * Z) :=
  s ← get;
  match jw_statics s with
  | Some st => mret st
  | None =>
      c ← jcall FindClass [JText (txt "android/util/Log")];
      log ← NewGlobalRef c;
      toString ← jcall GetStaticMethodID [JRef log; JText (txt "getStackTraceString");
                                          JText (txt "(Ljava/lang/Throwable;)Ljava/lang/String;")];
      modify (set_jw_statics (Some (log, toString)));;
      mret (log, toString)
  end.

Definition ClearException : prog jworld ScopedLocalRef.t :=
  exception ← ExceptionOccurred;
  if exception =? 0 then ScopedLocalRef.new 0
  else
    ExceptionClear;;
    '(log, toString) ← init_statics;
    str ← jcall (CallStaticMethod TObject) [JRef log; JId toString; JRef exception];
    DeleteLocalRef exception;;
    ScopedLocalRef.new str.

(** ** JUTFString *)

Module JUTFString.

Record t : Type := mk { has_env : bool; jstr_ : Z; cstr_ : Z }.

Definition new_default (env : bool) (jstr default_cstr : Z) : prog jworld t :=
  if env && negb (jstr =? 0) then c ← GetStringUTFChars jstr; mret (mk env jstr c)
  else mret (mk env jstr default_cstr).

Definition new (env : bool) (jstr : Z) : prog jworld t := new_default env jstr 0.

Definition of_scope (jstr : ScopedLocalRef.t) : prog jworld t := new_default true (ScopedLocalRef.get jstr) 0.

Definition destroy (this : t) : prog jworld unit :=
  when (has_env this && negb (jstr_ this =? 0)) (ReleaseStringUTFChars (jstr_ this) (cstr_ this)).

(** Only the buffer is taken from the other object. *)
Definition move (other : t) : t * t := (other, mk (has_env other) (jstr_ other) 0).

(** Assignment to another object: its own buffer is overwritten. *)
Definition assign (this other : t) : t * t := (other, mk (has_env other) (jstr_ other) 0).

Definition to_bool (this : t) : bool := negb (cstr_ this =? 0).
End JUTFString.

(** ** Guarded calls *)

(** The destructor of [finally]. *)
Definition finally : prog jworld unit :=
  exception ← ClearException;
  if ScopedLocalRef.to_bool exception then
    str ← JUTFString.new true (ScopedLocalRef.get exception);
    modify (λ s, set_jw_printed (jw_printed s ++ [JUTFString.cstr_ str]) s);;
    JUTFString.destroy str;;
    ScopedLocalRef.destroy exception
  else ScopedLocalRef.destroy exception.

(** [wrap]: what [WrapScope] makes of the result, before [finally] goes. *)
Definition JNI_SafeInvoke {A} (wrap : Z → prog jworld A) (f : jnifn) (args : list jval) : prog jworld A :=
  r ← jcall f args;
  a ← wrap r;
  finally;;
  mret a.

Definition UnwrapScope (x : ScopedLocalRef.t) : jval := JRef (ScopedLocalRef.get x).

(** ** The rules of a guarded call *)

(** Two states that differ in nothing that lasts: references, buffers, arrays, monitors. *)
Record same_refs (s s' : jworld) : Prop := {
  sr_locals : jw_locals s' = jw_locals s;
  sr_frames : jw_frames s' = jw_frames s;
  sr_chars : jw_chars s' = jw_chars s;
  sr_heap : jw_heap s' = jw_heap s;
  sr_bufs : jw_bufs s' = jw_bufs s;
  sr_monitors : jw_monitors s' = jw_monitors s
}.

#[export] Instance same_refs_preorder : PreOrder same_refs.
Proof. split; [by constructor|]. intros s1 s2 s3 [] []. by constructor; etransitivity. Qed.

(** References, globals and buffers are numbered below [jw_next], and null is none of them. *)
Record jw_ok (s : jworld) : Prop := {
  ok_next : 0 < jw_next s;
  ok_locals : ∀ r, is_Some (jw_locals s !! r) → 0 < r < jw_next s;
  ok_globals : ∀ r, is_Some (jw_globals s !! r) → 0 < r < jw_next s;
  ok_chars : ∀ c, c ∈ jw_chars s → 0 < c < jw_next s;
  ok_bufs : ∀ b, is_Some (jw_bufs s !! b) → 0 < b < jw_next s
}.

(** The static variables hold a global reference and a method. *)
Definition statics_ready (s : jworld) : Prop :=
  ∃ log toString, jw_statics s = Some (log, toString) ∧ is_Some (jw_globals s !! log) ∧ toString ≠ 0.

(** A call the environment accepts. *)
Record callable (s : jworld) (f : jnifn) (args : list jval) : Prop := {
  ca_quiet : jw_exn s = None;
  ca_live : forallb (live_arg s) args = true;
  ca_null : null_arg f args = false
}.

Definition logged (f : jnifn) (args : list jval) (s : jworld) : jworld :=
  set_jw_calls (jw_calls s ++ [(f, args)]) s.

Lemma pending_none s : jw_exn s = None → pending s = false.
Proof. unfold pending. by intros ->. Qed.

Lemma live_local s r o : jw_locals s !! r = Some o → live s r = true.
Proof. unfold live. intros ->. by rewrite bool_decide_eq_true_2 by done. Qed.

Lemma live_global s r : is_Some (jw_globals s !! r) → live s r = true.
Proof. unfold live. intros H. rewrite (bool_decide_eq_true_2 _ H). by rewrite orb_true_r. Qed.

Lemma jcall_run s f args : callable s f args → jcall f args s = answer f args (logged f args s).
Proof. intros [H1 H2 H3]. unfold jcall. step. by rewrite (pending_none _ H1), H2, H3. Qed.

Lemma new_local_run o s :
  o ≠ 0 →
  new_local o s = (Ret (jw_next s), set_jw_locals (<[jw_next s := o]> (jw_locals s)) (set_jw_next (jw_next s + 1) s)).
Proof. intros H. unfold new_local. by rewrite (proj2 (Z.eqb_neq _ _) H). Qed.

Lemma DeleteLocalRef_run r o s :
  r ≠ 0 → jw_locals s !! r = Some o →
  DeleteLocalRef r s = (Ret tt, set_jw_locals (delete r (jw_locals s)) s).
Proof.
  intros H1 H2. unfold DeleteLocalRef. rewrite (proj2 (Z.eqb_neq _ _) H1). step. rewrite H2.
  by rewrite bool_decide_eq_true_2 by done.
Qed.

Lemma fresh_local s : jw_ok s → jw_locals s !! jw_next s = None.
Proof.
  intros Hok. destruct (jw_locals s !! jw_next s) eqn:E; [|done].
  destruct (ok_locals s Hok (jw_next s)); [by rewrite E | lia].
Qed.

Lemma ScopedLocalRef_new r s : ScopedLocalRef.new r s = (Ret (ScopedLocalRef.mk r), s).
Proof.
  unfold ScopedLocalRef.new, ScopedLocalRef.reset. cbn [ScopedLocalRef.get].
  destruct (r =? 0) eqn:E; [by apply Z.eqb_eq in E as -> | done].
Qed.

Lemma ScopedLocalRef_destroy_null s : ScopedLocalRef.destroy (ScopedLocalRef.mk 0) s = (Ret tt, s).
Proof. reflexivity. Qed.

Lemma ScopedLocalRef_destroy_run r o s :
  r ≠ 0 → jw_locals s !! r = Some o →
  ScopedLocalRef.destroy (ScopedLocalRef.mk r) s = (Ret tt, set_jw_locals (delete r (jw_locals s)) s).
Proof.
  intros H1 H2. unfold ScopedLocalRef.destroy, ScopedLocalRef.reset. cbn [ScopedLocalRef.get].
  destruct (0 =? r) eqn:E; [by apply Z.eqb_eq in E; subst|]. rewrite (proj2 (Z.eqb_neq _ _) H1). cbn [negb when].
  rewrite prog_bind_assoc. by step_with (DeleteLocalRef_run r o s H1 H2).
Qed.

Lemma finally_idle s : jw_exn s = None → finally s = (Ret tt, s).
Proof. intros H. unfold finally, ClearException, ExceptionOccurred. rewrite !prog_bind_assoc. step. rewrite H. by step. Qed.

(** What [finally] needs of the script when an exception is pending: [getStackTraceString] and the
    access to its result do not throw. *)
Record printable_exception (s : jworld) (str : Z) : Prop := {
  pe_str : str ≠ 0;
  pe_answers : ∃ v v' o' rest, jw_answers s = mkAns v str None :: mkAns v' o' None :: rest
}.

Section clear.
Context (s : jworld) (e str log toString : Z).
Hypothesis Hok : jw_ok s.
Hypothesis He : jw_exn s = Some e.
Hypothesis He0 : e ≠ 0.
Hypothesis Hst : jw_statics s = Some (log, toString).
Hypothesis Hlog : is_Some (jw_globals s !! log).
Hypothesis Hto : toString ≠ 0.
Hypothesis Hstr : printable_exception s str.

(** The state in which the stack trace has been asked for. *)
Definition asked : jworld :=
  let s1 := set_jw_exn None (set_jw_locals (<[jw_next s := e]> (jw_locals s)) (set_jw_next (jw_next s + 1) s)) in
  set_jw_locals (<[jw_next s + 1 := str]> (jw_locals s)) (set_jw_next (jw_next s + 2)
    (set_jw_answers (tail (jw_answers s)) (logged (CallStaticMethod TObject) [JRef log; JId toString; JRef (jw_next s)] s1))).

Lemma delete_two :
  delete (jw_next s) (<[jw_next s + 1 := str]> (<[jw_next s := e]> (jw_locals s))) =
  <[jw_next s + 1 := str]> (jw_locals s).
Proof.
  rewrite insert_insert_ne by lia. rewrite delete_insert_id; [done|].
  rewrite lookup_insert_ne by lia. by apply fresh_local.
Qed.

Lemma ClearException_run : ClearException s = (Ret (ScopedLocalRef.mk (jw_next s + 1)), asked).
Proof.
  destruct Hstr as [Hs0 (v & v' & o' & rest & Ha)]. pose proof (ok_next s Hok) as Hn.
  unfold ClearException, ExceptionOccurred. rewrite prog_bind_assoc. step. rewrite He.
  step_with (new_local_run e s He0). rewrite (proj2 (Z.eqb_neq (jw_next s) 0) ltac:(lia)). step.
  set (s1 := set_jw_exn None _). unfold init_statics. rewrite prog_bind_assoc. step.
  change (jw_statics s1) with (jw_statics s). rewrite Hst. step. cbv iota.
  assert (callable s1 (CallStaticMethod TObject) [JRef log; JId toString; JRef (jw_next s)]) as Hc.
  { constructor; [done | |].
    - cbn [forallb live_arg]. rewrite (live_global s1 log Hlog), orb_true_r.
      rewrite (live_local s1 (jw_next s) e) by (apply lookup_insert_eq). by rewrite orb_true_r.
    - cbn [null_arg List.find existsb]. destruct (ok_globals s Hok log Hlog).
      rewrite (proj2 (Z.eqb_neq log 0) ltac:(lia)). by destruct toString. }
  erewrite bind_run.
  2:{ rewrite (jcall_run _ _ _ Hc). unfold answer, next_answer. step. rewrite prog_bind_assoc. step. step.
      change (jw_answers (logged (CallStaticMethod TObject) [JRef log; JId toString; JRef (jw_next s)] s1)) with (jw_answers s).
      rewrite Ha. cbn [head from_option ja_throw ja_object jni_ret ret_of_type tail]. by apply new_local_run. }
  cbv beta. erewrite bind_run.
  2:{ apply (DeleteLocalRef_run _ e); [lia|]. cbn [jw_locals jw_next set_jw_locals set_jw_next set_jw_answers logged set_jw_calls s1 set_jw_exn].
      rewrite lookup_insert_ne by lia. apply lookup_insert_eq. }
  cbv beta. rewrite ScopedLocalRef_new. unfold asked.
  cbn [jw_locals jw_next set_jw_locals set_jw_next set_jw_answers logged set_jw_calls s1 set_jw_exn].
  f_equal. rewrite Ha. cbn [tail]. rewrite <- delete_two.
  unfold set_jw_locals, set_jw_next, set_jw_answers, set_jw_calls, set_jw_exn. cbn.
  by replace (jw_next s + 1 + 1) with (jw_next s + 2) by lia.
Qed.

Lemma finally_run :
  ∃ s', finally s = (Ret tt, s') ∧ same_refs s s' ∧ jw_exn s' = None ∧
    jw_printed s' = jw_printed s ++ [jw_next s + 2] ∧
    jw_calls s' = jw_calls s ++ [(CallStaticMethod TObject, [JRef log; JId toString; JRef (jw_next s)])] ∧
    jw_globals s' = jw_globals s ∧ jw_statics s' = jw_statics s ∧
    jw_answers s' = drop 2 (jw_answers s) ∧ jw_next s' = jw_next s + 3.
Proof.
  destruct Hstr as [Hs0 (v & v' & o' & rest & Ha)]. pose proof (ok_next s Hok) as Hn.
  assert (jw_locals asked !! (jw_next s + 1) = Some str) as Hl by (apply lookup_insert_eq).
  unfold finally. step_with ClearException_run. unfold ScopedLocalRef.to_bool. cbn [ScopedLocalRef.get].
  rewrite (proj2 (Z.eqb_neq (jw_next s + 1) 0) ltac:(lia)). cbn [negb].
  unfold JUTFString.new, JUTFString.new_default.
  rewrite (proj2 (Z.eqb_neq (jw_next s + 1) 0) ltac:(lia)). cbn [negb andb].
  unfold GetStringUTFChars. rewrite !prog_bind_assoc. step. rewrite (live_local _ _ _ Hl).
  change (pending asked) with false. cbn [negb]. unfold next_answer. rewrite !prog_bind_assoc. step.
  rewrite !prog_bind_assoc. step. rewrite prog_bind_ret.
  replace (head (jw_answers asked)) with (Some (mkAns v' o' None)).
  2:{ unfold asked. cbn [jw_answers set_jw_locals set_jw_next set_jw_answers]. by rewrite Ha. }
  cbn [id default ja_throw from_option]. step. rewrite prog_bind_ret.
  set (s3 := set_jw_chars _ _). step. set (s4 := set_jw_printed _ s3).
  change (jw_next (set_jw_answers (tail (jw_answers asked)) asked)) with (jw_next s + 2) in *.
  assert (jw_locals s4 !! (jw_next s + 1) = Some str) as Hl4 by exact Hl.
  unfold JUTFString.destroy. cbn [JUTFString.has_env JUTFString.jstr_ JUTFString.cstr_].
  rewrite (proj2 (Z.eqb_neq (jw_next s + 1) 0) ltac:(lia)). cbn [negb andb when].
  unfold ReleaseStringUTFChars. rewrite prog_bind_assoc. step. rewrite (live_local _ _ _ Hl4). cbn [negb].
  rewrite (proj2 (Z.eqb_neq (jw_next s + 2) 0) ltac:(lia)).
  rewrite bool_decide_eq_true_2 by (apply elem_of_union_l, elem_of_singleton; done). step.
  set (s5 := set_jw_chars _ s4).
  rewrite (ScopedLocalRef_destroy_run (jw_next s + 1) str s5) by (done || lia).
  eexists. split; [reflexivity|]. split; [|split_and!; try reflexivity].
  - constructor; try reflexivity.
    + change (delete (jw_next s + 1) (<[jw_next s + 1 := str]> (jw_locals s)) = jw_locals s).
      apply delete_insert_id. destruct (jw_locals s !! (jw_next s + 1)) eqn:E; [|done].
      destruct (ok_locals s Hok (jw_next s + 1)); [by rewrite E | lia].
    + change (({[jw_next s + 2]} ∪ jw_chars s) ∖ {[jw_next s + 2]} = jw_chars s).
      assert (jw_next s + 2 ∉ jw_chars s) by (intros H; apply (ok_chars s Hok) in H; lia). set_solver.
  - transitivity (tail (tail (jw_answers s))); [reflexivity | by rewrite Ha].
  - change (jw_next s + 2 + 1 = jw_next s + 3). lia.
Qed.
End clear.

Lemma jw_ok_mono s s' :
  jw_ok s → same_refs s s' → jw_globals s' = jw_globals s → jw_next s <= jw_next s' → jw_ok s'.
Proof.
  intros [H1 H2 H3 H4 H5] [E1 E2 E3 E4 E5 E6] Eg Hn.
  constructor; [lia | rewrite E1 | rewrite Eg | rewrite E3 | rewrite E5];
    intros x Hx; [specialize (H2 x Hx) | specialize (H3 x Hx) | specialize (H4 x Hx) | specialize (H5 x Hx)]; lia.
Qed.

(** ** The effect of a call *)

(** The functions whose answer is scripted. *)
Definition scripted (f : jnifn) : bool :=
  match f with GetArrayLength | GetObjectArrayElement | SetObjectArrayElement => false | _ => true end.

Definition first_answer (s : jworld) : janswer := default (mkAns 0 0 None) (head (jw_answers s)).

(** The raw result and the local references after a call that is answered with [a]. *)
Definition effect (f : jnifn) (a : janswer) (s : jworld) : Z * gmap Z Z :=
  match ja_throw a with
  | Some _ => (0, jw_locals s)
  | None =>
      match jni_ret f with
      | RRef | RArray _ =>
          if ja_object a =? 0 then (0, jw_locals s)
          else (jw_next s, <[jw_next s := ja_object a]> (jw_locals s))
      | RVoid => (0, jw_locals s)
      | RPrim _ | RId => (ja_value a, jw_locals s)
      end
  end.

(** The state after the call itself. *)
Record called_state (f : jnifn) (args : list jval) (s s' : jworld) : Prop := {
  cs_locals : jw_locals s' = (effect f (first_answer s) s).2;
  cs_exn : jw_exn s' = ja_throw (first_answer s);
  cs_rest : same_refs (set_jw_locals (jw_locals s') s) s';
  cs_globals : jw_globals s' = jw_globals s;
  cs_statics : jw_statics s' = jw_statics s;
  cs_calls : jw_calls s' = jw_calls s ++ [(f, args)];
  cs_printed : jw_printed s' = jw_printed s;
  cs_answers : jw_answers s' = tail (jw_answers s);
  cs_next : jw_next s <= jw_next s';
  cs_ok : jw_ok s'
}.

Lemma jw_ok_new_local s o :
  jw_ok s → jw_ok (set_jw_locals (<[jw_next s := o]> (jw_locals s)) (set_jw_next (jw_next s + 1) s)).
Proof.
  intros [H1 H2 H3 H4 H5]. constructor; cbn; [lia | | ..].
  - intros r [<- | [_ Hr]]%lookup_insert_is_Some; [lia | specialize (H2 r Hr); lia].
  - intros r Hr. specialize (H3 r Hr). lia.
  - intros r Hr. specialize (H4 r Hr). lia.
  - intros r Hr. specialize (H5 r Hr). lia.
Qed.

Lemma answer_scripted f args s :
  scripted f = true →
  answer f args s =
  (a ← next_answer;
   match ja_throw a with
   | Some e => modify (set_jw_exn (Some e));; mret 0
   | None =>
       match jni_ret f with
       | RRef | RArray _ => new_local (ja_object a)
       | RVoid => mret 0
       | RPrim _ | RId => mret (ja_value a)
       end
   end) s.
Proof. by destruct f. Qed.

Lemma jcall_scripted f args s :
  jw_ok s → callable s f args → scripted f = true →
  ∃ s', jcall f args s = (Ret (effect f (first_answer s) s).1, s') ∧ called_state f args s s'.
Proof.
  intros Hok Hc Hf. rewrite (jcall_run _ _ _ Hc), (answer_scripted _ _ _ Hf).
  set (l := logged f args s). assert (jw_ok l) as Hl by (by apply (jw_ok_mono s)).
  erewrite bind_run by reflexivity. cbv beta. fold (first_answer l).
  change (first_answer l) with (first_answer s). set (l1 := set_jw_answers _ l).
  assert (jw_ok l1) as Hl1 by (by apply (jw_ok_mono s)).
  pose proof (ca_quiet _ _ _ Hc) as Hq. unfold effect. destruct (ja_throw (first_answer s)) as [e|] eqn:Et.
  - eexists. split; [reflexivity|]. constructor; try done.
    + unfold effect. by rewrite Et.
    + by apply (jw_ok_mono l1).
  - assert (∀ v : Z, (match jni_ret f with RRef | RArray _ => False | _ => True end) →
      (effect f (first_answer s) s).2 = jw_locals s →
      ∃ s' : jworld, (mret v : prog jworld Z) l1 = (Ret v, s') ∧ called_state f args s s') as Hplain.
    { intros v _ E. exists l1. split; [done|]. constructor; try done. rewrite Et. exact Hq. }
    assert (effect f (first_answer s) s = match jni_ret f with
      | RRef | RArray _ => if ja_object (first_answer s) =? 0 then (0, jw_locals s)
                           else (jw_next s, <[jw_next s := ja_object (first_answer s)]> (jw_locals s))
      | RVoid => (0, jw_locals s) | RPrim _ | RId => (ja_value (first_answer s), jw_locals s) end) as Ee
      by (unfold effect; by rewrite Et).
    assert (jni_ret f = RRef ∨ (∃ t, jni_ret f = RArray t) →
      ∃ s', new_local (ja_object (first_answer s)) l1 =
        (Ret (if ja_object (first_answer s) =? 0 then 0 else jw_next s), s') ∧ called_state f args s s') as Hobj.
    { intros Hr. destruct (ja_object (first_answer s) =? 0) eqn:E0.
      - apply Z.eqb_eq in E0. exists l1. rewrite E0. split; [done|].
        constructor; try done; [|rewrite Et; exact Hq].
        rewrite Ee. destruct Hr as [->|[t ->]]; by rewrite ?E0.
      - apply Z.eqb_neq in E0. rewrite (new_local_run _ l1 E0). eexists. split; [reflexivity|].
        constructor; try done; [| rewrite Et; exact Hq | cbn; lia | by apply jw_ok_new_local].
        rewrite Ee. destruct Hr as [->|[t ->]]; reflexivity. }
    destruct (jni_ret f) eqn:Er; cbn [fst snd] in *.
    + by apply Hplain; rewrite ?Ee.
    + by apply Hplain; rewrite ?Ee.
    + by apply Hplain; rewrite ?Ee.
    + destruct Hobj as (s' & E1 & E2); [by left|]. exists s'. rewrite E1. by destruct (_ =? 0).
    + destruct Hobj as (s' & E1 & E2); [right; by eexists|]. exists s'. rewrite E1. by destruct (_ =? 0).
Qed.

(** A guarded call whose wrapper only stores the result. *)
Section invoke.
Context {A : Type} (wrap : Z → prog jworld A) (g : Z → A).
Hypothesis Hwrap : ∀ r s, wrap r s = (Ret (g r), s).

Lemma SafeInvoke_run f args s :
  jw_ok s → callable s f args → scripted f = true →
  (∀ e, ja_throw (first_answer s) = Some e →
     e ≠ 0 ∧ statics_ready s ∧ ∃ str, printable_exception (set_jw_answers (tail (jw_answers s)) s) str) →
  ∃ s', JNI_SafeInvoke wrap f args s = (Ret (g (effect f (first_answer s) s).1), s') ∧
    jw_ok s' ∧ jw_exn s' = None ∧ jw_globals s' = jw_globals s ∧ jw_statics s' = jw_statics s ∧
    jw_locals s' = (effect f (first_answer s) s).2 ∧
    same_refs (set_jw_locals (jw_locals s') s) s' ∧
    (∃ l, jw_calls s' = jw_calls s ++ (f, args) :: l) ∧
    length (jw_printed s') = (length (jw_printed s) + match ja_throw (first_answer s) with Some _ => 1 | None => 0 end)%nat.
Proof.
  intros Hok Hc Hf Hthrow.
  destruct (jcall_scripted f args s Hok Hc Hf) as (s1 & E1 & [L1 X1 R1 G1 S1 C1 P1 A1 N1 O1]).
  unfold JNI_SafeInvoke. step_with E1. step_with (Hwrap (effect f (first_answer s) s).1 s1).
  destruct (ja_throw (first_answer s)) as [e|] eqn:Ee.
  - destruct (Hthrow e eq_refl) as (He & (log & toString & Hs & Hg & Ht) & str & Hp & Ha).
    destruct (finally_run s1 e str log toString O1 X1 He) as (s2 & E2 & R2 & X2 & P2 & C2 & G2 & S2 & A2 & N2);
      [by rewrite S1 | by rewrite G1 | done | by constructor; [|rewrite A1] |].
    step_with E2. exists s2. split; [reflexivity|]. destruct R1, R2. cbn in *.
    split_and!; [.. | by rewrite P2, P1, length_app].
    + by apply (jw_ok_mono s1); [|constructor; congruence | | lia].
    + done.
    + by rewrite G2.
    + by rewrite S2.
    + congruence.
    + constructor; cbn; congruence.
    + eexists. rewrite C2, C1, <- app_assoc. reflexivity.
  - step_with (finally_idle s1 X1). exists s1. split; [reflexivity|].
    split_and!; try done; [by exists [] | rewrite P1; lia].
Qed.
End invoke.

(** C26 A guarded call of a function that returns a reference, made with live references and with no
    exception pending, leaves nothing behind but its result.  If the function does not throw, its
    result is returned (a reference owned by the wrapper) and nothing else has changed.  If it
    throws, and an exception has been cleared before (so that the static variables hold the class of
    the log and its method), and printing the exception does not throw in its turn, then the wrapper
    is null, the exception is cleared and printed once, and the references, string buffers, arrays
    and monitors are those from before the call.  In both cases no exception is pending afterwards.
    (The very first exception leaves a class reference behind, and one thrown by the printing stays
    pending: these two are left out by the conditions on a function that throws.) *)
Theorem JNI_SafeInvoke_spec f args s :
  jw_ok s → callable s f args → scripted f = true → jni_ret f = RRef →
  (∀ e, ja_throw (first_answer s) = Some e →
     e ≠ 0 ∧ statics_ready s ∧ ∃ str, printable_exception (set_jw_answers (tail (jw_answers s)) s) str) →
  let thrown := bool_decide (is_Some (ja_throw (first_answer s))) in
  ∃ r s', JNI_SafeInvoke ScopedLocalRef.new f args s = (Ret (ScopedLocalRef.mk r), s') ∧
    jw_ok s' ∧ jw_exn s' = None ∧ (∃ l, jw_calls s' = jw_calls s ++ (f, args) :: l) ∧
    length (jw_printed s') = (length (jw_printed s) + if thrown then 1 else 0)%nat ∧
    (if thrown || (ja_object (first_answer s) =? 0)
     then r = 0 ∧ same_refs s s'
     else jw_locals s !! r = None ∧
          same_refs (set_jw_locals (<[r := ja_object (first_answer s)]> (jw_locals s)) s) s').
Proof.
  intros Hok Hc Hf Hr Ht thrown.
  destruct (SafeInvoke_run ScopedLocalRef.new ScopedLocalRef.mk ScopedLocalRef_new f args s Hok Hc Hf Ht)
    as (s' & E & O & X & _ & _ & L & R & C & P).
  exists (effect f (first_answer s) s).1, s'. rewrite L in R.
  split_and!; try done; unfold thrown; unfold effect in R |- *; rewrite ?Hr in R |- *.
  - rewrite P. by destruct (ja_throw (first_answer s)).
  - destruct (ja_throw (first_answer s)) as [e|]; cbn [bool_decide_pack]; [by destruct s; split|].
    rewrite bool_decide_eq_false_2 by (by intros []). cbn [orb].
    destruct (ja_object (first_answer s) =? 0); [by destruct s; split|].
    split; [by apply fresh_local | exact R].
Qed.

(** A class that is found, and one that is not: the second call throws. *)
Definition demo_jw (answers : list janswer) : jworld :=
  mkJw ∅ [] {[1 := 50]} 10 None (Some (1, 7)) ∅ ∅ ∅ ∅ answers [] [].

Lemma demo_jw_ok answers : jw_ok (demo_jw answers).
Proof.
  constructor; cbn; [lia | | | set_solver |].
  - intros r [o Hr]. by rewrite lookup_empty in Hr.
  - intros r [o [<- _]%lookup_singleton_Some]. lia.
  - intros r [o Hr]. by rewrite lookup_empty in Hr.
Qed.

Lemma JNI_SafeInvoke_spec_witness :
  let s := demo_jw [mkAns 0 0 (Some 60); mkAns 0 61 None; mkAns 0 0 None] in
  ∃ r s', JNI_SafeInvoke ScopedLocalRef.new FindClass [JText (txt "no/Such")] s = (Ret (ScopedLocalRef.mk r), s') ∧
    jw_exn s' = None ∧ r = 0 ∧ same_refs s s'.
Proof.
  intros s. destruct (JNI_SafeInvoke_spec FindClass [JText (txt "no/Such")] s) as (r & s' & E & _ & X & _ & _ & H).
  - apply demo_jw_ok.
  - by constructor.
  - done.
  - done.
  - intros e [= <-]. split; [done|]. split; [exists 1, 7; split_and!; [done | by exists 50 | done]|]. exists 61. constructor; [done|]. by exists 0, 0, 0, [].
  - exists r, s'. by destruct H.
Defined.
