(* ===== verification/JniOwner.v ===== *)
(** * JniOwner: who owns which local reference

    A block of C++ code with [ScopedLocalRef] variables, as a sequence of their operations over a
    store of variables.  Aliasing matters: [v = std::move(v)] works on one object.  The claim is the
    discipline the class is there for: every reference has one owner, nothing is deleted twice, and
    when all variables are gone only the references that were released are left. *)

From Stdlib Require Import ZArith Lia Ascii.
From stdpp Require Import base tactics strings list gmap gmultiset numbers.
From S2P Require Import Prelude JniEnv JniRefs.

(** The environment, the variables in scope, and the references given away by [release]. *)
Record scopes : Type := mkScopes {
  sc_world : jworld;
  sc_vars : gmap nat ScopedLocalRef.t;
  sc_raw : gset Z
}.

Definition set_sc_vars v s := mkScopes (sc_world s) v (sc_raw s).

Inductive rop : Type :=
| OpNew (v : nat) (o : Z)        (* [auto v = JNI_...], a call that returns [o] *)
| OpMove (v w : nat)             (* [auto v = std::move(w)] *)
| OpAssign (v w : nat)           (* [v = std::move(w)] *)
| OpReset (v : nat)              (* [v.reset()] *)
| OpRelease (v : nat)            (* [v.release()] *)
| OpDestroy (v : nat).           (* the end of the block of [v] *)

Definition on_world {A} (m : prog jworld A) : prog scopes A := λ s,
  let '(r, w) := m (sc_world s) in (r, mkScopes w (sc_vars s) (sc_raw s)).

Definition var (v : nat) : prog scopes ScopedLocalRef.t :=
  s ← get; match sc_vars s !! v with Some x => mret x | None => crash OutOfBounds end.

Definition set_var (v : nat) (x : ScopedLocalRef.t) : prog scopes unit :=
  modify (λ s, set_sc_vars (<[v := x]> (sc_vars s)) s).

(** [release] of a variable, in place. *)
Definition release_var (w : nat) : prog scopes Z :=
  x ← var w;
  let '(r, x) := ScopedLocalRef.release x in
  set_var w x;; mret r.

Definition run_op (op : rop) : prog scopes unit :=
  match op with
  | OpNew v o =>
      r ← on_world (new_local o);
      x ← on_world (ScopedLocalRef.new r);
      set_var v x
  | OpMove v w =>
      r ← release_var w;
      x ← on_world (ScopedLocalRef.new r);
      set_var v x
  | OpAssign v w =>
      r ← release_var w;
      x ← var v;
      x ← on_world (ScopedLocalRef.reset r x);
      set_var v x
  | OpReset v =>
      x ← var v;
      x ← on_world (ScopedLocalRef.reset 0 x);
      set_var v x
  | OpRelease v =>
      r ← release_var v;
      modify (λ s, mkScopes (sc_world s) (sc_vars s) (if r =? 0 then sc_raw s else {[r]} ∪ sc_raw s))
  | OpDestroy v =>
      x ← var v;
      on_world (ScopedLocalRef.destroy x);;
      modify (λ s, set_sc_vars (delete v (sc_vars s)) s)
  end.

(** The variables in scope after an operation; [None] for one C++ does not accept. *)
Definition scope_after (op : rop) (d : gset nat) : option (gset nat) :=
  match op with
  | OpNew v _ => if bool_decide (v ∈ d) then None else Some ({[v]} ∪ d)
  | OpMove v w => if bool_decide (v ∈ d) || negb (bool_decide (w ∈ d)) then None else Some ({[v]} ∪ d)
  | OpAssign v w => if bool_decide (v ∈ d) && bool_decide (w ∈ d) then Some d else None
  | OpReset v | OpRelease v => if bool_decide (v ∈ d) then Some d else None
  | OpDestroy v => if bool_decide (v ∈ d) then Some (d ∖ {[v]}) else None
  end.

Fixpoint scopes_of (ops : list rop) (d : gset nat) : option (gset nat) :=
  match ops with
  | [] => Some d
  | op :: ops => d ← scope_after op d; scopes_of ops d
  end.

(** ** The invariant *)

Abbreviation holds s v r := (sc_vars s !! v = Some (ScopedLocalRef.mk r)).

(** [base]: the local references from before the block. *)
Record owns (base : gmap Z Z) (s : scopes) : Prop := {
  ow_ok : jw_ok (sc_world s);
  ow_base : base ⊆ jw_locals (sc_world s);
  ow_live : ∀ v r, holds s v r → r ≠ 0 → is_Some (jw_locals (sc_world s) !! r);
  ow_apart : ∀ v r, holds s v r → r ≠ 0 → base !! r = None ∧ r ∉ sc_raw s;
  ow_one : ∀ v w r, holds s v r → holds s w r → r ≠ 0 → v = w;
  ow_raw : ∀ r, r ∈ sc_raw s → is_Some (jw_locals (sc_world s) !! r) ∧ r ≠ 0;
  ow_all : ∀ r, is_Some (jw_locals (sc_world s) !! r) →
             is_Some (base !! r) ∨ r ∈ sc_raw s ∨ ∃ v, holds s v r
}.

Section owner.
Context (base : gmap Z Z).

(** A variable gives up its reference to another that holds none. *)
Lemma owns_move s v w r :
  owns base s → holds s w r → v ≠ w → sc_vars s !! v = None ∨ holds s v 0 →
  owns base (set_sc_vars (<[v := ScopedLocalRef.mk r]> (<[w := ScopedLocalRef.mk 0]> (sc_vars s))) s).
Proof.
  intros [H1 H2 H3 H4 H5 H6 H7] Hw Hne Hv.
  assert (∀ x r', <[v := ScopedLocalRef.mk r]> (<[w := ScopedLocalRef.mk 0]> (sc_vars s)) !! x = Some (ScopedLocalRef.mk r') →
    r' ≠ 0 → (x = v ∧ r' = r) ∨ (x ≠ v ∧ x ≠ w ∧ holds s x r')) as Hin.
  { intros x r' Hx Hr'. destruct (decide (x = v)) as [->|].
    - rewrite lookup_insert_eq in Hx. injection Hx as <-. by left.
    - rewrite lookup_insert_ne in Hx by done. destruct (decide (x = w)) as [->|].
      + rewrite lookup_insert_eq in Hx. injection Hx as <-. done.
      + rewrite lookup_insert_ne in Hx by done. by right. }
  constructor; cbn; try done.
  - intros x r' Hx Hr'. destruct (Hin x r' Hx Hr') as [[-> ->]|(_ & _ & Hx')]; by eapply H3.
  - intros x r' Hx Hr'. destruct (Hin x r' Hx Hr') as [[-> ->]|(_ & _ & Hx')]; by eapply H4.
  - intros x y r' Hx Hy Hr'. destruct (Hin x r' Hx Hr') as [[-> ->]|(? & ? & Hx')], (Hin y _ Hy Hr') as [[-> ?]|(? & ? & Hy')];
      subst; try done; [by destruct (H5 w y r) | by destruct (H5 x w r) | by eapply H5].
  - intros r' Hr'. destruct (H7 r' Hr') as [?|[?|[x Hx]]]; [by left | by right; left|]. right; right.
    destruct (decide (r' = 0)) as [->|Hr0]; [destruct (ok_locals _ H1 0 Hr'); lia|].
    destruct (decide (x = w)) as [->|].
    + rewrite Hw in Hx. injection Hx as <-. exists v. by rewrite lookup_insert_eq.
    + exists x. destruct (decide (x = v)) as [->|].
      * destruct Hv as [Hv|Hv]; rewrite Hv in Hx; [done | by injection Hx].
      * by rewrite !lookup_insert_ne by done.
Qed.

(** A variable deletes its reference. *)
Lemma owns_drop s v r :
  owns base s → holds s v r → r ≠ 0 →
  owns base (mkScopes (set_jw_locals (delete r (jw_locals (sc_world s))) (sc_world s))
               (<[v := ScopedLocalRef.mk 0]> (sc_vars s)) (sc_raw s)).
Proof.
  intros [H1 H2 H3 H4 H5 H6 H7] Hv Hr. destruct (H4 v r Hv Hr) as [Hb Hraw].
  assert (∀ x r', <[v := ScopedLocalRef.mk 0]> (sc_vars s) !! x = Some (ScopedLocalRef.mk r') → r' ≠ 0 →
    x ≠ v ∧ holds s x r' ∧ r' ≠ r) as Hin.
  { intros x r' Hx Hr'. destruct (decide (x = v)) as [->|Hxv]; [rewrite lookup_insert_eq in Hx; by injection Hx as <-|].
    rewrite lookup_insert_ne in Hx by done. split_and!; [done..|]. intros ->. by destruct (H5 v x r). }
  constructor; cbn; try done.
  - destruct H1 as [K1 K2 K3 K4 K5]. constructor; cbn; try done.
    intros x [Hx ?]%lookup_delete_is_Some. by apply K2.
  - apply map_subseteq_spec. intros x o Hx. rewrite lookup_delete_ne by congruence.
    by apply (proj1 (map_subseteq_spec _ _) H2).
  - intros x r' Hx Hr'. destruct (Hin x r' Hx Hr') as (_ & Hx' & Hne).
    rewrite lookup_delete_ne by done. by eapply H3.
  - intros x r' Hx Hr'. destruct (Hin x r' Hx Hr') as (_ & Hx' & _). by eapply H4.
  - intros x y r' Hx Hy Hr'. destruct (Hin x r' Hx Hr') as (_ & Hx' & _), (Hin y r' Hy Hr') as (_ & Hy' & _). by eapply H5.
  - intros r' Hr'. rewrite lookup_delete_ne by (by intros ->). by apply H6.
  - intros r' [Hne Hr']%lookup_delete_is_Some. destruct (H7 r' Hr') as [?|[?|[x Hx]]]; [by left | by right; left|].
    right; right. exists x. rewrite lookup_insert_ne; [done|]. intros <-. rewrite Hv in Hx. by injection Hx.
Qed.

(** A variable that holds nothing may come into scope and leave it. *)
Lemma owns_null s v :
  owns base s → sc_vars s !! v = None ∨ holds s v 0 →
  owns base (set_sc_vars (<[v := ScopedLocalRef.mk 0]> (sc_vars s)) s) ∧ owns base (set_sc_vars (delete v (sc_vars s)) s).
Proof.
  intros [H1 H2 H3 H4 H5 H6 H7] Hv.
  assert (∀ r', ∀ x, holds s x r' → r' ≠ 0 → x ≠ v) as Hnv.
  { intros r' x Hx Hr ->. destruct Hv as [Hv|Hv]; rewrite Hv in Hx; [done | by injection Hx as <-]. }
  assert (∀ x r', <[v := ScopedLocalRef.mk 0]> (sc_vars s) !! x = Some (ScopedLocalRef.mk r') → r' ≠ 0 → holds s x r') as Hin.
  { intros x r' Hx Hr'. destruct (decide (x = v)) as [->|Hxv]; [rewrite lookup_insert_eq in Hx; by injection Hx as <-|].
    by rewrite lookup_insert_ne in Hx. }
  assert (∀ x r', delete v (sc_vars s) !! x = Some (ScopedLocalRef.mk r') → holds s x r') as Hout.
  { intros x r' [_ Hx]%lookup_delete_Some. done. }
  split; constructor; cbn; try done; eauto.
  - intros r' Hr'. destruct (H7 r' Hr') as [?|[?|[x Hx]]]; [by left | by right; left|].
    right; right. exists x. rewrite lookup_insert_ne; [done|].
    assert (r' ≠ 0) as Hr0 by (intros ->; destruct (ok_locals _ H1 0 Hr'); lia). by specialize (Hnv r' x Hx Hr0).
  - intros r' Hr'. destruct (H7 r' Hr') as [?|[?|[x Hx]]]; [by left | by right; left|].
    right; right. exists x. rewrite lookup_delete_ne; [done|].
    assert (r' ≠ 0) as Hr0 by (intros ->; destruct (ok_locals _ H1 0 Hr'); lia). by specialize (Hnv r' x Hx Hr0).
Qed.

Definition owns_set_null s v Ho Hv := proj1 (owns_null s v Ho Hv).
Definition owns_undeclare s v Ho Hv := proj2 (owns_null s v Ho Hv).

(** A new reference for a new variable. *)
Lemma owns_new s v o :
  owns base s → sc_vars s !! v = None →
  let w := sc_world s in
  owns base (mkScopes (set_jw_locals (<[jw_next w := o]> (jw_locals w)) (set_jw_next (jw_next w + 1) w))
               (<[v := ScopedLocalRef.mk (jw_next w)]> (sc_vars s)) (sc_raw s)).
Proof.
  intros [H1 H2 H3 H4 H5 H6 H7] Hv w. pose proof (fresh_local _ H1) as Hf. fold w in Hf.
  assert (∀ r, is_Some (jw_locals w !! r) → r ≠ jw_next w) as Hold by (intros r Hr ->; rewrite Hf in Hr; by destruct Hr).
  assert (∀ x r', <[v := ScopedLocalRef.mk (jw_next w)]> (sc_vars s) !! x = Some (ScopedLocalRef.mk r') →
    (x = v ∧ r' = jw_next w) ∨ (x ≠ v ∧ holds s x r')) as Hin.
  { intros x r' Hx. destruct (decide (x = v)) as [->|Hxv]; [rewrite lookup_insert_eq in Hx; injection Hx as <-; by left|].
    rewrite lookup_insert_ne in Hx by done. by right. }
  constructor; cbn; try done.
  - by apply jw_ok_new_local.
  - apply map_subseteq_spec. intros x o' Hx. pose proof (proj1 (map_subseteq_spec _ _) H2 x o' Hx) as Hx'.
    rewrite lookup_insert_ne; [done|]. intros <-. fold w in Hx'. by rewrite Hf in Hx'.
  - intros x r' Hx Hr'. apply lookup_insert_is_Some. destruct (Hin x r' Hx) as [[-> ->]|[_ Hx']]; [by left|].
    right. split; [|by eapply H3]. intros <-. by apply (Hold (jw_next w)); [eapply H3|].
  - intros x r' Hx Hr'. destruct (Hin x r' Hx) as [[-> ->]|[_ Hx']]; [|by eapply H4]. split.
    + destruct (base !! jw_next w) eqn:E; [|done]. pose proof (proj1 (map_subseteq_spec _ _) H2 _ _ E) as E'.
      fold w in E'. by rewrite Hf in E'.
    + intros Hr. destruct (H6 _ Hr) as [Hs _]. by apply Hold in Hs.
  - intros x y r' Hx Hy Hr'. destruct (Hin x r' Hx) as [[-> ->]|[? Hx']], (Hin y _ Hy) as [[-> ?]|[? Hy']]; subst; try done.
    + exfalso. by apply (Hold (jw_next w)); [eapply H3|].
    + exfalso. by apply (Hold (jw_next w)); [eapply H3|].
    + by eapply H5.
  - intros r' Hr'. destruct (H6 r' Hr') as [Hs Hz]. split; [|done]. apply lookup_insert_is_Some. right.
    split; [|done]. intros <-. by apply Hold in Hs.
  - intros r' [<-|[Hne Hr']]%lookup_insert_is_Some; [right; right; exists v; by rewrite lookup_insert_eq|].
    destruct (H7 r' Hr') as [?|[?|[x Hx]]]; [by left | by right; left|]. right; right. exists x.
    rewrite lookup_insert_ne; [done|]. intros <-. by rewrite Hv in Hx.
Qed.

(** A released reference. *)
Lemma owns_release s v r :
  owns base s → holds s v r → r ≠ 0 →
  owns base (mkScopes (sc_world s) (<[v := ScopedLocalRef.mk 0]> (sc_vars s)) ({[r]} ∪ sc_raw s)).
Proof.
  intros [H1 H2 H3 H4 H5 H6 H7] Hv Hr.
  assert (∀ x r', <[v := ScopedLocalRef.mk 0]> (sc_vars s) !! x = Some (ScopedLocalRef.mk r') → r' ≠ 0 →
    x ≠ v ∧ holds s x r' ∧ r' ≠ r) as Hin.
  { intros x r' Hx Hr'. destruct (decide (x = v)) as [->|Hxv]; [rewrite lookup_insert_eq in Hx; by injection Hx as <-|].
    rewrite lookup_insert_ne in Hx by done. split_and!; [done..|]. intros ->. by destruct (H5 v x r). }
  constructor; cbn; try done.
  - intros x r' Hx Hr'. destruct (Hin x r' Hx Hr') as (_ & Hx' & _). by eapply H3.
  - intros x r' Hx Hr'. destruct (Hin x r' Hx Hr') as (_ & Hx' & Hne). destruct (H4 x r' Hx' Hr'). set_solver.
  - intros x y r' Hx Hy Hr'. destruct (Hin x r' Hx Hr') as (_ & Hx' & _), (Hin y r' Hy Hr') as (_ & Hy' & _). by eapply H5.
  - intros r' [->%elem_of_singleton|Hr']%elem_of_union; [split; [by eapply H3 | done] | by apply H6].
  - intros r' Hr'. destruct (H7 r' Hr') as [?|[?|[x Hx]]]; [by left | right; left; set_solver|].
    destruct (decide (x = v)) as [->|]; [right; left; rewrite Hv in Hx; injection Hx as <-; set_solver|].
    right; right. exists x. by rewrite lookup_insert_ne by done.
Qed.
End owner.

(** ** Every operation keeps the invariant *)

Lemma on_world_run {A} (m : prog jworld A) s a w :
  m (sc_world s) = (Ret a, w) → on_world m s = (Ret a, mkScopes w (sc_vars s) (sc_raw s)).
Proof. unfold on_world. by intros ->. Qed.

Lemma var_run v x s : sc_vars s !! v = Some x → var v s = (Ret x, s).
Proof. intros E. unfold var. step. by rewrite E. Qed.

Lemma release_var_run w r s :
  holds s w r → release_var w s = (Ret r, set_sc_vars (<[w := ScopedLocalRef.mk 0]> (sc_vars s)) s).
Proof. intros E. unfold release_var. by step_with (var_run w _ s E). Qed.

(** [reset] to another reference, of an object that holds [q]. *)
Lemma reset_run r q w :
  r ≠ q → (q ≠ 0 → is_Some (jw_locals w !! q)) →
  ScopedLocalRef.reset r (ScopedLocalRef.mk q) w =
  (Ret (ScopedLocalRef.mk r), if q =? 0 then w else set_jw_locals (delete q (jw_locals w)) w).
Proof.
  intros Hne Hl. unfold ScopedLocalRef.reset. cbn [ScopedLocalRef.get]. rewrite (proj2 (Z.eqb_neq _ _) Hne).
  destruct (q =? 0) eqn:E; cbn [negb when]; [done|]. apply Z.eqb_neq in E. destruct (Hl E) as [o Ho].
  by step_with (DeleteLocalRef_run q o w E Ho).
Qed.

Lemma holds_dom s v : v ∈ dom (sc_vars s) → ∃ r, holds s v r.
Proof. intros [[r] H]%elem_of_dom. by exists r. Qed.

Section run.
Context (base : gmap Z Z).

Definition op_keeps (op : rop) (s : scopes) (d' : gset nat) : Prop :=
  ∃ s', run_op op s = (Ret tt, s') ∧ owns base s' ∧ dom (sc_vars s') = d'.

Lemma run_new s v o : owns base s → v ∉ dom (sc_vars s) → op_keeps (OpNew v o) s ({[v]} ∪ dom (sc_vars s)).
Proof.
  intros Ho Hv%not_elem_of_dom. unfold op_keeps. cbn [run_op]. destruct (decide (o = 0)) as [->|Hz].
  - step_with (on_world_run (new_local 0) s 0 (sc_world s) eq_refl).
    step_with (on_world_run (ScopedLocalRef.new 0) (mkScopes (sc_world s) (sc_vars s) (sc_raw s)) _ _ (ScopedLocalRef_new 0 _)).
    eexists. split; [reflexivity|]. cbn. split; [|by rewrite dom_insert_L]. by apply (owns_set_null base s v Ho); left.
  - step_with (on_world_run (new_local o) s _ _ (new_local_run o (sc_world s) Hz)). set (s1 := mkScopes _ _ _).
    step_with (on_world_run (ScopedLocalRef.new (jw_next (sc_world s))) s1 _ _ (ScopedLocalRef_new _ _)).
    eexists. split; [reflexivity|]. split; [exact (owns_new base s v o Ho Hv) | cbn; by rewrite dom_insert_L].
Qed.

Lemma run_move s v w :
  owns base s → v ∉ dom (sc_vars s) → w ∈ dom (sc_vars s) → op_keeps (OpMove v w) s ({[v]} ∪ dom (sc_vars s)).
Proof.
  intros Ho Hv Hw. destruct (holds_dom s w Hw) as [r Hr]. unfold op_keeps. cbn [run_op].
  step_with (release_var_run w r s Hr). set (s1 := set_sc_vars _ s).
  step_with (on_world_run (ScopedLocalRef.new r) s1 _ _ (ScopedLocalRef_new r _)).
  eexists. split; [reflexivity|]. split.
  - apply (owns_move base s v w r); [done | done | by intros -> | left; by apply not_elem_of_dom].
  - cbn. rewrite !dom_insert_L. set_solver.
Qed.

Lemma run_reset s v : owns base s → v ∈ dom (sc_vars s) → op_keeps (OpReset v) s (dom (sc_vars s)).
Proof.
  intros Ho Hv. destruct (holds_dom s v Hv) as [r Hr]. unfold op_keeps. cbn [run_op]. step_with (var_run v _ s Hr).
  destruct (decide (r = 0)) as [->|Hz].
  - step_with (on_world_run (ScopedLocalRef.reset 0 (ScopedLocalRef.mk 0)) s _ _ eq_refl).
    eexists. split; [reflexivity|]. split; [by apply (owns_set_null base s v Ho); right | cbn; rewrite dom_insert_L; set_solver].
  - assert (is_Some (jw_locals (sc_world s) !! r)) as Hl by (by eapply ow_live).
    step_with (on_world_run _ s _ _ (reset_run 0 r (sc_world s) ltac:(done) (λ _, Hl))).
    rewrite (proj2 (Z.eqb_neq _ _) Hz). eexists. split; [reflexivity|].
    split; [exact (owns_drop base s v r Ho Hr Hz) | cbn; rewrite dom_insert_L; set_solver].
Qed.

Lemma run_release s v : owns base s → v ∈ dom (sc_vars s) → op_keeps (OpRelease v) s (dom (sc_vars s)).
Proof.
  intros Ho Hv. destruct (holds_dom s v Hv) as [r Hr]. unfold op_keeps. cbn [run_op]. step_with (release_var_run v r s Hr).
  eexists. split; [reflexivity|]. destruct (r =? 0) eqn:E.
  - apply Z.eqb_eq in E as ->. split; [by apply (owns_set_null base s v Ho); right | cbn; rewrite dom_insert_L; set_solver].
  - apply Z.eqb_neq in E. split; [exact (owns_release base s v r Ho Hr E) | cbn; rewrite dom_insert_L; set_solver].
Qed.

Lemma run_destroy s v : owns base s → v ∈ dom (sc_vars s) → op_keeps (OpDestroy v) s (dom (sc_vars s) ∖ {[v]}).
Proof.
  intros Ho Hv. destruct (holds_dom s v Hv) as [r Hr]. unfold op_keeps. cbn [run_op]. step_with (var_run v _ s Hr).
  destruct (decide (r = 0)) as [->|Hz].
  - step_with (on_world_run _ s _ _ (ScopedLocalRef_destroy_null (sc_world s))).
    eexists. split; [reflexivity|]. cbn. split; [|by rewrite dom_delete_L]. by apply (owns_undeclare base s v Ho); right.
  - assert (is_Some (jw_locals (sc_world s) !! r)) as [o Hl] by (by eapply ow_live).
    step_with (on_world_run _ s _ _ (ScopedLocalRef_destroy_run r o (sc_world s) Hz Hl)).
    eexists. split; [reflexivity|]. cbn. split; [|by rewrite dom_delete_L].
    pose proof (owns_drop base s v r Ho Hr Hz) as Hd.
    apply (owns_undeclare base _ v) in Hd; [|right; cbn; apply lookup_insert_eq].
    unfold set_sc_vars in Hd. cbn in Hd. by rewrite delete_insert_eq in Hd.
Qed.

Lemma run_assign s v w :
  owns base s → v ∈ dom (sc_vars s) → w ∈ dom (sc_vars s) → op_keeps (OpAssign v w) s (dom (sc_vars s)).
Proof.
  intros Ho Hv Hw. destruct (holds_dom s w Hw) as [r Hr], (holds_dom s v Hv) as [q Hq]. unfold op_keeps. cbn [run_op].
  step_with (release_var_run w r s Hr). set (s1 := set_sc_vars _ s).
  assert (∀ vs, dom vs = dom (sc_vars s) → ∀ w' raw x, dom (sc_vars (mkScopes w' (<[v := x]> vs) raw)) = dom (sc_vars s)) as Hdom.
  { intros vs E w' raw x. cbn. rewrite dom_insert_L, E. set_solver. }
  destruct (decide (v = w)) as [->|Hne].
  - (* one object: its reference goes out and comes back *)
    step_with (var_run w (ScopedLocalRef.mk 0) s1 (lookup_insert_eq _ _ _)).
    assert (ScopedLocalRef.reset r (ScopedLocalRef.mk 0) (sc_world s1) = (Ret (ScopedLocalRef.mk r), sc_world s1)) as E
      by apply ScopedLocalRef_new.
    step_with (on_world_run _ s1 _ _ E). eexists. split; [reflexivity|]. cbn. rewrite insert_insert_eq, (insert_id _ _ _ Hr).
    by destruct s.
  - assert (holds s1 v q) as Hq1 by (cbn; by rewrite lookup_insert_ne).
    step_with (var_run v _ s1 Hq1). destruct (decide (r = q)) as [->|Hrq].
    + assert (q = 0) as -> by (destruct (decide (q = 0)); [done | by destruct (ow_one _ _ Ho v w q)]).
      step_with (on_world_run (ScopedLocalRef.reset 0 (ScopedLocalRef.mk 0)) s1 _ _ eq_refl).
      eexists. split; [reflexivity|]. split; [by apply (owns_move base s v w 0); [| | |right] | cbn; rewrite !dom_insert_L; set_solver].
    + assert (q ≠ 0 → is_Some (jw_locals (sc_world s1) !! q)) as Hl by (intros Hz; exact (ow_live _ _ Ho v q Hq Hz)).
      step_with (on_world_run _ s1 _ _ (reset_run r q (sc_world s1) Hrq Hl)).
      eexists. split; [reflexivity|]. split; [|cbn; rewrite !dom_insert_L; set_solver].
      destruct (q =? 0) eqn:E.
      * apply Z.eqb_eq in E as ->. by apply (owns_move base s v w r); [| | |right].
      * apply Z.eqb_neq in E. pose proof (owns_drop base s v q Ho Hq E) as Hd.
        apply (owns_move base _ v w r) in Hd; [|cbn; by rewrite lookup_insert_ne | done | right; cbn; apply lookup_insert_eq].
        unfold set_sc_vars in Hd. cbn in Hd.
        by rewrite (insert_insert_ne _ w v), insert_insert_eq in Hd by done.
Qed.

Lemma run_op_keeps op s d' :
  owns base s → scope_after op (dom (sc_vars s)) = Some d' → op_keeps op s d'.
Proof.
  intros Ho. destruct op as [v o|v w|v w|v|v|v]; cbn [scope_after]; repeat case_bool_decide; cbn [negb orb andb];
    try done; intros [= <-].
  - by apply run_new.
  - by apply run_move.
  - by apply run_assign.
  - by apply run_reset.
  - by apply run_release.
  - by apply run_destroy.
Qed.
End run.

(** C27 Scoped references neither leak nor are deleted twice: any block of operations on scoped
    variables that respects their scopes runs without a reference being used after its deletion;
    afterwards the references from before the block are as they were, and once all variables have
    left their scope, the only other local references are those that were released. *)
Theorem scoped_refs_balanced (ops : list rop) (w : jworld) (d : gset nat) :
  jw_ok w → scopes_of ops ∅ = Some d →
  ∃ s', for_each ops run_op (mkScopes w ∅ ∅) = (Ret tt, s') ∧ owns (jw_locals w) s' ∧ dom (sc_vars s') = d ∧
    (d = ∅ → dom (jw_locals (sc_world s')) = dom (jw_locals w) ∪ sc_raw s').
Proof.
  intros Hok Hd.
  assert (owns (jw_locals w) (mkScopes w ∅ ∅)) as Ho.
  { constructor; cbn; try done; first [by intros; left | set_solver]. }
  assert (∃ s', for_each ops run_op (mkScopes w ∅ ∅) = (Ret tt, s') ∧ owns (jw_locals w) s' ∧ dom (sc_vars s') = d)
    as (s' & E & Ho' & Hd').
  { change (∅ : gset nat) with (dom (sc_vars (mkScopes w ∅ ∅))) in Hd. revert Hd Ho.
    generalize (mkScopes w ∅ ∅). induction ops as [|op ops IH]; intros s Hd Ho.
    - injection Hd as <-. by exists s.
    - cbn [scopes_of] in Hd. destruct (scope_after op (dom (sc_vars s))) as [d1|] eqn:E1; [|done].
      destruct (run_op_keeps (jw_locals w) op s d1 Ho E1) as (s1 & E & Ho1 & <-).
      cbn [for_each]. step_with E. by apply IH. }
  exists s'. split_and!; [done..|]. intros ->. apply set_eq. intros r. rewrite elem_of_union, !elem_of_dom.
  destruct Ho' as [H1 H2 H3 H4 H5 H6 H7]. split.
  - intros Hr. destruct (H7 r Hr) as [?|[?|[v Hv]]]; [by left | by right|].
    apply dom_empty_inv_L in Hd'. rewrite Hd' in Hv. by rewrite lookup_empty in Hv.
  - intros [[o Hb]|Hr]; [|by apply H6]. exists o. by apply (proj1 (map_subseteq_spec _ _) H2).
Qed.

(** Two references; one is moved over the other, moved onto itself, and released. *)
Lemma scoped_refs_balanced_witness :
  ∃ s', for_each [OpNew 0 70; OpNew 1 71; OpAssign 0 1; OpAssign 0 0; OpMove 2 0; OpRelease 2; OpDestroy 2; OpDestroy 1; OpDestroy 0]
          run_op (mkScopes (demo_jw []) ∅ ∅) = (Ret tt, s') ∧
    dom (jw_locals (sc_world s')) = dom (jw_locals (demo_jw [])) ∪ sc_raw s'.
Proof.
  destruct (scoped_refs_balanced
    [OpNew 0 70; OpNew 1 71; OpAssign 0 1; OpAssign 0 0; OpMove 2 0; OpRelease 2; OpDestroy 2; OpDestroy 1; OpDestroy 0]
    (demo_jw []) ∅ (demo_jw_ok []) ltac:(by vm_compute)) as (s' & E & _ & _ & H).
  exists s'. split; [exact E | by apply H].
Defined.
