(* ===== verification/JniArrays.v ===== *)
(** * JniArrays: scoped arrays of [injector/jni_helper.hpp]

    The specialisation of [ScopedLocalRef] for arrays, which also holds the elements: a buffer of
    the environment for numbers, a vector of scoped references for objects.  The claims: what is
    written to an array is in it after [reset] and [commit]; the destructor, which goes through
    [release], drops what was written and keeps the buffer and the element references. *)

From Stdlib Require Import ZArith Lia Ascii.
From stdpp Require Import base tactics strings list gmap gmultiset numbers.
From S2P Require Import Prelude JniEnv JniRefs.

(** [elements_]: null, a vector of references, a buffer. *)
Inductive elems : Type := ENull | EObjs (l : list ScopedLocalRef.t) | EBuf (b : Z).

(** [*p] for a pointer to an element, and a store through it. *)
Definition peek (e : elems) (i : Z) : prog jworld Z :=
  if i <? 0 then crash OutOfBounds
  else
    match e with
    | EBuf b =>
        s ← get;
        match jw_bufs s !! b with
        | Some (_, data) => match data !! Z.to_nat i with Some x => mret x | None => crash OutOfBounds end
        | None => crash UseAfterFree
        end
    | EObjs l => match l !! Z.to_nat i with Some x => mret (ScopedLocalRef.get x) | None => crash OutOfBounds end
    | ENull => crash NullDeref
    end.

Definition poke (e : elems) (i x : Z) : prog jworld unit :=
  if i <? 0 then crash OutOfBounds
  else
    match e with
    | EBuf b =>
        s ← get;
        match jw_bufs s !! b with
        | Some (o, data) =>
            if (Z.to_nat i <? length data)%nat
            then put (set_jw_bufs (<[b := (o, <[Z.to_nat i := x]> data)]> (jw_bufs s)) s)
            else crash OutOfBounds
        | None => crash UseAfterFree
        end
    | _ => crash NullDeref
    end.

(** [Iterator] and [ConstIterator]: a pointer, as the start of the elements and an offset; only the
    first can be stored through.  Two iterators of one array are equal when their offsets are. *)
Module Iterator.
Record t : Type := mk { base_ : elems; e_ : Z }.

Definition deref (it : t) : prog jworld Z := peek (base_ it) (e_ it).
Definition store (x : Z) (it : t) : prog jworld unit := poke (base_ it) (e_ it) x.
Definition incr (it : t) : t := mk (base_ it) (e_ it + 1).
Definition decr (it : t) : t := mk (base_ it) (e_ it - 1).

(** The postfix operators: the value of the expression, and the iterator afterwards. *)
Definition post_incr (it : t) : t * t := (it, mk (base_ it) (e_ it + 1)).
Definition post_decr (it : t) : t * t := (it, mk (base_ it) (e_ it - 1)).

Definition eqb (it other : t) : bool := e_ other =? e_ it.
Definition neb (it other : t) : bool := negb (e_ other =? e_ it).
End Iterator.

(** [for (auto &x : array)], the body given the iterator. *)
Fixpoint range_for {A} (fuel : nat) (body : Iterator.t → A → prog jworld A) (it last : Iterator.t) (acc : A) : prog jworld A :=
  match fuel with
  | O => no_fuel
  | S fuel =>
      if Iterator.neb it last
      then acc ← body it acc; range_for fuel body (Iterator.incr it) last acc
      else mret acc
  end.

Module ScopedArray.

(** [size_] has no initial value. *)
Record t : Type := mk { local_ref_ : Z; size_ : option Z; elements_ : elems; modified_ : bool }.

Definition set_elements (e : elems) (a : t) : t := mk (local_ref_ a) (size_ a) e (modified_ a).

Definition use_size (a : t) : prog jworld Z :=
  match size_ a with Some n => mret n | None => crash Uninit end.

Definition is_object (ty : jtype) : bool := bool_decide (ty = TObject).

(** The numbers from [i] on, [n] of them, through a loop body that yields a value each. *)
Fixpoint collect (n : nat) (i : Z) (f : Z → prog jworld ScopedLocalRef.t) : prog jworld (list ScopedLocalRef.t) :=
  match n with
  | O => mret []
  | S n => x ← f i; l ← collect n (i + 1) f; mret (x :: l)
  end.

(** The elements of the vector that a loop to [size_] visits. *)
Definition visited (n : Z) (e : elems) : list ScopedLocalRef.t :=
  match e with EObjs l => take (Z.to_nat n) l | _ => [] end.

Section array.
Context (ty : jtype).

Definition ReleaseElements (mode : Z) (a : t) : prog jworld unit :=
  match elements_ a with
  | ENull => mret tt
  | _ =>
      if local_ref_ a =? 0 then mret tt
      else
        match elements_ a with
        | EObjs _ =>
            n ← use_size a;
            for_each (zip (seq 0 (Z.to_nat n)) (visited n (elements_ a))) (λ '(i, x),
              JNI_SafeInvoke mret SetObjectArrayElement [JRef (local_ref_ a); JNum (Z.of_nat i); UnwrapScope x];; mret tt)
        | EBuf b => ReleaseArrayElements (local_ref_ a) b mode
        | ENull => mret tt
        end
  end.

Definition release_mode (a : t) : Z := if modified_ a then 0 else JNI_ABORT.

(** The destructors of the elements; the vector itself is freed. *)
Definition destroy_elements (a : t) : prog jworld unit :=
  if is_object ty then n ← use_size a; for_each (visited n (elements_ a)) ScopedLocalRef.destroy else mret tt.

Definition fill (r n : Z) : prog jworld elems :=
  if is_object ty then
    l ← collect (Z.to_nat n) 0 (λ i, JNI_SafeInvoke ScopedLocalRef.new GetObjectArrayElement [JRef r; JNum i]);
    mret (EObjs l)
  else b ← GetArrayElements r; mret (EBuf b).

Definition reset (ptr : Z) (a : t) : prog jworld t :=
  if ptr =? local_ref_ a then mret a
  else
    e ← (if local_ref_ a =? 0 then mret (elements_ a)
         else
           ReleaseElements (release_mode a) a;;
           DeleteLocalRef (local_ref_ a);;
           destroy_elements a;;
           mret ENull);
    if ptr =? 0 then mret (mk 0 (Some 0) e (modified_ a))
    else
      n ← jcall GetArrayLength [JRef ptr];
      e ← fill ptr n;
      mret (mk ptr (Some n) e (modified_ a)).

Definition new (local_ref : Z) : prog jworld t := reset local_ref (mk 0 None ENull false).

(** The members are cleared before they are used. *)
Definition release (a : t) : prog jworld (Z * t) :=
  let localRef := local_ref_ a in
  let a := mk 0 (Some 0) (elements_ a) (modified_ a) in
  ReleaseElements (release_mode a) a;;
  destroy_elements a;;
  mret (localRef, set_elements ENull a).

Definition destroy (a : t) : prog jworld unit := '(r, _) ← release a; DeleteLocalRef r.

Definition move (s : t) : t * t := (s, mk 0 (Some 0) ENull false).

(** The members of the other object replace those of this one. *)
Definition assign (a s : t) : t * t := (s, mk 0 (Some 0) ENull false).

(** [JNI_Cast] from a reference that is no array. *)
Definition of_scope (s : ScopedLocalRef.t) : prog jworld (t * ScopedLocalRef.t) :=
  let '(r, s) := ScopedLocalRef.release s in a ← new r; mret (a, s).

Definition commit (a : t) : prog jworld t :=
  ReleaseElements JNI_COMMIT a;;
  mret (mk (local_ref_ a) (size_ a) (elements_ a) false).

Definition size (a : t) : prog jworld Z := use_size a.

(** [a[index] = x] for numbers, which marks the array modified. *)
Definition write (index : nat) (x : Z) (a : t) : prog jworld t :=
  poke (elements_ a) (Z.of_nat index) x;;
  mret (mk (local_ref_ a) (size_ a) (elements_ a) true).

(** [a[index]] of a constant array. *)
Definition read (index : nat) (a : t) : prog jworld Z := peek (elements_ a) (Z.of_nat index).

(** The iterators of an array that is not constant mark it modified. *)
Definition begin (a : t) : Iterator.t * t :=
  (Iterator.mk (elements_ a) 0, mk (local_ref_ a) (size_ a) (elements_ a) true).
Definition end_ (a : t) : prog jworld (Iterator.t * t) :=
  n ← use_size a; mret (Iterator.mk (elements_ a) n, mk (local_ref_ a) (size_ a) (elements_ a) true).
Definition begin_const (a : t) : Iterator.t := Iterator.mk (elements_ a) 0.
Definition end_const (a : t) : prog jworld Iterator.t := n ← use_size a; mret (Iterator.mk (elements_ a) n).
Definition cbegin (a : t) : Iterator.t := Iterator.mk (elements_ a) 0.
Definition cend (a : t) : prog jworld Iterator.t := n ← use_size a; mret (Iterator.mk (elements_ a) n).
End array.
End ScopedArray.

(** ** Arrays of numbers *)

(** Writes at an index, one after the other. *)
Definition write_all (es : list (nat * Z)) (a : ScopedArray.t) : prog jworld ScopedArray.t :=
  foldl (λ m e, a ← m; ScopedArray.write e.1 e.2 a) (mret a) es.

Definition written (es : list (nat * Z)) (l : list Z) : list Z := foldl (λ l e, <[e.1 := e.2]> l) l es.

Lemma length_written es l : length (written es l) = length l.
Proof. revert l. induction es as [|e es IH]; intros l; [done|]. cbn [written foldl]. fold (written es (<[e.1:=e.2]> l)).
  by rewrite IH, length_insert. Qed.

(** An array of numbers: a local reference to an object with contents. *)
Record number_array (s : jworld) (r o : Z) (l : list Z) : Prop := {
  na_ok : jw_ok s;
  na_quiet : jw_exn s = None;
  na_ref : jw_locals s !! r = Some o;
  na_contents : jw_heap s !! o = Some l
}.

Section numbers.
Context (ty : jtype) (s : jworld) (r o : Z) (l : list Z).
Hypothesis Hty : ScopedArray.is_object ty = false.
Hypothesis Ha : number_array s r o l.

Lemma array_ref_nonzero : r ≠ 0.
Proof. destruct (ok_locals s (na_ok _ _ _ _ Ha) r); [rewrite (na_ref _ _ _ _ Ha); by eexists | lia]. Qed.

Lemma array_object : object_of s r = o ∧ contents s r = l.
Proof. unfold contents, object_of. rewrite (na_ref _ _ _ _ Ha), (na_contents _ _ _ _ Ha). done. Qed.

(** The state and the object once the elements have been fetched. *)
Definition fetched (data : list Z) : jworld :=
  set_jw_bufs (<[jw_next s := (o, data)]> (jw_bufs s)) (set_jw_next (jw_next s + 1)
    (logged GetArrayLength [JRef r] s)).

Definition fetched_array (m : bool) : ScopedArray.t :=
  ScopedArray.mk r (Some (Z.of_nat (length l))) (EBuf (jw_next s)) m.

Lemma array_new_run : ScopedArray.new ty r s = (Ret (fetched_array false), fetched l).
Proof.
  pose proof array_ref_nonzero as Hr. destruct array_object as [Ho Hc]. destruct Ha as [_ Hq Href _].
  unfold ScopedArray.new, ScopedArray.reset. cbn [ScopedArray.local_ref_ ScopedArray.elements_].
  rewrite (proj2 (Z.eqb_neq _ _) Hr). step.
  assert (callable s GetArrayLength [JRef r]) as Hcall.
  { constructor; [done | |].
    - cbn [forallb live_arg]. by rewrite (live_local s r o Href), orb_true_r.
    - cbn [null_arg List.find existsb]. by rewrite (proj2 (Z.eqb_neq _ _) Hr). }
  erewrite bind_run.
  2:{ rewrite (jcall_run _ _ _ Hcall). unfold answer. step. reflexivity. }
  cbv beta. change (contents (logged GetArrayLength [JRef r] s) r) with (contents s r). rewrite Hc.
  unfold ScopedArray.fill. rewrite Hty. unfold GetArrayElements. rewrite !prog_bind_assoc. step.
  change (live (logged GetArrayLength [JRef r] s) r) with (live s r).
  change (pending (logged GetArrayLength [JRef r] s)) with (pending s).
  rewrite (pending_none s Hq), (live_local s r o Href). cbn [negb]. rewrite !prog_bind_assoc. step. rewrite !prog_bind_ret.
  change (contents (logged GetArrayLength [JRef r] s) r) with (contents s r).
  change (object_of (logged GetArrayLength [JRef r] s) r) with (object_of s r). by rewrite Ho, Hc.
Qed.

Lemma poke_run i x data :
  (i < length data)%nat →
  poke (EBuf (jw_next s)) (Z.of_nat i) x (fetched data) = (Ret tt, fetched (<[i := x]> data)).
Proof.
  intros Hi. unfold poke. rewrite (proj2 (Z.ltb_ge _ _) (Nat2Z.is_nonneg i)), Nat2Z.id. step.
  unfold fetched at 1. cbn [jw_bufs set_jw_bufs]. rewrite lookup_insert_eq, (proj2 (Nat.ltb_lt _ _) Hi).
  unfold put, fetched. cbn. by rewrite insert_insert_eq.
Qed.

Lemma peek_run i x data s' :
  jw_bufs s' = jw_bufs (fetched data) → data !! i = Some x →
  peek (EBuf (jw_next s)) (Z.of_nat i) s' = (Ret x, s').
Proof.
  intros Hb Hx. unfold peek. rewrite (proj2 (Z.ltb_ge _ _) (Nat2Z.is_nonneg i)), Nat2Z.id. step.
  rewrite Hb. unfold fetched. cbn [jw_bufs set_jw_bufs]. by rewrite lookup_insert_eq, Hx.
Qed.

Lemma write_run i x data m :
  (i < length data)%nat →
  ScopedArray.write i x (fetched_array m) (fetched data) = (Ret (fetched_array true), fetched (<[i := x]> data)).
Proof.
  intros Hi. unfold ScopedArray.write. cbn [ScopedArray.elements_ fetched_array]. by step_with (poke_run i x data Hi).
Qed.

Lemma write_all_run es data m :
  Forall (λ e, (e.1 < length data)%nat) es →
  ∃ m', write_all es (fetched_array m) (fetched data) = (Ret (fetched_array m'), fetched (written es data)) ∧
    (es = [] → m' = m) ∧ (es ≠ [] → m' = true).
Proof.
  intros Hes. induction es as [|e es IH] using rev_ind; [by exists m|].
  apply Forall_app in Hes as [Hes He]. apply Forall_inv in He. destruct (IH Hes) as (m' & E & _ & _).
  exists true. split; [|by split; [intros [_ ?]%app_nil|]]. unfold write_all, written. rewrite !foldl_app. cbn [foldl].
  fold (write_all es (fetched_array m)) (written es data). step_with E. apply write_run. by rewrite length_written.
Qed.

Lemma fetched_live data : live (fetched data) r = true.
Proof. apply (live_local _ r o). apply (na_ref _ _ _ _ Ha). Qed.

Lemma release_run mode data m :
  mode ≠ JNI_COMMIT →
  ScopedArray.ReleaseElements mode (fetched_array m) (fetched data) =
  (Ret tt, set_jw_heap (if mode =? JNI_ABORT then jw_heap s else <[o := data]> (jw_heap s))
             (set_jw_bufs (jw_bufs s) (fetched data))).
Proof.
  intros Hm. unfold ScopedArray.ReleaseElements. cbn [ScopedArray.elements_ ScopedArray.local_ref_ fetched_array].
  rewrite (proj2 (Z.eqb_neq _ _) array_ref_nonzero). unfold ReleaseArrayElements. step.
  rewrite fetched_live. cbn [negb]. unfold fetched at 1. cbn [jw_bufs set_jw_bufs]. rewrite lookup_insert_eq. step.
  rewrite (proj2 (Z.eqb_neq _ _) Hm).
  assert (delete (jw_next s) (<[jw_next s := (o, data)]> (jw_bufs s)) = jw_bufs s) as Eb.
  { apply delete_insert_id. destruct (jw_bufs s !! jw_next s) eqn:E; [|done].
    destruct (ok_bufs s (na_ok _ _ _ _ Ha) (jw_next s)); [by rewrite E | lia]. }
  destruct (mode =? JNI_ABORT); unfold modify, set_jw_heap, set_jw_bufs, fetched; cbn; by rewrite Eb.
Qed.

Lemma commit_run data m :
  ScopedArray.commit (fetched_array m) (fetched data) =
  (Ret (fetched_array false), set_jw_heap (<[o := data]> (jw_heap s)) (fetched data)).
Proof.
  unfold ScopedArray.commit, ScopedArray.ReleaseElements. cbn [ScopedArray.elements_ ScopedArray.local_ref_ fetched_array].
  rewrite (proj2 (Z.eqb_neq _ _) array_ref_nonzero). unfold ReleaseArrayElements. rewrite prog_bind_assoc. step.
  rewrite fetched_live. cbn [negb]. unfold fetched at 1. cbn [jw_bufs set_jw_bufs]. rewrite lookup_insert_eq. by step.
Qed.

Lemma reset_array_run data m :
  ∃ s', ScopedArray.reset ty 0 (fetched_array m) (fetched data) = (Ret (ScopedArray.mk 0 (Some 0) ENull m), s') ∧
    jw_heap s' = (if m then <[o := data]> (jw_heap s) else jw_heap s) ∧ jw_bufs s' = jw_bufs s ∧
    jw_locals s' = delete r (jw_locals s) ∧ jw_exn s' = None.
Proof.
  pose proof array_ref_nonzero as Hr. destruct Ha as [_ Hq Href _]. unfold ScopedArray.reset.
  cbn [ScopedArray.local_ref_ fetched_array]. rewrite (proj2 (Z.eqb_neq 0 r)) by congruence.
  rewrite (proj2 (Z.eqb_neq _ _) Hr). rewrite !prog_bind_assoc.
  assert (ScopedArray.release_mode (fetched_array m) ≠ JNI_COMMIT) as Hm by (by destruct m).
  step_with (release_run _ data m Hm). set (s1 := set_jw_heap _ _). rewrite prog_bind_assoc.
  step_with (DeleteLocalRef_run r o s1 Hr Href). rewrite prog_bind_assoc.
  unfold ScopedArray.destroy_elements. rewrite Hty. step. rewrite prog_bind_ret. cbv iota.
  eexists. split; [reflexivity|]. split_and!; [by destruct m | done..].
Qed.

Lemma destroy_array_run data m :
  ∃ s', ScopedArray.destroy ty (fetched_array m) (fetched data) = (Ret tt, s') ∧
    jw_heap s' = jw_heap s ∧ jw_bufs s' = <[jw_next s := (o, data)]> (jw_bufs s) ∧
    jw_locals s' = delete r (jw_locals s) ∧ jw_exn s' = None.
Proof.
  pose proof array_ref_nonzero as Hr. destruct Ha as [_ Hq Href _].
  unfold ScopedArray.destroy, ScopedArray.release. cbn [ScopedArray.local_ref_ fetched_array].
  unfold ScopedArray.ReleaseElements, ScopedArray.destroy_elements. rewrite Hty.
  cbn [ScopedArray.elements_ ScopedArray.local_ref_ fetched_array]. rewrite !prog_bind_assoc. step.
  rewrite !prog_bind_assoc. step. rewrite prog_bind_ret. cbv iota beta.
  rewrite (DeleteLocalRef_run r o (fetched data) Hr Href). eexists. split; [reflexivity|]. by split_and!.
Qed.

(** ** Iteration *)

(** The iterator at an index of the fetched array. *)
Definition at_index (k : nat) : Iterator.t := Iterator.mk (EBuf (jw_next s)) (Z.of_nat k).

Lemma at_index_next k : Iterator.incr (at_index k) = at_index (S k).
Proof. unfold Iterator.incr, at_index. cbn. f_equal. lia. Qed.

Lemma at_index_ne i j : Iterator.neb (at_index i) (at_index j) = negb (j =? i)%nat.
Proof. unfold Iterator.neb, at_index. cbn. destruct (Nat.eqb_spec j i), (Z.eqb_spec (Z.of_nat j) (Z.of_nat i)); (done || lia). Qed.

(** The loop to the end visits the indices in order; an invariant on the index carries the state. *)
Lemma range_for_run {A} (body : Iterator.t → A → prog jworld A) (st : nat → jworld) (acc : nat → A) n :
  (∀ k, (k < n)%nat → body (at_index k) (acc k) (st k) = (Ret (acc (S k)), st (S k))) →
  ∀ j k fuel, (k + j = n)%nat → (j < fuel)%nat →
    range_for fuel body (at_index k) (at_index n) (acc k) (st k) = (Ret (acc n), st n).
Proof.
  intros Hbody. induction j as [|j IH]; intros k fuel Hk Hf; (destruct fuel as [|fuel]; [lia|]);
    cbn [range_for]; rewrite at_index_ne.
  - replace k with n by lia. by rewrite Nat.eqb_refl.
  - rewrite (proj2 (Nat.eqb_neq _ _)) by lia. cbn [negb]. step_with (Hbody k ltac:(lia)).
    rewrite at_index_next. apply IH; lia.
Qed.
End numbers.

(** [for (auto &x : array) x = f(x)], and the values that [for (auto &x : array)] sees. *)
Definition update_each (fuel : nat) (f : Z → Z) (a : ScopedArray.t) : prog jworld ScopedArray.t :=
  let '(first, a) := ScopedArray.begin a in
  '(last, a) ← ScopedArray.end_ a;
  range_for fuel (λ it _, x ← Iterator.deref it; Iterator.store (f x) it) first last tt;;
  mret a.

Definition read_each (fuel : nat) (a : ScopedArray.t) : prog jworld (list Z) :=
  last ← ScopedArray.end_const a;
  range_for fuel (λ it acc, x ← Iterator.deref it; mret (acc ++ [x])) (ScopedArray.begin_const a) last [].

Lemma lookup_split {A} (l : list A) k : (k < length l)%nat → ∃ x, l !! k = Some x ∧ take (S k) l = take k l ++ [x] ∧ drop k l = x :: drop (S k) l.
Proof.
  intros Hk. apply lookup_lt_is_Some in Hk as [x Hx]. exists x. split_and!; [done | by apply take_S_r | by rewrite drop_S with (x:=x)].
Qed.

(** A loop over a constant array sees all its elements in their order. *)
Theorem read_each_run s r o l m data fuel :
  length data = length l → (length l < fuel)%nat →
  read_each fuel (fetched_array s r l m) (fetched s r o data) = (Ret data, fetched s r o data).
Proof.
  intros Hl Hf. unfold read_each, ScopedArray.end_const, ScopedArray.use_size. cbn [ScopedArray.size_ fetched_array].
  rewrite prog_bind_assoc, !prog_bind_ret.
  transitivity (Ret (take (length l) data), fetched s r o data); [|by rewrite take_ge by lia].
  apply (range_for_run s _ (λ _, fetched s r o data) (λ k, take k data) (length l)) with (j := length l) (k := 0%nat); [|lia..].
  intros k Hk. rewrite <- Hl in Hk. destruct (lookup_split data k Hk) as (x & Hx & -> & _).
  by step_with (peek_run s r o k x data (fetched s r o data) eq_refl Hx).
Qed.

(** What the updating loop leaves in the buffer. *)
Lemma update_each_run s r o l f fuel m :
  (length l < fuel)%nat →
  update_each fuel f (fetched_array s r l m) (fetched s r o l) = (Ret (fetched_array s r l true), fetched s r o (f <$> l)).
Proof.
  intros Hf. unfold update_each, ScopedArray.begin, ScopedArray.end_, ScopedArray.use_size.
  cbn [ScopedArray.size_ ScopedArray.elements_ ScopedArray.local_ref_ fetched_array]. rewrite prog_bind_assoc, !prog_bind_ret.
  set (body := λ (it : Iterator.t) (_ : ()), _).
  set (st := λ k, fetched s r o ((f <$> take k l) ++ drop k l)).
  assert (∀ k, (k < length l)%nat → body (at_index s k) tt (st k) = (Ret tt, st (S k))) as Hbody.
  { intros k Hk. destruct (lookup_split l k Hk) as (x & Hx & Et & Ed). unfold st, body.
    rewrite Et, Ed, fmap_app, <- app_assoc.
    assert (length (f <$> take k l) = k) as Ek by (rewrite length_fmap, length_take; lia).
    set (pre := f <$> take k l) in *.
    step_with (peek_run s r o k x (pre ++ x :: drop (S k) l) (fetched s r o (pre ++ x :: drop (S k) l)) eq_refl
      ltac:(by apply list_lookup_middle)).
    unfold Iterator.store. cbn [Iterator.base_ Iterator.e_ at_index]. rewrite poke_run.
    - rewrite insert_app_r_alt, Ek, Nat.sub_diag by lia. done.
    - rewrite length_app. cbn. lia. }
  pose proof (range_for_run s body st (λ _, tt) (length l) Hbody (length l) 0 fuel eq_refl Hf) as E.
  erewrite bind_run by exact E. unfold st. by rewrite take_ge, drop_ge, app_nil_r by done.
Qed.

(** A loop that updates each element, then [reset]: the array holds the images. *)
Theorem update_each_arrives ty s r o l f fuel :
  ScopedArray.is_object ty = false → number_array s r o l → (length l < fuel)%nat →
  ∃ a s', (a ← ScopedArray.new ty r; a ← update_each fuel f a; ScopedArray.reset ty 0 a) s = (Ret a, s') ∧
    jw_heap s' = <[o := f <$> l]> (jw_heap s) ∧ jw_bufs s' = jw_bufs s ∧ jw_locals s' = delete r (jw_locals s).
Proof.
  intros Hty Ha Hf. destruct (reset_array_run ty s r o l Hty Ha (f <$> l) true) as (s' & E & H1 & H2 & H3 & _).
  eexists _, s'. split; [|done]. step_with (array_new_run ty s r o l Hty Ha). step_with (update_each_run s r o l f fuel false Hf).
  exact E.
Qed.

(** What is written to an array of numbers through its scoped reference arrives in the array: after
    any writes within its bounds, [reset] stores the new contents, gives the buffer back and deletes
    the reference; [commit] stores them too, and keeps the buffer for further writes. *)
Theorem array_writes_arrive ty s r o l es :
  ScopedArray.is_object ty = false → number_array s r o l → Forall (λ e, (e.1 < length l)%nat) es → es ≠ [] →
  (∃ a s', (a ← ScopedArray.new ty r; a ← write_all es a; ScopedArray.reset ty 0 a) s = (Ret a, s') ∧
     jw_heap s' = <[o := written es l]> (jw_heap s) ∧ jw_bufs s' = jw_bufs s ∧
     jw_locals s' = delete r (jw_locals s) ∧ jw_exn s' = None) ∧
  (∃ a s', (a ← ScopedArray.new ty r; a ← write_all es a; ScopedArray.commit a) s = (Ret a, s') ∧
     jw_heap s' = <[o := written es l]> (jw_heap s) ∧ jw_locals s' = jw_locals s ∧ ScopedArray.modified_ a = false ∧
     ∀ i, (i < length l)%nat → ∃ x, ScopedArray.read i a s' = (Ret x, s') ∧ written es l !! i = Some x).
Proof.
  intros Hty Ha Hes Hne. destruct (write_all_run s r o l es l false Hes) as (m & E & _ & Hm). specialize (Hm Hne). subst m.
  split.
  - destruct (reset_array_run ty s r o l Hty Ha (written es l) true) as (s' & E' & H1 & H2 & H3 & H4).
    eexists _, s'. split; [|done]. step_with (array_new_run ty s r o l Hty Ha). step_with E. exact E'.
  - eexists _, _. split.
    { step_with (array_new_run ty s r o l Hty Ha). step_with E. apply (commit_run s r o l Ha). }
    split_and!; [done..|]. intros i Hi. rewrite <- (length_written es l) in Hi.
    apply lookup_lt_is_Some in Hi as [x Hx]. exists x. split; [|done].
    by apply (peek_run s r o i x (written es l)).
Qed.

(** The destructor of an array of numbers goes through [release], which forgets the reference before
    it would give the elements back: whatever was written is lost, the array keeps its old contents,
    and the buffer is never released. *)
Theorem array_destructor_drops ty s r o l es :
  ScopedArray.is_object ty = false → number_array s r o l → Forall (λ e, (e.1 < length l)%nat) es →
  ∃ s', (a ← ScopedArray.new ty r; a ← write_all es a; ScopedArray.destroy ty a) s = (Ret tt, s') ∧
    jw_heap s' = jw_heap s ∧ jw_bufs s' = <[jw_next s := (o, written es l)]> (jw_bufs s) ∧
    jw_locals s' = delete r (jw_locals s).
Proof.
  intros Hty Ha Hes. destruct (write_all_run s r o l es l false Hes) as (m & E & _ & _).
  destruct (destroy_array_run ty s r o l Hty Ha (written es l) m) as (s' & E' & H1 & H2 & H3 & _).
  exists s'. split; [|done]. step_with (array_new_run ty s r o l Hty Ha). step_with E. exact E'.
Qed.

Definition demo_array : jworld :=
  mkJw {[3 := 80]} [] {[1 := 50]} 10 None (Some (1, 7)) ∅ {[80 := [4; 5; 6]]} ∅ ∅ [] [] [].

Lemma demo_array_ok : number_array demo_array 3 80 [4; 5; 6].
Proof.
  constructor; [|done..]. constructor; cbn; [lia | | | set_solver |].
  - intros r [o [<- _]%lookup_singleton_Some]. lia.
  - intros r [o [<- _]%lookup_singleton_Some]. lia.
  - intros r [o Hr]. by rewrite lookup_empty in Hr.
Qed.

Lemma array_writes_arrive_witness :
  ∃ a s', (a ← ScopedArray.new TInt 3; a ← write_all [(0%nat, 9); (2%nat, 8)] a; ScopedArray.reset TInt 0 a) demo_array = (Ret a, s') ∧
    jw_heap s' = {[80 := [9; 5; 8]]}.
Proof.
  destruct (array_writes_arrive TInt demo_array 3 80 [4; 5; 6] [(0%nat, 9); (2%nat, 8)]) as [(a & s' & E & H & _) _];
    [done | apply demo_array_ok | repeat constructor; cbn; lia | done |].
  exists a, s'. split; [exact E | rewrite H; by vm_compute].
Defined.

Lemma array_destructor_drops_witness :
  ∃ s', (a ← ScopedArray.new TInt 3; a ← write_all [(0%nat, 9)] a; ScopedArray.destroy TInt a) demo_array = (Ret tt, s') ∧
    jw_heap s' = {[80 := [4; 5; 6]]} ∧ jw_bufs s' ≠ ∅.
Proof.
  destruct (array_destructor_drops TInt demo_array 3 80 [4; 5; 6] [(0%nat, 9)]) as (s' & E & H1 & H2 & _);
    [done | apply demo_array_ok | repeat constructor; cbn; lia |].
  exists s'. split; [exact E|]. split; [exact H1 | rewrite H2; by vm_compute].
Defined.

(** A null array that nobody has reset has no size. *)
Example null_array_size : (a ← ScopedArray.new TObject 0; ScopedArray.size a) demo_array = (Crash Uninit, demo_array).
Proof. reflexivity. Qed.

(** ** Arrays of objects *)

(** The state once the objects [l] have been fetched, from index [i] on. *)
Fixpoint fetch_objects (r i : Z) (l : list Z) (s : jworld) : jworld :=
  match l with
  | [] => s
  | o :: l =>
      let s := logged GetObjectArrayElement [JRef r; JNum i] s in
      fetch_objects r (i + 1) l (set_jw_locals (<[jw_next s := o]> (jw_locals s)) (set_jw_next (jw_next s + 1) s))
  end.

Definition refs_from (n : Z) (k : nat) : list ScopedLocalRef.t := (λ i, ScopedLocalRef.mk (n + Z.of_nat i)) <$> seq 0 k.

(** What fetching keeps, and the references it adds. *)
Record fetched_objects (l : list Z) (s s' : jworld) : Prop := {
  fo_ok : jw_ok s → jw_ok s';
  fo_exn : jw_exn s' = jw_exn s;
  fo_heap : jw_heap s' = jw_heap s;
  fo_globals : jw_globals s' = jw_globals s;
  fo_statics : jw_statics s' = jw_statics s;
  fo_answers : jw_answers s' = jw_answers s;
  fo_next : jw_next s' = jw_next s + Z.of_nat (length l);
  fo_old : ∀ x, x < jw_next s → jw_locals s' !! x = jw_locals s !! x;
  fo_new : ∀ i o, l !! i = Some o → jw_locals s' !! (jw_next s + Z.of_nat i) = Some o;
  fo_none : ∀ x, jw_next s + Z.of_nat (length l) <= x → jw_locals s' !! x = jw_locals s !! x
}.

Lemma fetch_objects_spec r i l s : fetched_objects l s (fetch_objects r i l s).
Proof.
  revert i s. induction l as [|o l IH]; intros i s.
  { constructor; cbn; try done. lia. }
  cbn [fetch_objects]. set (s1 := set_jw_locals _ _). destruct (IH (i + 1) s1) as [H1 H2 H3 H4 H5 H6 H7 H8 H9 H10].
  cbn in H2, H3, H4, H5, H6, H7. constructor; try done.
  - intros Hok. apply H1. apply jw_ok_new_local. by apply (jw_ok_mono s).
  - rewrite H7. cbn. lia.
  - intros x Hx. rewrite H8 by (cbn; lia). cbn. apply lookup_insert_ne. lia.
  - intros [|k] o' Hk; cbn in Hk.
    + injection Hk as ->. rewrite Z.add_0_r, H8 by (cbn; lia). cbn. apply lookup_insert_eq.
    + replace (jw_next s + Z.of_nat (S k)) with (jw_next s1 + Z.of_nat k) by (cbn; lia). by apply H9.
  - intros x Hx. cbn in Hx. rewrite H10 by (cbn; lia). cbn. apply lookup_insert_ne. lia.
Qed.

Section objects.
Context (r o : Z) (all : list Z).

(** The reference names an array with these objects. *)
Record object_array (s : jworld) : Prop := {
  oa_ok : jw_ok s;
  oa_quiet : jw_exn s = None;
  oa_ref : jw_locals s !! r = Some o;
  oa_contents : jw_heap s !! o = Some all;
  oa_objects : Forall (λ x, x ≠ 0) all
}.

Lemma object_ref_nonzero s : object_array s → r ≠ 0 ∧ r < jw_next s.
Proof. intros Ha. destruct (ok_locals s (oa_ok _ Ha) r); [rewrite (oa_ref _ Ha); by eexists | lia]. Qed.

Lemma element_run s i x :
  object_array s → all !! i = Some x →
  JNI_SafeInvoke ScopedLocalRef.new GetObjectArrayElement [JRef r; JNum (Z.of_nat i)] s =
  (Ret (ScopedLocalRef.mk (jw_next s)), fetch_objects r (Z.of_nat i) [x] s).
Proof.
  intros Ha Hx. destruct (object_ref_nonzero s Ha) as [Hr _]. destruct Ha as [_ Hq Href Hc Ho].
  assert (callable s GetObjectArrayElement [JRef r; JNum (Z.of_nat i)]) as Hcall.
  { constructor; [done | |].
    - cbn [forallb live_arg]. by rewrite (live_local s r o Href), orb_true_r.
    - cbn [null_arg List.find existsb]. by rewrite (proj2 (Z.eqb_neq _ _) Hr). }
  assert (x ≠ 0) as Hx0 by (by eapply Forall_lookup_1 in Ho).
  unfold JNI_SafeInvoke. erewrite bind_run.
  2:{ rewrite (jcall_run _ _ _ Hcall). unfold answer. step. set (s1 := logged _ _ s).
      change (contents s1 r) with (contents s r).
      replace (contents s r) with all by (unfold contents, object_of; by rewrite Href, Hc).
      rewrite (proj2 (Z.ltb_ge _ _) (Nat2Z.is_nonneg i)), Nat2Z.id, Hx. by apply new_local_run. }
  cbv beta. step_with (ScopedLocalRef_new (jw_next (logged GetObjectArrayElement [JRef r; JNum (Z.of_nat i)] s))
    (fetch_objects r (Z.of_nat i) [x] s)).
  by step_with (finally_idle (fetch_objects r (Z.of_nat i) [x] s) Hq).
Qed.

Lemma object_array_fetch s i x : object_array s → object_array (fetch_objects r i [x] s).
Proof.
  intros Ha. pose proof (object_ref_nonzero s Ha) as [_ Hr]. destruct (fetch_objects_spec r i [x] s) as [H1 H2 H3 _ _ _ _ H8 _ _].
  destruct Ha as [K1 K2 K3 K4 K5]. constructor; [by apply H1 | congruence | by rewrite H8 | congruence | done].
Qed.

Lemma collect_run s k l :
  object_array s → drop k all = l →
  ScopedArray.collect (length l) (Z.of_nat k)
    (λ i, JNI_SafeInvoke ScopedLocalRef.new GetObjectArrayElement [JRef r; JNum i]) s =
  (Ret (refs_from (jw_next s) (length l)), fetch_objects r (Z.of_nat k) l s).
Proof.
  revert s k. induction l as [|x l IH]; intros s k Ha Hd; [done|]. cbn [length ScopedArray.collect].
  assert (all !! k = Some x) as Hx by (rewrite <- (Nat.add_0_r k), <- lookup_drop; by rewrite Hd).
  step_with (element_run s k x Ha Hx). replace (Z.of_nat k + 1) with (Z.of_nat (S k)) by lia.
  erewrite bind_run.
  2:{ apply IH; [by apply object_array_fetch|]. replace (S k) with (k + 1)%nat by lia. rewrite <- drop_drop, Hd. done. }
  cbv beta. unfold mret, prog_ret. f_equal.
  - f_equal. unfold refs_from. cbn [seq fmap list_fmap]. rewrite Z.add_0_r. f_equal.
    rewrite <- (fmap_S_seq 0), <- list_fmap_compose. apply list_fmap_ext. intros ? j _. cbn. f_equal. lia.
  - cbn [fetch_objects]. by replace (Z.of_nat k + 1) with (Z.of_nat (S k)) by lia.
Qed.

(** The array with all its objects. *)
Definition object_array_of (s : jworld) : ScopedArray.t :=
  ScopedArray.mk r (Some (Z.of_nat (length all))) (EObjs (refs_from (jw_next s) (length all))) false.

Lemma objects_new_run s :
  object_array s →
  ScopedArray.new TObject r s = (Ret (object_array_of s), fetch_objects r 0 all (logged GetArrayLength [JRef r] s)).
Proof.
  intros Ha. destruct (object_ref_nonzero s Ha) as [Hr _]. pose proof Ha as [Hok Hq Href Hc Ho].
  unfold ScopedArray.new, ScopedArray.reset. cbn [ScopedArray.local_ref_ ScopedArray.elements_].
  rewrite (proj2 (Z.eqb_neq _ _) Hr). step.
  assert (callable s GetArrayLength [JRef r]) as Hcall.
  { constructor; [done | |].
    - cbn [forallb live_arg]. by rewrite (live_local s r o Href), orb_true_r.
    - cbn [null_arg List.find existsb]. by rewrite (proj2 (Z.eqb_neq _ _) Hr). }
  set (s1 := logged GetArrayLength [JRef r] s).
  assert (object_array s1) as Ha1 by (constructor; [by apply (jw_ok_mono s) | done..]).
  erewrite bind_run.
  2:{ rewrite (jcall_run _ _ _ Hcall). unfold answer. step. reflexivity. }
  cbv beta. replace (contents (logged GetArrayLength [JRef r] s) r) with all.
  2:{ change (all = contents s r). unfold contents, object_of. by rewrite Href, Hc. }
  unfold ScopedArray.fill. change (ScopedArray.is_object TObject) with true. cbv iota. rewrite Nat2Z.id.
  rewrite prog_bind_assoc. step_with (collect_run s1 0 all Ha1 eq_refl). done.
Qed.

(** The destructor deletes the reference of the array and none of its elements. *)
Lemma objects_destroy_run n s :
  r ≠ 0 → jw_locals s !! r = Some o →
  ScopedArray.destroy TObject (ScopedArray.mk r (Some (Z.of_nat (length all))) (EObjs (refs_from n (length all))) false) s =
  (Ret tt, set_jw_locals (delete r (jw_locals s)) s).
Proof.
  intros Hr Href. unfold ScopedArray.destroy. erewrite bind_run by reflexivity. cbv beta iota.
  by apply (DeleteLocalRef_run r o).
Qed.
End objects.
