(* ===== verification/JniHelper.v ===== *)
(** * JniHelper: the wrappers of [injector/jni_helper.hpp]

    One wrapper for each function of the environment: its parameters with their types, and what it
    passes on to [JNI_SafeInvoke], in the order of the source.  C++ checks little here, since the
    functions are reached through pointers to variadic members; the claim does: every wrapper
    passes all its arguments, in order, and they have the types the JNI specification gives the
    function. *)

From Stdlib Require Import ZArith Lia Ascii.
From stdpp Require Import base tactics strings list gmap gmultiset numbers.
From S2P Require Import Prelude JniEnv JniRefs JniArrays.

(** ** Types of parameters *)

Inductive akind : Set := KObject | KClass | KArray | KText | KField | KMethod | KNum (t : jtype) | KPtr | KNatives.

#[export] Instance akind_eq_dec : EqDecision akind.
Proof. solve_decision. Defined.

Inductive pname : Set :=
| P_address | P_array | P_capacity | P_clazz | P_fieldId | P_init | P_isStatic 
| P_len | P_method | P_methods | P_name | P_obj | P_sig | P_size | P_value.

#[export] Instance pname_eq_dec : EqDecision pname.
Proof. solve_decision. Defined.

(** The function, the parameters, what is passed, and whether further arguments are passed on. *)
Record wrapper : Type := mkWrapper {
  w_fn : jnifn;
  w_params : list (pname * akind);
  w_pass : list pname;
  w_rest : bool
}.

(** ** The wrappers *)

Definition JNI_FindClass : wrapper :=
  mkWrapper FindClass [(P_name, KText)] [P_name] false.
Definition JNI_GetObjectClass : wrapper :=
  mkWrapper GetObjectClass [(P_obj, KObject)] [P_obj] false.
Definition JNI_GetFieldID : wrapper :=
  mkWrapper GetFieldID [(P_clazz, KClass); (P_name, KText); (P_sig, KText)]
    [P_clazz; P_name; P_sig] false.
Definition JNI_GetObjectField : wrapper :=
  mkWrapper (GetField TObject) [(P_obj, KObject); (P_fieldId, KField)] [P_obj; P_fieldId] false.
Definition JNI_GetBooleanField : wrapper :=
  mkWrapper (GetField TBoolean) [(P_obj, KObject); (P_fieldId, KField)] [P_obj; P_fieldId] false.
Definition JNI_GetByteField : wrapper :=
  mkWrapper (GetField TByte) [(P_obj, KObject); (P_fieldId, KField)] [P_obj; P_fieldId] false.
Definition JNI_GetCharField : wrapper :=
  mkWrapper (GetField TChar) [(P_obj, KObject); (P_fieldId, KField)] [P_obj; P_fieldId] false.
Definition JNI_GetShortField : wrapper :=
  mkWrapper (GetField TShort) [(P_obj, KObject); (P_fieldId, KField)] [P_obj; P_fieldId] false.
Definition JNI_GetIntField : wrapper :=
  mkWrapper (GetField TInt) [(P_obj, KObject); (P_fieldId, KField)] [P_obj; P_fieldId] false.
Definition JNI_GetLongField : wrapper :=
  mkWrapper (GetField TLong) [(P_obj, KObject); (P_fieldId, KField)] [P_obj; P_fieldId] false.
Definition JNI_GetFloatField : wrapper :=
  mkWrapper (GetField TFloat) [(P_obj, KObject); (P_fieldId, KField)] [P_obj; P_fieldId] false.
Definition JNI_GetDoubleField : wrapper :=
  mkWrapper (GetField TDouble) [(P_obj, KObject); (P_fieldId, KField)] [P_obj; P_fieldId] false.
Definition JNI_SetObjectField : wrapper :=
  mkWrapper (SetField TObject) [(P_obj, KObject); (P_fieldId, KField); (P_value, KObject)]
    [P_obj; P_fieldId; P_value] false.
Definition JNI_SetBooleanField : wrapper :=
  mkWrapper (SetField TBoolean) [(P_obj, KObject); (P_fieldId, KField); (P_value, KNum TBoolean)]
    [P_obj; P_fieldId; P_value] false.
Definition JNI_SetByteField : wrapper :=
  mkWrapper (SetField TByte) [(P_obj, KObject); (P_fieldId, KField); (P_value, KNum TByte)]
    [P_obj; P_fieldId; P_value] false.
Definition JNI_SetCharField : wrapper :=
  mkWrapper (SetField TChar) [(P_obj, KObject); (P_fieldId, KField); (P_value, KNum TChar)]
    [P_obj; P_fieldId; P_value] false.
Definition JNI_SetShortField : wrapper :=
  mkWrapper (SetField TShort) [(P_obj, KObject); (P_fieldId, KField); (P_value, KNum TShort)]
    [P_obj; P_fieldId; P_value] false.
Definition JNI_SetIntField : wrapper :=
  mkWrapper (SetField TInt) [(P_obj, KObject); (P_fieldId, KField); (P_value, KNum TInt)]
    [P_obj; P_fieldId; P_value] false.
Definition JNI_SetLongField : wrapper :=
  mkWrapper (SetField TLong) [(P_obj, KObject); (P_fieldId, KField); (P_value, KNum TLong)]
    [P_obj; P_fieldId; P_value] false.
Definition JNI_SetFloatField : wrapper :=
  mkWrapper (SetField TFloat) [(P_obj, KObject); (P_fieldId, KField); (P_value, KNum TFloat)]
    [P_obj; P_fieldId; P_value] false.
Definition JNI_SetDoubleField : wrapper :=
  mkWrapper (SetField TDouble) [(P_obj, KObject); (P_fieldId, KField); (P_value, KNum TDouble)]
    [P_obj; P_fieldId; P_value] false.
Definition JNI_GetStaticFieldID : wrapper :=
  mkWrapper GetStaticFieldID [(P_clazz, KClass); (P_name, KText); (P_sig, KText)]
    [P_clazz; P_name; P_sig] false.
Definition JNI_GetStaticObjectField : wrapper :=
  mkWrapper (GetStaticField TObject) [(P_clazz, KClass); (P_fieldId, KField)]
    [P_clazz; P_fieldId] false.
Definition JNI_GetStaticBooleanField : wrapper :=
  mkWrapper (GetStaticField TBoolean) [(P_clazz, KClass); (P_fieldId, KField)]
    [P_clazz; P_fieldId] false.
Definition JNI_GetStaticByteField : wrapper :=
  mkWrapper (GetStaticField TByte) [(P_clazz, KClass); (P_fieldId, KField)]
    [P_clazz; P_fieldId] false.
Definition JNI_GetStaticCharField : wrapper :=
  mkWrapper (GetStaticField TChar) [(P_clazz, KClass); (P_fieldId, KField)]
    [P_clazz; P_fieldId] false.
Definition JNI_GetStaticShortField : wrapper :=
  mkWrapper (GetStaticField TShort) [(P_clazz, KClass); (P_fieldId, KField)]
    [P_clazz; P_fieldId] false.
Definition JNI_GetStaticIntField : wrapper :=
  mkWrapper (GetStaticField TInt) [(P_clazz, KClass); (P_fieldId, KField)]
    [P_clazz; P_fieldId] false.
Definition JNI_GetStaticLongField : wrapper :=
  mkWrapper (GetStaticField TLong) [(P_clazz, KClass); (P_fieldId, KField)]
    [P_clazz; P_fieldId] false.
Definition JNI_GetStaticFloatField : wrapper :=
  mkWrapper (GetStaticField TFloat) [(P_clazz, KClass); (P_fieldId, KField)]
    [P_clazz; P_fieldId] false.
Definition JNI_GetStaticDoubleField : wrapper :=
  mkWrapper (GetStaticField TDouble) [(P_clazz, KClass); (P_fieldId, KField)]
    [P_clazz; P_fieldId] false.
Definition JNI_SetStaticObjectField : wrapper :=
  mkWrapper (SetStaticField TObject) [(P_clazz, KClass); (P_fieldId, KField); (P_value, KObject)]
    [P_clazz; P_fieldId; P_value] false.
Definition JNI_SetStaticBooleanField : wrapper :=
  mkWrapper (SetStaticField TBoolean) [(P_clazz, KClass); (P_fieldId, KField); (P_value, KNum TBoolean)]
    [P_clazz; P_fieldId; P_value] false.
Definition JNI_SetStaticByteField : wrapper :=
  mkWrapper (SetStaticField TByte) [(P_clazz, KClass); (P_fieldId, KField); (P_value, KNum TByte)]
    [P_clazz; P_fieldId; P_value] false.
Definition JNI_SetStaticCharField : wrapper :=
  mkWrapper (SetStaticField TChar) [(P_clazz, KClass); (P_fieldId, KField); (P_value, KNum TChar)]
    [P_clazz; P_fieldId; P_value] false.
Definition JNI_SetStaticShortField : wrapper :=
  mkWrapper (SetStaticField TShort) [(P_clazz, KClass); (P_fieldId, KField); (P_value, KNum TShort)]
    [P_clazz; P_fieldId; P_value] false.
Definition JNI_SetStaticIntField : wrapper :=
  mkWrapper (SetStaticField TInt) [(P_clazz, KClass); (P_fieldId, KField); (P_value, KNum TInt)]
    [P_clazz; P_fieldId; P_value] false.
Definition JNI_SetStaticLongField : wrapper :=
  mkWrapper (SetStaticField TLong) [(P_clazz, KClass); (P_fieldId, KField); (P_value, KNum TLong)]
    [P_clazz; P_fieldId; P_value] false.
Definition JNI_SetStaticFloatField : wrapper :=
  mkWrapper (SetStaticField TFloat) [(P_clazz, KClass); (P_fieldId, KField); (P_value, KNum TFloat)]
    [P_clazz; P_fieldId; P_value] false.
Definition JNI_SetStaticDoubleField : wrapper :=
  mkWrapper (SetStaticField TDouble) [(P_clazz, KClass); (P_fieldId, KField); (P_value, KNum TDouble)]
    [P_clazz; P_fieldId; P_value] false.
Definition JNI_ToReflectedMethod : wrapper :=
  mkWrapper ToReflectedMethod [(P_clazz, KClass); (P_method, KMethod); (P_isStatic, KNum TBoolean)]
    [P_clazz; P_method; P_isStatic] false.
Definition JNI_GetMethodID : wrapper :=
  mkWrapper GetMethodID [(P_clazz, KClass); (P_name, KText); (P_sig, KText)]
    [P_clazz; P_name; P_sig] false.
Definition JNI_CallVoidMethod : wrapper :=
  mkWrapper (CallMethod TVoid) [(P_obj, KObject); (P_method, KMethod)] [P_obj; P_method] true.
Definition JNI_CallObjectMethod : wrapper :=
  mkWrapper (CallMethod TObject) [(P_obj, KObject); (P_method, KMethod)] [P_obj; P_method] true.
Definition JNI_CallBooleanMethod : wrapper :=
  mkWrapper (CallMethod TBoolean) [(P_obj, KObject); (P_method, KMethod)] [P_obj; P_method] true.
Definition JNI_CallByteMethod : wrapper :=
  mkWrapper (CallMethod TByte) [(P_obj, KObject); (P_method, KMethod)] [P_obj; P_method] true.
Definition JNI_CallCharMethod : wrapper :=
  mkWrapper (CallMethod TChar) [(P_obj, KObject); (P_method, KMethod)] [P_obj; P_method] true.
Definition JNI_CallShortMethod : wrapper :=
  mkWrapper (CallMethod TShort) [(P_obj, KObject); (P_method, KMethod)] [P_obj; P_method] true.
Definition JNI_CallIntMethod : wrapper :=
  mkWrapper (CallMethod TInt) [(P_obj, KObject); (P_method, KMethod)] [P_obj; P_method] true.
Definition JNI_CallLongMethod : wrapper :=
  mkWrapper (CallMethod TLong) [(P_obj, KObject); (P_method, KMethod)] [P_obj; P_method] true.
Definition JNI_CallFloatMethod : wrapper :=
  mkWrapper (CallMethod TFloat) [(P_obj, KObject); (P_method, KMethod)] [P_obj; P_method] true.
Definition JNI_CallDoubleMethod : wrapper :=
  mkWrapper (CallMethod TDouble) [(P_obj, KObject); (P_method, KMethod)] [P_obj; P_method] true.
Definition JNI_GetStaticMethodID : wrapper :=
  mkWrapper GetStaticMethodID [(P_clazz, KClass); (P_name, KText); (P_sig, KText)]
    [P_clazz; P_name; P_sig] false.
Definition JNI_CallStaticVoidMethod : wrapper :=
  mkWrapper (CallStaticMethod TVoid) [(P_clazz, KClass); (P_method, KMethod)]
    [P_clazz; P_method] true.
Definition JNI_CallStaticObjectMethod : wrapper :=
  mkWrapper (CallStaticMethod TObject) [(P_clazz, KClass); (P_method, KMethod)]
    [P_clazz; P_method] true.
Definition JNI_CallStaticBooleanMethod : wrapper :=
  mkWrapper (CallStaticMethod TBoolean) [(P_clazz, KClass); (P_method, KMethod)]
    [P_clazz; P_method] true.
Definition JNI_CallStaticByteMethod : wrapper :=
  mkWrapper (CallStaticMethod TByte) [(P_clazz, KClass); (P_method, KMethod)]
    [P_clazz; P_method] true.
Definition JNI_CallStaticCharMethod : wrapper :=
  mkWrapper (CallStaticMethod TChar) [(P_clazz, KClass); (P_method, KMethod)]
    [P_clazz; P_method] true.
Definition JNI_CallStaticShortMethod : wrapper :=
  mkWrapper (CallStaticMethod TShort) [(P_clazz, KClass); (P_method, KMethod)]
    [P_clazz; P_method] true.
Definition JNI_CallStaticIntMethod : wrapper :=
  mkWrapper (CallStaticMethod TInt) [(P_clazz, KClass); (P_method, KMethod)]
    [P_clazz; P_method] true.
Definition JNI_CallStaticLongMethod : wrapper :=
  mkWrapper (CallStaticMethod TLong) [(P_clazz, KClass); (P_method, KMethod)]
    [P_clazz; P_method] true.
Definition JNI_CallStaticFloatMethod : wrapper :=
  mkWrapper (CallStaticMethod TFloat) [(P_clazz, KClass); (P_method, KMethod)]
    [P_clazz; P_method] true.
Definition JNI_CallStaticDoubleMethod : wrapper :=
  mkWrapper (CallStaticMethod TDouble) [(P_clazz, KClass); (P_method, KMethod)]
    [P_clazz; P_method] true.
Definition JNI_CallCallNonvirtualVoidMethod : wrapper :=
  mkWrapper (CallNonvirtualMethod TVoid) [(P_obj, KObject); (P_clazz, KClass); (P_method, KMethod)]
    [P_obj; P_clazz; P_method] true.
Definition JNI_CallCallNonvirtualObjectMethod : wrapper :=
  mkWrapper (CallNonvirtualMethod TObject) [(P_obj, KObject); (P_clazz, KClass); (P_method, KMethod)]
    [P_obj; P_clazz; P_method] true.
Definition JNI_CallCallNonvirtualBooleanMethod : wrapper :=
  mkWrapper (CallNonvirtualMethod TBoolean) [(P_obj, KObject); (P_clazz, KClass); (P_method, KMethod)]
    [P_obj; P_clazz; P_method] true.
Definition JNI_CallCallNonvirtualByteMethod : wrapper :=
  mkWrapper (CallNonvirtualMethod TByte) [(P_obj, KObject); (P_clazz, KClass); (P_method, KMethod)]
    [P_obj; P_clazz; P_method] true.
Definition JNI_CallCallNonvirtualCharMethod : wrapper :=
  mkWrapper (CallNonvirtualMethod TChar) [(P_obj, KObject); (P_clazz, KClass); (P_method, KMethod)]
    [P_obj; P_clazz; P_method] true.
Definition JNI_CallCallNonvirtualShortMethod : wrapper :=
  mkWrapper (CallNonvirtualMethod TShort) [(P_obj, KObject); (P_clazz, KClass); (P_method, KMethod)]
    [P_obj; P_clazz; P_method] true.
Definition JNI_CallCallNonvirtualIntMethod : wrapper :=
  mkWrapper (CallNonvirtualMethod TInt) [(P_obj, KObject); (P_clazz, KClass); (P_method, KMethod)]
    [P_obj; P_clazz; P_method] true.
Definition JNI_CallCallNonvirtualLongMethod : wrapper :=
  mkWrapper (CallNonvirtualMethod TLong) [(P_obj, KObject); (P_clazz, KClass); (P_method, KMethod)]
    [P_obj; P_clazz; P_method] true.
Definition JNI_CallCallNonvirtualFloatMethod : wrapper :=
  mkWrapper (CallNonvirtualMethod TFloat) [(P_obj, KObject); (P_clazz, KClass); (P_method, KMethod)]
    [P_obj; P_clazz; P_method] true.
Definition JNI_CallCallNonvirtualDoubleMethod : wrapper :=
  mkWrapper (CallNonvirtualMethod TDouble) [(P_obj, KObject); (P_clazz, KClass); (P_method, KMethod)]
    [P_obj; P_clazz; P_method] true.
Definition JNI_NewObject : wrapper :=
  mkWrapper NewObject [(P_clazz, KClass); (P_method, KMethod)] [P_clazz; P_method] true.
Definition JNI_NewDirectByteBuffer : wrapper :=
  mkWrapper NewDirectByteBuffer [] [] true.
Definition JNI_RegisterNatives : wrapper :=
  mkWrapper RegisterNatives [(P_clazz, KClass); (P_methods, KNatives); (P_size, KNum TInt)]
    [P_clazz; P_methods; P_size] false.
Definition JNI_IsInstanceOf : wrapper :=
  mkWrapper IsInstanceOf [(P_obj, KObject); (P_clazz, KClass)] [P_obj; P_clazz] false.
Definition JNI_NewDirectByteBuffer_at : wrapper :=
  mkWrapper NewDirectByteBuffer [(P_address, KPtr); (P_capacity, KNum TLong)]
    [P_address; P_capacity] false.
Definition JNI_GetArrayLength : wrapper :=
  mkWrapper GetArrayLength [(P_array, KArray)] [P_array] false.
Definition JNI_NewObjectArray : wrapper :=
  mkWrapper NewObjectArray [(P_len, KNum TInt); (P_clazz, KClass); (P_init, KObject)]
    [P_len; P_clazz; P_init] false.
Definition JNI_NewBooleanArray : wrapper :=
  mkWrapper (NewArray TBoolean) [(P_len, KNum TInt)] [P_len] false.
Definition JNI_NewByteArray : wrapper :=
  mkWrapper (NewArray TByte) [(P_len, KNum TInt)] [P_len] false.
Definition JNI_NewCharArray : wrapper :=
  mkWrapper (NewArray TChar) [(P_len, KNum TInt)] [P_len] false.
Definition JNI_NewShortArray : wrapper :=
  mkWrapper (NewArray TShort) [(P_len, KNum TInt)] [P_len] false.
Definition JNI_NewIntArray : wrapper :=
  mkWrapper (NewArray TInt) [(P_len, KNum TInt)] [P_len] false.
Definition JNI_NewLongArray : wrapper :=
  mkWrapper (NewArray TLong) [(P_len, KNum TInt)] [P_len] false.
Definition JNI_NewFloatArray : wrapper :=
  mkWrapper (NewArray TFloat) [(P_len, KNum TInt)] [P_len] false.
Definition JNI_NewDoubleArray : wrapper :=
  mkWrapper (NewArray TDouble) [(P_len, KNum TInt)] [P_len] false.

(** Under the names the source gives them; two of them are overloads of one name. *)
Definition named_wrappers : list (bytes * wrapper) :=
  [(txt "JNI_FindClass", JNI_FindClass); (txt "JNI_GetObjectClass", JNI_GetObjectClass);
   (txt "JNI_GetFieldID", JNI_GetFieldID); (txt "JNI_GetObjectField", JNI_GetObjectField);
   (txt "JNI_GetBooleanField", JNI_GetBooleanField); (txt "JNI_GetByteField", JNI_GetByteField);
   (txt "JNI_GetCharField", JNI_GetCharField); (txt "JNI_GetShortField", JNI_GetShortField);
   (txt "JNI_GetIntField", JNI_GetIntField); (txt "JNI_GetLongField", JNI_GetLongField);
   (txt "JNI_GetFloatField", JNI_GetFloatField); (txt "JNI_GetDoubleField", JNI_GetDoubleField);
   (txt "JNI_SetObjectField", JNI_SetObjectField); (txt "JNI_SetBooleanField", JNI_SetBooleanField);
   (txt "JNI_SetByteField", JNI_SetByteField); (txt "JNI_SetCharField", JNI_SetCharField);
   (txt "JNI_SetShortField", JNI_SetShortField); (txt "JNI_SetIntField", JNI_SetIntField);
   (txt "JNI_SetLongField", JNI_SetLongField); (txt "JNI_SetFloatField", JNI_SetFloatField);
   (txt "JNI_SetDoubleField", JNI_SetDoubleField); (txt "JNI_GetStaticFieldID", JNI_GetStaticFieldID);
   (txt "JNI_GetStaticObjectField", JNI_GetStaticObjectField);
   (txt "JNI_GetStaticBooleanField", JNI_GetStaticBooleanField);
   (txt "JNI_GetStaticByteField", JNI_GetStaticByteField);
   (txt "JNI_GetStaticCharField", JNI_GetStaticCharField);
   (txt "JNI_GetStaticShortField", JNI_GetStaticShortField);
   (txt "JNI_GetStaticIntField", JNI_GetStaticIntField);
   (txt "JNI_GetStaticLongField", JNI_GetStaticLongField);
   (txt "JNI_GetStaticFloatField", JNI_GetStaticFloatField);
   (txt "JNI_GetStaticDoubleField", JNI_GetStaticDoubleField);
   (txt "JNI_SetStaticObjectField", JNI_SetStaticObjectField);
   (txt "JNI_SetStaticBooleanField", JNI_SetStaticBooleanField);
   (txt "JNI_SetStaticByteField", JNI_SetStaticByteField);
   (txt "JNI_SetStaticCharField", JNI_SetStaticCharField);
   (txt "JNI_SetStaticShortField", JNI_SetStaticShortField);
   (txt "JNI_SetStaticIntField", JNI_SetStaticIntField);
   (txt "JNI_SetStaticLongField", JNI_SetStaticLongField);
   (txt "JNI_SetStaticFloatField", JNI_SetStaticFloatField);
   (txt "JNI_SetStaticDoubleField", JNI_SetStaticDoubleField);
   (txt "JNI_ToReflectedMethod", JNI_ToReflectedMethod); (txt "JNI_GetMethodID", JNI_GetMethodID);
   (txt "JNI_CallVoidMethod", JNI_CallVoidMethod); (txt "JNI_CallObjectMethod", JNI_CallObjectMethod);
   (txt "JNI_CallBooleanMethod", JNI_CallBooleanMethod); (txt "JNI_CallByteMethod", JNI_CallByteMethod);
   (txt "JNI_CallCharMethod", JNI_CallCharMethod); (txt "JNI_CallShortMethod", JNI_CallShortMethod);
   (txt "JNI_CallIntMethod", JNI_CallIntMethod); (txt "JNI_CallLongMethod", JNI_CallLongMethod);
   (txt "JNI_CallFloatMethod", JNI_CallFloatMethod); (txt "JNI_CallDoubleMethod", JNI_CallDoubleMethod);
   (txt "JNI_GetStaticMethodID", JNI_GetStaticMethodID);
   (txt "JNI_CallStaticVoidMethod", JNI_CallStaticVoidMethod);
   (txt "JNI_CallStaticObjectMethod", JNI_CallStaticObjectMethod);
   (txt "JNI_CallStaticBooleanMethod", JNI_CallStaticBooleanMethod);
   (txt "JNI_CallStaticByteMethod", JNI_CallStaticByteMethod);
   (txt "JNI_CallStaticCharMethod", JNI_CallStaticCharMethod);
   (txt "JNI_CallStaticShortMethod", JNI_CallStaticShortMethod);
   (txt "JNI_CallStaticIntMethod", JNI_CallStaticIntMethod);
   (txt "JNI_CallStaticLongMethod", JNI_CallStaticLongMethod);
   (txt "JNI_CallStaticFloatMethod", JNI_CallStaticFloatMethod);
   (txt "JNI_CallStaticDoubleMethod", JNI_CallStaticDoubleMethod);
   (txt "JNI_CallCallNonvirtualVoidMethod", JNI_CallCallNonvirtualVoidMethod);
   (txt "JNI_CallCallNonvirtualObjectMethod", JNI_CallCallNonvirtualObjectMethod);
   (txt "JNI_CallCallNonvirtualBooleanMethod", JNI_CallCallNonvirtualBooleanMethod);
   (txt "JNI_CallCallNonvirtualByteMethod", JNI_CallCallNonvirtualByteMethod);
   (txt "JNI_CallCallNonvirtualCharMethod", JNI_CallCallNonvirtualCharMethod);
   (txt "JNI_CallCallNonvirtualShortMethod", JNI_CallCallNonvirtualShortMethod);
   (txt "JNI_CallCallNonvirtualIntMethod", JNI_CallCallNonvirtualIntMethod);
   (txt "JNI_CallCallNonvirtualLongMethod", JNI_CallCallNonvirtualLongMethod);
   (txt "JNI_CallCallNonvirtualFloatMethod", JNI_CallCallNonvirtualFloatMethod);
   (txt "JNI_CallCallNonvirtualDoubleMethod", JNI_CallCallNonvirtualDoubleMethod);
   (txt "JNI_NewObject", JNI_NewObject); (txt "JNI_NewDirectByteBuffer", JNI_NewDirectByteBuffer);
   (txt "JNI_RegisterNatives", JNI_RegisterNatives); (txt "JNI_IsInstanceOf", JNI_IsInstanceOf);
   (txt "JNI_NewDirectByteBuffer", JNI_NewDirectByteBuffer_at); (txt "JNI_GetArrayLength", JNI_GetArrayLength);
   (txt "JNI_NewObjectArray", JNI_NewObjectArray); (txt "JNI_NewBooleanArray", JNI_NewBooleanArray);
   (txt "JNI_NewByteArray", JNI_NewByteArray); (txt "JNI_NewCharArray", JNI_NewCharArray);
   (txt "JNI_NewShortArray", JNI_NewShortArray); (txt "JNI_NewIntArray", JNI_NewIntArray);
   (txt "JNI_NewLongArray", JNI_NewLongArray); (txt "JNI_NewFloatArray", JNI_NewFloatArray);
   (txt "JNI_NewDoubleArray", JNI_NewDoubleArray)].

Definition wrappers : list wrapper := named_wrappers.*2.

(** ** Calling one *)

(** [WrapScope] by the type of the result. *)
Inductive jresult : Type := VVoid | VNum (z : Z) | VRef (x : ScopedLocalRef.t) | VArr (a : ScopedArray.t).

Definition WrapScope (t : jret) (r : Z) : prog jworld jresult :=
  match t with
  | RVoid => mret VVoid
  | RPrim _ | RId => mret (VNum r)
  | RRef => x ← ScopedLocalRef.new r; mret (VRef x)
  | RArray ty => a ← ScopedArray.new ty r; mret (VArr a)
  end.

(** The arguments by the names of the parameters; further ones follow. *)
Definition pass (w : wrapper) (vals : list jval) : list jval :=
  omap (λ p, snd <$> List.find (λ b, bool_decide (b.1 = p)) (zip (w_params w).*1 vals)) (w_pass w) ++
  (if w_rest w then drop (length (w_params w)) vals else []).

Definition invoke (w : wrapper) (vals : list jval) : prog jworld jresult :=
  JNI_SafeInvoke (WrapScope (jni_ret (w_fn w))) (w_fn w) (pass w vals).

(** What the callers in this repository use of a result. *)
Definition as_ref (r : jresult) : ScopedLocalRef.t := match r with VRef x => x | _ => ScopedLocalRef.mk 0 end.
Definition as_num (r : jresult) : Z := match r with VNum z => z | _ => 0 end.

(** ** The others *)

(** No exception is cleared here. *)
Definition JNI_NewStringUTF (sv : bytes) : prog jworld ScopedLocalRef.t :=
  r ← jcall NewStringUTF [JText sv]; ScopedLocalRef.new r.

Definition JNI_NewGlobalRef (x : ScopedLocalRef.t) : prog jworld Z := NewGlobalRef (ScopedLocalRef.get x).

(** A cast moves the reference. *)
Definition JNI_Cast (x : ScopedLocalRef.t) : prog jworld (ScopedLocalRef.t * ScopedLocalRef.t) := ScopedLocalRef.move x.

(** The class is a temporary of the call. *)
Definition JNI_GetObjectFieldOf (o : ScopedLocalRef.t) (field_name field_class : bytes) : prog jworld ScopedLocalRef.t :=
  c ← invoke JNI_GetObjectClass [UnwrapScope o];
  f ← invoke JNI_GetFieldID [UnwrapScope (as_ref c); JText field_name; JText field_class];
  r ← invoke JNI_GetObjectField [UnwrapScope o; JId (as_num f)];
  ScopedLocalRef.destroy (as_ref c);;
  mret (as_ref r).

(** ** Types *)

(** The parameters of a function in the JNI specification, and whether it takes further ones. *)
Definition value_kind (t : jtype) : akind := match t with TObject => KObject | t => KNum t end.

Definition jni_params (f : jnifn) : list akind * bool :=
  match f with
  | FindClass | NewStringUTF => ([KText], false)
  | GetObjectClass | FromReflectedMethod => ([KObject], false)
  | GetFieldID | GetStaticFieldID | GetMethodID | GetStaticMethodID => ([KClass; KText; KText], false)
  | GetField _ => ([KObject; KField], false)
  | SetField t => ([KObject; KField; value_kind t], false)
  | GetStaticField _ => ([KClass; KField], false)
  | SetStaticField t => ([KClass; KField; value_kind t], false)
  | ToReflectedMethod => ([KClass; KMethod; KNum TBoolean], false)
  | CallMethod _ => ([KObject; KMethod], true)
  | CallStaticMethod _ => ([KClass; KMethod], true)
  | CallNonvirtualMethod _ => ([KObject; KClass; KMethod], true)
  | NewObject => ([KClass; KMethod], true)
  | NewDirectByteBuffer => ([KPtr; KNum TLong], false)
  | RegisterNatives => ([KClass; KNatives; KNum TInt], false)
  | IsInstanceOf => ([KObject; KClass], false)
  | GetArrayLength => ([KArray], false)
  | GetObjectArrayElement => ([KArray; KNum TInt], false)
  | SetObjectArrayElement => ([KArray; KNum TInt; KObject], false)
  | NewObjectArray => ([KNum TInt; KClass; KObject], false)
  | NewArray _ => ([KNum TInt], false)
  end.

(** ** Names *)

Definition type_name (t : jtype) : bytes :=
  match t with
  | TBoolean => txt "Boolean" | TByte => txt "Byte" | TChar => txt "Char" | TShort => txt "Short" | TInt => txt "Int"
  | TLong => txt "Long" | TFloat => txt "Float" | TDouble => txt "Double" | TObject => txt "Object" | TVoid => txt "Void"
  end.

(** The name of a function in the JNI specification. *)
Definition fn_name (f : jnifn) : bytes :=
  match f with
  | FindClass => txt "FindClass" | GetObjectClass => txt "GetObjectClass" | NewStringUTF => txt "NewStringUTF"
  | GetFieldID => txt "GetFieldID" | GetStaticFieldID => txt "GetStaticFieldID"
  | GetMethodID => txt "GetMethodID" | GetStaticMethodID => txt "GetStaticMethodID"
  | GetField t => txt "Get" ++ type_name t ++ txt "Field"
  | SetField t => txt "Set" ++ type_name t ++ txt "Field"
  | GetStaticField t => txt "GetStatic" ++ type_name t ++ txt "Field"
  | SetStaticField t => txt "SetStatic" ++ type_name t ++ txt "Field"
  | CallMethod t => txt "Call" ++ type_name t ++ txt "Method"
  | CallStaticMethod t => txt "CallStatic" ++ type_name t ++ txt "Method"
  | CallNonvirtualMethod t => txt "CallNonvirtual" ++ type_name t ++ txt "Method"
  | ToReflectedMethod => txt "ToReflectedMethod" | FromReflectedMethod => txt "FromReflectedMethod"
  | NewObject => txt "NewObject" | NewDirectByteBuffer => txt "NewDirectByteBuffer"
  | RegisterNatives => txt "RegisterNatives" | IsInstanceOf => txt "IsInstanceOf"
  | GetArrayLength => txt "GetArrayLength" | GetObjectArrayElement => txt "GetObjectArrayElement"
  | SetObjectArrayElement => txt "SetObjectArrayElement" | NewObjectArray => txt "NewObjectArray"
  | NewArray t => txt "New" ++ type_name t ++ txt "Array"
  end.

Definition prims : list jtype := [TBoolean; TByte; TChar; TShort; TInt; TLong; TFloat; TDouble].

(** The functions the specification has, of those of [jnifn]. *)
Definition jni_functions : list jnifn :=
  [FindClass; GetObjectClass; NewStringUTF; GetFieldID; GetStaticFieldID; GetMethodID; GetStaticMethodID; ToReflectedMethod;
   FromReflectedMethod; NewObject; NewDirectByteBuffer; RegisterNatives; IsInstanceOf; GetArrayLength; GetObjectArrayElement;
   SetObjectArrayElement; NewObjectArray] ++
  mjoin ((λ t, [GetField t; SetField t; GetStaticField t; SetStaticField t]) <$> (TObject :: prims)) ++
  mjoin ((λ t, [CallMethod t; CallStaticMethod t; CallNonvirtualMethod t]) <$> (TVoid :: TObject :: prims)) ++
  (NewArray <$> prims).

(** What a wrapper of [f] is called; those of the non-virtual calls have a second [Call] in their name. *)
Definition wrapper_name (f : jnifn) : bytes :=
  match f with
  | CallNonvirtualMethod _ => txt "JNI_Call" ++ fn_name f
  | _ => txt "JNI_" ++ fn_name f
  end.

(** The types a wrapper passes; one that passes arguments on unseen leaves the rest to its caller. *)
Definition passed_kinds (w : wrapper) : list akind :=
  omap (λ p, snd <$> List.find (λ b, bool_decide (b.1 = p)) (w_params w)) (w_pass w).

Definition well_typed (w : wrapper) : bool :=
  let '(ks, more) := jni_params (w_fn w) in
  if w_rest w && negb more then bool_decide (passed_kinds w `prefix_of` ks)
  else bool_decide (passed_kinds w = ks) && eqb (w_rest w) more.

Lemma find_skip {A} (p q : pname) (x : A) l :
  p ≠ q → List.find (λ b : pname * A, bool_decide (b.1 = q)) ((p, x) :: l) = List.find (λ b, bool_decide (b.1 = q)) l.
Proof. intros H. cbn [List.find fst]. by rewrite bool_decide_eq_false_2. Qed.

Lemma pass_names (names : list pname) (vals : list jval) :
  NoDup names → (length names <= length vals)%nat →
  omap (λ p, snd <$> List.find (λ b, bool_decide (b.1 = p)) (zip names vals)) names = take (length names) vals.
Proof.
  revert vals. induction names as [|p names IH]; intros vals Hd Hl; [done|].
  destruct vals as [|v vals]; [cbn in Hl; lia|]. apply list.NoDup_cons in Hd as [Hp Hd].
  cbn [zip zip_with length take]. cbn [omap list_omap List.find fst]. rewrite bool_decide_eq_true_2 by done.
  cbn [fmap option_fmap option_map snd]. f_equal. rewrite <- (IH vals Hd) by (cbn in Hl; lia).
  assert (∀ q, q ∈ names → snd <$> List.find (λ b, bool_decide (b.1 = q)) ((p, v) :: zip names vals) =
                           snd <$> List.find (λ b, bool_decide (b.1 = q)) (zip names vals)) as Hq.
  { intros q Hq. rewrite find_skip; [done|]. by intros ->. }
  revert Hq. generalize (zip names vals) as z. clear. intros z Hq.
  assert (∀ ns, ns ⊆ names → omap (λ q, snd <$> List.find (λ b, bool_decide (b.1 = q)) ((p, v) :: z)) ns =
                             omap (λ q, snd <$> List.find (λ b, bool_decide (b.1 = q)) z) ns) as H; [|by apply H].
  induction ns as [|q ns IH]; intros Hs; [done|]. cbn [omap list_omap]. rewrite Hq by (apply Hs, list_elem_of_here).
  rewrite IH; [done|]. intros x Hx. apply Hs. by apply list_elem_of_further.
Qed.

(** The types of what is passed are those of the parameters, when these are passed in order. *)
Lemma find_kinds (ps : list (pname * akind)) :
  NoDup ps.*1 → omap (λ p, snd <$> List.find (λ b, bool_decide (b.1 = p)) ps) ps.*1 = ps.*2.
Proof.
  induction ps as [|[p k] ps IH]; intros Hd; [done|]. rewrite !fmap_cons in *. apply list.NoDup_cons in Hd as [Hp Hd].
  cbn [omap list_omap fst snd]. cbn [List.find fst]. rewrite bool_decide_eq_true_2 by done. cbn. f_equal.
  rewrite <- (IH Hd). assert (∀ ns, ns ⊆ ps.*1 →
    omap (λ q, snd <$> List.find (λ b, bool_decide (b.1 = q)) ((p, k) :: ps)) ns =
    omap (λ q, snd <$> List.find (λ b, bool_decide (b.1 = q)) ps) ns) as H; [|by apply H].
  intros ns. induction ns as [|q ns IHn]; intros Hs; [done|]. cbn [omap list_omap]. rewrite find_skip.
  - rewrite IHn; [done|]. intros x Hx. apply Hs. by apply list_elem_of_further.
  - intros ->. apply Hp, Hs, list_elem_of_here.
Qed.

Lemma passed_kinds_params w : w_pass w = (w_params w).*1 → NoDup (w_pass w) → passed_kinds w = (w_params w).*2.
Proof. intros E Hd. unfold passed_kinds. rewrite E in Hd |- *. by apply find_kinds. Qed.

Lemma wrappers_in_order : Forall (λ w, w_pass w = (w_params w).*1 ∧ NoDup (w_pass w) ∧ well_typed w = true) wrappers.
Proof.
  assert (forallb (λ w, bool_decide (w_pass w = (w_params w).*1) && bool_decide (NoDup (w_pass w)) && well_typed w) wrappers = true)
    as H by (by vm_compute).
  apply list.Forall_forall. intros w Hw%list_elem_of_In. rewrite forallb_forall in H. specialize (H w Hw).
  apply andb_true_iff in H as [[H1 H2]%andb_true_iff H3]. split_and!; [| |done]; by eapply bool_decide_eq_true_1.
Qed.

(** A name stands for one function. *)
Lemma wrapper_name_inj f g : f ∈ jni_functions → g ∈ jni_functions → wrapper_name f = wrapper_name g → f = g.
Proof.
  assert (NoDup (wrapper_name <$> jni_functions)) as Hd by (apply (bool_decide_unpack _); by vm_compute).
  revert Hd. generalize jni_functions. intros l. induction l as [|h l IH]; intros Hd Hf Hg E; [by apply elem_of_nil in Hf|].
  rewrite fmap_cons in Hd. apply list.NoDup_cons in Hd as [Hh Hd].
  assert (∀ x y, x ∈ l → wrapper_name h = wrapper_name y → wrapper_name x = wrapper_name y → False) as Hx.
  { intros x y Hx E1 E2. apply Hh. rewrite E1, <- E2. apply list_elem_of_fmap. by exists x. }
  apply elem_of_cons in Hf as [->|Hf], Hg as [->|Hg]; [done | by destruct (Hx g g) | by destruct (Hx f f) | by apply IH].
Qed.

Lemma wrappers_named : Forall (λ p, p.1 = wrapper_name (w_fn p.2) ∧ w_fn p.2 ∈ jni_functions) named_wrappers.
Proof.
  assert (forallb (λ p, bool_decide (p.1 = wrapper_name (w_fn p.2)) && bool_decide (w_fn p.2 ∈ jni_functions)) named_wrappers = true)
    as H by (by vm_compute).
  apply list.Forall_forall. intros w Hw%list_elem_of_In. rewrite forallb_forall in H. specialize (H w Hw).
  apply andb_true_iff in H as [H1 H2]. split; by eapply bool_decide_eq_true_1.
Qed.

(** C38 Every wrapper is a guarded call of the function of the JNI specification that its name stands
    for (there is exactly one), with its arguments: all of them, in order, none dropped or swapped,
    further ones included where it takes any; and the types of its parameters are those the
    specification gives that function, in full, or the first of them where a wrapper of a function of
    fixed arity takes the others unseen.  The wrappers of the non-virtual calls have a second [Call] in
    their names. *)
Theorem wrappers_forward name w :
  (name, w) ∈ named_wrappers →
  ∃ f, f ∈ jni_functions ∧ name = wrapper_name f ∧ (∀ g, g ∈ jni_functions → name = wrapper_name g → g = f) ∧
    (∀ vals, (length (w_params w) <= length vals)%nat → (w_rest w = false → length vals = length (w_params w)) →
       invoke w vals = JNI_SafeInvoke (WrapScope (jni_ret f)) f vals) ∧
    let '(ks, more) := jni_params f in
    if w_rest w && negb more then (w_params w).*2 `prefix_of` ks else (w_params w).*2 = ks ∧ w_rest w = more.
Proof.
  intros Hw. destruct (proj1 (list.Forall_forall _ _) wrappers_named _ Hw) as [En Hin]. cbn [fst snd] in En, Hin.
  assert (w ∈ wrappers) as Hw' by (unfold wrappers; apply list_elem_of_fmap; by exists (name, w)).
  destruct (proj1 (list.Forall_forall _ _) wrappers_in_order w Hw') as (E & Hd & Ht).
  exists (w_fn w). split; [done|]. split; [done|]. split; [intros g Hg Eg; apply wrapper_name_inj; congruence|]. split.
  - intros vals Hl Hr. unfold invoke. f_equal. unfold pass. rewrite E in Hd |- *.
    rewrite pass_names by (done || by rewrite length_fmap). rewrite length_fmap.
    destruct (w_rest w); [by apply take_drop|]. rewrite app_nil_r, take_ge; [done|]. rewrite (Hr eq_refl). done.
  - unfold well_typed in Ht. rewrite (passed_kinds_params w) in Ht by done.
    destruct (jni_params (w_fn w)) as [ks more]. destruct (w_rest w && negb more).
    + by apply bool_decide_eq_true in Ht.
    + apply andb_true_iff in Ht as [H1 H2]. apply bool_decide_eq_true in H1. by apply eqb_prop in H2.
Qed.

Lemma wrappers_forward_witness :
  invoke JNI_SetLongField [JRef 3; JId 4; JNum 5] =
  JNI_SafeInvoke (WrapScope RVoid) (SetField TLong) [JRef 3; JId 4; JNum 5].
Proof.
  destruct (wrappers_forward (txt "JNI_SetLongField") JNI_SetLongField) as (f & _ & _ & Hu & Hi & _).
  - apply list_elem_of_In. vm_compute. tauto.
  - assert (SetField TLong = f) as <-; [|apply Hi; [cbn; lia | done]].
    apply Hu; [apply list_elem_of_In; vm_compute; tauto | reflexivity].
Defined.

(** ** Calls that do not throw *)

Definition after_num (f : jnifn) (args : list jval) (s : jworld) : jworld :=
  set_jw_answers (tail (jw_answers s)) (logged f args s).

Definition after_ref (f : jnifn) (args : list jval) (o : Z) (s : jworld) : jworld :=
  set_jw_locals (<[jw_next s := o]> (jw_locals s)) (set_jw_next (jw_next s + 1) (after_num f args s)).

Lemma after_num_ok f args s : jw_ok s → jw_ok (after_num f args s).
Proof. intros H. by apply (jw_ok_mono s). Qed.

Lemma after_ref_ok f args o s : jw_ok s → jw_ok (after_ref f args o s).
Proof. intros H. apply (jw_ok_new_local (after_num f args s)). by apply after_num_ok. Qed.

Section quiet.
Context (w : wrapper) (args : list jval) (s : jworld) (v o : Z) (rest : list janswer).
Hypothesis Hw : w ∈ wrappers.
Hypothesis Hlen : length args = length (w_params w).
Hypothesis Hc : callable s (w_fn w) args.
Hypothesis Hs : scripted (w_fn w) = true.
Hypothesis Ha : jw_answers s = mkAns v o None :: rest.

Lemma invoke_quiet : invoke w args s =
  (r ← (match jni_ret (w_fn w) with
        | RRef | RArray _ => new_local o | RVoid => mret 0 | RPrim _ | RId => mret v end);
   a ← WrapScope (jni_ret (w_fn w)) r; finally;; mret a) (after_num (w_fn w) args s).
Proof.
  assert (pass w args = args) as Hp.
  { destruct (proj1 (list.Forall_forall _ _) wrappers_in_order w Hw) as (E & Hd & _).
    unfold pass. rewrite E in Hd |- *. rewrite pass_names by (done || rewrite length_fmap; lia). rewrite length_fmap.
    rewrite <- Hlen, take_ge, drop_ge by lia. destruct (w_rest w); by rewrite app_nil_r. }
  unfold invoke. rewrite Hp. unfold JNI_SafeInvoke. unfold mbind, prog_bind. rewrite (jcall_run _ _ _ Hc).
  rewrite (answer_scripted _ _ _ Hs). unfold next_answer, mbind, prog_bind, get, put.
  cbn [jw_answers logged set_jw_calls set_jw_answers mret prog_ret]. rewrite Ha. cbn [head tail from_option id ja_throw ja_object ja_value].
  unfold after_num. cbn [jw_answers logged set_jw_calls]. rewrite Ha. by destruct (jni_ret (w_fn w)).
Qed.

Lemma invoke_ref_run :
  jni_ret (w_fn w) = RRef → o ≠ 0 →
  invoke w args s = (Ret (VRef (ScopedLocalRef.mk (jw_next s))), after_ref (w_fn w) args o s).
Proof.
  intros Hr Ho. rewrite invoke_quiet, Hr. step_with (new_local_run o (after_num (w_fn w) args s) Ho).
  fold (after_ref (w_fn w) args o s). cbn [WrapScope]. rewrite prog_bind_assoc.
  step_with (ScopedLocalRef_new (jw_next (after_num (w_fn w) args s)) (after_ref (w_fn w) args o s)).
  rewrite prog_bind_ret. by step_with (finally_idle (after_ref (w_fn w) args o s) (ca_quiet _ _ _ Hc)).
Qed.

Lemma invoke_num_run :
  (∃ t, jni_ret (w_fn w) = RPrim t) ∨ jni_ret (w_fn w) = RId →
  invoke w args s = (Ret (VNum v), after_num (w_fn w) args s).
Proof.
  intros Hr. rewrite invoke_quiet. destruct Hr as [[t Hr]|Hr]; rewrite Hr; step; cbn [WrapScope];
    rewrite prog_bind_ret; by step_with (finally_idle (after_num (w_fn w) args s) (ca_quiet _ _ _ Hc)).
Qed.
End quiet.

(** The first exception that is cleared leaves a reference to the class of the log behind. *)
Example first_exception_leaks :
  let s := mkJw ∅ [] ∅ 10 None None ∅ ∅ ∅ ∅
             [mkAns 0 0 (Some 60); mkAns 0 50 None; mkAns 7 0 None; mkAns 0 61 None; mkAns 0 0 None] [] [] in
  let r := invoke JNI_FindClass [JText (txt "no/Such")] s in
  (r.1, jw_exn r.2, jw_locals r.2) = (Ret (VRef (ScopedLocalRef.mk 0)), None, {[11 := 50]}).
Proof. by vm_compute. Qed.

(** When printing an exception throws, the new exception stays pending, and the next guarded call is
    made with it. *)
Example exception_while_printing :
  let s := mkJw ∅ [] {[1 := 50]} 10 None (Some (1, 7)) ∅ ∅ ∅ ∅ [mkAns 0 0 (Some 60); mkAns 0 0 (Some 62)] [] [] in
  (x ← invoke JNI_FindClass [JText (txt "no/Such")]; invoke JNI_FindClass [JText (txt "java/lang/Class")]) s =
  (Crash PendingException, (invoke JNI_FindClass [JText (txt "no/Such")] s).2).
Proof. by vm_compute. Qed.

(** A string buffer that is overwritten by an assignment is never released. *)
Example string_assignment_leaks :
  let s := mkJw {[3 := 80; 4 := 81]} [] ∅ 10 None None ∅ ∅ ∅ ∅ [] [] [] in
  jw_chars ((a ← JUTFString.new true 3; b ← JUTFString.new true 4;
             let '(a, b) := JUTFString.assign a b in
             JUTFString.destroy b;; JUTFString.destroy a) s).2 = {[10]}.
Proof. by vm_compute. Qed.
