(* ===== verification/ArtMethod.v ===== *)
(** * ArtMethod: where the runtime keeps the code of a native method

    [injector/art_method.hpp]: from the addresses of two methods of one class, which the runtime
    stores next to each other, [ArtMethod::Init] learns the size of a method and where in it the
    pointer to its native code is.  What the Java environment answers is the record [jenv]; the
    memory is that of [Remote]. *)

From Stdlib Require Import ZArith Lia Ascii.
From stdpp Require Import base tactics strings list gmap numbers.
From S2P Require Import Prelude Remote.

Local Open Scope mach_scope.

(** The static members; 0 is the null field. *)
Record art : Type := mkArt {
  art_method_field : Z;
  art_method_size : Z;
  entry_point_offset : Z;
  data_offset : Z
}.

Definition no_art : art := mkArt 0 0 0 0.

(** The environment: whether the classes are found, the identifier of the field [artMethod] (0:
    there is none), the constructors of [Throwable] as objects, and for an object the value of a
    long field and the answer of [FromReflectedMethod]. *)
Record jenv : Type := mkJenv {
  je_executable : bool;
  je_field : Z;
  je_throwable : bool;
  je_ctors : list Z;
  je_long_field : Z → Z → Z;
  je_reflected : Z → Z
}.

Section art.
Context (kPointerSize : nat).

Definition size_bits : Z := 8 * Z.of_nat kPointerSize.

Definition RoundUpTo (v size : Z) : Z := v + size - 1 - ((v + size - 1) &&& (size - 1)).

Definition FromReflectedMethod (e : jenv) (method : Z) : prog art Z :=
  s ← get;
  mret (if art_method_field s =? 0 then je_reflected e method
        else je_long_field e (art_method_field s) method).

(** [size_t] wraps around. *)
Definition set_offsets (size : Z) (s : art) : art :=
  let entry := wrapu size_bits (size - Z.of_nat kPointerSize) in
  mkArt (art_method_field s) size entry (wrapu size_bits (entry - Z.of_nat kPointerSize)).

Definition Init_art (e : jenv) : prog art bool :=
  if negb (je_executable e) then mret false
  else
    modify (λ s, mkArt (je_field e) (art_method_size s) (entry_point_offset s) (data_offset s));;
    if je_field e =? 0 then mret false
    else if negb (je_throwable e) then mret false
    else
      match je_ctors e with
      | c1 :: c2 :: _ =>
          first ← FromReflectedMethod e c1;
          second ← FromReflectedMethod e c2;
          modify (set_offsets (wrapu size_bits (second - first)));;
          mret true
      | _ => mret false
      end.

(** [GetData] reads the pointer in the process's own memory. *)
Definition GetData (m : mem) (this : Z) : prog art Z :=
  s ← get;
  let b := read_bytes m (wrapu size_bits (this + data_offset s)) kPointerSize in
  if (length b =? kPointerSize)%nat then mret (le_val b) else crash OutOfBounds.

(** The size that [Init] warns about. *)
Definition suspicious_size (size : Z) : bool :=
  RoundUpTo (4 * 9) (Z.of_nat kPointerSize) + Z.of_nat kPointerSize * 3 <? size.

(** ** What the offsets are good for *)

(** For a power of two, the next multiple at or above. *)
Lemma RoundUpTo_spec v k :
  0 <= v → 0 <= k →
  RoundUpTo v (2 ^ k) mod 2 ^ k = 0 ∧ v <= RoundUpTo v (2 ^ k) < v + 2 ^ k.
Proof.
  intros Hv Hk. pose proof (Z.pow_pos_nonneg 2 k ltac:(lia) Hk) as Hp. unfold RoundUpTo.
  replace (2 ^ k - 1) with (Z.ones k) by (rewrite Z.ones_equiv; lia).
  rewrite Z.land_ones by lia. pose proof (Z.mod_pos_bound (v + 2 ^ k - 1) (2 ^ k) Hp).
  pose proof (Z.div_mod (v + 2 ^ k - 1) (2 ^ k) ltac:(lia)) as D. split; [|lia].
  replace (v + 2 ^ k - 1 - _) with ((v + 2 ^ k - 1) / 2 ^ k * 2 ^ k) by lia.
  apply Z.mod_mul. lia.
Qed.

(** Methods of [size] bytes one after the other, from [base], each ending with the pointer to its
    native code and the entry point: the layout the class relies on. *)
Definition method_array (m : mem) (base size : Z) (codes : list Z) : Prop :=
  ∀ i code, codes !! i = Some code →
    let addr := base + Z.of_nat i * size in
    0 <= addr ∧ addr + size < 2 ^ size_bits ∧
    read_bytes m (addr + size - 2 * Z.of_nat kPointerSize) kPointerSize = le_bytes kPointerSize code ∧
    0 <= code < 2 ^ size_bits.

(** After a successful [Init], [GetData] returns the native code of every method of such an array
    in which the first two constructors are neighbours. *)
Theorem GetData_code (e : jenv) (m : mem) (base size : Z) (codes : list Z) (c1 c2 : Z) (rest : list Z) (n : nat) (s : art) :
  (0 < kPointerSize)%nat → 2 * Z.of_nat kPointerSize <= size < 2 ^ size_bits →
  je_executable e = true → je_field e ≠ 0 → je_throwable e = true → je_ctors e = c1 :: c2 :: rest →
  je_long_field e (je_field e) c1 = base + Z.of_nat n * size →
  je_long_field e (je_field e) c2 = base + Z.of_nat (S n) * size →
  method_array m base size codes →
  ∃ s', Init_art e s = (Ret true, s') ∧
    ∀ i code, codes !! i = Some code → GetData m (base + Z.of_nat i * size) s' = (Ret code, s').
Proof.
  intros Hp Hs He Hf Ht Hc H1 H2 Ha. unfold Init_art. rewrite He. cbn [negb]. step.
  rewrite (proj2 (Z.eqb_neq _ _) Hf), Ht, Hc. cbn [negb]. unfold FromReflectedMethod.
  rewrite prog_bind_assoc. step. cbn [art_method_field]. rewrite (proj2 (Z.eqb_neq _ _) Hf), H1.
  step. rewrite prog_bind_assoc. step. cbn [art_method_field]. rewrite (proj2 (Z.eqb_neq _ _) Hf), H2.
  step. replace (wrapu size_bits _) with size.
  2:{ unfold wrapu. rewrite Nat2Z.inj_succ. symmetry. rewrite <- (Z.mod_small size (2 ^ size_bits)) at 3 by lia.
      f_equal. lia. }
  step. eexists. split; [reflexivity|]. intros i code Hi. destruct (Ha i code Hi) as (A1 & A2 & R & C).
  unfold GetData. step. cbn [data_offset set_offsets].
  assert (forall z, 0 <= z < 2 ^ size_bits → wrapu size_bits z = z) as W by (intros; by apply Z.mod_small).
  rewrite (W (size - _)) by lia. rewrite (W (size - _ - _)) by lia. rewrite W by lia.
  replace (base + _ * size + _) with (base + Z.of_nat i * size + size - 2 * Z.of_nat kPointerSize) by lia.
  rewrite R, length_le_bytes, Nat.eqb_refl, le_val_bytes_id; [done|].
  unfold size_bits in C. replace (256 ^ Z.of_nat kPointerSize) with (2 ^ (8 * Z.of_nat kPointerSize)); [done|].
  rewrite Z.pow_mul_r by lia. done.
Qed.

(** Without the class, the field, or two constructors, [Init] fails and leaves the offsets. *)
Theorem Init_art_fails (e : jenv) (s : art) :
  je_executable e = false ∨ je_field e = 0 ∨ je_throwable e = false ∨ (length (je_ctors e) < 2)%nat →
  ∃ f, Init_art e s = (Ret false, mkArt f (art_method_size s) (entry_point_offset s) (data_offset s)).
Proof.
  intros H. unfold Init_art. destruct (je_executable e); cbn [negb].
  2:{ exists (art_method_field s). by destruct s. }
  exists (je_field e). step. destruct (je_field e =? 0) eqn:F; [done|].
  destruct (je_throwable e); cbn [negb]; [|done].
  destruct (je_ctors e) as [|c1 [|c2 cs]]; [done..|]. cbn [length] in H.
  destruct H as [?|[?|[?|?]]]; [done | lia | done | lia].
Qed.
End art.

Definition demo_art_mem : mem := list_to_map
  (imap (λ i c, (1000 + Z.of_nat i, c))
     (repeat NUL 16 ++ le_bytes 8 7001 ++ le_bytes 8 1 ++ repeat NUL 16 ++ le_bytes 8 7002 ++ le_bytes 8 1)).

Definition demo_jenv : jenv := mkJenv true 5 true [1; 2] (λ _ o, 1000 + (o - 1) * 32) (λ _, 0).

Lemma GetData_code_witness :
  ∃ s', Init_art 8 demo_jenv no_art = (Ret true, s') ∧
    ∀ i code, [7001; 7002] !! i = Some code → GetData 8 demo_art_mem (1000 + Z.of_nat i * 32) s' = (Ret code, s').
Proof.
  apply (GetData_code 8 demo_jenv demo_art_mem 1000 32 [7001; 7002] 1 2 [] 0 no_art);
    [lia | unfold size_bits; lia | done | done | done | done | done | done |].
  intros [|[|i]] code Hi; [injection Hi as <- .. | done]; unfold size_bits; cbn zeta;
    (split; [lia | split; [lia | split; [by vm_compute | lia]]]).
Defined.
