(* ===== verification/ArtInit.v ===== *)
(** * ArtInit: [ArtMethod::Init] call by call

    [ArtMethod::Init] of [injector/art_method.hpp] over the wrappers of [JniHelper], with every
    scoped object it creates and destroys.  The claim: what it computes is what [ArtMethod] computes
    from the answers of the environment, and the local references it leaves behind are those of the
    constructors it looked at. *)

From Stdlib Require Import ZArith Lia Ascii.
From stdpp Require Import base tactics strings list gmap gmultiset numbers.
From S2P Require Import Prelude JniEnv JniRefs JniArrays JniHelper.
From S2P Require ArtMethod.

(** The environment and the static members. *)
Record artw : Type := mkArtw { aw_j : jworld; aw_a : ArtMethod.art }.

Definition on_j {A} (m : prog jworld A) : prog artw A := λ s,
  let '(r, j) := m (aw_j s) in (r, mkArtw j (aw_a s)).
Definition on_a (f : ArtMethod.art → ArtMethod.art) : prog artw unit := modify (λ s, mkArtw (aw_j s) (f (aw_a s))).

Definition set_method_field (f : Z) (a : ArtMethod.art) : ArtMethod.art :=
  ArtMethod.mkArt f (ArtMethod.art_method_size a) (ArtMethod.entry_point_offset a) (ArtMethod.data_offset a).

Section init.
Context (kPointerSize : nat).

(** Without the field, the environment's own function, which is not guarded. *)
Definition FromReflected (method : ScopedLocalRef.t) : prog artw Z :=
  s ← get;
  if ArtMethod.art_method_field (aw_a s) =? 0 then on_j (jcall FromReflectedMethod [UnwrapScope method])
  else r ← on_j (invoke JNI_GetLongField [UnwrapScope method; JId (ArtMethod.art_method_field (aw_a s))]); mret (as_num r).

Definition find_class (name : bytes) : prog artw ScopedLocalRef.t :=
  r ← on_j (invoke JNI_FindClass [JText name]); mret (as_ref r).

(** From the constructors on; the objects are destroyed in the reverse order of their declaration. *)
Definition measure (constructors : ScopedArray.t) : prog artw bool :=
  n ← on_j (ScopedArray.size constructors);
  if n <? 2 then mret false
  else
    first_ctor ← on_j (ScopedArray.read 0 constructors);
    second_ctor ← on_j (ScopedArray.read 1 constructors);
    first ← FromReflected (ScopedLocalRef.mk first_ctor);
    second ← FromReflected (ScopedLocalRef.mk second_ctor);
    on_a (ArtMethod.set_offsets kPointerSize (wrapu (ArtMethod.size_bits kPointerSize) (second - first)));;
    mret true.

Definition with_constructors (throwable clazz : ScopedLocalRef.t) : prog artw bool :=
  m ← on_j (invoke JNI_GetMethodID [UnwrapScope clazz; JText (txt "getDeclaredConstructors");
                                    JText (txt "()[Ljava/lang/reflect/Constructor;")]);
  o ← on_j (invoke JNI_CallObjectMethod [UnwrapScope throwable; JId (as_num m)]);
  '(constructors, o) ← on_j (ScopedArray.of_scope TObject (as_ref o));
  on_j (ScopedLocalRef.destroy o);;
  ok ← measure constructors;
  on_j (ScopedArray.destroy TObject constructors);;
  mret ok.

Definition with_throwable : prog artw bool :=
  throwable ← find_class (txt "java/lang/Throwable");
  ok ← (if negb (ScopedLocalRef.to_bool throwable) then mret false
        else
          clazz ← find_class (txt "java/lang/Class");
          ok ← with_constructors throwable clazz;
          on_j (ScopedLocalRef.destroy clazz);;
          mret ok);
  on_j (ScopedLocalRef.destroy throwable);;
  mret ok.

Definition Init_jni : prog artw bool :=
  executable ← on_j (ScopedLocalRef.new 0);
  found ← find_class (txt "java/lang/reflect/Executable");
  '(executable, found) ← on_j (ScopedLocalRef.assign executable found);
  on_j (ScopedLocalRef.destroy found);;
  ok ← (if negb (ScopedLocalRef.to_bool executable) then mret false
        else
          f ← on_j (invoke JNI_GetFieldID [UnwrapScope executable; JText (txt "artMethod"); JText (txt "J")]);
          on_a (set_method_field (as_num f));;
          if as_num f =? 0 then mret false else with_throwable);
  on_j (ScopedLocalRef.destroy executable);;
  mret ok.

(** ** A virtual machine with the classes in place *)

Lemma on_j_run {A} (m : prog jworld A) j a r j' : m j = (Ret r, j') → on_j m (mkArtw j a) = (Ret r, mkArtw j' a).
Proof. unfold on_j. cbn [aw_j aw_a]. by intros ->. Qed.

(** Eight calls are answered: three classes, a field, a method, the array of constructors, and the
    addresses of the first two. *)
Record machine (s : jworld) (exe thr cls arr fid mid v1 v2 : Z) (ctors : list Z) (rest : list janswer) : Prop := {
  ma_ok : jw_ok s;
  ma_quiet : jw_exn s = None;
  ma_answers : jw_answers s = [mkAns 0 exe None; mkAns fid 0 None; mkAns 0 thr None; mkAns 0 cls None;
                               mkAns mid 0 None; mkAns 0 arr None; mkAns v1 0 None; mkAns v2 0 None] ++ rest;
  ma_found : exe ≠ 0 ∧ thr ≠ 0 ∧ cls ≠ 0 ∧ arr ≠ 0 ∧ fid ≠ 0 ∧ mid ≠ 0;
  ma_array : jw_heap s !! arr = Some ctors;
  ma_ctors : Forall (λ c, c ≠ 0) ctors ∧ (2 <= length ctors)%nat
}.

Lemma callable_text s f b : jw_exn s = None → scripted f = true → callable s f [JText b].
Proof. intros H Hf. by constructor; [| |destruct f]. Qed.

Lemma callable_ref s f r o args :
  jw_exn s = None → jw_locals s !! r = Some o → r ≠ 0 →
  forallb (λ v, match v with JText _ => true | JId i => negb (i =? 0) | _ => false end) args = true →
  callable s f (JRef r :: args).
Proof.
  intros Hq Hr Hz Hargs. rewrite forallb_forall in Hargs. constructor; [done | |].
  - cbn [forallb live_arg]. rewrite (live_local s r o Hr), orb_true_r. apply forallb_forall.
    intros v Hv. specialize (Hargs v Hv). by destruct v.
  - assert (existsb (λ v, match v with JId 0 => true | _ => false end) (JRef r :: args) = false) as He.
    { destruct (existsb _ _) eqn:E; [|done]. apply existsb_exists in E as (v & [<-|Hv] & Hb); [done|].
      specialize (Hargs v Hv). destruct v as [|i| |]; [done | by destruct i | done..]. }
    unfold null_arg. rewrite He. cbn [List.find]. rewrite (proj2 (Z.eqb_neq _ _) Hz). by destruct f.
Qed.

(** The local references once the objects [l] are left over from [base] on. *)
Definition overlay (base : Z) (l : list Z) (m : gmap Z Z) (x : Z) : option Z :=
  if base <=? x then l !! Z.to_nat (x - base) else m !! x.

Record leaves (b : Z) (l : list Z) (j j' : jworld) : Prop := {
  le_ok : jw_ok j';
  le_quiet : jw_exn j' = None;
  le_locals : ∀ x, jw_locals j' !! x = overlay (jw_next j + b) l (jw_locals j) x
}.

Lemma no_local j x : jw_ok j → jw_next j <= x → jw_locals j !! x = None.
Proof.
  intros Hok Hx. destruct (jw_locals j !! x) as [o|] eqn:E; [|done].
  pose proof (ok_locals j Hok x (ex_intro _ o E)). lia.
Qed.

Lemma jw_ok_delete s r : jw_ok s → jw_ok (set_jw_locals (delete r (jw_locals s)) s).
Proof.
  intros [K1 K2 K3 K4 K5]. constructor; cbn; try done. intros x [_ ?]%lookup_delete_is_Some. by apply K2.
Qed.

(** A reference that was created on the way and is destroyed at the end. *)
Lemma leaves_destroy b l j j1 j2 f args o :
  jw_ok j → 0 <= b → j1 = after_ref f args o j → leaves b l j1 j2 →
  jw_locals j2 !! jw_next j = Some o ∧
  leaves (b + 1) l j (set_jw_locals (delete (jw_next j) (jw_locals j2)) j2).
Proof.
  intros Hok Hb -> [H1 H2 H3]. unfold overlay in *. cbn in H3. split.
  - rewrite H3. rewrite (proj2 (Z.leb_gt _ _)) by lia. apply lookup_insert_eq.
  - constructor; [by apply jw_ok_delete | done|]. intros x. cbn. unfold overlay.
    destruct (decide (x = jw_next j)) as [->|Hx].
    + rewrite lookup_delete_eq, (proj2 (Z.leb_gt _ _)) by lia. symmetry. by apply fresh_local.
    + rewrite lookup_delete_ne, H3 by done. replace (jw_next j + 1 + b) with (jw_next j + (b + 1)) by lia.
      destruct (_ <=? _); [done|]. by apply lookup_insert_ne.
Qed.

(** What a scope leaves when the object it declared first goes last. *)
Lemma leaves_drop b l j j1 j2 f args o :
  jw_ok j → 0 <= b → j1 = after_ref f args o j → leaves b l j1 j2 →
  ∃ j3, ScopedLocalRef.destroy (ScopedLocalRef.mk (jw_next j)) j2 = (Ret tt, j3) ∧ leaves (b + 1) l j j3.
Proof.
  intros Hok Hb E HL. destruct (leaves_destroy b l j j1 j2 f args o Hok Hb E HL) as [Hd HL'].
  pose proof (ok_next j Hok). eexists. split; [|exact HL'].
  by apply (ScopedLocalRef_destroy_run _ o); [lia|].
Qed.

Lemma find_class_run name o rest j a :
  jw_ok j → jw_exn j = None → o ≠ 0 → jw_answers j = mkAns 0 o None :: rest →
  find_class name (mkArtw j a) =
  (Ret (ScopedLocalRef.mk (jw_next j)), mkArtw (after_ref FindClass [JText name] o j) a).
Proof.
  intros Hok Hq Ho Ha. unfold find_class.
  step_with (on_j_run (invoke JNI_FindClass [JText name]) j a _ _
    (invoke_ref_run JNI_FindClass [JText name] j 0 o rest ltac:(apply list_elem_of_In; vm_compute; tauto) eq_refl
       (callable_text j FindClass name Hq eq_refl) eq_refl Ha eq_refl Ho)). done.
Qed.

Section ctors.
Context (fid mid v1 v2 arr thr cls : Z) (ctors : list Z) (rest : list janswer) (a : ArtMethod.art).
Hypothesis Hfield : ArtMethod.art_method_field a = fid.
Hypothesis Hids : fid ≠ 0 ∧ mid ≠ 0 ∧ arr ≠ 0.
Hypothesis Hctors : Forall (λ c, c ≠ 0) ctors ∧ (2 <= length ctors)%nat.

(** The static members after the measurement. *)
Definition measured : ArtMethod.art :=
  ArtMethod.set_offsets kPointerSize (wrapu (ArtMethod.size_bits kPointerSize) (v2 - v1)) a.

Lemma FromReflected_run r o v rest' j :
  jw_exn j = None → jw_locals j !! r = Some o → r ≠ 0 → jw_answers j = mkAns v 0 None :: rest' →
  FromReflected (ScopedLocalRef.mk r) (mkArtw j a) =
  (Ret v, mkArtw (after_num (GetField TLong) [JRef r; JId fid] j) a).
Proof.
  intros Hq Hr Hz Ha. unfold FromReflected. step. cbn [aw_a]. rewrite Hfield.
  destruct Hids as (Hf & _ & _). rewrite (proj2 (Z.eqb_neq _ _) Hf). unfold UnwrapScope. cbn [ScopedLocalRef.get].
  assert (callable j (w_fn JNI_GetLongField) [JRef r; JId fid]) as Hc.
  { apply (callable_ref j _ r o); [done..|]. cbn. by rewrite (proj2 (Z.eqb_neq _ _) Hf). }
  step_with (on_j_run (invoke JNI_GetLongField [JRef r; JId fid]) j a _ _
    (invoke_num_run JNI_GetLongField [JRef r; JId fid] j v 0 rest' ltac:(apply list_elem_of_In; vm_compute; tauto) eq_refl
       Hc eq_refl Ha (or_introl (ex_intro _ TLong eq_refl)))). done.
Qed.

Lemma measure_run r n j o1 o2 :
  jw_exn j = None → jw_answers j = mkAns v1 0 None :: mkAns v2 0 None :: rest →
  0 < n → jw_locals j !! n = Some o1 → jw_locals j !! (n + 1) = Some o2 →
  ∃ j', measure (ScopedArray.mk r (Some (Z.of_nat (length ctors))) (EObjs (refs_from n (length ctors))) false) (mkArtw j a) =
      (Ret true, mkArtw j' measured) ∧
    jw_locals j' = jw_locals j ∧ jw_exn j' = None ∧ (jw_ok j → jw_ok j').
Proof.
  intros Hq Ha Hn H1 H2. unfold measure, ScopedArray.size, ScopedArray.use_size. cbn [ScopedArray.size_]. step.
  rewrite (proj2 (Z.ltb_ge _ _)) by lia. unfold ScopedArray.read, peek. cbn [ScopedArray.elements_].
  change (Z.of_nat 0 <? 0) with false. change (Z.of_nat 1 <? 0) with false. cbv iota. rewrite !Nat2Z.id.
  assert (∀ k, (k < 2)%nat → refs_from n (length ctors) !! k = Some (ScopedLocalRef.mk (n + Z.of_nat k))) as Hrefs.
  { intros k Hk. unfold refs_from. rewrite list_lookup_fmap, lookup_seq_lt by lia. done. }
  rewrite (Hrefs 0%nat), (Hrefs 1%nat) by lia. step. step. cbn [ScopedLocalRef.get]. rewrite Z.add_0_r.
  step_with (FromReflected_run n o1 v1 _ j Hq H1 ltac:(lia) Ha).
  step_with (FromReflected_run (n + 1) o2 v2 rest (after_num (GetField TLong) [JRef n; JId fid] j) Hq H2 ltac:(lia)
    ltac:(cbn; by rewrite Ha)).
  eexists. split; [reflexivity|]. split_and!; [done | done|]. intros Hok. by repeat apply after_num_ok.
Qed.

Lemma with_constructors_run rt rc j :
  jw_ok j → jw_exn j = None → jw_locals j !! rt = Some thr → jw_locals j !! rc = Some cls →
  jw_heap j !! arr = Some ctors →
  jw_answers j = mkAns mid 0 None :: mkAns 0 arr None :: mkAns v1 0 None :: mkAns v2 0 None :: rest →
  ∃ j', with_constructors (ScopedLocalRef.mk rt) (ScopedLocalRef.mk rc) (mkArtw j a) = (Ret true, mkArtw j' measured) ∧
    leaves 1 ctors j j'.
Proof.
  intros Hok Hq Ht Hc Hh Ha. destruct Hids as (Hf & Hm & Harr). unfold with_constructors, UnwrapScope. cbn [ScopedLocalRef.get].
  assert (rt ≠ 0) as Hrt by (pose proof (ok_locals j Hok rt (ex_intro _ _ Ht)); lia).
  assert (rc ≠ 0) as Hrc by (pose proof (ok_locals j Hok rc (ex_intro _ _ Hc)); lia).
  pose proof (ok_next j Hok) as Hn. set (args1 := [JRef rc; _; _]).
  assert (callable j (w_fn JNI_GetMethodID) args1) as C1 by (by apply (callable_ref j _ rc cls)).
  step_with (on_j_run (invoke JNI_GetMethodID args1) j a _ _
    (invoke_num_run JNI_GetMethodID args1 j mid 0 _ ltac:(apply list_elem_of_In; vm_compute; tauto) eq_refl
       C1 eq_refl Ha (or_intror eq_refl))). cbn [as_num w_fn JNI_GetMethodID].
  set (j5 := after_num _ _ j). set (args2 := [JRef rt; JId mid]).
  assert (callable j5 (w_fn JNI_CallObjectMethod) args2) as C2.
  { apply (callable_ref j5 _ rt thr); [done..|]. cbn. by rewrite (proj2 (Z.eqb_neq _ _) Hm). }
  step_with (on_j_run (invoke JNI_CallObjectMethod args2) j5 a _ _
    (invoke_ref_run JNI_CallObjectMethod args2 j5 0 arr _ ltac:(apply list_elem_of_In; vm_compute; tauto) eq_refl
       C2 eq_refl ltac:(cbn; by rewrite Ha) eq_refl Harr)). cbn [as_ref w_fn JNI_CallObjectMethod].
  set (j6 := after_ref _ _ arr j5). change (jw_next j5) with (jw_next j).
  assert (object_array (jw_next j) arr ctors j6) as Hoa.
  { constructor; [by apply after_ref_ok, after_num_ok | done | apply lookup_insert_eq | done | by destruct Hctors]. }
  assert (ScopedArray.of_scope TObject (ScopedLocalRef.mk (jw_next j)) j6 =
    (Ret (object_array_of (jw_next j) ctors j6, ScopedLocalRef.mk 0),
     fetch_objects (jw_next j) 0 ctors (logged GetArrayLength [JRef (jw_next j)] j6))) as Eo.
  { unfold ScopedArray.of_scope, ScopedLocalRef.release. cbn [ScopedLocalRef.get]. by step_with (objects_new_run _ _ _ j6 Hoa). }
  step_with (on_j_run _ j6 a _ _ Eo). cbv iota beta. step.
  set (j7 := fetch_objects _ _ _ _).
  destruct (fetch_objects_spec (jw_next j) 0 ctors (logged GetArrayLength [JRef (jw_next j)] j6))
    as [F1 F2 F3 F4 F5 F6 F7 F8 F9 F10]. fold j7 in F1, F2, F3, F4, F5, F6, F7, F8, F9, F10.
  change (jw_next (logged GetArrayLength [JRef (jw_next j)] j6)) with (jw_next j + 1) in *.
  destruct Hctors as [Hnz Hlen]. destruct (lookup_lt_is_Some_2 ctors 0 ltac:(lia)) as [o1 Ho1].
  destruct (lookup_lt_is_Some_2 ctors 1 ltac:(lia)) as [o2 Ho2].
  destruct (measure_run (jw_next j) (jw_next j + 1) j7 o1 o2) as (j9 & E9 & L9 & X9 & K9).
  { by rewrite F2. } { rewrite F6. cbn. by rewrite Ha. } { lia. }
  { rewrite <- (Z.add_0_r (jw_next j + 1)). by apply (F9 0%nat). } { by apply (F9 1%nat). }
  change (jw_next j6) with (jw_next j + 1). step_with E9.
  assert (jw_locals j9 !! jw_next j = Some arr) as Harr9 by (rewrite L9, F8 by lia; apply lookup_insert_eq).
  step_with (on_j_run _ j9 measured _ _ (objects_destroy_run (jw_next j) arr ctors (jw_next j + 1) j9 ltac:(lia) Harr9)).
  eexists. split; [reflexivity|].
  constructor; [apply jw_ok_delete, K9, F1; by apply (jw_ok_mono j6); [apply Hoa | | |] | done|].
  intros x. cbn. unfold overlay. rewrite L9. destruct (decide (x = jw_next j)) as [->|Hx].
  { rewrite lookup_delete_eq, (proj2 (Z.leb_gt _ _)) by lia. symmetry. by apply fresh_local. }
  rewrite lookup_delete_ne by done. destruct (Z.leb_spec (jw_next j + 1) x).
  - replace x with (jw_next j + 1 + Z.of_nat (Z.to_nat (x - (jw_next j + 1)))) at 1 by lia.
    destruct (ctors !! Z.to_nat (x - (jw_next j + 1))) as [o|] eqn:Eo'; [by apply F9|].
    apply lookup_ge_None in Eo'. rewrite F10 by lia. cbn. rewrite lookup_insert_ne by lia. apply no_local; [done | lia].
  - rewrite F8 by lia. cbn. by apply lookup_insert_ne.
Qed.

Lemma with_throwable_run j :
  jw_ok j → jw_exn j = None → thr ≠ 0 → cls ≠ 0 → jw_heap j !! arr = Some ctors →
  jw_answers j = mkAns 0 thr None :: mkAns 0 cls None ::
    mkAns mid 0 None :: mkAns 0 arr None :: mkAns v1 0 None :: mkAns v2 0 None :: rest →
  ∃ j', with_throwable (mkArtw j a) = (Ret true, mkArtw j' measured) ∧ leaves 3 ctors j j'.
Proof.
  intros Hok Hq Ht Hc Hh Ha. unfold with_throwable. pose proof (ok_next j Hok) as Hn.
  step_with (find_class_run (txt "java/lang/Throwable") thr _ j a Hok Hq Ht Ha).
  set (j1 := after_ref _ _ thr j). assert (jw_ok j1) as Hok1 by (by apply after_ref_ok).
  unfold ScopedLocalRef.to_bool. cbn [ScopedLocalRef.get]. rewrite (proj2 (Z.eqb_neq _ _)) by lia. cbn [negb].
  rewrite prog_bind_assoc.
  step_with (find_class_run (txt "java/lang/Class") cls _ j1 a Hok1 Hq Hc ltac:(cbn; by rewrite Ha)).
  set (j2 := after_ref _ _ cls j1). assert (jw_ok j2) as Hok2 by (by apply after_ref_ok).
  destruct (with_constructors_run (jw_next j) (jw_next j1) j2 Hok2 Hq) as (j3 & E3 & L3).
  { cbn. rewrite lookup_insert_ne by lia. apply lookup_insert_eq. } { apply lookup_insert_eq. } { done. }
  { cbn. by rewrite Ha. }
  rewrite prog_bind_assoc. step_with E3.
  destruct (leaves_drop 1 ctors j1 j2 j3 _ _ cls Hok1 ltac:(lia) eq_refl L3) as (j4 & E4 & L4).
  rewrite prog_bind_assoc. step_with (on_j_run _ j3 measured _ _ E4). step.
  destruct (leaves_drop 2 ctors j j1 j4 _ _ thr Hok ltac:(lia) eq_refl L4) as (j5 & E5 & L5).
  step_with (on_j_run _ j4 measured _ _ E5). eexists. split; [reflexivity | exact L5].
Qed.
End ctors.

(** What the calls of such a machine tell, as the environment of [ArtMethod]. *)
Definition answers_of (fid v1 v2 : Z) (ctors : list Z) : ArtMethod.jenv :=
  ArtMethod.mkJenv true fid true ctors (λ _ c, if bool_decide (head ctors = Some c) then v1 else v2) (λ _, 0).

Lemma Init_art_measured fid v1 v2 c1 c2 cs a :
  fid ≠ 0 → c1 ≠ c2 →
  ArtMethod.Init_art kPointerSize (answers_of fid v1 v2 (c1 :: c2 :: cs)) a =
  (Ret true, measured v1 v2 (set_method_field fid a)).
Proof.
  intros Hf Hc. unfold ArtMethod.Init_art, answers_of. cbn [ArtMethod.je_executable ArtMethod.je_field
    ArtMethod.je_throwable ArtMethod.je_ctors negb]. step. rewrite (proj2 (Z.eqb_neq _ _) Hf).
  set (e := ArtMethod.mkJenv _ _ _ _ _ _). set (s := ArtMethod.mkArt _ _ _ _).
  assert (∀ c, ArtMethod.FromReflectedMethod e c s = (Ret (if bool_decide (Some c1 = Some c) then v1 else v2), s)) as E.
  { intros c. unfold ArtMethod.FromReflectedMethod. step. cbn [s ArtMethod.art_method_field].
    by rewrite (proj2 (Z.eqb_neq _ _) Hf). }
  step_with (E c1). step_with (E c2). rewrite (bool_decide_eq_true_2 (Some c1 = Some c1)) by done.
  by rewrite (bool_decide_eq_false_2 (Some c1 = Some c2)) by congruence.
Qed.

(** C29 On a machine with the classes, the field and two constructors, [Init] computes the static
    members that [ArtMethod] computes from the same answers, and of the local references it created
    exactly those of the constructors are left. *)
Theorem Init_jni_refines s exe thr cls arr fid mid v1 v2 c1 c2 cs rest a :
  machine s exe thr cls arr fid mid v1 v2 (c1 :: c2 :: cs) rest → c1 ≠ c2 →
  ∃ j', Init_jni (mkArtw s a) =
      (Ret true, mkArtw j' (ArtMethod.Init_art kPointerSize (answers_of fid v1 v2 (c1 :: c2 :: cs)) a).2) ∧
    leaves 4 (c1 :: c2 :: cs) s j'.
Proof.
  intros [Hok Hq Ha (He & Ht & Hc & Harr & Hf & Hm) Hh Hctors] Hne. rewrite (Init_art_measured _ _ _ _ _ _ _ Hf Hne).
  pose proof (ok_next s Hok) as Hn. cbn [app] in Ha. unfold Init_jni.
  step_with (on_j_run (ScopedLocalRef.new 0) s a _ _ (ScopedLocalRef_new 0 s)).
  step_with (find_class_run (txt "java/lang/reflect/Executable") exe _ s a Hok Hq He Ha).
  set (j1 := after_ref _ _ exe s). assert (jw_ok j1) as Hok1 by (by apply after_ref_ok).
  unfold ScopedLocalRef.assign, ScopedLocalRef.release, ScopedLocalRef.reset. cbn [ScopedLocalRef.get].
  rewrite (proj2 (Z.eqb_neq (jw_next s) 0)) by lia. cbn [negb Z.eqb when].
  step. cbv iota. step. unfold ScopedLocalRef.to_bool. cbn [ScopedLocalRef.get].
  rewrite (proj2 (Z.eqb_neq (jw_next s) 0)) by lia. cbn [negb]. unfold UnwrapScope. cbn [ScopedLocalRef.get].
  set (args := [JRef (jw_next s); _; _]).
  assert (callable j1 (w_fn JNI_GetFieldID) args) as C1.
  { apply (callable_ref j1 _ (jw_next s) exe); [done | apply lookup_insert_eq | lia | done]. }
  rewrite prog_bind_assoc. step_with (on_j_run (invoke JNI_GetFieldID args) j1 a _ _
    (invoke_num_run JNI_GetFieldID args j1 fid 0 _ ltac:(apply list_elem_of_In; vm_compute; tauto) eq_refl
       C1 eq_refl ltac:(cbn; by rewrite Ha) (or_intror eq_refl))). cbn [as_num].
  rewrite prog_bind_assoc. step. rewrite (proj2 (Z.eqb_neq _ _) Hf).
  set (j2 := after_num _ _ j1). assert (jw_ok j2) as Hok2 by (by apply after_num_ok).
  destruct (with_throwable_run fid mid v1 v2 arr thr cls (c1 :: c2 :: cs) rest (set_method_field fid a) eq_refl
    ltac:(done) Hctors j2 Hok2 Hq Ht Hc Hh ltac:(cbn; by rewrite Ha)) as (j3 & E3 & L3).
  cbn [aw_j aw_a]. step_with E3.
  destruct (leaves_drop 3 (c1 :: c2 :: cs) s j1 j3 _ _ exe Hok ltac:(lia) eq_refl) as (j4 & E4 & L4).
  { destruct L3. by constructor. }
  step_with (on_j_run _ j3 (measured v1 v2 (set_method_field fid a)) _ _ E4). eexists. split; [reflexivity | exact L4].
Qed.
End init.

(** Objects 11 to 14: the classes and the array, whose constructors are 21 and 22. *)
Definition demo_machine (script : list janswer) : jworld :=
  mkJw ∅ [] ∅ 1 None None ∅ {[14 := [21; 22]]} ∅ ∅ script [] [].

Definition demo_script : list janswer :=
  [mkAns 0 11 None; mkAns 5 0 None; mkAns 0 12 None; mkAns 0 13 None; mkAns 6 0 None; mkAns 0 14 None;
   mkAns 1000 0 None; mkAns 1032 0 None].

Lemma Init_jni_refines_witness :
  ∃ j', Init_jni 8 (mkArtw (demo_machine demo_script) ArtMethod.no_art) =
      (Ret true, mkArtw j' (ArtMethod.Init_art 8 (answers_of 5 1000 1032 [21; 22]) ArtMethod.no_art).2) ∧
    leaves 4 [21; 22] (demo_machine demo_script) j'.
Proof.
  apply (Init_jni_refines 8 (demo_machine demo_script) 11 12 13 14 5 6 1000 1032 21 22 [] [] ArtMethod.no_art); [|done].
  constructor; [constructor; cbn; try (intros ? []%lookup_empty_is_Some); set_solver by lia | done | done | lia | done |].
  split; [by repeat constructor | cbn; lia].
Defined.

(** The static members in numbers: a method of 32 bytes, its code at 16. *)
Example demo_init :
  aw_a (Init_jni 8 (mkArtw (demo_machine demo_script) ArtMethod.no_art)).2 = ArtMethod.mkArt 5 32 24 16.
Proof. vm_compute. reflexivity. Qed.

(** Fewer than two constructors: the call fails and the one reference is left. *)
Example one_constructor :
  let '(r, s) := Init_jni 8 (mkArtw (set_jw_heap {[14 := [21]]} (demo_machine demo_script)) ArtMethod.no_art) in
  r = Ret false ∧ jw_locals (aw_j s) = {[5 := 21]} ∧ aw_a s = ArtMethod.mkArt 5 0 0 0.
Proof. vm_compute. done. Qed.

(** A field that is missing: the exception is cleared and printed, and the call fails. *)
Example field_missing :
  let '(r, s) := Init_jni 8 (mkArtw (demo_machine
    [mkAns 0 11 None; mkAns 0 0 (Some 30); mkAns 0 31 None; mkAns 6 0 None; mkAns 0 32 None; mkAns 0 0 None]) ArtMethod.no_art) in
  r = Ret false ∧ jw_exn (aw_j s) = None ∧ length (jw_printed (aw_j s)) = 1%nat ∧ aw_a s = ArtMethod.no_art.
Proof. vm_compute. done. Qed.

(** [getDeclaredConstructors] throws: the array is null, and its size was never written. *)
Example constructors_throw :
  (Init_jni 8 (mkArtw (demo_machine
    [mkAns 0 11 None; mkAns 5 0 None; mkAns 0 12 None; mkAns 0 13 None; mkAns 6 0 None; mkAns 0 0 (Some 30);
     mkAns 0 31 None; mkAns 6 0 None; mkAns 0 32 None; mkAns 0 0 None]) ArtMethod.no_art)).1 = Crash Uninit.
Proof. vm_compute. reflexivity. Qed.
