(* ===== verification/Context.v ===== *)
(** * Context: the injected library inside the zygote

    [ZygiskContext] and [ZygiskModule] of [injector/hook.cpp] and [injector/module.hpp]: what
    happens around a fork or a specialisation of the zygote, the modules that are loaded on the
    way, the file descriptors they may keep, the PLT hooks they ask for, and the hooked
    [fork] and [unshare].

    A module is what its code does when it is called: the API calls it makes, the descriptors
    it opens.  lsplt, the dynamic linker, the daemon and the kernel answer from scripts. *)

From Stdlib Require Import ZArith Lia Ascii.
From stdpp Require Import base tactics strings list gmap numbers.
From S2P Require Import Prelude Misc MountInfo Maps Remote.
From S2P Require Zygiskd.

Local Open Scope mach_scope.

(** ** Data *)

Definition POST_SPECIALIZE : nat := 0.
Definition APP_FORK_AND_SPECIALIZE : nat := 1.
Definition APP_SPECIALIZE : nat := 2.
Definition SERVER_FORK_AND_SPECIALIZE : nat := 3.
Definition DO_REVERT_UNMOUNT : nat := 4.
Definition SKIP_FD_SANITIZATION : nat := 5.

Definition MAX_FD_SIZE : Z := 1024.

Definition PROCESS_ON_DENYLIST : Z := 1 <<< 1.
Definition PROCESS_ROOT_IS_APATCH : Z := 1 <<< 27.
Definition PROCESS_IS_MANAGER : Z := 1 <<< 28.
Definition PROCESS_ROOT_IS_KSU : Z := 1 <<< 29.
Definition PROCESS_ROOT_IS_MAGISK : Z := 1 <<< 30.
Definition PROCESS_IS_SYS_UI : Z := 1 <<< 31.
Definition PRIVATE_MASK : Z := PROCESS_IS_SYS_UI.

Definition ZYGISK_API_VERSION : Z := 4.

Inductive Option_ : Set := FORCE_DENYLIST_UNMOUNT | DLCLOSE_MODULE_LIBRARY.

Record RegisterInfo : Type := mkRegister {
  ri_regex : bytes; ri_symbol : bytes; ri_callback : Z; ri_backup : Z
}.
Record IgnoreInfo : Type := mkIgnore { ig_regex : bytes; ig_symbol : bytes }.

(** What a module can do while one of its functions runs: open and close descriptors, and
    call the functions of its API table that act on the context.  Slots 1 to 3 of the table
    have two shapes, up to version 3 and from version 4 on. *)
Inductive api_call : Type :=
| AOpen (fd : Z)
| AClose (fd : Z)
| ASetOption (o : Option_)
| APltRegister (regex symbol : bytes) (fn backup : Z)
| APltExclude (regex : bytes) (symbol : option bytes)
| APltCommit
| APltRegister4 (dev inode : Z) (symbol : bytes) (fn backup : Z)
| AExemptFd (fd : Z)
| APltCommit4.

(** A library as the daemon hands it out: whether it can be loaded and has an entry, the
    version its entry registers with, if it does, and what its functions do. *)
Record module_code : Type := mkCode {
  mc_handle : option Z;
  mc_entry : bool;
  mc_register : option Z;
  mc_on_load : list api_call;
  mc_pre : list api_call;
  mc_post : list api_call
}.

Record zmodule : Type := mkModule {
  zm_id : nat;
  zm_unload : bool;
  zm_handle : Z;
  zm_mod : option Z;       (* [*mod.api_version]; [None]: mod is still null *)
  zm_code : module_code
}.

Inductive zevent : Type :=
| ZOldFork
| ZSigmask (block : bool)
| ZServerStarted
| ZSetenv
| ZLogClose
| ZRevertKsu | ZRevertApatch | ZRevertMagisk
| ZRegisterHook (dev inode : Z) (symbol : bytes) (callback : Z)
| ZCommitHook
| ZCallApp (pre : bool) (id : nat)
| ZCallServer (pre : bool) (id : nat)
| ZDlclose (handle : Z)
| ZNullifySoName (name : bytes)
| ZMprotect (addr size prot : Z)
| ZReplaceByCopy (addr size : Z)     (* [memcpy] to a fresh shared mapping, [mremap] over the old *)
| ZNameVma (addr size : Z) (name : bytes).

Record zenv : Type := mkZenv {
  e_forks : list Z;              (* results of the original [fork] *)
  e_dir_ok : list bool;          (* whether /proc/self/fd can be opened *)
  e_array_ok : list bool;        (* whether [NewIntArray] succeeds *)
  e_libs : list module_code;     (* what [ReadModules] yields *)
  e_flags : Z → Z;               (* what [GetProcessFlags] answers *)
  e_maps : list (list MapInfo);  (* results of [lsplt::MapInfo::Scan] *)
  e_commits : list bool;         (* results of [lsplt::CommitHook] *)
  e_unshare : list Z;            (* results of the original [unshare] *)
  e_solist : list bool;          (* results of [SoList::Initialize] *)
  e_mmaps : list bool;           (* whether [mmap] succeeds *)
  e_times : list Z               (* results of [time] *)
}.

Record zygote : Type := mkZygote {
  has_ctx : bool;   (* [g_ctx != nullptr] *)
  z_pid : Z;
  z_flags : gset nat;   (* [bitset<FLAG_MAX>] *)
  info_flags : Z;
  allowed_fds : gset Z;   (* [bitset<MAX_FD_SIZE>] *)
  exempted_fds : list Z;
  fds_to_ignore : option (list Z);   (* [*args.app->fds_to_ignore], a Java array or null *)
  register_info : list RegisterInfo;
  ignore_info : list IgnoreInfo;
  z_modules : list zmodule;
  should_unmap : bool;
  open_fds : gset Z;   (* the descriptor table of the process *)
  log_fd : Z;   (* [logging::logfd] *)
  z_env : zenv;   (* the answers of the rest of the system *)
  z_log : list zevent
}.

Definition set_has_ctx v s := mkZygote v (z_pid s) (z_flags s) (info_flags s) (allowed_fds s)
  (exempted_fds s) (fds_to_ignore s) (register_info s) (ignore_info s) (z_modules s)
  (should_unmap s) (open_fds s) (log_fd s) (z_env s) (z_log s).
Definition set_z_pid v s := mkZygote (has_ctx s) v (z_flags s) (info_flags s) (allowed_fds s)
  (exempted_fds s) (fds_to_ignore s) (register_info s) (ignore_info s) (z_modules s)
  (should_unmap s) (open_fds s) (log_fd s) (z_env s) (z_log s).
Definition set_z_flags v s := mkZygote (has_ctx s) (z_pid s) v (info_flags s) (allowed_fds s)
  (exempted_fds s) (fds_to_ignore s) (register_info s) (ignore_info s) (z_modules s)
  (should_unmap s) (open_fds s) (log_fd s) (z_env s) (z_log s).
Definition set_info_flags v s := mkZygote (has_ctx s) (z_pid s) (z_flags s) v (allowed_fds s)
  (exempted_fds s) (fds_to_ignore s) (register_info s) (ignore_info s) (z_modules s)
  (should_unmap s) (open_fds s) (log_fd s) (z_env s) (z_log s).
Definition set_allowed_fds v s := mkZygote (has_ctx s) (z_pid s) (z_flags s) (info_flags s) v
  (exempted_fds s) (fds_to_ignore s) (register_info s) (ignore_info s) (z_modules s)
  (should_unmap s) (open_fds s) (log_fd s) (z_env s) (z_log s).
Definition set_exempted_fds v s := mkZygote (has_ctx s) (z_pid s) (z_flags s) (info_flags s)
  (allowed_fds s) v (fds_to_ignore s) (register_info s) (ignore_info s) (z_modules s)
  (should_unmap s) (open_fds s) (log_fd s) (z_env s) (z_log s).
Definition set_fds_to_ignore v s := mkZygote (has_ctx s) (z_pid s) (z_flags s) (info_flags s)
  (allowed_fds s) (exempted_fds s) v (register_info s) (ignore_info s) (z_modules s)
  (should_unmap s) (open_fds s) (log_fd s) (z_env s) (z_log s).
Definition set_register_info v s := mkZygote (has_ctx s) (z_pid s) (z_flags s) (info_flags s)
  (allowed_fds s) (exempted_fds s) (fds_to_ignore s) v (ignore_info s) (z_modules s)
  (should_unmap s) (open_fds s) (log_fd s) (z_env s) (z_log s).
Definition set_ignore_info v s := mkZygote (has_ctx s) (z_pid s) (z_flags s) (info_flags s)
  (allowed_fds s) (exempted_fds s) (fds_to_ignore s) (register_info s) v (z_modules s)
  (should_unmap s) (open_fds s) (log_fd s) (z_env s) (z_log s).
Definition set_z_modules v s := mkZygote (has_ctx s) (z_pid s) (z_flags s) (info_flags s)
  (allowed_fds s) (exempted_fds s) (fds_to_ignore s) (register_info s) (ignore_info s) v
  (should_unmap s) (open_fds s) (log_fd s) (z_env s) (z_log s).
Definition set_should_unmap v s := mkZygote (has_ctx s) (z_pid s) (z_flags s) (info_flags s)
  (allowed_fds s) (exempted_fds s) (fds_to_ignore s) (register_info s) (ignore_info s)
  (z_modules s) v (open_fds s) (log_fd s) (z_env s) (z_log s).
Definition set_open_fds v s := mkZygote (has_ctx s) (z_pid s) (z_flags s) (info_flags s)
  (allowed_fds s) (exempted_fds s) (fds_to_ignore s) (register_info s) (ignore_info s)
  (z_modules s) (should_unmap s) v (log_fd s) (z_env s) (z_log s).
Definition set_log_fd v s := mkZygote (has_ctx s) (z_pid s) (z_flags s) (info_flags s)
  (allowed_fds s) (exempted_fds s) (fds_to_ignore s) (register_info s) (ignore_info s)
  (z_modules s) (should_unmap s) (open_fds s) v (z_env s) (z_log s).
Definition set_z_env v s := mkZygote (has_ctx s) (z_pid s) (z_flags s) (info_flags s)
  (allowed_fds s) (exempted_fds s) (fds_to_ignore s) (register_info s) (ignore_info s)
  (z_modules s) (should_unmap s) (open_fds s) (log_fd s) v (z_log s).
Definition set_z_log v s := mkZygote (has_ctx s) (z_pid s) (z_flags s) (info_flags s)
  (allowed_fds s) (exempted_fds s) (fds_to_ignore s) (register_info s) (ignore_info s)
  (z_modules s) (should_unmap s) (open_fds s) (log_fd s) (z_env s) v.


Definition flag (f : nat) (s : zygote) : bool := bool_decide (f ∈ z_flags s).
Definition set_flag (f : nat) (s : zygote) : zygote := set_z_flags (z_flags s ∪ {[f]}) s.
Definition z_emit (e : zevent) : prog zygote unit := modify (λ s, set_z_log (z_log s ++ [e]) s).

(** [sigmask] on SIGCHLD, the only signal it is used for: [SIG_BLOCK] or [SIG_UNBLOCK]. *)
Definition sigmask (block : bool) : prog zygote unit := z_emit (ZSigmask block).

Definition env_forks v e := mkZenv v (e_dir_ok e) (e_array_ok e) (e_libs e) (e_flags e) (e_maps e)
  (e_commits e) (e_unshare e) (e_solist e) (e_mmaps e) (e_times e).
Definition env_dir_ok v e := mkZenv (e_forks e) v (e_array_ok e) (e_libs e) (e_flags e) (e_maps e)
  (e_commits e) (e_unshare e) (e_solist e) (e_mmaps e) (e_times e).
Definition env_array_ok v e := mkZenv (e_forks e) (e_dir_ok e) v (e_libs e) (e_flags e) (e_maps e)
  (e_commits e) (e_unshare e) (e_solist e) (e_mmaps e) (e_times e).
Definition env_maps v e := mkZenv (e_forks e) (e_dir_ok e) (e_array_ok e) (e_libs e) (e_flags e) v
  (e_commits e) (e_unshare e) (e_solist e) (e_mmaps e) (e_times e).
Definition env_commits v e := mkZenv (e_forks e) (e_dir_ok e) (e_array_ok e) (e_libs e) (e_flags e) (e_maps e)
  v (e_unshare e) (e_solist e) (e_mmaps e) (e_times e).
Definition env_unshare v e := mkZenv (e_forks e) (e_dir_ok e) (e_array_ok e) (e_libs e) (e_flags e) (e_maps e)
  (e_commits e) v (e_solist e) (e_mmaps e) (e_times e).
Definition env_solist v e := mkZenv (e_forks e) (e_dir_ok e) (e_array_ok e) (e_libs e) (e_flags e) (e_maps e)
  (e_commits e) (e_unshare e) v (e_mmaps e) (e_times e).
Definition env_mmaps v e := mkZenv (e_forks e) (e_dir_ok e) (e_array_ok e) (e_libs e) (e_flags e) (e_maps e)
  (e_commits e) (e_unshare e) (e_solist e) v (e_times e).
Definition env_times v e := mkZenv (e_forks e) (e_dir_ok e) (e_array_ok e) (e_libs e) (e_flags e) (e_maps e)
  (e_commits e) (e_unshare e) (e_solist e) (e_mmaps e) v.

(** The next answer of a script, [d] when it is exhausted. *)
Definition pop {A} (f : zenv → list A) (upd : list A → zenv → zenv) (d : A) : prog zygote A :=
  s ← get;
  put (set_z_env (upd (tail (f (z_env s))) (z_env s)) s);;
  mret (default d (head (f (z_env s)))).

(** ** File descriptors *)

Definition close (fd : Z) : prog zygote unit := modify (λ s, set_open_fds (open_fds s ∖ {[fd]}) s).

(** [open_dir("/proc/self/fd")]: its descriptor. *)
Definition open_dir : prog zygote (option Z) :=
  ok ← pop e_dir_ok env_dir_ok true;
  s ← get;
  let dfd := lowest_fd (open_fds s) in
  if ok && (dfd <? 2 ^ 31)
  then put (set_open_fds (open_fds s ∪ {[dfd]}) s);; mret (Some dfd)
  else mret None.

(** The names [readdir] yields. *)
Definition fd_names (fds : gset Z) : list bytes := [txt "."; txt ".."] ++ (print_dec <$> elements fds).

(** [for (dirent *entry; (entry = readdir(dir.get()));)] with the body [f] on the parsed
    names. *)
Definition for_each_fd (f : Z → prog zygote unit) : prog zygote unit :=
  s ← get; for_each (fd_names (open_fds s)) (λ name, f (parse_int name)).

Definition in_range (fd : Z) : bool := (0 <=? fd) && (fd <? MAX_FD_SIZE).

Definition allow (fd : Z) : prog zygote unit :=
  modify (λ s, set_allowed_fds (allowed_fds s ∪ {[fd]}) s).

(** The loop of [fork_pre]; [allowed_fds[dirfd(dir.get())]] is an unchecked subscript. *)
Definition record_fds : prog zygote unit :=
  dir ← open_dir;
  match dir with
  | None => crash NullDeref
  | Some dfd =>
      for_each_fd (λ fd, if negb (in_range fd) then close fd else allow fd);;
      if in_range dfd then
        modify (λ s, set_allowed_fds (allowed_fds s ∖ {[dfd]}) s);;
        close dfd
      else crash OutOfBounds
  end.

Definition fork_pre : prog zygote unit :=
  sigmask true;;
  z_emit ZOldFork;;
  pid ← pop e_forks env_forks (-1);
  modify (set_z_pid pid);;
  s ← get;
  if negb (pid =? 0) || flag SKIP_FD_SANITIZATION s then mret tt
  else record_fds.

(** The lambda [update_fd_array(off)], [old] being the first [off] elements that are copied in
    afterwards. *)
Definition update_fd_array (old : list Z) : prog zygote unit :=
  s ← get;
  match exempted_fds s with
  | [] => mret tt
  | _ =>
      ok ← pop e_array_ok env_array_ok true;
      when ok
        (for_each (exempted_fds s) (λ fd, when (in_range fd) (allow fd));;
         modify (λ s', set_flag SKIP_FD_SANITIZATION
                         (set_fds_to_ignore (Some (old ++ exempted_fds s)) s')))
  end.

(** The loop of [sanitize_fds]. *)
Definition close_forbidden : prog zygote unit :=
  dir ← open_dir;
  match dir with
  | None => crash NullDeref
  | Some dfd =>
      for_each_fd (λ fd,
        s ← get;
        when ((negb (in_range fd) || negb (bool_decide (fd ∈ allowed_fds s))) && negb (fd =? dfd))
          (close fd));;
      close dfd
  end.

(** The part of [sanitize_fds] about [fds_to_ignore]. *)
Definition allow_exempted : prog zygote unit :=
  s ← get;
  match fds_to_ignore s with
  | Some arr =>
      for_each arr (λ fd, when (in_range fd) (allow fd));;
      update_fd_array arr
  | None => update_fd_array []
  end.

Definition sanitize_fds : prog zygote unit :=
  s ← get;
  if flag SKIP_FD_SANITIZATION s then mret tt
  else
    when (flag APP_FORK_AND_SPECIALIZE s) allow_exempted;;
    s ← get;
    if negb (z_pid s =? 0) then mret tt else close_forbidden.

Definition exempt_fd (fd : Z) : prog zygote bool :=
  s ← get;
  if flag POST_SPECIALIZE s || flag SKIP_FD_SANITIZATION s then mret true
  else if negb (flag APP_FORK_AND_SPECIALIZE s) then mret false
  else modify (λ s, set_exempted_fds (exempted_fds s ++ [fd]) s);; mret true.

Definition fork_post : prog zygote unit :=
  sigmask false;;
  modify (set_has_ctx false).

(** ** PLT hooks *)

Section zygote.
(** The C library's regular expressions: whether a pattern compiles, whether it matches. *)
Context (regcomp : bytes → bool) (regexec : bytes → bytes → bool).

(** The null checks of the arguments are those of the pointers a module passes. *)
Definition plt_hook_register (regex symbol : bytes) (fn backup : Z) : prog zygote unit :=
  if fn =? 0 then mret tt
  else when (regcomp regex)
    (modify (λ s, set_register_info (register_info s ++ [mkRegister regex symbol fn backup]) s)).

Definition plt_hook_exclude (regex : bytes) (symbol : option bytes) : prog zygote unit :=
  when (regcomp regex)
    (modify (λ s, set_ignore_info (ignore_info s ++ [mkIgnore regex (default [] symbol)]) s)).

Definition map_eligible (m : MapInfo) : bool :=
  (map_offset m =? 0) && map_private m && negb (map_perms m &&& PROT_READ =? 0).

Definition ignored (ign : list IgnoreInfo) (path symbol : bytes) : bool :=
  existsb (λ i, regexec (ig_regex i) path &&
                (bool_decide (ig_symbol i = []) || bool_decide (ig_symbol i = symbol))) ign.

Definition RegisterHook (dev inode : Z) (symbol : bytes) (callback : Z) : prog zygote unit :=
  z_emit (ZRegisterHook dev inode symbol callback).

Definition CommitHook : prog zygote bool :=
  z_emit ZCommitHook;; pop e_commits env_commits true.

Definition Scan_maps : prog zygote (list MapInfo) := pop e_maps env_maps [].

Definition plt_hook_process_regex : prog zygote unit :=
  s ← get;
  match register_info s with
  | [] => mret tt
  | regs =>
      maps ← Scan_maps;
      for_each maps (λ m,
        when (map_eligible m)
          (for_each regs (λ r,
             when (regexec (ri_regex r) (map_path m) &&
                   negb (ignored (ignore_info s) (map_path m) (ri_symbol r)))
               (RegisterHook (map_dev m) (map_inode m) (ri_symbol r) (ri_callback r)))))
  end.

Definition plt_hook_commit : prog zygote bool :=
  plt_hook_process_regex;;
  modify (λ s, set_ignore_info [] (set_register_info [] s));;
  CommitHook.

(** ** Modules *)

Definition getFlags : prog zygote Z :=
  s ← get; mret (if has_ctx s then info_flags s &&& wrapu 32 (Z.lnot PRIVATE_MASK) else 0).

Definition set_unload (id : nat) (ms : list zmodule) : list zmodule :=
  (λ m, if bool_decide (zm_id m = id)
        then mkModule (zm_id m) true (zm_handle m) (zm_mod m) (zm_code m) else m) <$> ms.

Definition setOption (id : nat) (o : Option_) : prog zygote unit :=
  s ← get;
  when (has_ctx s)
    match o with
    | FORCE_DENYLIST_UNMOUNT => modify (set_flag DO_REVERT_UNMOUNT)
    | DLCLOSE_MODULE_LIBRARY => modify (λ s, set_z_modules (set_unload id (z_modules s)) s)
    end.

(** [*mod.api_version] of module [id]. *)
Definition mod_of (id : nat) (s : zygote) : option Z :=
  m ← List.find (λ m, (zm_id m =? id)%nat) (z_modules s); zm_mod m.

(** The entries [RegisterModuleImpl] fills in for a module of the given version. *)
Definition filled (v : option Z) (c : api_call) : bool :=
  match v with
  | None => false
  | Some v =>
      match c with
      | AOpen _ | AClose _ => true
      | ASetOption _ => 1 <=? v
      | APltRegister _ _ _ _ | APltExclude _ _ | APltCommit => (1 <=? v) && (v <? 4)
      | APltRegister4 _ _ _ _ _ | AExemptFd _ | APltCommit4 => 4 <=? v
      end
  end.

(** The function behind an entry of the table. *)
Definition api_fn (id : nat) (c : api_call) : prog zygote unit :=
  match c with
  | AOpen _ | AClose _ => mret tt
  | ASetOption o => setOption id o
  | APltRegister re sym fn backup => s ← get; when (has_ctx s) (plt_hook_register re sym fn backup)
  | APltExclude re sym => s ← get; when (has_ctx s) (plt_hook_exclude re sym)
  | APltCommit => s ← get; when (has_ctx s) (plt_hook_commit;; mret tt)
  | APltRegister4 dev inode sym fn backup =>
      when (negb (dev =? 0) && negb (inode =? 0) && negb (fn =? 0)) (RegisterHook dev inode sym fn)
  | AExemptFd fd => s ← get; when (has_ctx s) (exempt_fd fd;; mret tt)
  | APltCommit4 => CommitHook;; mret tt
  end.

(** One action of module [id]; [Api]'s wrappers skip an entry that is null. *)
Definition perform (id : nat) (c : api_call) : prog zygote unit :=
  match c with
  | AOpen fd => when ((0 <=? fd) && (fd <? 2 ^ 31)) (modify (λ s, set_open_fds (open_fds s ∪ {[fd]}) s))
  | AClose fd => close fd
  | _ => s ← get; when (filled (mod_of id s) c) (api_fn id c)
  end.

(** [RegisterModuleImpl]: the answer, and [mod] set if it is [true]. *)
Definition RegisterModuleImpl (id : nat) (api_version : Z) : prog zygote bool :=
  if ZYGISK_API_VERSION <? api_version then mret false
  else
    modify (λ s, set_z_modules
      ((λ m, if bool_decide (zm_id m = id)
             then mkModule (zm_id m) (zm_unload m) (zm_handle m) (Some api_version) (zm_code m)
             else m) <$> z_modules s) s);;
    mret true.

(** [entry.fn(&api, env)]: [entry_impl] registers first and returns if that fails; a library
    with an entry of its own may not register at all. *)
Definition onLoad (id : nat) (code : module_code) : prog zygote unit :=
  match mc_register code with
  | Some v => ok ← RegisterModuleImpl id v; when ok (for_each (mc_on_load code) (perform id))
  | None => for_each (mc_on_load code) (perform id)
  end.

(** [call_app]: [*mod.api_version] is read without a null check. *)
Definition call_app (pre : bool) (id : nat) (calls : list api_call) : prog zygote unit :=
  s ← get;
  match mod_of id s with
  | None => crash NullDeref
  | Some v =>
      when ((1 <=? v) && (v <=? 5)) (z_emit (ZCallApp pre id);; for_each calls (perform id))
  end.

Definition call_server (pre : bool) (id : nat) (calls : list api_call) : prog zygote unit :=
  s ← get;
  match mod_of id s with
  | None => crash NullDeref
  | Some v => z_emit (ZCallServer pre id);; for_each calls (perform id)
  end.

(** The modules that could be loaded, with their index in the daemon's list. *)
Definition load (i : nat) (c : module_code) : list zmodule :=
  match mc_handle c with
  | Some h => if mc_entry c then [mkModule i false h None c] else []
  | None => []
  end.

Definition run_modules_pre : prog zygote unit :=
  s ← get;
  let ms := mjoin (imap load (e_libs (z_env s))) in
  modify (set_z_modules (z_modules s ++ ms));;
  for_each (z_modules s ++ ms) (λ m,
    onLoad (zm_id m) (zm_code m);;
    s ← get;
    if flag APP_SPECIALIZE s then call_app true (zm_id m) (mc_pre (zm_code m))
    else when (flag SERVER_FORK_AND_SPECIALIZE s)
           (call_server true (zm_id m) (mc_pre (zm_code m)))).

Definition tryUnload (id : nat) : prog zygote unit :=
  s ← get;
  match List.find (λ m, (zm_id m =? id)%nat) (z_modules s) with
  | Some m => when (zm_unload m) (z_emit (ZDlclose (zm_handle m)))
  | None => mret tt
  end.

(** ** Hiding the library *)

(** The mapping is copied to shared memory that takes its place. *)
Definition replace_mapping (m : MapInfo) : prog zygote unit :=
  let size := map_end m - map_start m in
  when (map_perms m &&& PROT_READ =? 0) (z_emit (ZMprotect (map_start m) size PROT_READ));;
  z_emit (ZReplaceByCopy (map_start m) size);;
  z_emit (ZMprotect (map_start m) size (map_perms m)).

Definition remap_jit_cache : prog zygote unit :=
  maps ← Scan_maps;
  for_each maps (λ m,
    when (contains (txt "jit-cache-zygisk") (cstr (map_path m)))
      (ok ← pop e_mmaps env_mmaps true;
       when ok (replace_mapping m))).

Definition charset : bytes := txt "abcdefghijklmnopqrstuvwxyzABCDEFGHIJKLMNOPQRSTUVWXYZ0123456789".

(** The C library's [rand] after [srand(seed)]: the results of successive calls. *)
Context (rand : Z → nat → Z).

Definition generateRandomString (seed : Z) (length : nat) : bytes :=
  (λ i, default NUL (charset !! Z.to_nat (rand seed i mod 62))) <$> seq 0 length.

(** Here the result of [mmap] is not looked at before it is written to. *)
Definition copy_mapping (m : MapInfo) : prog zygote unit :=
  let size := map_end m - map_start m in
  ok ← pop e_mmaps env_mmaps true;
  when (map_perms m &&& PROT_READ =? 0) (z_emit (ZMprotect (map_start m) size PROT_READ));;
  if negb ok then crash OutOfBounds
  else
    z_emit (ZReplaceByCopy (map_start m) size);;
    z_emit (ZMprotect (map_start m) size (map_perms m)).

Definition remap_anonymous : prog zygote unit :=
  maps ← Scan_maps;
  for_each maps (λ m,
    when (negb (map_perms m &&& PROT_EXEC =? 0) && bool_decide (map_path m = []))
      (now ← pop e_times env_times 0;
       z_emit (ZNameVma (map_start m) (map_end m - map_start m) (generateRandomString now 10)));;
    when (negb (map_perms m &&& PROT_EXEC =? 0) && (map_dev m =? 0) && contains (txt "anon") (map_path m))
      (copy_mapping m)).

Definition run_modules_post : prog zygote unit :=
  modify (set_flag POST_SPECIALIZE);;
  s ← get;
  for_each (z_modules s) (λ m,
    s ← get;
    (if flag APP_SPECIALIZE s then call_app false (zm_id m) (mc_post (zm_code m))
     else when (flag SERVER_FORK_AND_SPECIALIZE s)
            (call_server false (zm_id m) (mc_post (zm_code m))));;
    tryUnload (zm_id m));;
  ok ← pop e_solist env_solist true;
  when ok (z_emit (ZNullifySoName (txt "jit-cache")));;
  remap_jit_cache;;
  remap_anonymous.

(** ** Specialisation *)

Definition setfd (fd : Z) : prog zygote unit :=
  s ← get; close (log_fd s);; modify (set_log_fd fd).

Definition has_all (flags mask : Z) : bool := flags &&& mask =? mask.

Definition app_specialize_pre (uid : Z) : prog zygote unit :=
  modify (set_flag APP_SPECIALIZE);;
  modify (λ s, set_info_flags (e_flags (z_env s) uid) s);;
  s ← get;
  when (has_all (info_flags s) PROCESS_ON_DENYLIST) (modify (set_flag DO_REVERT_UNMOUNT));;
  if has_all (info_flags s) (PROCESS_IS_MANAGER ||| PROCESS_ROOT_IS_MAGISK)
  then z_emit ZSetenv
  else run_modules_pre.

Definition app_specialize_post : prog zygote unit :=
  run_modules_post;;
  modify (set_has_ctx false);;
  setfd (-1).

Definition nativeSpecializeAppProcess_pre (uid : Z) : prog zygote unit :=
  modify (set_flag SKIP_FD_SANITIZATION);; app_specialize_pre uid.

Definition nativeSpecializeAppProcess_post : prog zygote unit := app_specialize_post.

Definition nativeForkSystemServer_pre : prog zygote unit :=
  modify (set_flag SERVER_FORK_AND_SPECIALIZE);;
  fork_pre;;
  s ← get;
  if negb (z_pid s =? 0) then mret tt
  else run_modules_pre;; z_emit ZServerStarted;; sanitize_fds.

Definition nativeForkSystemServer_post : prog zygote unit :=
  s ← get;
  when (z_pid s =? 0) run_modules_post;;
  fork_post.

(** [sanitize]: the sanitising of the descriptors that ends it. *)
Definition fork_and_specialize (sanitize : prog zygote unit) (uid : Z) : prog zygote unit :=
  modify (set_flag APP_FORK_AND_SPECIALIZE);;
  s ← get;
  when (negb (log_fd s =? -1))
    (modify (λ s, set_exempted_fds (exempted_fds s ++ [log_fd s]) s));;
  fork_pre;;
  s ← get;
  when (z_pid s =? 0) (app_specialize_pre uid);;
  sanitize.

Definition nativeForkAndSpecialize_pre (uid : Z) : prog zygote unit := fork_and_specialize sanitize_fds uid.

Definition nativeForkAndSpecialize_post : prog zygote unit :=
  s ← get;
  when (z_pid s =? 0) app_specialize_post;;
  fork_post.

(** ** Hooked functions *)

Definition new_fork : prog zygote Z :=
  s ← get;
  if has_ctx s && (0 <=? z_pid s) then mret (z_pid s)
  else z_emit ZOldFork;; pop e_forks env_forks (-1).

Definition CLONE_NEWNS : Z := 131072.

Definition new_unshare (flags : Z) : prog zygote Z :=
  res ← pop e_unshare env_unshare (-1);
  s ← get;
  when (has_ctx s && negb (flags &&& CLONE_NEWNS =? 0) && (res =? 0) &&
        (info_flags s &&& PROCESS_IS_SYS_UI =? 0))
    (when (flag DO_REVERT_UNMOUNT s)
       (if negb (info_flags s &&& PROCESS_ROOT_IS_KSU =? 0) then z_emit ZRevertKsu
        else if negb (info_flags s &&& PROCESS_ROOT_IS_APATCH =? 0) then z_emit ZRevertApatch
        else when (negb (info_flags s &&& PROCESS_ROOT_IS_MAGISK =? 0)) (z_emit ZRevertMagisk)));;
  mret res.

Definition new_android_log_close : prog zygote unit :=
  s ← get;
  when (negb (has_ctx s) || negb (flag SKIP_FD_SANITIZATION s)) (setfd (-1));;
  z_emit ZLogClose.
End zygote.

(** ** Lemmas on descriptors *)

Definition fds_ok (s : zygote) : Prop := ∀ fd, fd ∈ open_fds s → 0 <= fd < 2 ^ 31.

Lemma parse_dot : parse_int (txt ".") = -1 ∧ parse_int (txt "..") = -1.
Proof. done. Qed.

(** The loop over the directory is a loop over -1 (twice) and the descriptors. *)
Lemma for_each_names (l : list Z) (f : Z → prog zygote unit) s :
  (∀ fd, fd ∈ l → 0 <= fd < 2 ^ 31) →
  for_each ([txt "."; txt ".."] ++ (print_dec <$> l)) (λ name, f (parse_int name)) s =
  for_each (-1 :: -1 :: l) f s.
Proof.
  intros Hl. assert (∀ l, (∀ fd, fd ∈ l → 0 <= fd < 2 ^ 31) → ∀ s,
    for_each (print_dec <$> l) (λ name, f (parse_int name)) s = for_each l f s) as H.
  { clear. intros l. induction l as [|fd l IH]; intros Hl s; [done|]. rewrite fmap_cons. cbn [for_each].
    rewrite parse_int_u32 by (apply Hl; by left). unfold mbind, prog_bind.
    destruct (f fd s) as [[] s']; try done. apply IH. intros. apply Hl. by right. }
  cbn [app for_each]. rewrite (proj1 parse_dot), (proj2 parse_dot). unfold mbind, prog_bind.
  destruct (f (-1) s) as [[] s1]; try done. destruct (f (-1) s1) as [[] s2]; try done. by apply H.
Qed.

Lemma for_each_allow l s :
  for_each l (λ fd, when (in_range fd) (allow fd)) s =
  (Ret tt, set_allowed_fds (allowed_fds s ∪ list_to_set (filter (λ fd, in_range fd = true) l)) s).
Proof.
  revert s. induction l as [|fd l IH]; intros s.
  - simpl. rewrite (right_id_L ∅ (∪)). by destruct s.
  - cbn [for_each]. destruct (in_range fd) eqn:E.
    + unfold when, allow. step. rewrite IH. cbn [allowed_fds set_allowed_fds].
      rewrite filter_cons_True by done. cbn [list_to_set]. by rewrite (assoc_L (∪)).
    + unfold when. step. rewrite IH. by rewrite filter_cons_False by congruence.
Qed.

(** Closing the descriptors of [l] that are bad. *)
Lemma for_each_close (bad : Z → bool) (f : Z → prog zygote unit) l s :
  (∀ fd s', allowed_fds s' = allowed_fds s → f fd s' =
     (Ret tt, if bad fd then set_open_fds (open_fds s' ∖ {[fd]}) s' else s')) →
  for_each l f s = (Ret tt, set_open_fds (open_fds s ∖ list_to_set (filter (λ fd, bad fd = true) l)) s).
Proof.
  intros Hf. revert s Hf. induction l as [|fd l IH]; intros s Hf.
  - simpl. rewrite (difference_empty_L). by destruct s.
  - cbn [for_each]. step_with (Hf fd s eq_refl). destruct (bad fd) eqn:E.
    + rewrite IH by (intros; by apply Hf). cbn [open_fds set_open_fds].
      rewrite filter_cons_True by done. cbn [list_to_set]. by rewrite difference_difference_l_L.
    + rewrite IH by (intros; by apply Hf). by rewrite filter_cons_False by congruence.
Qed.
