(* ===== verification/ContextSpec.v ===== *)
(** * ContextSpec: what the context guarantees around a fork

    The theorems about [Context]: which descriptors a forked child keeps ([sanitize_fds] on its
    own, then the whole of [nativeForkAndSpecialize_pre] and [nativeForkSystemServer_pre] with
    arbitrary well-behaved modules), that the zygote forks once, which PLT hooks are registered,
    and that the denylist is honoured.  What a module may change is the relation
    [module_frame]; [Returns] carries it, together with the absence of crashes, through every
    call a module makes. *)

From Stdlib Require Import ZArith Lia Ascii.
From stdpp Require Import base tactics strings list gmap numbers.
From S2P Require Import Prelude Misc MountInfo Maps Remote Context.
From S2P Require Zygiskd.

Local Open Scope mach_scope.

(** ** The two loops over /proc/self/fd *)

(** The environment lets the directory be opened. *)
Definition dir_opens (s : zygote) : bool :=
  default true (head (e_dir_ok (z_env s))) && (lowest_fd (open_fds s) <? 2 ^ 31).

Definition next_dir (s : zygote) : zygote := set_z_env (env_dir_ok (tail (e_dir_ok (z_env s))) (z_env s)) s.

Definition in_range_fds (fds : gset Z) : gset Z := filter (λ fd, in_range fd = true) fds.

Definition kept_fds (s : zygote) : gset Z :=
  filter (λ fd, in_range fd = true ∧ fd ∈ allowed_fds s) (open_fds s).

Lemma open_dir_run s :
  open_dir s = if dir_opens s
    then (Ret (Some (lowest_fd (open_fds s))),
          set_open_fds (open_fds s ∪ {[lowest_fd (open_fds s)]}) (next_dir s))
    else (Ret None, next_dir s).
Proof.
  unfold open_dir, pop. rewrite prog_bind_assoc. step. rewrite prog_bind_assoc. step. step. step.
  change (open_fds (set_z_env _ s)) with (open_fds s). unfold dir_opens.
  by destruct (default true _ && _).
Qed.

Lemma for_each_fd_run (f : Z → prog zygote unit) s :
  fds_ok s → for_each_fd f s = for_each (-1 :: -1 :: elements (open_fds s)) f s.
Proof.
  intros H. unfold for_each_fd. step. unfold fd_names. apply for_each_names.
  intros fd Hfd. apply H. by apply elem_of_elements in Hfd.
Qed.

Lemma close_forbidden_run s :
  fds_ok s →
  close_forbidden s = if dir_opens s then (Ret tt, set_open_fds (kept_fds s) (next_dir s))
                      else (Crash NullDeref, next_dir s).
Proof.
  intros Hok. unfold close_forbidden.
  destruct (dir_opens s) eqn:Ho.
  2: { unfold mbind, prog_bind. rewrite open_dir_run, Ho. done. }
  pose proof (open_dir_run s) as E. rewrite Ho in E. step_with E. clear E.
  destruct (lowest_fd_fresh (open_fds s)) as [Hf H0]. unfold dir_opens in Ho.
  bool_to_prop. set (dfd := lowest_fd (open_fds s)) in *.
  set (s1 := set_open_fds (open_fds s ∪ {[dfd]}) (next_dir s)).
  assert (fds_ok s1) as Hok1.
  { intros fd. cbn [open_fds set_open_fds s1]. rewrite elem_of_union, elem_of_singleton. intros [?| ->]; [by apply Hok | lia]. }
  set (bad := λ fd, (negb (in_range fd) || negb (bool_decide (fd ∈ allowed_fds s))) && negb (fd =? dfd)).
  unshelve epose proof (for_each_close bad (λ fd, s ← get;
    when ((negb (in_range fd) || negb (bool_decide (fd ∈ allowed_fds s))) && negb (fd =? dfd)) (close fd))
    (-1 :: -1 :: elements (open_fds s1)) s1 _) as E.
  { intros fd s' Hs'. cbv beta. step. rewrite Hs'. change (allowed_fds s1) with (allowed_fds s).
    fold (bad fd). by destruct (bad fd). }
  rewrite <- for_each_fd_run in E by done. step_with E.
  unfold close, modify. f_equal. unfold set_open_fds.
  cbn [has_ctx z_pid z_flags info_flags allowed_fds exempted_fds fds_to_ignore register_info ignore_info
       z_modules should_unmap open_fds log_fd z_env z_log s1]. f_equal.
  apply set_eq. intros fd. unfold kept_fds.
  rewrite !elem_of_difference, elem_of_list_to_set, list_elem_of_filter, !elem_of_cons, elem_of_elements,
    elem_of_filter. change (open_fds s1) with (open_fds s ∪ {[dfd]}).
  rewrite !elem_of_union, !elem_of_singleton.
  subst bad. cbv beta. destruct (decide (fd = dfd)) as [->|Hn].
  - split; [tauto|]. intros [_ ?]. done.
  - rewrite (proj2 (Z.eqb_neq fd dfd) Hn), andb_true_r. cbn [negb].
    destruct (in_range fd) eqn:Er, (bool_decide (fd ∈ allowed_fds s)) eqn:Ea; bool_to_prop; cbn [orb negb];
      split; try tauto; intros; split_and!; try tauto; try (intros [? ?]; congruence); naive_solver.
Qed.

Lemma for_each_record l s :
  for_each l (λ fd, if negb (in_range fd) then close fd else allow fd) s =
  (Ret tt, set_allowed_fds (allowed_fds s ∪ list_to_set (filter (λ fd, in_range fd = true) l))
             (set_open_fds (open_fds s ∖ list_to_set (filter (λ fd, in_range fd = false) l)) s)).
Proof.
  revert s. induction l as [|fd l IH]; intros s.
  - simpl. rewrite (right_id_L ∅ (∪)), difference_empty_L. by destruct s.
  - cbn [for_each]. destruct (in_range fd) eqn:E; cbn [negb].
    + unfold allow. step. rewrite IH. cbn [allowed_fds open_fds set_allowed_fds].
      rewrite filter_cons_True, filter_cons_False by congruence. cbn [list_to_set].
      by rewrite (assoc_L (∪)).
    + unfold close. step. rewrite IH. cbn [allowed_fds open_fds set_open_fds].
      rewrite filter_cons_False, filter_cons_True by congruence. cbn [list_to_set].
      by rewrite difference_difference_l_L.
Qed.

Lemma record_fds_run s :
  fds_ok s → default true (head (e_dir_ok (z_env s))) = true → lowest_fd (open_fds s) < MAX_FD_SIZE →
  record_fds s =
  (Ret tt, set_open_fds (in_range_fds (open_fds s))
             (set_allowed_fds ((allowed_fds s ∪ in_range_fds (open_fds s)) ∖ {[lowest_fd (open_fds s)]})
                (next_dir s))).
Proof.
  intros Hok Hd Hl. unfold MAX_FD_SIZE in Hl. unfold record_fds.
  pose proof (open_dir_run s) as E.
  assert (dir_opens s = true) as Ho by (unfold dir_opens; rewrite Hd; apply Z.ltb_lt; lia).
  rewrite Ho in E. step_with E. clear E.
  destruct (lowest_fd_fresh (open_fds s)) as [Hf H0].
  set (dfd := lowest_fd (open_fds s)) in *.
  set (s1 := set_open_fds (open_fds s ∪ {[dfd]}) (next_dir s)).
  assert (fds_ok s1) as Hok1.
  { intros fd. cbn [open_fds set_open_fds s1]. rewrite elem_of_union, elem_of_singleton.
    intros [?| ->]; [by apply Hok | lia]. }
  pose proof (for_each_record (-1 :: -1 :: elements (open_fds s1)) s1) as E.
  rewrite <- for_each_fd_run in E by done. step_with E. clear E.
  assert (in_range dfd = true) as -> by (unfold in_range, MAX_FD_SIZE; rewrite andb_true_iff; lia).
  step. unfold close, modify. f_equal. unfold set_open_fds, set_allowed_fds.
  cbn [has_ctx z_pid z_flags info_flags allowed_fds exempted_fds fds_to_ignore register_info ignore_info
       z_modules should_unmap open_fds log_fd z_env z_log s1].
  assert (in_range (-1) = false) as E1 by done.
  f_equal; apply set_eq; intros fd; unfold in_range_fds; change (open_fds s1) with (open_fds s ∪ {[dfd]});
    change (allowed_fds s1) with (allowed_fds s);
    rewrite ?elem_of_difference, ?elem_of_union, ?elem_of_difference, ?elem_of_list_to_set,
      ?list_elem_of_filter, ?elem_of_cons, ?elem_of_elements, ?elem_of_filter, ?elem_of_union,
      ?elem_of_singleton.
  - naive_solver.
  - destruct (in_range fd) eqn:Ei; naive_solver.
Qed.

(** ** What a module can change *)

(** How often the original [fork] was called. *)
Definition fork_calls (s : zygote) : nat :=
  length (List.filter (λ e, match e with ZOldFork => true | _ => false end) (z_log s)).

Record module_frame (N : Z) (s s' : zygote) : Prop := {
  mf_allowed : allowed_fds s' = allowed_fds s;
  mf_pid : z_pid s' = z_pid s;
  mf_ignore : fds_to_ignore s' = fds_to_ignore s;
  mf_flags : ∀ f, f ≠ DO_REVERT_UNMOUNT → flag f s' = flag f s;
  mf_ctx : has_ctx s' = has_ctx s;
  mf_info : info_flags s' = info_flags s;
  mf_exempted : exempted_fds s `prefix_of` exempted_fds s';
  mf_dirs : e_dir_ok (z_env s') = e_dir_ok (z_env s);
  mf_arrays : e_array_ok (z_env s') = e_array_ok (z_env s);
  mf_unshare : e_unshare (z_env s') = e_unshare (z_env s);
  mf_forks : fork_calls s' = fork_calls s;
  mf_revert : flag DO_REVERT_UNMOUNT s = true → flag DO_REVERT_UNMOUNT s' = true;
  mf_ids : zm_id <$> z_modules s' = zm_id <$> z_modules s;
  mf_mods : ∀ id, is_Some (mod_of id s) → is_Some (mod_of id s');
  mf_fds : fds_ok s → fds_ok s';
  mf_free : N ∉ open_fds s → N ∉ open_fds s'
}.

#[export] Instance module_frame_preorder N : PreOrder (module_frame N).
Proof.
  split.
  - intros s. by constructor.
  - intros s1 s2 s3 [] []. constructor; try (by etransitivity); auto.
    intros f Hf. etransitivity; eauto.
Qed.

Lemma mod_of_set_modules (g : zmodule → zmodule) id s :
  (∀ m, zm_id (g m) = zm_id m) → (∀ m, is_Some (zm_mod m) → is_Some (zm_mod (g m))) →
  is_Some (mod_of id s) → is_Some (mod_of id (set_z_modules (g <$> z_modules s) s)).
Proof.
  intros Hi Hm. unfold mod_of. cbn [z_modules set_z_modules].
  induction (z_modules s) as [|m ms IH]; [done|]. rewrite fmap_cons. cbn [List.find].
  rewrite Hi. destruct (zm_id m =? id)%nat; [apply Hm | apply IH].
Qed.

Lemma ids_set_modules (g : zmodule → zmodule) (ms : list zmodule) :
  (∀ m, zm_id (g m) = zm_id m) → zm_id <$> (g <$> ms) = zm_id <$> ms.
Proof. intros H. rewrite <- list_fmap_compose. apply list_fmap_ext. intros i m _. apply H. Qed.

Lemma flag_set_flag f g s : f ≠ g → flag f (set_flag g s) = flag f s.
Proof.
  intros. unfold flag, set_flag. apply bool_decide_ext. cbn [z_flags set_z_flags].
  rewrite elem_of_union, elem_of_singleton. naive_solver.
Qed.

Lemma flag_set_flag_eq f s : flag f (set_flag f s) = true.
Proof.
  unfold flag, set_flag. apply bool_decide_eq_true. cbn [z_flags set_z_flags].
  rewrite elem_of_union, elem_of_singleton. by right.
Qed.

(** A state change outside of what the frame speaks about. *)
Ltac outside_frame := constructor; cbn; try done; try reflexivity; auto using prefix_app_r.

Section frame.
Context (regcomp : bytes → bool) (regexec : bytes → bytes → bool) (N : Z).

Lemma z_emit_frame e s : e ≠ ZOldFork → Returns (module_frame N) (z_emit e) s.
Proof.
  intros He. apply returns_modify. outside_frame. unfold fork_calls. cbn [z_log set_z_log].
  rewrite List.filter_app, length_app. destruct e; done || (cbn; lia).
Qed.

Lemma pop_maps_frame s : Returns (module_frame N) Scan_maps s.
Proof. eapply returns_run; [reflexivity|]. outside_frame. Qed.

Lemma CommitHook_frame s : Returns (module_frame N) CommitHook s.
Proof.
  unfold CommitHook. walk_returns; [by apply z_emit_frame|].
  eapply returns_run; [reflexivity|]. outside_frame.
Qed.

Lemma plt_hook_commit_frame s : Returns (module_frame N) (plt_hook_commit regexec) s.
Proof.
  unfold plt_hook_commit. walk_returns; [|by apply returns_modify; outside_frame | apply CommitHook_frame].
  unfold plt_hook_process_regex. walk_returns; [apply pop_maps_frame|].
  apply returns_for_each; [apply _|]. intros. walk_returns.
  apply returns_for_each; [apply _|]. intros. walk_returns. by apply z_emit_frame.
Qed.

Lemma exempt_fd_frame fd s : Returns (module_frame N) (exempt_fd fd) s.
Proof.
  unfold exempt_fd. walk_returns. apply returns_modify. outside_frame.
Qed.

Lemma setOption_frame id o s : Returns (module_frame N) (setOption id o) s.
Proof.
  unfold setOption. walk_returns; apply returns_modify; outside_frame.
  - intros f Hf. by apply flag_set_flag.
  - intros _. apply flag_set_flag_eq.
  - apply ids_set_modules. intros m. by case_bool_decide.
  - intros i. apply mod_of_set_modules; intros m; by case_bool_decide.
Qed.

Lemma perform_frame id c s :
  c ≠ AOpen N → Returns (module_frame N) (perform regcomp regexec id c) s.
Proof.
  intros HN. unfold perform, api_fn. destruct c; walk_returns;
    auto using z_emit_frame, CommitHook_frame, plt_hook_commit_frame, exempt_fd_frame, setOption_frame.
  - apply returns_modify. outside_frame.
    + intros H' fd'. cbn. rewrite elem_of_union, elem_of_singleton. bool_to_prop.
      intros [?| ->]; [by apply H' | lia].
    + rewrite not_elem_of_union, not_elem_of_singleton. split; [done | congruence].
  - unfold close. apply returns_modify. outside_frame.
    + intros H' fd'. cbn. rewrite elem_of_difference. intros [? _]. by apply H'.
    + rewrite elem_of_difference. tauto.
  - unfold plt_hook_register. walk_returns. apply returns_modify. outside_frame.
  - unfold plt_hook_exclude. walk_returns. apply returns_modify. outside_frame.
  - by apply z_emit_frame.
Qed.

(** A module that registers with a version the loader knows and never opens [N]. *)
Definition well_behaved (c : module_code) : Prop :=
  (∃ v, mc_register c = Some v ∧ v <= ZYGISK_API_VERSION) ∧
  AOpen N ∉ mc_on_load c ∧ AOpen N ∉ mc_pre c ∧ AOpen N ∉ mc_post c.

Lemma performs_frame id l s :
  AOpen N ∉ l → Returns (module_frame N) (for_each l (perform regcomp regexec id)) s.
Proof.
  intros HN. apply returns_for_each; [apply _|]. intros c s' Hc _. apply perform_frame.
  by intros ->.
Qed.

Lemma RegisterModuleImpl_run id v s :
  v <= ZYGISK_API_VERSION → id ∈ zm_id <$> z_modules s →
  ∃ s', RegisterModuleImpl id v s = (Ret true, s') ∧ module_frame N s s' ∧ is_Some (mod_of id s').
Proof.
  intros Hv Hid. unfold RegisterModuleImpl. rewrite (proj2 (Z.ltb_ge _ _) Hv).
  eexists. split; [reflexivity|]. split.
  - outside_frame.
    + apply ids_set_modules. intros m. by case_bool_decide.
    + intros i. apply mod_of_set_modules; intros m; by case_bool_decide.
  - unfold mod_of. cbn [z_modules set_z_modules].
    apply list_elem_of_fmap in Hid as (m & -> & Hm).
    induction Hm as [m ms|m m' ms Hm IH]; rewrite fmap_cons; cbn [List.find].
    + rewrite bool_decide_eq_true_2 by done. cbn [zm_id]. rewrite Nat.eqb_refl. by eexists.
    + case_bool_decide as E; cbn [zm_id]; [rewrite E, Nat.eqb_refl; by eexists|].
      by rewrite (proj2 (Nat.eqb_neq _ _) E).
Qed.

Lemma onLoad_run id c s :
  well_behaved c → id ∈ zm_id <$> z_modules s →
  ∃ s', onLoad regcomp regexec id c s = (Ret tt, s') ∧ module_frame N s s' ∧ is_Some (mod_of id s').
Proof.
  intros ((v & Hr & Hv) & Hl & _) Hid. unfold onLoad. rewrite Hr.
  destruct (RegisterModuleImpl_run id v s Hv Hid) as (s1 & E & F1 & M1). step_with E.
  destruct (performs_frame id (mc_on_load c) s1 Hl) as ([] & s2 & E2 & F2).
  exists s2. split_and!; [done | by transitivity s1 | by apply (mf_mods _ _ _ F2)].
Qed.

Lemma call_app_frame pre id l s :
  AOpen N ∉ l → is_Some (mod_of id s) →
  Returns (module_frame N) (call_app regcomp regexec pre id l) s.
Proof.
  intros Hl [v Hv]. unfold call_app. apply returns_get_bind. rewrite Hv. walk_returns;
    auto using z_emit_frame, performs_frame.
Qed.

Lemma call_server_frame pre id l s :
  AOpen N ∉ l → is_Some (mod_of id s) →
  Returns (module_frame N) (call_server regcomp regexec pre id l) s.
Proof.
  intros Hl [v Hv]. unfold call_server. apply returns_get_bind. rewrite Hv. walk_returns;
    auto using z_emit_frame, performs_frame.
Qed.

Definition loaded (libs : list module_code) : list zmodule := mjoin (imap load libs).

Lemma loaded_code libs m : m ∈ loaded libs → zm_code m ∈ libs.
Proof.
  unfold loaded. rewrite list_elem_of_join. intros (l & Hm & Hl).
  apply list_elem_of_lookup_1 in Hl as [i Hi]. rewrite list_lookup_imap in Hi.
  destruct (libs !! i) as [c|] eqn:E; [|done]. injection Hi as <-.
  unfold load in Hm. destruct (mc_handle c), (mc_entry c); try (by apply not_elem_of_nil in Hm).
  apply list_elem_of_singleton in Hm as ->. by apply list_elem_of_lookup_2 in E.
Qed.

Lemma run_modules_pre_run s :
  z_modules s = [] → Forall well_behaved (e_libs (z_env s)) →
  ∃ s', run_modules_pre regcomp regexec s = (Ret tt, s') ∧
        module_frame N (set_z_modules (loaded (e_libs (z_env s))) s) s'.
Proof.
  intros Hm Hw. unfold run_modules_pre. step. rewrite Hm. cbn [app]. fold (loaded (e_libs (z_env s))).
  step. set (s1 := set_z_modules _ s).
  cut (Returns (module_frame N) (for_each (loaded (e_libs (z_env s))) (λ m,
    onLoad regcomp regexec (zm_id m) (zm_code m);;
    s ← get;
    if flag APP_SPECIALIZE s then call_app regcomp regexec true (zm_id m) (mc_pre (zm_code m))
    else when (flag SERVER_FORK_AND_SPECIALIZE s)
           (call_server regcomp regexec true (zm_id m) (mc_pre (zm_code m))))) s1).
  { intros ([] & s' & E & F). by exists s'. }
  apply returns_for_each; [apply _|]. intros m s2 Hin F2.
  assert (well_behaved (zm_code m)) as Hwm
    by (eapply list.Forall_forall; [exact Hw | by apply loaded_code]).
  destruct (onLoad_run (zm_id m) (zm_code m) s2 Hwm) as (s3 & E3 & F3 & M3).
  { rewrite (mf_ids _ _ _ F2). apply list_elem_of_fmap. by exists m. }
  pose proof Hwm as (_ & _ & Hp & _).
  apply returns_bind; [apply _ | by eapply returns_run |]. intros [] s3' E3' _.
  assert (s3' = s3) as -> by congruence. walk_returns; auto using call_app_frame, call_server_frame.
Qed.
End frame.

(** ** The allowed descriptors *)

(** Whether the exempted descriptors make it into the array handed to the zygote. *)
Definition exempts (s : zygote) : bool :=
  negb (bool_decide (exempted_fds s = [])) && default true (head (e_array_ok (z_env s))).

Definition ranged (l : list Z) : gset Z := list_to_set (filter (λ fd, in_range fd = true) l).

(** The state after [allow_exempted]. *)
Definition exempted (s : zygote) : zygote :=
  let old := default [] (fds_to_ignore s) in
  let s1 := set_allowed_fds (allowed_fds s ∪ ranged old) s in
  let s2 := if bool_decide (exempted_fds s = []) then s1
            else set_z_env (env_array_ok (tail (e_array_ok (z_env s))) (z_env s)) s1 in
  if exempts s
  then set_flag SKIP_FD_SANITIZATION (set_fds_to_ignore (Some (old ++ exempted_fds s))
         (set_allowed_fds (allowed_fds s ∪ ranged old ∪ ranged (exempted_fds s)) s2))
  else s2.

Lemma update_fd_array_run old s :
  update_fd_array old s =
  (Ret tt,
   let s2 := if bool_decide (exempted_fds s = []) then s
             else set_z_env (env_array_ok (tail (e_array_ok (z_env s))) (z_env s)) s in
   if exempts s
   then set_flag SKIP_FD_SANITIZATION (set_fds_to_ignore (Some (old ++ exempted_fds s))
          (set_allowed_fds (allowed_fds s ∪ ranged (exempted_fds s)) s2))
   else s2).
Proof.
  unfold update_fd_array, exempts. step. destruct (exempted_fds s) as [|fd l] eqn:El; [done|].
  rewrite bool_decide_eq_false_2 by done. cbn [negb andb]. unfold pop.
  rewrite prog_bind_assoc. step. rewrite prog_bind_assoc. step. step.
  destruct (default true _); cbn [when]; [|done]. step_with (for_each_allow (fd :: l)
    (set_z_env (env_array_ok (tail (e_array_ok (z_env s))) (z_env s)) s)). done.
Qed.

Lemma allow_exempted_run s : allow_exempted s = (Ret tt, exempted s).
Proof.
  unfold allow_exempted, exempted. step. destruct (fds_to_ignore s) as [arr|] eqn:Ei; cbn [default].
  - step_with (for_each_allow arr s). rewrite update_fd_array_run. f_equal.
  - rewrite update_fd_array_run. f_equal. unfold ranged. rewrite filter_nil. cbn [list_to_set].
    rewrite (right_id_L ∅ (∪)). cbn [app]. unfold exempts.
    destruct s; cbn. by destruct (negb _ && _), (bool_decide _).
Qed.

(** The descriptors [sanitize_fds] lets the child keep. *)
Definition may_keep (s : zygote) (fd : Z) : Prop :=
  fd ∈ allowed_fds s ∨
  flag APP_FORK_AND_SPECIALIZE s = true ∧
  (fd ∈ default [] (fds_to_ignore s) ∨ exempts s = true ∧ fd ∈ exempted_fds s).

Lemma exempted_allowed s fd :
  in_range fd = true →
  fd ∈ allowed_fds (exempted s) ↔
  fd ∈ allowed_fds s ∨ fd ∈ default [] (fds_to_ignore s) ∨ exempts s = true ∧ fd ∈ exempted_fds s.
Proof.
  intros Hr. unfold exempted. cbv zeta.
  assert (∀ l, fd ∈ ranged l ↔ fd ∈ l) as Hl.
  { intros l. unfold ranged. rewrite elem_of_list_to_set, list_elem_of_filter. tauto. }
  destruct (exempts s) eqn:E.
  - cbn [allowed_fds set_flag set_z_flags set_fds_to_ignore set_allowed_fds].
    rewrite !elem_of_union, !Hl. tauto.
  - destruct (bool_decide _); cbn [allowed_fds set_z_env set_allowed_fds];
      rewrite elem_of_union, Hl; naive_solver.
Qed.

Lemma exempted_frame s :
  open_fds (exempted s) = open_fds s ∧ z_pid (exempted s) = z_pid s ∧
  e_dir_ok (z_env (exempted s)) = e_dir_ok (z_env s) ∧ exempted_fds (exempted s) = exempted_fds s ∧
  z_log (exempted s) = z_log s ∧ has_ctx (exempted s) = has_ctx s.
Proof. unfold exempted. cbv zeta. by destruct (exempts s), (bool_decide _). Qed.

Lemma sanitize_fds_run s :
  flag SKIP_FD_SANITIZATION s = false → fds_ok s → (z_pid s = 0 → dir_opens s = true) →
  ∃ s', sanitize_fds s = (Ret tt, s') ∧ exempted_fds s' = exempted_fds s ∧ z_log s' = z_log s ∧
    z_pid s' = z_pid s ∧ has_ctx s' = has_ctx s ∧
    ∀ fd, fd ∈ open_fds s' ↔
      fd ∈ open_fds s ∧ (z_pid s = 0 → 0 <= fd < MAX_FD_SIZE ∧ may_keep s fd).
Proof.
  intros Hs Hok Hd. unfold sanitize_fds. step. rewrite Hs.
  set (s1 := if flag APP_FORK_AND_SPECIALIZE s then exempted s else s).
  assert (when (flag APP_FORK_AND_SPECIALIZE s) allow_exempted s = (Ret tt, s1)) as E.
  { unfold s1. destruct (flag APP_FORK_AND_SPECIALIZE s); [apply allow_exempted_run | done]. }
  step_with E. step. clear E. destruct (exempted_frame s) as (Fo & Fp & Fd & Fe & Fl & Fc).
  assert (open_fds s1 = open_fds s ∧ z_pid s1 = z_pid s ∧ exempted_fds s1 = exempted_fds s ∧
          z_log s1 = z_log s ∧ has_ctx s1 = has_ctx s ∧ dir_opens s1 = dir_opens s)
    as (Go & Gp & Ge & Gl & Gc & Gd).
  { unfold s1, dir_opens. destruct (flag APP_FORK_AND_SPECIALIZE s); [by rewrite Fo, Fd | done]. }
  rewrite Gp. destruct (z_pid s =? 0) eqn:Ep; bool_to_prop; cbn [negb].
  - eexists. split_and!.
    + rewrite close_forbidden_run, Gd, (Hd Ep) by (intros fd; rewrite Go; apply Hok). done.
    + done.
    + done.
    + done.
    + done.
    + intros fd. cbn [open_fds set_open_fds]. unfold kept_fds. rewrite elem_of_filter, Go.
      assert (in_range fd = true ↔ 0 <= fd < MAX_FD_SIZE) as Hr.
      { unfold in_range. rewrite andb_true_iff. lia. }
      assert (in_range fd = true → fd ∈ allowed_fds s1 ↔ may_keep s fd) as Ha.
      { intros Hr'. unfold s1, may_keep. destruct (flag APP_FORK_AND_SPECIALIZE s);
          [rewrite (exempted_allowed s fd Hr')|]; intuition congruence. }
      tauto.
  - exists s1. split_and!; [done.. |]. intros fd. rewrite Go. tauto.
Qed.

(** [sanitize_fds] in a forked child keeps exactly the descriptors below 1024 that were
    recorded as allowed, that the zygote's own array names or that are exempted (if the new
    array could be made); every other one is closed, the directory stream it reads included.
    In the parent nothing is closed. *)
Theorem sanitize_fds_spec s :
  flag SKIP_FD_SANITIZATION s = false → fds_ok s → (z_pid s = 0 → dir_opens s = true) →
  ∃ s', sanitize_fds s = (Ret tt, s') ∧ exempted_fds s' = exempted_fds s ∧ z_log s' = z_log s ∧
    z_pid s' = z_pid s ∧ has_ctx s' = has_ctx s ∧
    ∀ fd, fd ∈ open_fds s' ↔
      fd ∈ open_fds s ∧ (z_pid s = 0 → 0 <= fd < MAX_FD_SIZE ∧ may_keep s fd).
Proof. apply sanitize_fds_run. Qed.

(** ** Forking an application *)

(** What loading the modules leaves alone, as far as descriptors are concerned. *)
Record fd_frame (N : Z) (s s' : zygote) : Prop := {
  ff_allowed : allowed_fds s' = allowed_fds s;
  ff_pid : z_pid s' = z_pid s;
  ff_ignore : fds_to_ignore s' = fds_to_ignore s;
  ff_skip : flag SKIP_FD_SANITIZATION s' = flag SKIP_FD_SANITIZATION s;
  ff_fork : flag APP_FORK_AND_SPECIALIZE s' = flag APP_FORK_AND_SPECIALIZE s;
  ff_exempted : exempted_fds s `prefix_of` exempted_fds s';
  ff_dirs : e_dir_ok (z_env s') = e_dir_ok (z_env s);
  ff_arrays : e_array_ok (z_env s') = e_array_ok (z_env s);
  ff_ctx : has_ctx s' = has_ctx s;
  ff_forks : fork_calls s' = fork_calls s;
  ff_fds : fds_ok s → fds_ok s';
  ff_free : N ∉ open_fds s → N ∉ open_fds s'
}.

#[export] Instance fd_frame_preorder N : PreOrder (fd_frame N).
Proof.
  split.
  - intros s. by constructor.
  - intros s1 s2 s3 [] []. constructor; try (by etransitivity); auto.
Qed.

Lemma module_frame_fd N s s' : module_frame N s s' → fd_frame N s s'.
Proof. intros []. constructor; auto. Qed.

Lemma lowest_fd_le fds N : 0 <= N → N ∉ fds → lowest_fd fds <= N.
Proof.
  intros H0 HN. unfold lowest_fd. destruct (lowest_spec (S (size fds)) 0 fds) as (H & _ & _).
  destruct (Z.le_gt_cases (lowest (S (size fds)) 0 fds) N); [done|]. exfalso. apply HN, H. lia.
Qed.

(** The child's side of [fork_pre]. *)
Lemma fork_pre_child s :
  head (e_forks (z_env s)) = Some 0 → flag SKIP_FD_SANITIZATION s = false → fds_ok s →
  e_dir_ok (z_env s) = [] → lowest_fd (open_fds s) < MAX_FD_SIZE → allowed_fds s = ∅ →
  fork_pre s = (Ret tt,
    set_open_fds (in_range_fds (open_fds s)) (set_allowed_fds (in_range_fds (open_fds s))
      (set_z_pid 0 (set_z_env (env_forks (tail (e_forks (z_env s))) (z_env s))
         (set_z_log (z_log s ++ [ZSigmask true; ZOldFork]) s))))).
Proof.
  intros Hf Hs Hok Hd Hl Ha. unfold fork_pre, z_emit, pop.
  step. step. rewrite prog_bind_assoc. step. rewrite prog_bind_assoc. step. step.
  cbn [z_env set_z_log]. rewrite Hf. cbn [default]. step. step.
  match goal with |- context [flag SKIP_FD_SANITIZATION ?x] =>
    assert (flag SKIP_FD_SANITIZATION x = false) as -> by exact Hs end.
  cbn [Z.eqb negb orb]. rewrite record_fds_run; [| done | by cbn; rewrite Hd | done].
  f_equal. unfold next_dir. cbn [z_env set_z_pid set_z_env env_forks e_dir_ok open_fds allowed_fds set_z_log z_log].
  rewrite Ha, Hd, (left_id_L ∅ (∪)), <- (app_assoc (z_log s)). cbn [app tail].
  replace (in_range_fds (open_fds s) ∖ {[lowest_fd (open_fds s)]}) with (in_range_fds (open_fds s)).
  - destruct s as [????????????? []]; cbn in *. by subst.
  - destruct (lowest_fd_fresh (open_fds s)) as [Hn _]. apply set_eq. intros fd.
    unfold in_range_fds. rewrite elem_of_difference, elem_of_filter, elem_of_singleton. naive_solver.
Qed.

(** A context as its constructor leaves it. *)
Definition fresh (s : zygote) : Prop :=
  z_flags s = ∅ ∧ allowed_fds s = ∅ ∧ exempted_fds s = [] ∧ z_modules s = [].

Section fork_theorems.
Context (regcomp : bytes → bool) (regexec : bytes → bytes → bool) (N : Z).

Lemma z_emit_fds e s : e ≠ ZOldFork → fd_frame N s (set_z_log (z_log s ++ [e]) s).
Proof.
  intros He. destruct (z_emit_frame N e s He) as ([] & s' & [= <-] & F). by apply module_frame_fd.
Qed.

Lemma run_modules_pre_fds s :
  z_modules s = [] → Forall (well_behaved N) (e_libs (z_env s)) →
  Returns (fd_frame N) (run_modules_pre regcomp regexec) s.
Proof.
  intros Hm Hw. destruct (run_modules_pre_run regcomp regexec N s Hm Hw) as (s' & E & F%module_frame_fd).
  eapply returns_run; [exact E|]. transitivity (set_z_modules (loaded (e_libs (z_env s))) s); [|done].
  by constructor.
Qed.

Lemma app_specialize_pre_fds uid s :
  z_modules s = [] → Forall (well_behaved N) (e_libs (z_env s)) →
  Returns (fd_frame N) (app_specialize_pre regcomp regexec uid) s.
Proof.
  intros Hm Hw. unfold app_specialize_pre.
  assert (∀ f s, f ≠ SKIP_FD_SANITIZATION → f ≠ APP_FORK_AND_SPECIALIZE → fd_frame N s (set_flag f s)) as Hf.
  { intros. constructor; try done; by apply flag_set_flag. }
  apply returns_bind; [apply _ | by apply returns_modify, Hf | intros ? s1 [= _ <-] _].
  apply returns_bind; [apply _ | by apply returns_modify | intros ? s2 [= _ <-] _].
  apply returns_get_bind. apply returns_bind; [apply _ | |].
  - apply returns_when; [apply _|]. intros _. by apply returns_modify, Hf.
  - intros ? s3 E _. destruct (has_all _ (_ ||| _)); [by apply returns_modify, z_emit_fds|].
    destruct (has_all _ PROCESS_ON_DENYLIST); injection E as _ <-; by apply run_modules_pre_fds.
Qed.

(** What every forked child goes through: record, load, sanitize. *)
Lemma sanitized_child s s1 :
  fd_frame N s s1 → fds_ok s → z_pid s = 0 → flag SKIP_FD_SANITIZATION s = false →
  e_dir_ok (z_env s) = [] → 0 <= N < MAX_FD_SIZE → N ∉ open_fds s →
  ∃ s', sanitize_fds s1 = (Ret tt, s') ∧ exempted_fds s' = exempted_fds s1 ∧ z_log s' = z_log s1 ∧
    z_pid s' = 0 ∧ has_ctx s' = has_ctx s ∧
    ∀ fd, fd ∈ open_fds s' ↔ fd ∈ open_fds s1 ∧ 0 <= fd < MAX_FD_SIZE ∧ may_keep s1 fd.
Proof.
  intros F Hok Hp Hs Hd HN Hfree. unfold MAX_FD_SIZE in HN.
  destruct (sanitize_fds_run s1) as (s' & E & He & Hl & Hq & Hc & Ho).
  - by rewrite (ff_skip _ _ _ F).
  - by apply (ff_fds _ _ _ F).
  - intros _. unfold dir_opens. rewrite (ff_dirs _ _ _ F), Hd. apply Z.ltb_lt.
    eapply Z.le_lt_trans; [apply (lowest_fd_le _ N); [lia | by apply (ff_free _ _ _ F)] | lia].
  - exists s'. split_and!; [done | done | done | | |].
    + by rewrite Hq, (ff_pid _ _ _ F).
    + by rewrite Hc, (ff_ctx _ _ _ F).
    + intros fd. rewrite Ho, (ff_pid _ _ _ F). tauto.
Qed.

(** [fork_pre] in a child whose context is fresh. *)
Lemma fork_pre_fresh s f :
  z_flags s = {[f]} → f ≠ SKIP_FD_SANITIZATION → allowed_fds s = ∅ →
  fds_ok s → head (e_forks (z_env s)) = Some 0 → e_dir_ok (z_env s) = [] →
  0 <= N < MAX_FD_SIZE → N ∉ open_fds s →
  ∃ s1, fork_pre s = (Ret tt, s1) ∧ z_pid s1 = 0 ∧ fds_ok s1 ∧ N ∉ open_fds s1 ∧
    allowed_fds s1 = in_range_fds (open_fds s) ∧ z_flags s1 = {[f]} ∧
    exempted_fds s1 = exempted_fds s ∧ fds_to_ignore s1 = fds_to_ignore s ∧
    z_modules s1 = z_modules s ∧ e_dir_ok (z_env s1) = [] ∧ e_libs (z_env s1) = e_libs (z_env s) ∧
    flag SKIP_FD_SANITIZATION s1 = false ∧ has_ctx s1 = has_ctx s ∧
    fork_calls s1 = S (fork_calls s).
Proof.
  intros Hf Hn Ha Hok Hk Hd HN Hfree.
  assert (∀ s : zygote, z_flags s = {[f]} → flag SKIP_FD_SANITIZATION s = false) as Hs.
  { intros x Hx. unfold flag. rewrite Hx. apply bool_decide_eq_false. rewrite elem_of_singleton. congruence. }
  eexists. split; [apply fork_pre_child; auto|].
  { eapply Z.le_lt_trans; [apply (lowest_fd_le _ N); [lia | done] | lia]. }
  split_and!; try done; [| |by apply Hs |].
  - intros fd. cbn [open_fds set_open_fds]. unfold in_range_fds. rewrite elem_of_filter.
    intros [_ ?]. by apply Hok.
  - cbn [open_fds set_open_fds]. unfold in_range_fds. rewrite elem_of_filter. tauto.
  - unfold fork_calls. cbn. rewrite List.filter_app, length_app. cbn. lia.
Qed.

Lemma fork_child_run uid s :
  fresh s → fds_ok s → head (e_forks (z_env s)) = Some 0 → e_dir_ok (z_env s) = [] →
  0 <= N < MAX_FD_SIZE → N ∉ open_fds s → Forall (well_behaved N) (e_libs (z_env s)) →
  ∃ s', nativeForkAndSpecialize_pre regcomp regexec uid s = (Ret tt, s') ∧
    z_pid s' = 0 ∧ has_ctx s' = has_ctx s ∧ fork_calls s' = S (fork_calls s) ∧
    ∀ fd, fd ∈ open_fds s' →
      0 <= fd < MAX_FD_SIZE ∧
      (fd ∈ open_fds s ∨ fd ∈ default [] (fds_to_ignore s) ∨ fd ∈ exempted_fds s').
Proof.
  intros (Hf & Ha & He & Hm) Hok Hk Hd HN Hfree Hw. unfold nativeForkAndSpecialize_pre, fork_and_specialize. step. step.
  set (s0 := if log_fd s =? -1 then set_flag APP_FORK_AND_SPECIALIZE s
             else set_exempted_fds (exempted_fds s ++ [log_fd s]) (set_flag APP_FORK_AND_SPECIALIZE s)).
  erewrite (bind_run (when _ _) _ _ tt s0) by (unfold s0; cbn [log_fd set_flag set_z_flags]; by destruct (log_fd s =? -1)).
  destruct (fork_pre_fresh s0 APP_FORK_AND_SPECIALIZE)
    as (s1 & E1 & Hp & Hok1 & Hfree1 & Ha1 & Hf1 & He1 & Hi1 & Hm1 & Hd1 & Hl1 & Hs1 & Hc1 & Hn1);
    try (unfold s0, fds_ok; destruct (log_fd s =? -1); cbn; rewrite ?Hf, ?(left_id_L ∅ (∪)); done).
  step_with E1. step. rewrite Hp. cbn [Z.eqb when].
  assert (z_modules s0 = [] ∧ e_libs (z_env s0) = e_libs (z_env s) ∧ open_fds s0 = open_fds s ∧
          fds_to_ignore s0 = fds_to_ignore s ∧ has_ctx s0 = has_ctx s ∧ fork_calls s0 = fork_calls s)
    as (Gm & Gl & Go & Gi & Gc & Gf)
    by (unfold s0; by destruct (log_fd s =? -1)).
  destruct (app_specialize_pre_fds uid s1) as ([] & s2 & E2 & F2); [congruence | by rewrite Hl1, Gl |].
  step_with E2.
  destruct (sanitized_child s1 s2 F2) as (s' & E & Hex & Hlog & Hp' & Hc' & Hs'); try done.
  exists s'. split_and!; [done | done | congruence | |].
  { unfold fork_calls at 1. rewrite Hlog. fold (fork_calls s2). rewrite (ff_forks _ _ _ F2). congruence. }
  intros fd [Hin [Hr Hk']]%Hs'. split; [done|].
  unfold may_keep in Hk'. rewrite (ff_allowed _ _ _ F2), (ff_ignore _ _ _ F2), Ha1, Hi1, Go, Gi in Hk'.
  unfold in_range_fds in Hk'. rewrite elem_of_filter in Hk'. rewrite Hex. tauto.
Qed.

(** C2 Forking an application: in the child the whole of [nativeForkAndSpecialize_pre]
    returns, whatever the well-behaved modules do, and no descriptor at or above 1024
    and none a module opened without exempting it is left open. *)
Theorem nativeForkAndSpecialize_child uid s :
  fresh s → fds_ok s → head (e_forks (z_env s)) = Some 0 → e_dir_ok (z_env s) = [] →
  0 <= N < MAX_FD_SIZE → N ∉ open_fds s → Forall (well_behaved N) (e_libs (z_env s)) →
  ∃ s', nativeForkAndSpecialize_pre regcomp regexec uid s = (Ret tt, s') ∧
    ∀ fd, fd ∈ open_fds s' →
      0 <= fd < MAX_FD_SIZE ∧
      (fd ∈ open_fds s ∨ fd ∈ default [] (fds_to_ignore s) ∨ fd ∈ exempted_fds s').
Proof.
  intros. destruct (fork_child_run uid s) as (s' & E & _ & _ & _ & H'); eauto.
Qed.

(** The parent's side: nothing but the bookkeeping of [fds_to_ignore]. *)
Lemma fork_parent_run uid s pid :
  fresh s → fds_ok s → head (e_forks (z_env s)) = Some pid → pid ≠ 0 →
  ∃ s', nativeForkAndSpecialize_pre regcomp regexec uid s = (Ret tt, s') ∧
    z_pid s' = pid ∧ has_ctx s' = has_ctx s ∧ fork_calls s' = S (fork_calls s) ∧
    ∀ fd, fd ∈ open_fds s' ↔ fd ∈ open_fds s.
Proof.
  intros (Hf & Ha & He & Hm) Hok Hk Hp. unfold nativeForkAndSpecialize_pre, fork_and_specialize. step. step.
  set (s0 := if log_fd s =? -1 then set_flag APP_FORK_AND_SPECIALIZE s
             else set_exempted_fds (exempted_fds s ++ [log_fd s]) (set_flag APP_FORK_AND_SPECIALIZE s)).
  erewrite (bind_run (when _ _) _ _ tt s0) by (unfold s0; cbn [log_fd set_flag set_z_flags]; by destruct (log_fd s =? -1)).
  assert (fork_pre s0 = (Ret tt, set_z_pid pid (set_z_env (env_forks (tail (e_forks (z_env s0))) (z_env s0))
       (set_z_log (z_log s0 ++ [ZSigmask true; ZOldFork]) s0)))) as E.
  { unfold fork_pre, z_emit, pop. step. step. rewrite prog_bind_assoc. step. rewrite prog_bind_assoc. step.
    step. assert (e_forks (z_env s0) = e_forks (z_env s)) as Hk0 by (unfold s0; by destruct (log_fd s =? -1)).
    cbn [z_env set_z_log z_log]. rewrite Hk0, Hk. change (default (-1) (Some pid)) with pid. step. step.
    rewrite (proj2 (Z.eqb_neq pid 0) Hp). cbn [negb orb]. by rewrite <- (app_assoc (z_log s0)). }
  step_with E. clear E. step. set (s1 := set_z_pid pid _).
  change (z_pid s1) with pid. rewrite (proj2 (Z.eqb_neq pid 0) Hp). cbn [when]. step.
  destruct (sanitize_fds_run s1) as (s' & E & _ & Hl & Hq & Hc & Ho).
  - unfold flag, s1, s0. destruct (log_fd s =? -1); cbn; rewrite Hf; by vm_compute.
  - unfold s1, s0, fds_ok. by destruct (log_fd s =? -1).
  - done.
  - assert (open_fds s1 = open_fds s ∧ has_ctx s1 = has_ctx s ∧ z_log s1 = z_log s ++ [ZSigmask true; ZOldFork])
      as (Go & Gc & Gl) by (unfold s1, s0; by destruct (log_fd s =? -1)).
    exists s'. split_and!; [done | done | congruence | |].
    + unfold fork_calls. rewrite Hl, Gl, List.filter_app, length_app. cbn. lia.
    + intros fd. rewrite Ho, Go. change (z_pid s1) with pid. tauto.
Qed.

(** The zygote forks once: after [nativeForkAndSpecialize_pre] the framework's own call to
    [fork] gets the cached result, in the parent and in the child, and the original [fork]
    has been called exactly once more. *)
Theorem fork_once uid s pid :
  fresh s → has_ctx s = true → fds_ok s → head (e_forks (z_env s)) = Some pid → 0 <= pid →
  e_dir_ok (z_env s) = [] → 0 <= N < MAX_FD_SIZE → N ∉ open_fds s →
  Forall (well_behaved N) (e_libs (z_env s)) →
  ∃ s', nativeForkAndSpecialize_pre regcomp regexec uid s = (Ret tt, s') ∧
    new_fork s' = (Ret pid, s') ∧ fork_calls s' = S (fork_calls s).
Proof.
  intros Hfr Hc Hok Hk Hp Hd HN Hfree Hw.
  assert (∃ s', nativeForkAndSpecialize_pre regcomp regexec uid s = (Ret tt, s') ∧
    z_pid s' = pid ∧ has_ctx s' = has_ctx s ∧ fork_calls s' = S (fork_calls s)) as (s' & E & Ep & Ec & En).
  { destruct (decide (pid = 0)) as [->|Hn].
    - destruct (fork_child_run uid s) as (s' & ? & ? & ? & ? & _); eauto 10.
    - destruct (fork_parent_run uid s pid) as (s' & ? & ? & ? & ? & _); eauto 10. }
  exists s'. split_and!; [done | | done]. unfold new_fork. step. rewrite Ec, Hc, Ep.
  by rewrite (proj2 (Z.leb_le 0 pid) Hp).
Qed.

(** Forking the system server: in the child [nativeForkSystemServer_pre] returns and only
    descriptors that were open before the fork are left; [exemptFd] gives no exemption. *)
Theorem nativeForkSystemServer_child s :
  fresh s → fds_ok s → head (e_forks (z_env s)) = Some 0 → e_dir_ok (z_env s) = [] →
  0 <= N < MAX_FD_SIZE → N ∉ open_fds s → Forall (well_behaved N) (e_libs (z_env s)) →
  ∃ s', nativeForkSystemServer_pre regcomp regexec s = (Ret tt, s') ∧
    ZServerStarted ∈ z_log s' ∧
    ∀ fd, fd ∈ open_fds s' → 0 <= fd < MAX_FD_SIZE ∧ fd ∈ open_fds s.
Proof.
  intros (Hf & Ha & He & Hm) Hok Hk Hd HN Hfree Hw. unfold nativeForkSystemServer_pre. step.
  set (s0 := set_flag SERVER_FORK_AND_SPECIALIZE s).
  destruct (fork_pre_fresh s0 SERVER_FORK_AND_SPECIALIZE)
    as (s1 & E1 & Hp & Hok1 & Hfree1 & Ha1 & Hf1 & He1 & Hi1 & Hm1 & Hd1 & Hl1 & Hs1 & Hc1 & Hn1);
    try (unfold s0, fds_ok; cbn; rewrite ?Hf, ?(left_id_L ∅ (∪)); done).
  step_with E1. step. rewrite Hp. cbn [Z.eqb negb].
  destruct (run_modules_pre_fds s1) as ([] & s2 & E2 & F2); [by rewrite Hm1 | by rewrite Hl1 |].
  step_with E2. step. set (s3 := set_z_log _ s2).
  assert (fd_frame N s1 s3) as F3 by (transitivity s2; [done | by apply z_emit_fds]).
  destruct (sanitized_child s1 s3 F3) as (s' & E & Hex & Hlog & _ & _ & Hs'); try done.
  exists s'. split; [done|].
  assert (flag APP_FORK_AND_SPECIALIZE s3 = false) as Hnf.
  { rewrite (ff_fork _ _ _ F3). unfold flag. rewrite Hf1. by apply bool_decide_eq_false. }
  split.
  - rewrite Hlog. apply elem_of_app. right. by left.
  - intros fd [Hin [Hr Hk']]%Hs'. split; [done|].
    unfold may_keep in Hk'. rewrite Hnf, (ff_allowed _ _ _ F3), Ha1 in Hk'.
    unfold in_range_fds in Hk'. rewrite elem_of_filter in Hk'. destruct Hk' as [[_ ?]|[? _]]; done.
Qed.
End fork_theorems.

(** ** PLT hooks *)

Section hooks.
Context (regexec : bytes → bytes → bool).

(** A hook asked for by [r] applies to the mapping [m]. *)
Definition hooks_map (ign : list IgnoreInfo) (m : MapInfo) (r : RegisterInfo) : Prop :=
  map_offset m = 0 ∧ map_private m = true ∧ map_perms m &&& PROT_READ ≠ 0 ∧
  regexec (ri_regex r) (map_path m) = true ∧
  ¬ ∃ i, i ∈ ign ∧ regexec (ig_regex i) (map_path m) = true ∧
         (ig_symbol i = [] ∨ ig_symbol i = ri_symbol r).

Lemma ignored_spec ign path sym :
  ignored regexec ign path sym = true ↔
  ∃ i, i ∈ ign ∧ regexec (ig_regex i) path = true ∧ (ig_symbol i = [] ∨ ig_symbol i = sym).
Proof.
  unfold ignored. rewrite existsb_exists. split.
  - intros (i & Hi%list_elem_of_In & [Hr H]%andb_prop). exists i. split_and!; [done | done |].
    apply orb_prop in H as [H|H]; apply bool_decide_eq_true in H; auto.
  - intros (i & Hi%list_elem_of_In & Hr & H). exists i. split; [done|]. rewrite Hr. cbn [andb].
    apply orb_true_iff. rewrite !bool_decide_eq_true. tauto.
Qed.

(** A loop that only logs. *)
Lemma for_each_log {A} (l : list A) (f : A → prog zygote unit) (g : A → list zevent) s :
  (∀ a s, f a s = (Ret tt, set_z_log (z_log s ++ g a) s)) →
  for_each l f s = (Ret tt, set_z_log (z_log s ++ (l ≫= g)) s).
Proof.
  intros Hf. revert s. induction l as [|a l IH]; intros s; cbn [for_each].
  - cbn. rewrite app_nil_r. by destruct s.
  - step_with (Hf a s). rewrite IH, bind_cons. cbn [z_log set_z_log]. by rewrite (app_assoc (z_log s)).
Qed.

Lemma emit_when b e s :
  when b (z_emit e) s = (Ret tt, set_z_log (z_log s ++ (if b then [e] else [])) s).
Proof. destruct b; cbn; [done|]. rewrite app_nil_r. by destruct s. Qed.

Definition hooks_of (ign : list IgnoreInfo) (regs : list RegisterInfo) (m : MapInfo) : list zevent :=
  if map_eligible m then
    regs ≫= λ r, if regexec (ri_regex r) (map_path m) && negb (ignored regexec ign (map_path m) (ri_symbol r))
                 then [ZRegisterHook (map_dev m) (map_inode m) (ri_symbol r) (ri_callback r)] else []
  else [].

Lemma hooks_of_elem ign regs m e :
  e ∈ hooks_of ign regs m ↔
  ∃ r, r ∈ regs ∧ hooks_map ign m r ∧
       e = ZRegisterHook (map_dev m) (map_inode m) (ri_symbol r) (ri_callback r).
Proof.
  unfold hooks_of, hooks_map, map_eligible.
  destruct (map_offset m =? 0) eqn:E1, (map_private m) eqn:E2, (map_perms m &&& PROT_READ =? 0) eqn:E3;
    bool_to_prop; cbn [negb andb]; try (rewrite elem_of_nil; naive_solver).
  rewrite list_elem_of_bind. split.
  - intros (r & He & Hr). exists r. split; [done|].
    destruct (regexec (ri_regex r) _) eqn:E4, (ignored regexec _ _ _) eqn:E5; cbn [andb negb] in He;
      try (by apply not_elem_of_nil in He). apply list_elem_of_singleton in He as ->.
    split_and!; try done. rewrite <- ignored_spec. congruence.
  - intros (r & Hr & (_ & _ & _ & E4 & E5) & ->). exists r. split; [|done].
    rewrite <- ignored_spec in E5. apply not_true_is_false in E5. rewrite E4, E5. by left.
Qed.

(** [plt_hook_commit] registers, for every scanned mapping that is a private readable start
    of a file and every pending request whose pattern matches its path and that no exclusion
    covers, one hook with lsplt, and nothing else; then it forgets all requests and
    exclusions and commits. *)
Theorem plt_hook_commit_spec s :
  ∃ s' hooks, plt_hook_commit regexec s = (Ret (default true (head (e_commits (z_env s)))), s') ∧
    z_log s' = z_log s ++ hooks ++ [ZCommitHook] ∧ register_info s' = [] ∧ ignore_info s' = [] ∧
    ∀ e, e ∈ hooks ↔
      ∃ m r, m ∈ default [] (head (e_maps (z_env s))) ∧ r ∈ register_info s ∧
        hooks_map (ignore_info s) m r ∧
        e = ZRegisterHook (map_dev m) (map_inode m) (ri_symbol r) (ri_callback r).
Proof.
  unfold plt_hook_commit, plt_hook_process_regex.
  destruct (register_info s) as [|r regs] eqn:Er.
  - exists (set_z_env (env_commits (tail (e_commits (z_env s))) (z_env s))
      (set_z_log (z_log s ++ [ZCommitHook]) (set_ignore_info [] (set_register_info [] s)))), [].
    split_and!; [| | done | done |].
    + rewrite prog_bind_assoc. step. rewrite Er. step. step. unfold CommitHook, z_emit. step. reflexivity.
    + done.
    + intros e. split; [by intros ?%not_elem_of_nil|].
      intros (m & r & _ & Hr & _). by apply not_elem_of_nil in Hr.
  - set (maps := default [] (head (e_maps (z_env s)))).
    set (s1 := set_z_env (env_maps (tail (e_maps (z_env s))) (z_env s)) s).
    exists (set_z_env (env_commits (tail (e_commits (z_env s))) (z_env s1))
      (set_z_log (z_log s ++ (maps ≫= hooks_of (ignore_info s) (r :: regs)) ++ [ZCommitHook])
         (set_ignore_info [] (set_register_info [] s1)))),
      (maps ≫= hooks_of (ignore_info s) (r :: regs)).
    split_and!; [| done | done | done |].
    + rewrite prog_bind_assoc. step. rewrite Er. rewrite prog_bind_assoc.
      erewrite (bind_run Scan_maps _ _ maps s1) by reflexivity.
      erewrite bind_run; [|apply (for_each_log maps _ (hooks_of (ignore_info s) (r :: regs)))].
      * step. unfold CommitHook, z_emit. step. unfold pop. step. step. cbn. by rewrite <- (app_assoc (z_log s)).
      * intros m s2. unfold hooks_of. destruct (map_eligible m); cbn [when].
        -- apply for_each_log. intros r' s3. apply emit_when.
        -- cbn. rewrite app_nil_r. by destruct s2.
    + intros e. rewrite list_elem_of_bind. setoid_rewrite hooks_of_elem. naive_solver.
Qed.
End hooks.

(** ** The denylist *)

#[local] Existing Instance Zygiskd.RootImpl_eq_dec.

(** The clean-up that belongs to a root implementation. *)
Definition revert_of (gi : Zygiskd.RootImpl) : list zevent :=
  match gi with
  | Zygiskd.KernelSU => [ZRevertKsu]
  | Zygiskd.APatch => [ZRevertApatch]
  | Zygiskd.Magisk => [ZRevertMagisk]
  | _ => []
  end.

Section denylist.
Context (regcomp : bytes → bool) (regexec : bytes → bytes → bool) (N : Z).

Lemma process_flags_decode gi im gr su uid f :
  Zygiskd.process_flags gi im gr su uid = Some f → im uid = false → su uid = true →
  has_all f PROCESS_ON_DENYLIST = true ∧ has_all f (PROCESS_IS_MANAGER ||| PROCESS_ROOT_IS_MAGISK) = false ∧
  (f &&& PROCESS_IS_SYS_UI =? 0) = true ∧
  (f &&& PROCESS_ROOT_IS_KSU =? 0) = negb (bool_decide (gi = Zygiskd.KernelSU)) ∧
  (f &&& PROCESS_ROOT_IS_APATCH =? 0) = negb (bool_decide (gi = Zygiskd.APatch)) ∧
  (f &&& PROCESS_ROOT_IS_MAGISK =? 0) = negb (bool_decide (gi = Zygiskd.Magisk)) ∧
  (gi = Zygiskd.KernelSU ∨ gi = Zygiskd.Magisk ∨ gi = Zygiskd.APatch).
Proof.
  unfold Zygiskd.process_flags, Zygiskd.root_flag. intros Hf Hm Hs. rewrite Hm, Hs in Hf.
  revert Hf. destruct gi, (gr uid); intros [= <-]; vm_compute; split_and!; try done; tauto.
Qed.

Lemma new_unshare_reverts s flags gi im gr su uid :
  has_ctx s = true → flags &&& CLONE_NEWNS ≠ 0 → head (e_unshare (z_env s)) = Some 0 →
  Zygiskd.process_flags gi im gr su uid = Some (info_flags s) → im uid = false → su uid = true →
  flag DO_REVERT_UNMOUNT s = true →
  ∃ s', new_unshare flags s = (Ret 0, s') ∧ z_log s' = z_log s ++ revert_of gi.
Proof.
  intros Hc Hn Hu Hp Him Hsu Hr.
  destruct (process_flags_decode _ _ _ _ _ _ Hp Him Hsu) as (_ & _ & Hsy & Hk & Ha & Hm & Hg).
  unfold new_unshare, pop. rewrite prog_bind_assoc. step. rewrite prog_bind_assoc. step. step. step.
  cbn [has_ctx set_z_env info_flags z_env]. rewrite Hu, Hc, Hsy, (proj2 (Z.eqb_neq _ _) Hn).
  change (default (-1) (Some 0)) with 0. cbn [Z.eqb negb andb when].
  match goal with |- context [flag DO_REVERT_UNMOUNT ?x] =>
    assert (flag DO_REVERT_UNMOUNT x = true) as -> by exact Hr end.
  rewrite Hk, Ha, Hm, !negb_involutive. cbn [when].
  destruct Hg as [-> | [-> | ->]]; vm_compute bool_decide; cbn [when]; eexists; by split.
Qed.

(** An application the daemon reports as on the denylist is cleaned up in its private mount
    namespace: once [app_specialize_pre] has run, the hooked [unshare(CLONE_NEWNS)] calls
    exactly the clean-up of the active root implementation, whatever the modules asked for. *)
Theorem denylist_unmounts gi im gr su uid s flags :
  Zygiskd.process_flags gi im gr su uid = Some (e_flags (z_env s) uid) →
  im uid = false → su uid = true →
  has_ctx s = true → z_modules s = [] → Forall (well_behaved N) (e_libs (z_env s)) →
  flags &&& CLONE_NEWNS ≠ 0 → head (e_unshare (z_env s)) = Some 0 →
  ∃ s1 s2, app_specialize_pre regcomp regexec uid s = (Ret tt, s1) ∧
    new_unshare flags s1 = (Ret 0, s2) ∧ z_log s2 = z_log s1 ++ revert_of gi.
Proof.
  intros Hp Him Hsu Hc Hm Hw Hn Hu.
  destruct (process_flags_decode _ _ _ _ _ _ Hp Him Hsu) as (Hd & Hmg & _).
  unfold app_specialize_pre. step. step. step.
  cbn [info_flags set_info_flags z_env set_flag set_z_flags]. rewrite Hd, Hmg. cbn [when]. step.
  set (s0 := set_flag DO_REVERT_UNMOUNT _).
  destruct (run_modules_pre_run regcomp regexec N s0 Hm Hw) as (s1 & E & F).
  destruct (new_unshare_reverts s1 flags gi im gr su uid) as (s2 & E2 & L2); try done.
  - by rewrite (mf_ctx _ _ _ F).
  - by rewrite (mf_unshare _ _ _ F).
  - by rewrite (mf_info _ _ _ F).
  - apply (mf_revert _ _ _ F). exact (flag_set_flag_eq _ _).
  - by exists s1, s2.
Qed.

(** A library whose entry point returns without having registered: because it never asks to, or
    because its version is too new. *)
Definition never_registers (c : module_code) : Prop :=
  mc_on_load c = [] ∧ ∀ v, mc_register c = Some v → ZYGISK_API_VERSION < v.

(** A library whose entry does not register, or registers with a version the loader does not
    support, is called nevertheless: nothing looks at [ZygiskModule::valid], and reading its
    version dereferences null in the specialising process. *)
Theorem unregistered_module_crashes s c libs h :
  z_modules s = [] → e_libs (z_env s) = c :: libs → mc_handle c = Some h → mc_entry c = true →
  never_registers c →
  flag APP_SPECIALIZE s = true ∨ flag SERVER_FORK_AND_SPECIALIZE s = true →
  (run_modules_pre regcomp regexec s).1 = Crash NullDeref.
Proof.
  intros Hm Hl Hh He [Ho Hr] Hf. unfold run_modules_pre. step. rewrite Hm, Hl. cbn [app].
  assert (load 0 c = [mkModule 0 false h None c]) as E0 by (unfold load; by rewrite Hh, He).
  rewrite imap_cons, E0. cbn [mjoin list_join app].
  step. set (s1 := set_z_modules _ s). cbn [for_each zm_id zm_code].
  assert (onLoad regcomp regexec 0 c s1 = (Ret tt, s1)) as E.
  { unfold onLoad. rewrite Ho. destruct (mc_register c) as [v|]; [|done].
    unfold RegisterModuleImpl. by rewrite (proj2 (Z.ltb_lt _ _) (Hr v eq_refl)). }
  rewrite prog_bind_assoc. step_with E. rewrite prog_bind_assoc. step.
  change (flag APP_SPECIALIZE s1) with (flag APP_SPECIALIZE s).
  change (flag SERVER_FORK_AND_SPECIALIZE s1) with (flag SERVER_FORK_AND_SPECIALIZE s).
  destruct (flag APP_SPECIALIZE s); [done|]. destruct Hf as [?|Hf]; [done|]. by rewrite Hf.
Qed.
End denylist.

(** ** Witnesses *)

(** Two modules: one of version 4 that opens two descriptors and exempts one of them, and one of
    version 2 that asks for a PLT hook and for its library to be closed. *)
Definition demo_modules : list module_code :=
  [mkCode (Some 4096) true (Some 4) [] [AOpen 7; AOpen 9; AExemptFd 7] [];
   mkCode (Some 8192) true (Some 2)
     [APltRegister (txt "libc") (txt "open") 77 0; ASetOption DLCLOSE_MODULE_LIBRARY] [APltCommit] []].

Definition demo_zygote (pid flags : Z) (libs : list module_code) : zygote :=
  mkZygote true (-1) ∅ 0 ∅ [] (Some [5]) [] [] [] false (list_to_set [0; 1; 2; 4; 5; 6; 2000]) 4
    (mkZenv [pid] [] [] libs (λ _, flags) [] [] [0] [] [] []) [].

Lemma demo_fresh pid flags libs : fresh (demo_zygote pid flags libs) ∧ fds_ok (demo_zygote pid flags libs) ∧
  3 ∉ open_fds (demo_zygote pid flags libs).
Proof.
  split_and!; [done | | by apply (bool_decide_unpack _)].
  intros fd. cbn [open_fds demo_zygote]. rewrite elem_of_list_to_set, !elem_of_cons, elem_of_nil. lia.
Defined.

Lemma demo_well_behaved : Forall (well_behaved 3) demo_modules.
Proof.
  unfold demo_modules. repeat constructor; try (eexists; split; [reflexivity | by vm_compute]);
    unfold not; intros H; repeat (apply elem_of_cons in H as [H|H]; [discriminate H|]);
    by apply not_elem_of_nil in H.
Defined.

Lemma three_in_range : 0 <= 3 < MAX_FD_SIZE.
Proof. unfold MAX_FD_SIZE. lia. Defined.

Lemma sanitize_fds_spec_witness :
  let s := set_z_pid 0 (demo_zygote 0 0 []) in
  ∃ s', sanitize_fds s = (Ret tt, s') ∧ ∀ fd, fd ∈ open_fds s' → fd ∈ open_fds s.
Proof.
  intros s. destruct (demo_fresh 0 0 []) as (_ & Hok & _).
  destruct (sanitize_fds_spec s) as (s' & E & _ & _ & _ & _ & H).
  - by vm_compute.
  - exact Hok.
  - intros _. by vm_compute.
  - exists s'. split; [exact E|]. intros fd Hfd. by apply H in Hfd as [? _].
Defined.

(** Descriptor 9, opened by the first module and not exempted, and 2000 are gone; 7 is kept. *)
Lemma nativeForkAndSpecialize_child_witness :
  let r := nativeForkAndSpecialize_pre (λ _, true) (λ _ _, false) 10001
             (demo_zygote 0 PROCESS_ROOT_IS_KSU demo_modules) in
  r.1 = Ret tt ∧ 7 ∈ open_fds r.2 ∧ 9 ∉ open_fds r.2 ∧
  ∀ fd, fd ∈ open_fds r.2 → 0 <= fd < MAX_FD_SIZE.
Proof.
  intros r. destruct (demo_fresh 0 PROCESS_ROOT_IS_KSU demo_modules) as (Hf & Hok & H3).
  destruct (nativeForkAndSpecialize_child (λ _, true) (λ _ _, false) 3 10001
    (demo_zygote 0 PROCESS_ROOT_IS_KSU demo_modules) Hf Hok eq_refl eq_refl three_in_range H3
    demo_well_behaved) as (s' & E & H).
  split_and!; [by vm_compute | by apply (bool_decide_unpack _); vm_compute
               | by apply (bool_decide_unpack _); vm_compute |].
  intros fd. unfold r. rewrite E. cbn [snd]. intros Hfd. by apply H in Hfd as [? _].
Defined.

Lemma fork_once_witness :
  ∃ s', nativeForkAndSpecialize_pre (λ _, true) (λ _ _, false) 10001 (demo_zygote 321 0 demo_modules) = (Ret tt, s') ∧
        new_fork s' = (Ret 321, s') ∧ fork_calls s' = 1%nat.
Proof.
  destruct (demo_fresh 321 0 demo_modules) as (Hf & Hok & H3).
  apply (fork_once (λ _, true) (λ _ _, false) 3 10001 (demo_zygote 321 0 demo_modules) 321
    Hf eq_refl Hok eq_refl ltac:(lia) eq_refl three_in_range H3 demo_well_behaved).
Defined.

Lemma nativeForkSystemServer_child_witness :
  ∃ s', nativeForkSystemServer_pre (λ _, true) (λ _ _, false) (demo_zygote 0 0 demo_modules) = (Ret tt, s') ∧
        7 ∉ open_fds s'.
Proof.
  destruct (demo_fresh 0 0 demo_modules) as (Hf & Hok & H3).
  destruct (nativeForkSystemServer_child (λ _, true) (λ _ _, false) 3 (demo_zygote 0 0 demo_modules) Hf Hok
    eq_refl eq_refl three_in_range H3 demo_well_behaved) as (s' & E & _ & H).
  exists s'. split; [exact E|]. intros [_ H7]%H. revert H7. by apply (bool_decide_unpack _); vm_compute.
Defined.

Lemma denylist_unmounts_witness :
  ∃ s1 s2, app_specialize_pre (λ _, true) (λ _ _, false) 10001
             (demo_zygote 0 (PROCESS_ON_DENYLIST ||| PROCESS_ROOT_IS_APATCH) demo_modules) = (Ret tt, s1) ∧
    new_unshare CLONE_NEWNS s1 = (Ret 0, s2) ∧ z_log s2 = z_log s1 ++ [ZRevertApatch].
Proof.
  apply (denylist_unmounts (λ _, true) (λ _ _, false) 3 Zygiskd.APatch (λ _, false) (λ _, false) (λ _, true) 10001
    (demo_zygote 0 (PROCESS_ON_DENYLIST ||| PROCESS_ROOT_IS_APATCH) demo_modules) CLONE_NEWNS
    eq_refl eq_refl eq_refl eq_refl eq_refl demo_well_behaved ltac:(discriminate) eq_refl).
Defined.

Lemma unregistered_module_crashes_witness :
  (run_modules_pre (λ _, true) (λ _ _, false)
     (set_flag APP_SPECIALIZE (demo_zygote 0 0 [mkCode (Some 4096) true (Some 5) [] [] []]))).1 = Crash NullDeref.
Proof.
  apply (unregistered_module_crashes (λ _, true) (λ _ _, false)
    (set_flag APP_SPECIALIZE (demo_zygote 0 0 [mkCode (Some 4096) true (Some 5) [] [] []])) (mkCode (Some 4096) true (Some 5) [] [] []) [] 4096
    eq_refl eq_refl eq_refl eq_refl).
  - split; [done|]. intros v [= <-]. by vm_compute.
  - left. apply flag_set_flag_eq.
Defined.
