(* ===== verification/Loading.v ===== *)
(** * Loading: modules from their descriptors

    [common/dl.cpp], [UniqueFd] and [Module] of [include/daemon.h], and the first loop of
    [ZygiskContext::run_modules_pre]: the libraries the daemon sends as memory files are opened
    through the dynamic linker, and those with an entry become modules.  What the linker answers
    is a parameter; the descriptors of the process and the calls made are the state.  The claims:
    the modules are those [Context] starts from, and every descriptor the daemon sent stays open
    while its module is loaded and runs, and is closed once at the end. *)

From Stdlib Require Import ZArith Lia Ascii.
From stdpp Require Import base tactics strings list gmap numbers.
From S2P Require Import Prelude Context.

Local Open Scope mach_scope.

(** ** UniqueFd *)

Inductive levent : Type :=
| LCreateNamespace (name dir : bytes) (type : Z)
| LDlopen (path : bytes) (flags ext_flags ns fd : Z)
| LClose (fd : Z).

Record proc : Type := mkProc { p_fds : gset Z; p_log : list levent }.

Definition l_emit (e : levent) : prog proc unit := modify (λ s, mkProc (p_fds s) (p_log s ++ [e])).

(** Closing a descriptor that is not open fails; the result is not looked at. *)
Definition close (fd : Z) : prog proc unit := modify (λ s, mkProc (p_fds s ∖ {[fd]}) (p_log s ++ [LClose fd])).

Module UniqueFd.

Record t : Type := mk { fd_ : Z }.

Definition empty : t := mk (-1).

Definition destroy (this : t) : prog proc unit := when (0 <=? fd_ this) (close (fd_ this)).

(** Move construction swaps with a new object: the new one, and what is left of the other. *)
Definition move (other : t) : t * t := (mk (fd_ other), empty).

(** Move assignment swaps. *)
Definition assign (this other : t) : t * t := (other, this).
End UniqueFd.

(** ** A vector of modules *)

Record Module_ : Type := mkModule_ { md_name : bytes; md_memfd : UniqueFd.t }.

Definition new_Module (name : bytes) (memfd : Z) : Module_ := mkModule_ name (UniqueFd.mk memfd).

(** Moving an element leaves an object without a descriptor. *)
Definition move_Module (m : Module_) : Module_ * Module_ :=
  let '(fd, old) := UniqueFd.move (md_memfd m) in (mkModule_ (md_name m) fd, mkModule_ [] old).

Definition destroy_Module (m : Module_) : prog proc unit := UniqueFd.destroy (md_memfd m).

(** [emplace_back]: a full vector moves its elements to new storage and destroys the old ones. *)
Record vec : Type := mkVec { v_items : list Module_; v_capacity : nat }.

Definition emplace_back (name : bytes) (memfd : Z) (v : vec) : prog proc vec :=
  if (length (v_items v) <? v_capacity v)%nat
  then mret (mkVec (v_items v ++ [new_Module name memfd]) (v_capacity v))
  else
    let moved := move_Module <$> v_items v in
    for_each moved.*2 destroy_Module;;
    mret (mkVec (moved.*1 ++ [new_Module name memfd]) (Nat.max (2 * v_capacity v) (S (length (v_items v))))).

(** The vector [ReadModules] builds from what it has read. *)
Fixpoint collect_modules (l : list (bytes * Z)) (v : vec) : prog proc vec :=
  match l with
  | [] => mret v
  | (name, fd) :: l => v ← emplace_back name fd v; collect_modules l v
  end.

(** ** The dynamic linker *)

Definition ANDROID_DLEXT_USE_LIBRARY_FD : Z := 0x10.
Definition ANDROID_DLEXT_USE_NAMESPACE : Z := 0x200.
Definition ANDROID_NAMESPACE_TYPE_SHARED : Z := 2.
Definition RTLD_NOW : Z := 2.

(** The members of [android_dlextinfo] that are set; 0 otherwise. *)
Record dlextinfo : Type := mkExt { x_flags : Z; x_fd : Z; x_namespace : Z }.

(** [dirname] of the C library: up to the last slash, without trailing slashes. *)
Definition is_slash (c : ascii) : bool := bool_decide (c = "/"%char).

Fixpoint drop_while (f : ascii → bool) (l : bytes) : bytes :=
  match l with [] => [] | c :: l' => if f c then drop_while f l' else l end.

Definition dirname (path : bytes) : bytes :=
  match path with
  | [] => txt "."
  | _ =>
      match drop_while is_slash (reverse path) with
      | [] => txt "/"
      | r =>
          match drop_while (λ c, negb (is_slash c)) r with
          | [] => txt "."
          | r => match drop_while is_slash r with [] => txt "/" | r => reverse r end
          end
      end
  end.

Section linker.
(** The weak symbol [__loader_android_create_namespace], [android_dlopen_ext] and [dlsym]; null is 0. *)
Context (create_namespace : option (bytes → bytes → Z → Z)).
Context (android_dlopen_ext : bytes → Z → dlextinfo → Z) (dlsym : Z → bytes → Z).

Definition dlopen_ext (path : bytes) (flags : Z) (info : dlextinfo) : prog proc Z :=
  l_emit (LDlopen path flags (x_flags info) (x_namespace info) (x_fd info));;
  mret (android_dlopen_ext path flags info).

Definition DlopenExt (path : bytes) (flags : Z) : prog proc Z :=
  let dir := dirname path in
  ns ← match create_namespace with
       | None => mret 0
       | Some create =>
           l_emit (LCreateNamespace path dir ANDROID_NAMESPACE_TYPE_SHARED);;
           mret (create path dir ANDROID_NAMESPACE_TYPE_SHARED)
       end;
  let info := if ns =? 0 then mkExt 0 0 0 else mkExt ANDROID_DLEXT_USE_NAMESPACE 0 ns in
  dlopen_ext path flags info.

Definition DlopenMem (fd flags : Z) : prog proc Z :=
  dlopen_ext (txt "/jit-cache-zygisk") flags (mkExt ANDROID_DLEXT_USE_LIBRARY_FD fd 0).

(** ** The first loop of run_modules_pre *)

(** The elements of [modules]: index, handle, entry. *)
Fixpoint load_loop (i : nat) (ms : list Module_) : prog proc (list (nat * Z * Z)) :=
  match ms with
  | [] => mret []
  | m :: ms =>
      handle ← DlopenMem (UniqueFd.fd_ (md_memfd m)) RTLD_NOW;
      let entry := if handle =? 0 then 0 else dlsym handle (txt "zygisk_module_entry") in
      rest ← load_loop (S i) ms;
      mret (if entry =? 0 then rest else (i, handle, entry) :: rest)
  end.

(** The descriptors go with [ms], at the end of the function; [body] is the second loop. *)
Definition with_modules {A} (l : list (bytes * Z)) (body : list (nat * Z * Z) → prog proc A) : prog proc A :=
  v ← collect_modules l (mkVec [] 0);
  modules ← load_loop 0 (v_items v);
  a ← body modules;
  for_each (v_items v) destroy_Module;;
  mret a.

(** ** What happens to the descriptors *)

Lemma destroyed_empty (l : list Module_) s :
  Forall (λ m, md_memfd m = UniqueFd.empty) l → for_each l destroy_Module s = (Ret tt, s).
Proof.
  intros H. revert s. induction H as [|m l Hm _ IH]; intros s; [done|]. cbn [for_each].
  assert (destroy_Module m s = (Ret tt, s)) as E by (unfold destroy_Module; by rewrite Hm).
  by step_with E.
Qed.

(** Growing the vector closes nothing. *)
Lemma emplace_back_run name fd v s :
  ∃ c, emplace_back name fd v s = (Ret (mkVec (v_items v ++ [new_Module name fd]) c), s).
Proof.
  unfold emplace_back. destruct (_ <? _)%nat; [by eexists|].
  assert (Forall (λ m, md_memfd m = UniqueFd.empty) (move_Module <$> v_items v).*2) as Hd.
  { apply list.Forall_forall. intros m (p & -> & (q & -> & _)%list_elem_of_fmap)%list_elem_of_fmap. done. }
  assert ((move_Module <$> v_items v).*1 = v_items v) as Hm.
  { rewrite <- list_fmap_compose. transitivity (id <$> v_items v); [|apply list_fmap_id].
    apply list_fmap_ext. by intros _ [? []] _. }
  step_with (destroyed_empty _ s Hd). rewrite Hm. by eexists.
Qed.

Lemma collect_modules_run l v s :
  ∃ c, collect_modules l v s = (Ret (mkVec (v_items v ++ ((λ p, new_Module p.1 p.2) <$> l)) c), s).
Proof.
  revert v s. induction l as [|[name fd] l IH]; intros v s; cbn [collect_modules].
  { rewrite app_nil_r. exists (v_capacity v). by destruct v. }
  destruct (emplace_back_run name fd v s) as [c E]. step_with E.
  destruct (IH (mkVec (v_items v ++ [new_Module name fd]) c) s) as [c' E']. exists c'. rewrite E'. cbn.
  by rewrite <- app_assoc.
Qed.

(** ** What is loaded *)

(** The linker's answer for a descriptor. *)
Definition opened (fd : Z) : Z :=
  android_dlopen_ext (txt "/jit-cache-zygisk") RTLD_NOW (mkExt ANDROID_DLEXT_USE_LIBRARY_FD fd 0).

(** A library of [Context] that stands for what the linker makes of a descriptor. *)
Definition stands_for (p : bytes * Z) (c : module_code) : Prop :=
  mc_handle c = (if opened p.2 =? 0 then None else Some (opened p.2)) ∧
  mc_entry c = negb (dlsym (opened p.2) (txt "zygisk_module_entry") =? 0).

Definition dlopens (l : list (bytes * Z)) : list levent :=
  (λ p : bytes * Z, LDlopen (txt "/jit-cache-zygisk") RTLD_NOW ANDROID_DLEXT_USE_LIBRARY_FD 0 p.2) <$> l.

Lemma load_loop_run l codes s : Forall2 stands_for l codes → ∀ i (f : nat → nat), (∀ k, f k = (i + k)%nat) →
  ∃ ms, load_loop i ((λ p, new_Module p.1 p.2) <$> l) s = (Ret ms, mkProc (p_fds s) (p_log s ++ dlopens l)) ∧
    (λ m : nat * Z * Z, m.1) <$> ms = (λ m, (zm_id m, zm_handle m)) <$> mjoin (imap (λ k, load (f k)) codes).
Proof.
  intros H. revert s. induction H as [|[name fd] c l codes [Hh He] _ IH]; intros s i f Hf.
  { exists []. cbn. rewrite app_nil_r. by destruct s. }
  rewrite fmap_cons. cbn [load_loop fst snd md_memfd new_Module UniqueFd.fd_]. unfold DlopenMem, dlopen_ext.
  rewrite prog_bind_assoc. step. step. fold (opened fd). cbn [p_fds p_log].
  destruct (IH (mkProc (p_fds s) (p_log s ++ [LDlopen (txt "/jit-cache-zygisk") RTLD_NOW ANDROID_DLEXT_USE_LIBRARY_FD 0 fd]))
              (S i) (f ∘ S)) as (ms & E & Hm).
  { intros k. unfold compose. rewrite Hf. lia. }
  step_with E. eexists. split.
  { cbn [p_fds p_log]. by rewrite <- app_assoc. }
  change (mjoin (imap _ (c :: codes))) with (load (f 0%nat) c ++ mjoin (imap (λ k, load ((f ∘ S) k)) codes)).
  rewrite fmap_app, <- Hm. rewrite Hf, Nat.add_0_r. cbn [snd] in Hh, He. unfold load. rewrite Hh.
  destruct (opened fd =? 0); [done|]. rewrite He. by destruct (dlsym _ _ =? 0).
Qed.

Lemma destroy_all_run (l : list (bytes * Z)) s :
  Forall (λ p, 0 <= p.2) l →
  for_each ((λ p, new_Module p.1 p.2) <$> l) destroy_Module s =
  (Ret tt, mkProc (p_fds s ∖ list_to_set l.*2) (p_log s ++ (LClose <$> l.*2))).
Proof.
  intros H. revert s. induction H as [|[name fd] l Hfd _ IH]; intros s; [|cbn [snd] in Hfd].
  { cbn. rewrite app_nil_r, difference_empty_L. by destruct s. }
  rewrite fmap_cons. cbn [for_each].
  assert (destroy_Module (new_Module name fd) s = (Ret tt, mkProc (p_fds s ∖ {[fd]}) (p_log s ++ [LClose fd]))) as E.
  { unfold destroy_Module, UniqueFd.destroy. cbn. by rewrite (proj2 (Z.leb_le _ _) Hfd). }
  step_with E. rewrite IH. cbn. by rewrite <- app_assoc, difference_difference_l_L.
Qed.

(** C28 The libraries the daemon sends become the modules [Context] starts from, with their index
    and handle; every descriptor is given to the linker once and is open while the modules run, and
    afterwards exactly these descriptors are closed, each once. *)
Theorem modules_loaded {A} (l : list (bytes * Z)) (codes : list module_code) (body : list (nat * Z * Z) → prog proc A) s :
  Forall2 stands_for l codes → Forall (λ p, 0 <= p.2) l →
  ∃ ms, (λ m : nat * Z * Z, m.1) <$> ms = (λ m, (zm_id m, zm_handle m)) <$> mjoin (imap load codes) ∧
    let before := mkProc (p_fds s) (p_log s ++ dlopens l) in
    ∀ a after, body ms before = (Ret a, after) →
      with_modules l body s =
        (Ret a, mkProc (p_fds after ∖ list_to_set l.*2) (p_log after ++ (LClose <$> l.*2))).
Proof.
  intros Hc Hfd. destruct (load_loop_run l codes s Hc 0 id (λ _, eq_refl)) as (ms & E & Hm).
  exists ms. split; [exact Hm|]. intros before a after Hb. unfold with_modules.
  destruct (collect_modules_run l (mkVec [] 0) s) as [c Ec]. step_with Ec. cbn [v_items app].
  step_with E. step_with Hb. by step_with (destroy_all_run l after Hfd).
Qed.

(** [DlopenExt] opens the library by one call, in a namespace for its own directory where the
    linker can create one, and otherwise in the default namespace. *)
Theorem DlopenExt_spec (path : bytes) (flags : Z) s :
  let ns := match create_namespace with Some create => create path (dirname path) 2 | None => 0 end in
  ∃ l, DlopenExt path flags s =
      (Ret (android_dlopen_ext path flags (mkExt (if ns =? 0 then 0 else 0x200) 0 ns)),
       mkProc (p_fds s) (p_log s ++ l ++ [LDlopen path flags (if ns =? 0 then 0 else 0x200) ns 0])) ∧
    l = match create_namespace with Some _ => [LCreateNamespace path (dirname path) 2] | None => [] end.
Proof.
  cbv zeta. unfold DlopenExt, dlopen_ext. destruct create_namespace as [create|]; eexists; (split; [|reflexivity]).
  - rewrite prog_bind_assoc. step. step. fold (dirname path). unfold ANDROID_NAMESPACE_TYPE_SHARED.
    destruct (create path (dirname path) 2 =? 0) eqn:E; [apply Z.eqb_eq in E; rewrite E|]; step; cbn; by rewrite <- app_assoc.
  - done.
Qed.
End linker.

(** ** Examples *)

Example dirname_cases :
  dirname (txt "/data/adb/lib/libz.so") = txt "/data/adb/lib" ∧ dirname (txt "/libz.so") = txt "/" ∧
  dirname (txt "libz.so") = txt "." ∧ dirname (txt "/a//b//") = txt "/a" ∧ dirname [] = txt ".".
Proof. vm_compute. done. Qed.

Definition demo_dlopen (path : bytes) (flags : Z) (info : dlextinfo) : Z := if x_fd info =? 8 then 0 else 4096 * x_fd info.
Definition demo_dlsym (handle : Z) (name : bytes) : Z := if handle =? 4096 * 9 then 0 else handle + 16.

Definition demo_sent : list (bytes * Z) := [(txt "a", 7); (txt "b", 8); (txt "c", 9); (txt "d", 10)].
Definition demo_codes : list module_code :=
  [mkCode (Some (4096 * 7)) true (Some 4) [] [] []; mkCode None true None [] [] [];
   mkCode (Some (4096 * 9)) false None [] [] []; mkCode (Some (4096 * 10)) true (Some 4) [] [] []].

(** The second library cannot be opened, the third has no entry. *)
Lemma modules_loaded_witness :
  ∃ ms, (λ m : nat * Z * Z, m.1) <$> ms = [(0%nat, 4096 * 7); (3%nat, 4096 * 10)] ∧
    with_modules demo_dlopen demo_dlsym demo_sent (λ _, mret tt) (mkProc {[0; 7; 8; 9; 10]} []) =
      (Ret tt, mkProc ({[0; 7; 8; 9; 10]} ∖ list_to_set [7; 8; 9; 10])
                 (dlopens demo_sent ++ (LClose <$> [7; 8; 9; 10]))).
Proof.
  destruct (modules_loaded demo_dlopen demo_dlsym demo_sent demo_codes (λ _, mret tt) (mkProc {[0; 7; 8; 9; 10]} []))
    as (ms & Hm & Hw); [by repeat constructor | by repeat constructor|].
  exists ms. split; [exact Hm|]. exact (Hw tt _ eq_refl).
Defined.
