(* ===== verification/Companion.v ===== *)
(** * Companion: the daemon's loop and its companion processes

    [main] and [handle_daemon_action] of [zygiskd/src/zygiskd.rs], and the companion process of
    [zygiskd/src/companion.rs].  A companion runs the code of one module as root; the daemon keeps
    one per module, hands it the streams of its clients, and starts it anew when it has died.
    A thread holds the lock of a module while it serves a request for it, so requests are taken one
    after the other.  The claims: clients reach the companion of the module they ask for and no
    other, and the loader's [ConnectCompanion] gets a stream exactly when a live companion holds
    the other end; what the daemon announces is what the monitor reads; a connection without a
    known action ends the daemon. *)

From Stdlib Require Import ZArith Lia Ascii.
From stdpp Require Import base tactics strings list gmap numbers relations.
From S2P Require Import Prelude Misc SocketUtils Logging.
From S2P Require Zygiskd WaitStatus.
From S2P Require MonitorState MonitorSocket.
From S2P Require Import Daemon Protocol.

Local Open Scope mach_scope.

(** ** Results

    [Result] of a function that may also panic. *)

Inductive rres (A : Type) : Type := ROk (a : A) | RErr | RPanic.
Arguments ROk {A} _.
Arguments RErr {A}.
Arguments RPanic {A}.

Definition rbind {S A B} (f : A → prog S (rres B)) (m : prog S (rres A)) : prog S (rres B) :=
  r ← m;
  match r with ROk a => f a | RErr => mret RErr | RPanic => mret RPanic end.

Notation "x ←? m ; k" := (rbind (λ x, k) m)
  (at level 20, m at level 100, k at level 200, right associativity).
Notation "m ;;? k" := (rbind (λ _, k) m) (at level 100, k at level 200, right associativity).

(** ** Streams as the daemon reads them *)

(** [read_exact] on bytes between descriptors. *)
Fixpoint rs_take (n : nat) (rx : list elem) : option (bytes * list elem) :=
  match n, rx with
  | O, _ => Some ([], rx)
  | S n, SB b :: rx => '(l, rx) ← rs_take n rx; Some (b :: l, rx)
  | _, _ => None
  end.

Definition rs_read_int (size : nat) (rx : list elem) : option (Z * list elem) :=
  '(b, rx) ← rs_take size rx; Some (le_val b, rx).

Definition rs_recv_fd (rx : list elem) : option (Z * list elem) :=
  match rx with SF fd :: rx => Some (fd, rx) | _ => None end.

(** ** State *)

(** A companion process, by its end of the socket pair: the module it was started for, whether it
    runs, whether the daemon holds the other end, and the streams it was given.  A companion whose
    other end is closed ends when it next polls its own. *)
Record cproc : Type := mkProc { p_name : bytes; p_lib : Z; p_alive : bool; p_held : bool; p_clients : list Z }.

(** A slot is empty, or remembers that the module has no entry, or holds a companion. *)
Record cworld : Type := mkCw {
  cw_slots : list (option (option Z));
  cw_procs : gmap Z cproc;
  cw_next : Z;
  cw_out : list (Z * elem);          (* what was written to clients *)
  cw_ctl : list bytes;               (* datagrams to the monitor *)
  cw_log : list log_line
}.

Definition set_slots x (w : cworld) := mkCw x (cw_procs w) (cw_next w) (cw_out w) (cw_ctl w) (cw_log w).
Definition set_procs x (w : cworld) := mkCw (cw_slots w) x (cw_next w) (cw_out w) (cw_ctl w) (cw_log w).
Definition set_next x (w : cworld) := mkCw (cw_slots w) (cw_procs w) x (cw_out w) (cw_ctl w) (cw_log w).
Definition set_out x (w : cworld) := mkCw (cw_slots w) (cw_procs w) (cw_next w) x (cw_ctl w) (cw_log w).
Definition set_ctl x (w : cworld) := mkCw (cw_slots w) (cw_procs w) (cw_next w) (cw_out w) x (cw_log w).
Definition set_log x (w : cworld) := mkCw (cw_slots w) (cw_procs w) (cw_next w) (cw_out w) (cw_ctl w) x.

(** What the kernel does while a companion is started: whether there is a socket pair and a child,
    whether the child starts the program, and how the child ends. *)
Record spawn_env : Type := mkSpawn {
  pair_ok : bool; fork_ok : bool; child_ok : bool; child_status : Z
}.

(** And during a request: whether the client still listens, whether the companion dies after it
    was polled, or with the stream but before it answers, and the descriptor of a directory. *)
Record req_env : Type := mkEnv {
  e_spawn : spawn_env; e_open : bool; e_late_death : bool; e_unanswered : bool; e_dir : bytes → option Z
}.

Definition POLLIN : Z := 1.
Definition POLLHUP : Z := 16.

Section companion.
Context (sizeof_usize : nat).
(** The linker: a namespace for a path, opening a library in it, and its symbols; the root
    implementations, which ask other programs. *)
Context (create_namespace : bytes → Z) (android_dlopen_ext : bytes → Z → Z → Z) (dlsym : Z → bytes → Z).
Context (get_impl : Zygiskd.RootImpl)
        (uid_is_manager uid_granted_root uid_should_umount : Z → bool).
Context (getpid : Z) (modules : list Zygiskd.module).

(** ** The companion process *)

Definition ANDROID_DLEXT_USE_NAMESPACE : Z := 0x200.

Definition dlopen (path : bytes) : option Z :=
  let ns := create_namespace path in
  let flags := if ns =? 0 then 0 else ANDROID_DLEXT_USE_NAMESPACE in
  let result := android_dlopen_ext path flags ns in
  if result =? 0 then None else Some result.

(** A descriptor stands for the open file it refers to, in whichever process. *)
Definition fd_path (fd : Z) : bytes := txt "/proc/self/fd/" ++ print_dec fd.

(** The entry of the library, if it has one. *)
Definition load_module (fd : Z) : option (option Z) :=
  handle ← dlopen (fd_path fd);
  let entry := dlsym handle (txt "zygisk_companion_entry") in
  Some (if entry =? 0 then None else Some entry).

Definition rs_read_string (rx : list elem) : option (bytes * list elem) :=
  '(n, rx) ← rs_read_int sizeof_usize rx;
  '(b, rx) ← rs_take (Z.to_nat n) rx;
  if from_utf8 b then Some (b, rx) else None.

(** [entry] up to its loop, on what the daemon has sent: the byte it answers.  Nothing where an
    [expect] panics, which ends the process. *)
Definition entry_reply (rx : list elem) : option Z :=
  '(_, rx) ← rs_read_string rx;
  '(library, _) ← rs_recv_fd rx;
  e ← load_module library;
  Some (match e with Some _ => 1 | None => 0 end).

Definition set_alive (b : bool) (p : cproc) : cproc := mkProc (p_name p) (p_lib p) b (p_held p) (p_clients p).
Definition set_held (b : bool) (p : cproc) : cproc := mkProc (p_name p) (p_lib p) (p_alive p) b (p_clients p).

(** The process ends. *)
Definition kill_proc (p : Z) : prog cworld unit := modify (λ w, set_procs (alter (set_alive false) p (cw_procs w)) w).

(** The daemon drops its end of the pair. *)
Definition drop_stream (p : Z) : prog cworld unit := modify (λ w, set_procs (alter (set_held false) p (cw_procs w)) w).

(** [write_u8] on the stream of a client. *)
Definition reply_u8 (open : bool) (client b : Z) : prog cworld (rres unit) :=
  if open then modify (λ w, set_out (cw_out w ++ [(client, SB (byte_of_Z b))]) w);; mret (ROk tt)
  else mret RErr.

(** A round of the loop of [entry] that receives the stream of a client: it is told, and a thread
    runs the module's code on the stream.  A client that is gone ends the process. *)
Definition companion_round (open : bool) (p client : Z) : prog cworld unit :=
  r ← reply_u8 open client 1;
  match r with
  | ROk _ => modify (λ w, set_procs (alter (λ c, mkProc (p_name c) (p_lib c) (p_alive c) (p_held c) (p_clients c ++ [client])) p (cw_procs w)) w)
  | _ => kill_proc p
  end.

(** After the module's code has run: whether the stream is closed, given what [fstat] says of the
    descriptor before and after. *)
Definition closes_client (st0 : Z * Z) (st1 : option (Z * Z)) : bool :=
  match st1 with
  | Some st1 => negb (negb (st0.1 =? st1.1) || negb (st0.2 =? st1.2))
  | None => true
  end.

(** ** The daemon's side *)

Definition revents (p : Z) (w : cworld) : Z :=
  match cw_procs w !! p with
  | Some c => if p_alive c then 0 else POLLIN ||| POLLHUP
  | None => POLLIN ||| POLLHUP
  end.

Definition check_unix_socket (p : Z) : prog cworld bool :=
  r ← gets (revents p);
  mret (negb (negb ((r &&& Z.lnot POLLIN) =? 0))).

(** Dropping the stream of a companion closes it. *)
Definition take_companion (i : nat) : prog cworld unit :=
  w ← get;
  match cw_slots w !! i with
  | Some (Some (Some p)) => drop_stream p
  | _ => mret tt
  end;;
  modify (λ w, set_slots (<[i := None]> (cw_slots w)) w).

Definition set_companion (i : nat) (c : option Z) : prog cworld unit :=
  modify (λ w, set_slots (<[i := Some c]> (cw_slots w)) w).

Definition new_process (name : bytes) (lib : Z) : prog cworld Z :=
  w ← get;
  put (set_next (cw_next w + 1) (set_procs (<[cw_next w := mkProc name lib true true []]> (cw_procs w)) w));;
  mret (cw_next w).

(** The daemon and the companion after the child has ended.  A child that could not start the
    program returns with the error, and answers the client as its parent will. *)
Definition spawn_companion (e : spawn_env) (open : bool) (client : Z) (name : bytes) (lib_fd : Z)
  : prog cworld (rres (option Z)) :=
  if negb (pair_ok e) then mret RErr
  else if negb (fork_ok e) then mret RErr
  else
    p ← (if child_ok e then p ← new_process name lib_fd; mret (Some p)
         else reply_u8 open client 0;; mret None);
    if WaitStatus.WIFEXITED (child_status e) && (WaitStatus.WEXITSTATUS (child_status e) =? 0) then
      match p with
      | None => mret RErr                       (* nobody reads the pair *)
      | Some p =>
          match entry_reply (wire_string sizeof_usize name ++ [SF lib_fd]) with
          | None => kill_proc p;; drop_stream p;; mret RErr     (* the stream ends *)
          | Some r =>
              if r =? 0 then drop_stream p;; mret (ROk None)
              else if r =? 1 then mret (ROk (Some p))
              else drop_stream p;; mret RErr
          end
      end
    else
      (* the companion finds no name on the stream *)
      match p with Some p => drop_stream p | None => mret tt end;;
      mret RErr.

Definition send_fd (e : req_env) (p client : Z) : prog cworld bool :=
  when (e_late_death e) (kill_proc p);;
  w ← get;
  match cw_procs w !! p with
  | Some c =>
      if p_alive c
      then (if e_unanswered e then kill_proc p else companion_round (e_open e) p client);; mret true
      else mret false
  | None => mret false
  end.

Definition request_companion (e : req_env) (index client : Z) : prog cworld (rres unit) :=
  let i := Z.to_nat index in
  match modules !! i with
  | None => mret RPanic
  | Some m =>
      w ← get;
      match cw_slots w !! i with
      | Some (Some (Some p)) => ok ← check_unix_socket p; when (negb ok) (take_companion i)
      | _ => mret tt
      end;;
      w ← get;
      match cw_slots w !! i with
      | Some None =>
          r ← spawn_companion (e_spawn e) (e_open e) client (Zygiskd.m_name m) (Zygiskd.m_lib_fd m);
          match r with ROk c => set_companion i c | _ => mret tt end
      | _ => mret tt
      end;;
      w ← get;
      match cw_slots w !! i with
      | Some (Some (Some p)) =>
          ok ← send_fd e p client;
          if (ok : bool) then mret (ROk tt) else reply_u8 (e_open e) client 0
      | _ => reply_u8 (e_open e) client 0
      end
  end.

Definition PATH_MODULES_DIR : bytes := txt "..".

(** Several elements for a client. *)
Definition reply_elems (open : bool) (client : Z) (es : list elem) : prog cworld (rres unit) :=
  if open then modify (λ w, set_out (cw_out w ++ ((λ x, (client, x)) <$> es)) w);; mret (ROk tt)
  else mret RErr.

Definition module_dir (e : req_env) (index client : Z) : prog cworld (rres unit) :=
  match modules !! Z.to_nat index with
  | None => mret RPanic
  | Some m =>
      match e_dir e (PATH_MODULES_DIR ++ txt "/" ++ Zygiskd.m_name m) with
      | None => mret RErr
      | Some fd => reply_elems (e_open e) client [SF fd]
      end
  end.

(** A value read from the client, or the error. *)
Definition from_client {A} (r : option (A * list elem)) : prog cworld (rres A) :=
  mret (match r with Some (a, _) => ROk a | None => RErr end).

(** The reply, or the panic for a root implementation that is not one. *)
Definition or_panic (open : bool) (client : Z) (r : option (list elem)) : prog cworld (rres unit) :=
  match r with Some es => reply_elems open client es | None => mret RPanic end.

Definition log_stream (rx : list elem) : prog cworld (rres unit) :=
  w ← get;
  let bs := omap (λ x, match x with SB b => Some b | SF _ => None end) rx in
  let '(r, l) := handle_logcat sizeof_usize (mkLogcat bs (cw_log w)) in
  put (set_log (lc_out l) w);;
  match r with
  | Ret ok => mret (if (ok : bool) then ROk tt else RErr)
  | Exit c => exit c
  | Crash why => crash why
  | OutOfFuel => no_fuel
  end.

(** The request of a client after its action byte. *)
Definition handle_daemon_action (e : req_env) (a : Zygiskd.DaemonSocketAction) (client : Z) (rx : list elem)
  : prog cworld (rres unit) :=
  match a with
  | Zygiskd.RequestLogcatFd => log_stream rx
  | Zygiskd.GetProcessFlags =>
      uid ←? from_client (rs_read_int 4 rx);
      or_panic (e_open e) client
        (Zygiskd.reply_get_process_flags get_impl uid_is_manager uid_granted_root uid_should_umount uid)
  | Zygiskd.GetInfo => or_panic (e_open e) client (Zygiskd.reply_get_info sizeof_usize get_impl getpid modules)
  | Zygiskd.ReadModules => reply_elems (e_open e) client (Zygiskd.reply_read_modules sizeof_usize modules)
  | Zygiskd.RequestCompanionSocket =>
      index ←? from_client (rs_read_int sizeof_usize rx);
      request_companion e index client
  | Zygiskd.GetModuleDir =>
      index ←? from_client (rs_read_int sizeof_usize rx);
      module_dir e index client
  | _ => mret (ROk tt)
  end.

(** ** [main] *)

Definition ZYGOTE_INJECTED : Z := if (sizeof_usize =? 8)%nat then 4 else 5.
Definition DAEMON_SET_INFO : Z := if (sizeof_usize =? 8)%nat then 6 else 7.
Definition DAEMON_SET_ERROR_INFO : Z := if (sizeof_usize =? 8)%nat then 8 else 9.
Definition SYSTEM_SERVER_STARTED : Z := 10.

Definition debug_impl (r : Zygiskd.RootImpl) : bytes :=
  match r with
  | Zygiskd.NoImpl => txt "None" | Zygiskd.TooOld => txt "TooOld" | Zygiskd.Abnormal => txt "Abnormal"
  | Zygiskd.Multiple => txt "Multiple" | Zygiskd.KernelSU => txt "KernelSU"
  | Zygiskd.Magisk => txt "Magisk" | Zygiskd.APatch => txt "APatch"
  end.

Fixpoint join_names (l : list bytes) : bytes :=
  match l with
  | [] => []
  | [x] => x
  | x :: l => x ++ txt "," ++ join_names l
  end.

Definition root_works : bool :=
  match get_impl with Zygiskd.KernelSU | Zygiskd.Magisk | Zygiskd.APatch => true | _ => false end.

Definition info_text : bytes :=
  if root_works
  then txt "Root: " ++ debug_impl get_impl ++ txt ",module(" ++ print_dec (Z.of_nat (length modules)) ++ txt "): "
       ++ join_names (Zygiskd.m_name <$> modules)
  else txt "Invalid root implementation: " ++ debug_impl get_impl.

(** The message for the monitor; the length is added up in 32 bits. *)
Definition announcement : bytes :=
  le_bytes 4 (if root_works then DAEMON_SET_INFO else DAEMON_SET_ERROR_INFO)
  ++ le_bytes 4 (u32 (u32 (Z.of_nat (length info_text)) + 1)) ++ info_text ++ [NUL].

(** A connection: whether [accept] succeeded, its stream, and the kernel's answers. *)
Record connection : Type := mkConn {
  k_accepted : bool; k_client : Z; k_in : list elem; k_env : req_env; k_sendto : bool
}.

Definition unix_datagram_sendto (ok : bool) (b : bytes) : prog cworld (rres unit) :=
  if ok then modify (λ w, set_ctl (cw_ctl w ++ [b]) w);; mret (ROk tt) else mret RErr.

(** The body of the [for] over connections.  The result of a thread is logged, and a panic ends
    the thread alone. *)
Definition serve_connection (c : connection) : prog cworld (rres unit) :=
  if negb (k_accepted c) then mret RErr
  else
    match rs_read_int 1 (k_in c) with
    | None => mret RErr
    | Some (code, rx) =>
        match Zygiskd.try_from code with
        | None => mret RErr
        | Some Zygiskd.PingHeartbeat => unix_datagram_sendto (k_sendto c) (le_bytes 4 ZYGOTE_INJECTED)
        | Some Zygiskd.ZygoteRestart =>
            for_each (seq 0 (length modules)) take_companion;; mret (ROk tt)
        | Some Zygiskd.SystemServerStarted => unix_datagram_sendto (k_sendto c) (le_bytes 4 SYSTEM_SERVER_STARTED)
        | Some a => handle_daemon_action (k_env c) a (k_client c) rx;; mret (ROk tt)
        end
    end.

Fixpoint accept_loop (cs : list connection) : prog cworld (rres unit) :=
  match cs with
  | [] => mret (ROk tt)
  | c :: cs => serve_connection c;;? accept_loop cs
  end.

(** From the announcement on; [expect] on its failure. *)
Definition daemon_main (announced : bool) (cs : list connection) : prog cworld (rres unit) :=
  modify (set_slots (replicate (length modules) None));;
  r ← unix_datagram_sendto announced announcement;
  match r with
  | ROk _ => accept_loop cs
  | _ => mret RPanic
  end.
End companion.

(** ** Streams *)

Lemma rs_take_app b es : rs_take (length b) ((SB <$> b) ++ es) = Some (b, es).
Proof. induction b as [|c b IH]; [done|]. cbn. by rewrite IH. Qed.

Lemma rs_read_int_wire n v es : 0 <= v < 256 ^ Z.of_nat n → rs_read_int n (wire_int n v ++ es) = Some (v, es).
Proof.
  intros Hv. unfold rs_read_int, wire_int.
  rewrite <- (length_le_bytes n v) at 1. rewrite rs_take_app. cbn. by rewrite le_val_bytes_id.
Qed.

(** ** The invariant *)

Section invariant.
Context (sz : nat) (ns : bytes → Z) (ext : bytes → Z → Z → Z) (sym : Z → bytes → Z).
Context (modules : list Zygiskd.module).

Local Abbreviation load := (load_module ns ext sym).

(** Names are strings of the daemon. *)
Definition rust_string (b : bytes) : Prop := from_utf8 b = true ∧ Z.of_nat (length b) < 256 ^ Z.of_nat sz.

Record holds_companion (m : Zygiskd.module) (c : cproc) : Prop := {
  hc_name : p_name c = Zygiskd.m_name m;
  hc_lib : p_lib c = Zygiskd.m_lib_fd m;
  hc_held : p_held c = true;
  hc_entry : ∃ f, load (Zygiskd.m_lib_fd m) = Some (Some f)
}.

Record cw_ok (w : cworld) : Prop := {
  co_len : length (cw_slots w) = length modules;
  co_held : ∀ i p, cw_slots w !! i = Some (Some (Some p)) →
    ∃ m c, modules !! i = Some m ∧ cw_procs w !! p = Some c ∧ holds_companion m c;
  co_inj : ∀ i j p, cw_slots w !! i = Some (Some (Some p)) → cw_slots w !! j = Some (Some (Some p)) → i = j;
  co_none : ∀ i, cw_slots w !! i = Some (Some None) →
    ∃ m, modules !! i = Some m ∧ load (Zygiskd.m_lib_fd m) = Some None;
  co_live : ∀ p c, cw_procs w !! p = Some c → p_held c = true → ∃ i, cw_slots w !! i = Some (Some (Some p));
  co_fresh : ∀ p c, cw_procs w !! p = Some c → p < cw_next w;
  co_told : ∀ p c k, cw_procs w !! p = Some c → k ∈ p_clients c → (k, SB (byte_of_Z 1)) ∈ cw_out w
}.

Definition killed (p : Z) (w : cworld) : cworld := set_procs (alter (set_alive false) p (cw_procs w)) w.
Definition dropped (p : Z) (w : cworld) : cworld := set_procs (alter (set_held false) p (cw_procs w)) w.

Definition spawned (alive held : bool) (name : bytes) (lib : Z) (w : cworld) : cworld :=
  set_next (cw_next w + 1) (set_procs (<[cw_next w := mkProc name lib alive held []]> (cw_procs w)) w).

Definition said (client b : Z) (w : cworld) : cworld := set_out (cw_out w ++ [(client, SB (byte_of_Z b))]) w.

(** One process changes, its module and its streams do not. *)
Lemma altered_lookup (f : cproc → cproc) p q (m : gmap Z cproc) c :
  alter f p m !! q = Some c → ∃ c0, m !! q = Some c0 ∧ (p = q ∧ c = f c0 ∨ p ≠ q ∧ c = c0).
Proof.
  destruct (decide (p = q)) as [->|Hne].
  - rewrite lookup_alter_eq. intros (c0 & E & ->)%fmap_Some. exists c0. auto.
  - rewrite lookup_alter_ne by done. intros E. exists c. auto.
Qed.

Lemma killed_lookup p q w c :
  cw_procs (killed p w) !! q = Some c →
  ∃ c0, cw_procs w !! q = Some c0 ∧ p_name c = p_name c0 ∧ p_lib c = p_lib c0 ∧ p_clients c = p_clients c0 ∧
    p_held c = p_held c0.
Proof. intros (c0 & E & [[_ ->]|[_ ->]])%altered_lookup; by exists c0. Qed.

Lemma killed_ok p w : cw_ok w → cw_ok (killed p w).
Proof.
  intros [H1 H2 H3 H4 H5 H6 H7]. constructor; try done.
  - intros i q Hi. destruct (H2 i q Hi) as (m & c & Hm & Hc & [K1 K2 K3 K4]). cbn.
    destruct (decide (p = q)) as [->|Hne].
    + exists m, (set_alive false c). rewrite lookup_alter_eq, Hc. by split_and!.
    + exists m, c. by rewrite lookup_alter_ne.
  - intros q c Hc Ha. destruct (killed_lookup p q w c Hc) as (c0 & E & _ & _ & _ & H). apply (H5 q c0); congruence.
  - intros q c Hc. destruct (killed_lookup p q w c Hc) as (c0 & E & _). by apply (H6 q c0).
  - intros q c k Hc Hk. destruct (killed_lookup p q w c Hc) as (c0 & E & _ & _ & Hcl & _). apply (H7 q c0); [done | congruence].
Qed.

Lemma said_ok client b w : cw_ok w → cw_ok (said client b w).
Proof. intros [H1 H2 H3 H4 H5 H6 H7]. constructor; try done. intros p c k Hc Hk. cbn. apply elem_of_app. left. eauto. Qed.

Lemma emptied_lookup {A} i (l : list (option A)) j x :
  <[i := None]> l !! j = Some (Some x) → i ≠ j ∧ l !! j = Some (Some x).
Proof. intros [(-> & [=] & _)|[Hne Hj]]%list_lookup_insert_Some. done. Qed.

(** The slot of a companion is emptied, and its stream dropped. *)
Lemma taken_ok i w :
  cw_ok w →
  let w1 := match cw_slots w !! i with Some (Some (Some p)) => dropped p w | _ => w end in
  cw_ok (set_slots (<[i := None]> (cw_slots w1)) w1).
Proof.
  intros [H1 H2 H3 H4 H5 H6 H7]. cbv zeta.
  assert ((∃ p, cw_slots w !! i = Some (Some (Some p))) ∨ ¬ ∃ p, cw_slots w !! i = Some (Some (Some p))) as [[p Hi]|Hno].
  { destruct (cw_slots w !! i) as [[[p|]|]|]; [left; eauto | right; by intros [? [=]] ..]. }
  - rewrite Hi. constructor; cbn.
    + by rewrite length_insert.
    + intros j q [Hne Hj]%emptied_lookup. destruct (H2 j q Hj) as (m & c & Hm & Hc & Hh). exists m, c.
      rewrite lookup_alter_ne; [done|]. intros ->. apply Hne. by apply (H3 i j q).
    + intros j k q [_ Hj]%emptied_lookup [_ Hk]%emptied_lookup. eauto.
    + intros j [_ Hj]%emptied_lookup. eauto.
    + intros q c (c0 & E & [[-> ->]|[Hne ->]])%altered_lookup Hh; [done|]. destruct (H5 q c0 E Hh) as [j Hj]. exists j.
      rewrite list_lookup_insert_ne; [done|]. intros <-. congruence.
    + intros q c (c0 & E & _)%altered_lookup. by apply (H6 q c0).
    + intros q c k (c0 & E & [[_ ->]|[_ ->]])%altered_lookup Hk; by apply (H7 q c0).
  - assert (match cw_slots w !! i with Some (Some (Some p)) => dropped p w | _ => w end = w) as ->.
    { destruct (cw_slots w !! i) as [[[p|]|]|]; [|done..]. destruct Hno. by exists p. }
    constructor; cbn; try done.
    + by rewrite length_insert.
    + intros j q [_ Hj]%emptied_lookup. eauto.
    + intros j k q [_ Hj]%emptied_lookup [_ Hk]%emptied_lookup. eauto.
    + intros j [_ Hj]%emptied_lookup. eauto.
    + intros q c Hc Hh. destruct (H5 q c Hc Hh) as [j Hj]. exists j.
      rewrite list_lookup_insert_ne; [done|]. intros <-. apply Hno. by exists q.
Qed.

(** A process of no slot, whose stream was dropped. *)
Lemma spawned_loose_ok alive name lib w : cw_ok w → cw_ok (spawned alive false name lib w).
Proof.
  intros [H1 H2 H3 H4 H5 H6 H7].
  assert (∀ p c, cw_procs w !! p = Some c → cw_next w ≠ p) as Hne by (intros p c Hc; specialize (H6 p c Hc); lia).
  assert (∀ p c, cw_procs (spawned alive false name lib w) !! p = Some c →
    (p = cw_next w ∧ c = mkProc name lib alive false []) ∨ cw_procs w !! p = Some c) as L.
  { cbn. intros p c [[<- <-]|[_ ?]]%lookup_insert_Some; auto. }
  constructor; try done.
  - intros i p Hi. destruct (H2 i p Hi) as (m & c & Hm & Hc & Hh). exists m, c. cbn. by rewrite lookup_insert_ne by eauto.
  - intros p c [[-> ->]|Hc]%L Ha; [done | eauto].
  - intros p c [[-> ->]|Hc]%L; cbn; [lia | specialize (H6 p c Hc); lia].
  - intros p c k [[-> ->]|Hc]%L Hk; [by apply elem_of_nil in Hk | cbn; eauto].
Qed.

(** A companion that answers is put into the slot of its module, which was empty. *)
Lemma spawned_live_ok i m f w :
  cw_ok w → modules !! i = Some m → cw_slots w !! i = Some None → load (Zygiskd.m_lib_fd m) = Some (Some f) →
  let w1 := spawned true true (Zygiskd.m_name m) (Zygiskd.m_lib_fd m) w in
  cw_ok (set_slots (<[i := Some (Some (cw_next w))]> (cw_slots w1)) w1).
Proof.
  intros [H1 H2 H3 H4 H5 H6 H7] Hm Hi Hf. cbv zeta.
  assert (∀ p c, cw_procs w !! p = Some c → cw_next w ≠ p) as Hne by (intros p c Hc; specialize (H6 p c Hc); lia).
  assert (i < length (cw_slots w))%nat as Hlt by (by eapply lookup_lt_Some).
  assert (∀ j x, <[i := Some (Some (cw_next w))]> (cw_slots w) !! j = Some (Some x) →
    (i = j ∧ x = Some (cw_next w)) ∨ (i ≠ j ∧ cw_slots w !! j = Some (Some x))) as L.
  { intros j x. destruct (decide (i = j)) as [->|Hn]; [|rewrite list_lookup_insert_ne by done; auto].
    rewrite list_lookup_insert_eq by done. intros [= <-]. auto. }
  constructor; cbn.
  - by rewrite length_insert.
  - intros j p [[<- [= ->]]|[_ Hj]]%L.
    + exists m, (mkProc (Zygiskd.m_name m) (Zygiskd.m_lib_fd m) true true []). rewrite lookup_insert_eq. split_and!; [done..|].
      constructor; [done | done | done | by exists f].
    + destruct (H2 j p Hj) as (m' & c & Hm' & Hc & Hh). exists m', c. by rewrite lookup_insert_ne by eauto.
  - intros j k p [[<- [= ->]]|[_ Hj]]%L [[<- ?]|[_ Hk]]%L; try done; [| | by eapply H3].
    + destruct (H2 k _ Hk) as (_ & c & _ & Hc & _). by destruct (Hne _ _ Hc).
    + simplify_eq. destruct (H2 j _ Hj) as (_ & c & _ & Hc & _). by destruct (Hne _ _ Hc).
  - intros j [[<- ?]|[_ Hj]]%L; [done | eauto].
  - intros p c [[<- <-]|[_ Hc]]%lookup_insert_Some Ha.
    + exists i. by rewrite list_lookup_insert_eq.
    + destruct (H5 p c Hc Ha) as [j Hj]. exists j. rewrite list_lookup_insert_ne; [done|]. intros <-. congruence.
  - intros p c [[<- _]|[_ Hc]]%lookup_insert_Some; [lia | specialize (H6 p c Hc); lia].
  - intros p c k [[<- <-]|[_ Hc]]%lookup_insert_Some Hk; [by apply elem_of_nil in Hk | eauto].
Qed.

Lemma no_entry_ok i m w :
  cw_ok w → modules !! i = Some m → cw_slots w !! i = Some None → load (Zygiskd.m_lib_fd m) = Some None →
  cw_ok (set_slots (<[i := Some None]> (cw_slots w)) w).
Proof.
  intros [H1 H2 H3 H4 H5 H6 H7] Hm Hi Hf.
  assert (i < length (cw_slots w))%nat as Hlt by (by eapply lookup_lt_Some).
  assert (∀ j x, <[i := Some None]> (cw_slots w) !! j = Some (Some x) →
    (i = j ∧ x = None) ∨ cw_slots w !! j = Some (Some x)) as L.
  { intros j x. destruct (decide (i = j)) as [->|Hn]; [|rewrite list_lookup_insert_ne by done; auto].
    rewrite list_lookup_insert_eq by done. intros [= <-]. auto. }
  constructor; cbn; try done.
  - by rewrite length_insert.
  - intros j p [[_ ?]|Hj]%L; [done | eauto].
  - intros j k p [[_ ?]|Hj]%L [[_ ?]|Hk]%L; try done. eauto.
  - intros j [[<- _]|Hj]%L; [by exists m | eauto].
  - intros p c Hc Ha. destruct (H5 p c Hc Ha) as [j Hj]. exists j. rewrite list_lookup_insert_ne; [done|]. intros <-. congruence.
Qed.

Definition served (p client : Z) (w : cworld) : cworld :=
  set_procs (alter (λ c, mkProc (p_name c) (p_lib c) (p_alive c) (p_held c) (p_clients c ++ [client])) p (cw_procs w)) (said client 1 w).

Lemma served_ok p client w : cw_ok w → cw_ok (served p client w).
Proof.
  intros [H1 H2 H3 H4 H5 H6 H7].
  assert (∀ q c, cw_procs (served p client w) !! q = Some c → ∃ c0, cw_procs w !! q = Some c0 ∧ p_held c = p_held c0 ∧
    (p_clients c = p_clients c0 ∨ p_clients c = p_clients c0 ++ [client])) as L.
  { intros q c. cbn. destruct (decide (p = q)) as [->|Hne].
    - rewrite lookup_alter_eq. intros (c0 & E & ->)%fmap_Some. exists c0. split_and!; auto.
    - rewrite lookup_alter_ne by done. intros E. exists c. auto. }
  constructor; try done.
  - intros i q Hi. destruct (H2 i q Hi) as (m & c & Hm & Hc & [K1 K2 K3 K4]). cbn. destruct (decide (p = q)) as [->|Hne].
    + eexists m, _. rewrite lookup_alter_eq, Hc. by split_and!.
    + exists m, c. by rewrite lookup_alter_ne.
  - intros q c (c0 & E & Ha & _)%L Hal. rewrite Ha in Hal. eauto.
  - intros q c (c0 & E & _)%L. by apply (H6 q c0).
  - intros q c k (c0 & E & _ & Hcl)%L Hk. cbn. apply elem_of_app. destruct Hcl as [Hcl|Hcl]; rewrite Hcl in Hk; [eauto|].
    apply elem_of_app in Hk as [Hk|Hk%list_elem_of_singleton]; [eauto | subst k; right; by apply list_elem_of_singleton].
Qed.

(** ** Starting a companion *)

(** The daemon's message and what the new process makes of it. *)
Lemma entry_reply_sent name lib :
  rust_string name →
  entry_reply sz ns ext sym (wire_string sz name ++ [SF lib]) =
    (λ e, match e with Some _ => 1 | None => 0 end) <$> load lib.
Proof.
  intros [Hu Hl]. unfold entry_reply, rs_read_string, wire_string. rewrite <- app_assoc.
  rewrite rs_read_int_wire by lia. cbn [mbind option_bind]. rewrite Nat2Z.id, rs_take_app. cbn [mbind option_bind].
  rewrite Hu. cbn. by destruct (load lib).
Qed.

Definition said_if (open : bool) (client b : Z) (w : cworld) : cworld := if open then said client b w else w.

Lemma reply_u8_run open client b w :
  reply_u8 open client b w = (Ret (if open then ROk tt else RErr), said_if open client b w).
Proof. by destruct open. Qed.

Lemma spawned_dropped alive name lib w : dropped (cw_next w) (spawned alive true name lib w) = spawned alive false name lib w.
Proof. unfold dropped, spawned, set_procs, set_next. cbn. by rewrite alter_insert_eq. Qed.

Lemma spawned_killed name lib w : killed (cw_next w) (spawned true true name lib w) = spawned false true name lib w.
Proof. unfold killed, spawned, set_procs, set_next. cbn. by rewrite alter_insert_eq. Qed.

(** A process whose child ended well is judged by the answer of its library. *)
Definition started (name : bytes) (lib : Z) (w : cworld) : outcome (rres (option Z)) * cworld :=
  match load lib with
  | None => (Ret RErr, spawned false false name lib w)
  | Some None => (Ret (ROk None), spawned true false name lib w)
  | Some (Some _) => (Ret (ROk (Some (cw_next w))), spawned true true name lib w)
  end.

Definition ended_well (e : spawn_env) : bool :=
  WaitStatus.WIFEXITED (child_status e) && (WaitStatus.WEXITSTATUS (child_status e) =? 0).

Lemma spawn_run e open client name lib w :
  rust_string name →
  spawn_companion sz ns ext sym e open client name lib w =
    (if negb (pair_ok e && fork_ok e) then (Ret RErr, w)
     else if child_ok e
     then if ended_well e then started name lib w else (Ret RErr, spawned true false name lib w)
     else (Ret RErr, said_if open client 0 w)).
Proof.
  intros Hn. unfold spawn_companion, ended_well. destruct (pair_ok e), (fork_ok e); try done. cbn [negb andb].
  destruct (child_ok e).
  - erewrite bind_run by reflexivity. cbv beta. destruct (_ && _) eqn:Ew.
    + rewrite entry_reply_sent by done. unfold started. destruct (load lib) as [[f|]|]; cbn -[spawned].
      * done.
      * by rewrite <- spawned_dropped.
      * by rewrite <- spawned_dropped, <- spawned_killed.
    + cbn -[spawned]. by rewrite <- spawned_dropped.
  - erewrite bind_run; [|erewrite bind_run by apply reply_u8_run; reflexivity]. by destruct (_ && _).
Qed.

(** ** Requests *)

Lemma check_unix_socket_run p w :
  check_unix_socket p w = (Ret (match cw_procs w !! p with Some c => p_alive c | None => false end), w).
Proof. unfold check_unix_socket. step. unfold revents. by destruct (cw_procs w !! p) as [[? ? []]|]. Qed.

Lemma take_companion_run i w :
  take_companion i w =
    (Ret tt, let w1 := match cw_slots w !! i with Some (Some (Some p)) => dropped p w | _ => w end in
             set_slots (<[i := None]> (cw_slots w1)) w1).
Proof. unfold take_companion. step. by destruct (cw_slots w !! i) as [[[p|]|]|]. Qed.

Lemma take_companion_ok i w : cw_ok w → cw_ok (take_companion i w).2.
Proof.
  intros Hw. rewrite take_companion_run. cbn [snd]. by apply taken_ok.
Qed.

(** The three parts of a request: a dead companion is dropped, a missing one started, and the
    stream handed over. *)
Definition without_dead (i : nat) (w : cworld) : cworld :=
  match cw_slots w !! i with
  | Some (Some (Some p)) =>
      if match cw_procs w !! p with Some c => p_alive c | None => false end then w else (take_companion i w).2
  | _ => w
  end.

Definition start_missing (e : req_env) (client : Z) (m : Zygiskd.module) (i : nat) (w : cworld) : cworld :=
  match cw_slots w !! i with
  | Some None =>
      let '(r, w1) := spawn_companion sz ns ext sym (e_spawn e) (e_open e) client (Zygiskd.m_name m) (Zygiskd.m_lib_fd m) w in
      match r with Ret (ROk c) => set_slots (<[i := Some c]> (cw_slots w1)) w1 | _ => w1 end
  | _ => w
  end.

Definition handed_over (e : req_env) (client : Z) (i : nat) (w : cworld) : cworld :=
  match cw_slots w !! i with
  | Some (Some (Some p)) =>
      let w1 := if e_late_death e then killed p w else w in
      match cw_procs w1 !! p with
      | Some c =>
          if p_alive c then if e_open e && negb (e_unanswered e) then served p client w1 else killed p w1
          else said_if (e_open e) client 0 w1
      | None => said_if (e_open e) client 0 w1
      end
  | _ => said_if (e_open e) client 0 w
  end.

Lemma spawn_returns e open client name lib w :
  rust_string name → ∃ r w', spawn_companion sz ns ext sym e open client name lib w = (Ret r, w').
Proof.
  intros Hn. rewrite spawn_run by done. unfold started.
  destruct (negb _), (child_ok e), (ended_well e), (load lib) as [[]|]; by eexists _, _.
Qed.

Lemma without_dead_run i w :
  match cw_slots w !! i with
  | Some (Some (Some p)) => ok ← check_unix_socket p; when (negb ok) (take_companion i)
  | _ => mret tt
  end w = (Ret tt, without_dead i w).
Proof.
  unfold without_dead. destruct (cw_slots w !! i) as [[[p|]|]|]; try done. step_with (check_unix_socket_run p w).
  destruct (match cw_procs w !! p with Some c => p_alive c | None => false end); [done|].
  unfold when. cbn [negb]. by rewrite take_companion_run.
Qed.

Lemma start_missing_run e client m i w :
  rust_string (Zygiskd.m_name m) →
  match cw_slots w !! i with
  | Some None =>
      r ← spawn_companion sz ns ext sym (e_spawn e) (e_open e) client (Zygiskd.m_name m) (Zygiskd.m_lib_fd m);
      match r with ROk c => set_companion i c | _ => mret tt end
  | _ => mret tt
  end w = (Ret tt, start_missing e client m i w).
Proof.
  intros Hn. unfold start_missing. destruct (cw_slots w !! i) as [[|]|]; try done.
  destruct (spawn_returns (e_spawn e) (e_open e) client (Zygiskd.m_name m) (Zygiskd.m_lib_fd m) w Hn) as (r & w1 & E).
  rewrite E. step_with E. by destruct r.
Qed.

Lemma send_fd_run e p client w :
  send_fd e p client w =
    (let w1 := if e_late_death e then killed p w else w in
     match cw_procs w1 !! p with
     | Some c =>
         if p_alive c then (Ret true, if e_open e && negb (e_unanswered e) then served p client w1 else killed p w1)
         else (Ret false, w1)
     | None => (Ret false, w1)
     end).
Proof.
  unfold send_fd. erewrite bind_run.
  2:{ instantiate (1 := if e_late_death e then killed p w else w). instantiate (1 := tt). by destruct (e_late_death e). }
  cbv beta zeta. step. set (w1 := if e_late_death e then _ else _).
  destruct (cw_procs w1 !! p) as [c|]; [|done]. destruct (p_alive c); [|done].
  destruct (e_unanswered e); cbn [negb]; [by rewrite andb_false_r | rewrite andb_true_r].
  unfold companion_round. rewrite prog_bind_assoc. erewrite bind_run by apply reply_u8_run. by destruct (e_open e).
Qed.

Lemma handed_over_run e client i w :
  ∃ r, match cw_slots w !! i with
       | Some (Some (Some p)) =>
           ok ← send_fd e p client; if (ok : bool) then mret (ROk tt) else reply_u8 (e_open e) client 0
       | _ => reply_u8 (e_open e) client 0
       end w = (Ret r, handed_over e client i w) ∧ (e_open e = true → r = ROk tt).
Proof.
  unfold handed_over.
  assert (∀ w, ∃ r, reply_u8 (e_open e) client 0 w = (Ret r, said_if (e_open e) client 0 w) ∧ (e_open e = true → r = ROk tt)) as R.
  { intros w0. rewrite reply_u8_run. eexists. split; [done|]. by intros ->. }
  destruct (cw_slots w !! i) as [[[p|]|]|]; try apply R. cbv zeta.
  unfold mbind, prog_bind. rewrite send_fd_run. cbv zeta. set (w1 := if e_late_death e then _ else _).
  destruct (cw_procs w1 !! p) as [c|]; [|apply R]. destruct (p_alive c); [|apply R]. by eexists.
Qed.

Lemma request_run e index client m w :
  modules !! Z.to_nat index = Some m → rust_string (Zygiskd.m_name m) →
  ∃ r, request_companion sz ns ext sym modules e index client w =
    (Ret r, handed_over e client (Z.to_nat index) (start_missing e client m (Z.to_nat index) (without_dead (Z.to_nat index) w))) ∧
    (e_open e = true → r = ROk tt).
Proof.
  intros Hm Hn. unfold request_companion. rewrite Hm. cbv zeta. set (i := Z.to_nat index). step.
  step_with (without_dead_run i w). step. step_with (start_missing_run e client m i (without_dead i w) Hn). step.
  apply handed_over_run.
Qed.

Lemma without_dead_ok i w : cw_ok w → cw_ok (without_dead i w).
Proof.
  intros Hw. unfold without_dead. destruct (cw_slots w !! i) as [[[p|]|]|]; try done.
  destruct (match cw_procs w !! p with Some c => p_alive c | None => false end); [done | by apply take_companion_ok].
Qed.

Lemma said_if_ok open client b w : cw_ok w → cw_ok (said_if open client b w).
Proof. intros Hw. destruct open; [by apply said_ok | done]. Qed.

Lemma start_missing_ok e client m i w :
  cw_ok w → modules !! i = Some m → rust_string (Zygiskd.m_name m) → cw_ok (start_missing e client m i w).
Proof.
  intros Hw Hm Hn. unfold start_missing. destruct (cw_slots w !! i) as [[|]|] eqn:Hi; try done.
  rewrite spawn_run by done. destruct (negb _); [done|].
  destruct (child_ok _); [|by apply said_if_ok].
  destruct (ended_well _); [|by apply spawned_loose_ok].
  unfold started. destruct (load (Zygiskd.m_lib_fd m)) as [[f|]|] eqn:Hf; [| |by apply spawned_loose_ok].
  - by apply (spawned_live_ok i m f).
  - apply (no_entry_ok i m); [by apply spawned_loose_ok | done..].
Qed.

Lemma handed_over_ok e client i w : cw_ok w → cw_ok (handed_over e client i w).
Proof.
  intros Hw. unfold handed_over. destruct (cw_slots w !! i) as [[[p|]|]|]; try by apply said_if_ok.
  set (w1 := if e_late_death e then _ else _).
  assert (cw_ok w1) as H1 by (unfold w1; destruct (e_late_death e); [by apply killed_ok | done]).
  destruct (cw_procs w1 !! p) as [c|]; [|by apply said_if_ok]. destruct (p_alive c); [|by apply said_if_ok].
  destruct (_ && _); [by apply served_ok | by apply killed_ok].
Qed.

Lemma request_ok e index client w :
  Forall (λ m, rust_string (Zygiskd.m_name m)) modules → cw_ok w →
  cw_ok (request_companion sz ns ext sym modules e index client w).2.
Proof.
  intros Hn Hw. destruct (modules !! Z.to_nat index) as [m|] eqn:Hm.
  - destruct (request_run e index client m w Hm) as (r & -> & _); [by eapply Forall_lookup_1 in Hn|]. cbn [snd].
    apply handed_over_ok, start_missing_ok; [by apply without_dead_ok | done | by eapply Forall_lookup_1 in Hn].
  - unfold request_companion. by rewrite Hm.
Qed.

(** ** What a request leads to *)

Definition has_client (k : Z) (w : cworld) : Prop := ∃ p c, cw_procs w !! p = Some c ∧ k ∈ p_clients c.

Lemma has_client_killed k p w : has_client k (killed p w) → has_client k w.
Proof. intros (q & c & Hc & Hk). destruct (killed_lookup p q w c Hc) as (c0 & E & _ & _ & Hcl & _). exists q, c0. by rewrite <- Hcl. Qed.

Lemma has_client_dropped k p w : has_client k (dropped p w) → has_client k w.
Proof. intros (q & c & (c0 & E & [[_ ->]|[_ ->]])%altered_lookup & Hk); by exists q, c0. Qed.

Lemma has_client_spawned k a b name lib w : has_client k (spawned a b name lib w) → has_client k w.
Proof.
  intros (q & c & Hc & Hk). cbn in Hc. apply lookup_insert_Some in Hc as [[<- <-]|[_ Hc]]; [by apply elem_of_nil in Hk | by exists q, c].
Qed.

Lemma has_client_said_if k open client b w : has_client k (said_if open client b w) → has_client k w.
Proof. by destruct open. Qed.

Lemma out_said client b w : cw_out (said client b w) = cw_out w ++ [(client, SB (byte_of_Z b))].
Proof. done. Qed.

Lemma without_dead_frame i w :
  cw_out (without_dead i w) = cw_out w ∧ (∀ k, has_client k (without_dead i w) → has_client k w) ∧
  cw_next (without_dead i w) = cw_next w.
Proof.
  unfold without_dead. destruct (cw_slots w !! i) as [[[p|]|]|] eqn:E; try done.
  destruct (match cw_procs w !! p with Some c => p_alive c | None => false end); [done|].
  rewrite take_companion_run, E. cbn [snd]. split_and!; [done | | done]. intros k. apply (has_client_dropped k p).
Qed.

Lemma start_missing_frame e client m i w :
  rust_string (Zygiskd.m_name m) →
  (cw_out (start_missing e client m i w) = cw_out w ∨
   cw_out (start_missing e client m i w) = cw_out w ++ [(client, SB (byte_of_Z 0))] ∧
   cw_slots (start_missing e client m i w) !! i = Some None) ∧
  (∀ k, has_client k (start_missing e client m i w) → has_client k w).
Proof.
  intros Hn. unfold start_missing. destruct (cw_slots w !! i) as [[|]|] eqn:Hi; try (by split; [left|]).
  rewrite spawn_run by done. destruct (negb _); [by split; [left|]|]. destruct (child_ok _).
  - destruct (ended_well _); [|split; [by left | intros k; apply has_client_spawned]].
    unfold started. destruct (load _) as [[f|]|]; (split; [by left | intros k Hk; eapply has_client_spawned, Hk]).
  - split; [|intros k; apply has_client_said_if]. destruct (e_open e); [by right | by left].
Qed.

(** The answers to a client: the companion's, or one or two refusals. *)
Definition answers (client : Z) (bs : list Z) : list (Z * elem) := (λ b, (client, SB (byte_of_Z b))) <$> bs.

(** The stream of the client is with the live companion of the module. *)
Definition connected (m : Zygiskd.module) (i : nat) (client : Z) (w : cworld) : Prop :=
  ∃ p c, cw_slots w !! i = Some (Some (Some p)) ∧ cw_procs w !! p = Some c ∧ p_alive c = true ∧
    last (p_clients c) = Some client ∧ holds_companion m c.

Lemma handed_over_spec e client m i w :
  cw_ok w → modules !! i = Some m → e_open e = true → ¬ has_client client w →
  (cw_out (handed_over e client i w) = cw_out w ++ answers client [1] ∧ connected m i client (handed_over e client i w) ∧
   ∃ p, cw_slots w !! i = Some (Some (Some p))) ∨
  ((cw_out (handed_over e client i w) = cw_out w ++ answers client [0] ∨
    cw_out (handed_over e client i w) = cw_out w ++ answers client [] ∧ e_unanswered e = true ∧
    ∃ p, cw_slots w !! i = Some (Some (Some p))) ∧
   ¬ has_client client (handed_over e client i w)).
Proof.
  intros Hw Hm Ho Hf. unfold handed_over. rewrite Ho.
  destruct (cw_slots w !! i) as [[[p|]|]|] eqn:Hi; try by (right; split; [left|]). cbv zeta.
  set (w1 := if e_late_death e then _ else _).
  assert (cw_ok w1 ∧ cw_out w1 = cw_out w ∧ cw_slots w1 = cw_slots w ∧ ¬ has_client client w1) as (H1 & Eo & Es & Hf1).
  { unfold w1. destruct (e_late_death e); [|done]. split_and!; [by apply killed_ok | done | done | by intros ?%has_client_killed]. }
  clearbody w1. destruct (cw_procs w1 !! p) as [c|] eqn:Hc.
  2:{ right. cbn [said_if]. split; [left | done]. by rewrite out_said, Eo. }
  destruct (p_alive c) eqn:Ha; [|right; cbn [said_if]; split; [left | done]; by rewrite out_said, Eo].
  destruct (e_unanswered e) eqn:Hu; cbn [negb andb].
  { right. split; [right | by intros ?%has_client_killed]. cbn. rewrite app_nil_r, Eo. eauto. }
  left.
  rewrite <- Es in Hi. destruct (co_held w1 H1 i p Hi) as (m' & c' & Hm' & Hc' & [K1 K2 K3 K4]). simplify_eq.
  split_and!; [by cbn; rewrite Eo | | by exists p].
  eexists p, _. cbn. rewrite lookup_alter_eq, Hc. split_and!; [done | done | done | cbn; by rewrite last_snoc | by constructor].
Qed.

(** Nothing goes wrong around the request. *)
Record calm (e : req_env) : Prop := {
  calm_pair : pair_ok (e_spawn e) = true;
  calm_fork : fork_ok (e_spawn e) = true;
  calm_child : child_ok (e_spawn e) = true;
  calm_status : child_status (e_spawn e) = 0;
  calm_open : e_open e = true;
  calm_alive : e_late_death e = false;
  calm_answered : e_unanswered e = false
}.

Lemma without_dead_slot i w :
  cw_ok w → (i < length modules)%nat →
  (∃ p c, cw_slots (without_dead i w) !! i = Some (Some (Some p)) ∧ cw_procs (without_dead i w) !! p = Some c ∧ p_alive c = true) ∨
  cw_slots (without_dead i w) !! i = Some None ∨ cw_slots (without_dead i w) !! i = Some (Some None).
Proof.
  intros Hw Hi. rewrite <- (co_len w Hw) in Hi. unfold without_dead.
  destruct (cw_slots w !! i) as [[[p|]|]|] eqn:E; [|by auto|by auto|by apply lookup_ge_None in E; lia].
  destruct (co_held w Hw i p E) as (m & c & _ & Hc & _). rewrite Hc.
  destruct (p_alive c) eqn:Ha; [left; by exists p, c|]. right. left. rewrite take_companion_run, E. cbn. by apply list_lookup_insert_eq.
Qed.

(** A companion that is there serves, and one that is missing is started if the module has one. *)
Lemma request_calm e client m i w :
  cw_ok w → modules !! i = Some m → rust_string (Zygiskd.m_name m) → calm e →
  let w1 := start_missing e client m i (without_dead i w) in
  cw_out w1 = cw_out w ∧
  match load (Zygiskd.m_lib_fd m) with
  | Some (Some _) => ∃ p c, cw_slots w1 !! i = Some (Some (Some p)) ∧ cw_procs w1 !! p = Some c ∧ p_alive c = true
  | Some None => cw_slots w1 !! i = Some (Some None)
  | None => cw_slots w1 !! i = Some None
  end.
Proof.
  intros Hw Hm Hn [C1 C2 C3 C4 C5 C6 C7]. cbv zeta.
  assert (i < length modules)%nat as Hi by (by eapply lookup_lt_Some).
  destruct (without_dead_frame i w) as (Eo & _ & _). rewrite <- Eo.
  pose proof (without_dead_ok i w Hw) as Hw1.
  destruct (without_dead_slot i w Hw Hi) as [(p & c & E & Hc & Ha)|[E|E]]; unfold start_missing; rewrite E.
  - split; [done|]. destruct (co_held _ Hw1 i p E) as (m' & c' & Hm' & Hc' & [_ _ _ [f Hf]]). simplify_eq. rewrite Hf. by exists p, c.
  - rewrite spawn_run by done. unfold ended_well. rewrite C1, C2, C3, C4. cbn [negb andb].
    assert (i < length (cw_slots (without_dead i w)))%nat as Hlt by (by eapply lookup_lt_Some).
    change (WaitStatus.WIFEXITED 0 && (WaitStatus.WEXITSTATUS 0 =? 0)) with true. unfold started.
    destruct (load (Zygiskd.m_lib_fd m)) as [[f|]|]; (split; [done|]); [|by apply list_lookup_insert_eq | done].
    eexists _, _. cbn. by rewrite list_lookup_insert_eq, lookup_insert_eq.
  - split; [done|]. destruct (co_none _ Hw1 i E) as (m' & Hm' & Hf). simplify_eq. by rewrite Hf.
Qed.

(** What a client that asks for the companion of a module is answered: the companion's byte once it
    has the stream, or refusals or nothing, and then no companion has it.  When nothing goes wrong the
    answer is that of the library. *)
Lemma request_spec e index client m w :
  cw_ok w → modules !! Z.to_nat index = Some m → rust_string (Zygiskd.m_name m) → e_open e = true → ¬ has_client client w →
  ∃ w' bs, request_companion sz ns ext sym modules e index client w = (Ret (ROk tt), w') ∧ cw_ok w' ∧
    cw_out w' = cw_out w ++ answers client bs ∧
    ((bs = [1] ∧ connected m (Z.to_nat index) client w') ∨
     ((bs = [] ∨ bs = [0] ∨ bs = [0; 0]) ∧ ¬ has_client client w')) ∧
    (calm e → bs = [if load (Zygiskd.m_lib_fd m) is Some (Some _) then 1 else 0]).
Proof.
  intros Hw Hm Hn Ho Hf. destruct (request_run e index client m w Hm Hn) as (r & E & Hr). rewrite (Hr Ho) in E. clear r Hr.
  set (i := Z.to_nat index) in *. destruct (without_dead_frame i w) as (Eo & Hk & _).
  set (w1 := without_dead i w) in *. assert (cw_ok w1) as Hw1 by by apply without_dead_ok.
  destruct (start_missing_frame e client m i w1 Hn) as (Eo2 & Hk2).
  set (w2 := start_missing e client m i w1) in *. assert (cw_ok w2) as Hw2 by by apply start_missing_ok.
  assert (¬ has_client client w2) as Hf2 by auto. pose proof (handed_over_ok e client i w2 Hw2) as Hw3.
  eexists. pose proof (λ H, request_calm e client m i w Hw Hm Hn H) as Hcalm. cbv zeta in Hcalm. fold w1 w2 in Hcalm.
  destruct (handed_over_spec e client m i w2 Hw2 Hm Ho Hf2) as [(Eo3 & Hc & [p Hp])|[[Eo3|(Eo3 & Hu & [p Hp])] Hf3]].
  - exists [1]. split_and!; [exact E | done | | by left |].
    + rewrite Eo3. destruct Eo2 as [->|[_ Hs]]; [by rewrite Eo | congruence].
    + intros [_ H]%Hcalm. destruct (load (Zygiskd.m_lib_fd m)) as [[f|]|]; [done | congruence | congruence].
  - destruct Eo2 as [Eo2|[Eo2 Hs]].
    + exists [0]. split_and!; [exact E | done | by rewrite Eo3, Eo2, Eo | by right; split; [right; left|] |].
      intros C. destruct (Hcalm C) as [_ H]. destruct (load (Zygiskd.m_lib_fd m)) as [[f|]|]; [|done..]. exfalso.
      destruct H as (p & c & H1 & H2 & H3). revert Eo3. unfold handed_over. rewrite H1, (calm_alive e C), Ho, H2, H3, (calm_answered e C).
      intros [=]%app_inv_head.
    + exists [0; 0]. split_and!; [exact E | done | by rewrite Eo3, Eo2, Eo, <- app_assoc | by right; split; [right; right|] |].
      intros C. destruct (Hcalm C) as [Ec _]. rewrite Eo2, Eo in Ec.
      apply (f_equal length) in Ec. rewrite length_app in Ec. cbn in Ec. lia.
  - exists []. split_and!; [exact E | done | | by right; split; [left|] |].
    + rewrite Eo3. destruct Eo2 as [->|[_ Hs]]; [by rewrite Eo | congruence].
    + intros C. by rewrite (calm_answered e C) in Hu.
Qed.
End invariant.

(** ** The daemon over time *)

Section daemon.
Context (sz : nat) (ns : bytes → Z) (ext : bytes → Z → Z → Z) (sym : Z → bytes → Z).
Context (gi : Zygiskd.RootImpl) (im gr su : Z → bool) (pid : Z) (modules : list Zygiskd.module).
Context (names_ok : Forall (λ m, rust_string sz (Zygiskd.m_name m)) modules).

Local Abbreviation ok := (cw_ok ns ext sym modules).
Local Abbreviation serve := (serve_connection sz ns ext sym gi im gr su pid modules).

(** A connection is served, whatever the kernel answers and however it ends; a companion dies. *)
Inductive cstep : cworld → cworld → Prop :=
| step_connection c w : cstep w (serve c w).2
| step_death p w : cstep w (killed p w).

Definition fresh_daemon : cworld := mkCw (replicate (length modules) None) ∅ 1 [] [] [].

Lemma fresh_daemon_ok : ok fresh_daemon.
Proof.
  assert (∀ i (x : option Z), replicate (length modules) (None (A := option Z)) !! i ≠ Some (Some x)) as H.
  { intros i x Hx. by apply lookup_replicate in Hx as [? _]. }
  constructor; cbn.
  - apply length_replicate.
  - by intros i p ?%H.
  - by intros i j p ?%H.
  - by intros i ?%H.
  - by intros p c []%lookup_empty_Some.
  - by intros p c []%lookup_empty_Some.
  - by intros p c k []%lookup_empty_Some.
Qed.

(** Writing to clients and to the monitor changes neither slots nor processes. *)
Lemma grown_ok o c l w : ok w → cw_out w `prefix_of` o → ok (mkCw (cw_slots w) (cw_procs w) (cw_next w) o c l).
Proof.
  intros [H1 H2 H3 H4 H5 H6 H7] [x ->]. constructor; try done.
  intros p q k Hq Hk. apply elem_of_app. left. cbn in Hq. by eapply H7.
Qed.

Lemma reply_elems_ok open client es w : ok w → ok (reply_elems open client es w).2.
Proof. intros Hw. destruct open; [|done]. apply grown_ok; [done|]. by eexists. Qed.

Lemma or_panic_ok open client r w : ok w → ok (or_panic open client r w).2.
Proof. intros Hw. destruct r; [by apply reply_elems_ok | done]. Qed.

Lemma log_stream_ok rx w : ok w → ok (log_stream sz rx w).2.
Proof.
  intros Hw. unfold log_stream. unfold mbind at 1, prog_bind at 1. cbn [get].
  destruct (handle_logcat _ _) as [r l].
  assert (ok (set_log (lc_out l) w)) as H by (by apply grown_ok).
  destruct r; exact H.
Qed.

Lemma restart_ok l w : ok w → ok (for_each l take_companion w).2.
Proof.
  revert w. induction l as [|i l IH]; intros w Hw; [done|]. cbn [for_each].
  pose proof (take_companion_ok ns ext sym modules i w Hw) as H. unfold mbind, prog_bind.
  rewrite take_companion_run in H |- *. apply IH, H.
Qed.

Lemma from_client_ok {A} (r : option (A * list elem)) (f : A → prog cworld (rres unit)) w :
  ok w → (∀ a, ok (f a w).2) → ok (rbind f (from_client r) w).2.
Proof. intros Hw Hf. destruct r as [[a ?]|]; [apply Hf | done]. Qed.

Lemma handle_ok e a client rx w :
  ok w → ok (handle_daemon_action sz ns ext sym gi im gr su pid modules e a client rx w).2.
Proof.
  intros Hw. destruct a; try done; cbn [handle_daemon_action].
  - by apply log_stream_ok.
  - apply from_client_ok; [done|]. intros uid. by apply or_panic_ok.
  - by apply or_panic_ok.
  - by apply reply_elems_ok.
  - apply from_client_ok; [done|]. intros index. by apply request_ok.
  - apply from_client_ok; [done|]. intros index. unfold module_dir.
    destruct (modules !! _) as [m|]; [|done]. destruct (e_dir e _); [by apply reply_elems_ok | done].
Qed.

(** The state after a program whose result is dropped. *)
Lemma dropped_result {S A B} (m : prog S A) (b : B) s : ((m;; mret b) s).2 = (m s).2.
Proof. unfold mbind, prog_bind. by destruct (m s) as [[] ?]. Qed.

Lemma serve_ok c w : ok w → ok (serve c w).2.
Proof.
  intros Hw. unfold serve_connection. destruct (k_accepted c); [|done]. cbn [negb].
  destruct (rs_read_int 1 (k_in c)) as [[code rx]|]; [|done].
  destruct (Zygiskd.try_from code) as [a|]; [|done].
  assert (∀ b, ok (unix_datagram_sendto (k_sendto c) b w).2) as Hs.
  { intros b. destruct (k_sendto c); [|done]. by apply grown_ok. }
  destruct a; rewrite ?dropped_result; first [apply Hs | by apply handle_ok | by apply restart_ok].
Qed.

Lemma reachable_ok w : rtc cstep fresh_daemon w → ok w.
Proof.
  intros Hr. assert (∀ w w', rtc cstep w w' → ok w → ok w') as H.
  { clear w Hr. induction 1 as [|w1 w2 w3 [c|p] _ IH]; [done | |]; intros Hw; apply IH; [by apply serve_ok | by apply killed_ok]. }
  eapply H; [done | apply fresh_daemon_ok].
Qed.

(** C13 Whatever connections the daemon serves and whenever companions die: a slot holds a companion
    that runs the library of its own module; no companion is in two slots; every process whose
    stream the daemon still holds is in a slot, so no module ever has two of them; and a stream that
    a companion has been given was answered with 1.  A companion that is dropped runs on until it
    notices, outside of any slot. *)
Theorem companions_isolated w :
  rtc cstep fresh_daemon w →
  (∀ i p, cw_slots w !! i = Some (Some (Some p)) →
     ∃ m c, modules !! i = Some m ∧ cw_procs w !! p = Some c ∧ holds_companion ns ext sym m c) ∧
  (∀ i j p, cw_slots w !! i = Some (Some (Some p)) → cw_slots w !! j = Some (Some (Some p)) → i = j) ∧
  (∀ p c, cw_procs w !! p = Some c → p_held c = true → ∃ i, cw_slots w !! i = Some (Some (Some p))) ∧
  (∀ p q c d, cw_procs w !! p = Some c → cw_procs w !! q = Some d → p_held c = true → p_held d = true →
     NoDup (Zygiskd.m_lib_fd <$> modules) → p_lib c = p_lib d → p = q) ∧
  (∀ p c k, cw_procs w !! p = Some c → k ∈ p_clients c → (k, SB (byte_of_Z 1)) ∈ cw_out w).
Proof.
  intros [H1 H2 H3 H4 H5 H6 H7]%reachable_ok. split_and!; [done | done | done | | done].
  intros p q c d Hp Hq Hc Hd Hnd Hl.
  destruct (H5 p c Hp Hc) as [i Hi], (H5 q d Hq Hd) as [j Hj].
  destruct (H2 i p Hi) as (m1 & c1 & Hm1 & Hc1 & [_ L1 _ _]), (H2 j q Hj) as (m2 & c2 & Hm2 & Hc2 & [_ L2 _ _]). simplify_eq.
  assert (i = j) as ->; [|congruence].
  eapply (NoDup_lookup _ i j (Zygiskd.m_lib_fd m1)); [done | by rewrite list_lookup_fmap, Hm1|].
  rewrite list_lookup_fmap, Hm2. cbn. congruence.
Qed.

(** ** The loader's client *)

(** A request of the loader: the action, and an index. *)
Definition index_request (a : SocketAction.t) (index : Z) : bytes := le_bytes 1 (SocketAction.code a) ++ le_bytes sz index.

Record asks (a : SocketAction.t) (index : Z) (c : connection) : Prop := {
  ask_accepted : k_accepted c = true;
  ask_open : e_open (k_env c) = true;
  ask_in : k_in c = SB <$> index_request a index;
  ask_range : 0 <= index < 256 ^ Z.of_nat sz
}.

Lemma serve_index_request a index c w :
  asks a index c → a = SocketAction.RequestCompanionSocket ∨ a = SocketAction.GetModuleDir →
  serve c w =
    (match a with
     | SocketAction.RequestCompanionSocket => request_companion sz ns ext sym modules (k_env c) index (k_client c)
     | _ => module_dir modules (k_env c) index (k_client c)
     end;; mret (ROk tt)) w.
Proof.
  intros [Ha Ho Hin Hr] Hact. unfold serve_connection. rewrite Ha, Hin. unfold index_request. rewrite fmap_app.
  change (SB <$> le_bytes 1 (SocketAction.code a)) with (wire_int 1 (SocketAction.code a)).
  rewrite rs_read_int_wire by (by destruct Hact as [-> | ->]). cbn [negb].
  pose proof (rs_read_int_wire sz index [] Hr) as E. rewrite app_nil_r in E. unfold wire_int in E.
  destruct Hact as [-> | ->]; cbn [SocketAction.code].
  - change (Zygiskd.try_from 5) with (Some Zygiskd.RequestCompanionSocket). cbv iota. cbn [handle_daemon_action]. by rewrite E.
  - change (Zygiskd.try_from 6) with (Some Zygiskd.GetModuleDir). cbv iota. cbn [handle_daemon_action]. by rewrite E.
Qed.

(** The answer, or the end of the stream, which reads as a refusal. *)
Lemma read_answer {B} (f : Z → prog dworld B) bs q t o es w :
  d_conn w = mkSock q t o → bs ∈ [[1]; []; [0]; [0; 0]] → (bs ≠ [1] → es = []) → delivers q ((SB ∘ byte_of_Z <$> bs) ++ es) →
  ∃ q', (on_conn read_u8 ≫= f) w = f (default 0 (head bs)) (set_conn (mkSock q' t o) w).
Proof.
  intros Hw Hbs Hes Hq.
  assert (∀ b es', 0 <= b < 256 → delivers q (wire_int 1 b ++ es') → ∃ q', (on_conn read_u8 ≫= f) w = f b (set_conn (mkSock q' t o) w)) as R.
  { intros b es' Hb Hd. destruct (bind_reads read_u8 f (wire_int 1 b) b q t o es' w) as (q' & E & _);
      [apply (reads_exact 1 0 b); cbn; lia | done | done | by exists q']. }
  destruct (decide (bs = [])) as [->|Hne].
  - rewrite Hes in Hq by done. cbn in Hq. inversion Hq as [| |b q0 es0 Hb Hq0 E|]; [|by destruct b]. subst q. exists []. unfold mbind at 1, prog_bind at 1, on_conn. by rewrite Hw.
  - destruct bs as [|b bs]; [done|]. cbn [head default]. apply (R b ((SB ∘ byte_of_Z <$> bs) ++ es)).
    + set_unfold in Hbs. naive_solver lia.
    + assert (b = 0 ∨ b = 1) as [-> | ->] by (set_unfold in Hbs; naive_solver); done.
Qed.

(** C12 [ConnectCompanion] of the loader, the daemon and the companion together: the loader gets its
    stream when the live companion of the module has the other end, and otherwise -1, with
    its own end closed and no companion holding the stream; when nothing goes wrong it gets
    the stream exactly for the modules whose library has an entry. *)
Theorem ConnectCompanion_protocol index m c cw :
  rtc cstep fresh_daemon cw → modules !! Z.to_nat index = Some m →
  asks SocketAction.RequestCompanionSocket index c → ¬ has_client (k_client c) cw →
  ∃ cw' bs, serve c cw = (Ret (ROk tt), cw') ∧ cw_out cw' = cw_out cw ++ answers (k_client c) bs ∧
    ∀ q es w, ready sz q w → (bs ≠ [1] → es = []) → delivers q ((SB ∘ byte_of_Z <$> bs) ++ es) →
      ∃ fd w', ConnectCompanion sz index w = (Ret fd, w') ∧ (SB <$> sent (d_conn w')) = k_in c ∧
        ((fd = d_socket w ∧ connected ns ext sym m (Z.to_nat index) (k_client c) cw') ∨
         (fd = -1 ∧ ¬ has_client (k_client c) cw' ∧ last (d_log w') = Some (EvClose (d_socket w)))) ∧
        (calm (k_env c) →
         fd = if load_module ns ext sym (Zygiskd.m_lib_fd m) is Some (Some _) then d_socket w else -1).
Proof.
  intros Hcw%reachable_ok Hm Hask Hf.
  destruct (request_spec sz ns ext sym modules (k_env c) index (k_client c) m cw Hcw Hm) as (cw' & bs & E & _ & Eo & Hbs & Hc);
    [by eapply Forall_lookup_1 in names_ok | apply Hask | done |].
  exists cw', bs. split.
  { rewrite (serve_index_request _ _ _ _ Hask) by by left. by step_with E. }
  split; [done|]. intros q es w Hr Hes Hq.
  unfold ConnectCompanion.
  match goal with
  | |- context [mbind (λ fd, if fd =? -1 then ?d else mbind (λ _, @?k fd) (send_action ?a)) _ ?w] =>
      destruct (ready_send sz d k a _ w Hr) as (w1 & t & -> & Hcn & Ht & Hmal & Hlog)
  end.
  conn_send @bind_sends; [apply sends_exact|done|done|].
  match goal with
  | |- context [mbind ?f (on_conn read_u8) ?w0] =>
      destruct (read_answer f bs q x (le_bytes 1 5 ++ le_bytes sz index) es w0) as [q' ->];
        [done | destruct Hbs as [[-> _]|[[->|[->| ->]] _]]; set_solver | done | done |]
  end.
  assert (∀ k : sock, sent k = le_bytes 1 5 ++ le_bytes sz index → (SB <$> sent k) = k_in c) as Hs.
  { intros k ->. by rewrite (ask_in _ _ _ Hask). }
  destruct Hbs as [[-> Hcon]|[Hz Hno]].
  - eexists _, _. split; [reflexivity|]. split_and!; [by apply Hs | by left |]. intros Hcalm%Hc.
    by destruct (load_module ns ext sym (Zygiskd.m_lib_fd m)) as [[]|].
  - replace (default 0 (head bs)) with 0 by (by destruct Hz as [->|[->| ->]]).
    eexists _, _. split; [reflexivity|]. split_and!; [by apply Hs | right; split_and!; [done | done |] |].
    + cbn. by rewrite last_snoc.
    + intros Hcalm%Hc. destruct (load_module ns ext sym (Zygiskd.m_lib_fd m)) as [[]|]; [|done..].
      by destruct Hz as [->|[->| ->]].
Qed.

(** [GetModuleDir]: the loader gets the descriptor the daemon opened for the module's directory. *)
Theorem GetModuleDir_protocol index m c cw fd jc q es w :
  modules !! Z.to_nat index = Some m → asks SocketAction.GetModuleDir index c →
  e_dir (k_env c) (PATH_MODULES_DIR ++ txt "/" ++ Zygiskd.m_name m) = Some fd →
  ready sz q w → delivers q (SF fd :: es) →
  (∃ cw', serve c cw = (Ret (ROk tt), cw') ∧ cw_out cw' = cw_out cw ++ [(k_client c, SF fd)]) ∧
  ∃ w', GetModuleDir sz jc index w = (Ret fd, w') ∧ requested sz (index_request SocketAction.GetModuleDir index) w w'.
Proof.
  intros Hm Hask Hd Hr Hq. split.
  { rewrite (serve_index_request _ _ _ _ Hask) by by right.
    unfold module_dir. rewrite Hm, Hd, (ask_open _ _ _ Hask). by eexists. }
  unfold GetModuleDir.
  match goal with
  | |- context [mbind (λ fd, if fd =? -1 then ?d else mbind (λ _, @?k fd) (send_action ?a)) _ ?w] =>
      destruct (ready_send sz d k a _ w Hr) as (w1 & t & -> & Hcn & Ht & Hmal & Hlog)
  end.
  destruct Hr as [_ Hfd _ _].
  conn_send @bind_sends; [apply sends_exact|done|done|].
  conn_send @bind_reads; [apply reads_fd|done|exact Hq|].
  rewrite bind_close by done. eexists. split; [done|]. split; [done|]. cbn. by rewrite Hlog, <- app_assoc.
Qed.

(** An index that is no module's panics in the thread, and the daemon goes on; the loader finds
    the stream at its end. *)
Lemma index_out_of_range a index c cw :
  modules !! Z.to_nat index = None → asks a index c →
  a = SocketAction.RequestCompanionSocket ∨ a = SocketAction.GetModuleDir → serve c cw = (Ret (ROk tt), cw).
Proof.
  intros Hm Hask Ha. rewrite (serve_index_request _ _ _ _ Hask) by done.
  unfold request_companion, module_dir. rewrite Hm. by destruct Ha as [-> | ->].
Qed.
End daemon.

(** ** The loop over connections *)

Section connections.
Context (sz : nat) (ns : bytes → Z) (ext : bytes → Z → Z → Z) (sym : Z → bytes → Z).
Context (gi : Zygiskd.RootImpl) (im gr su : Z → bool) (pid : Z) (modules : list Zygiskd.module).

Local Abbreviation serve_one := (serve_connection sz ns ext sym gi im gr su pid modules).
Local Abbreviation accept_all := (accept_loop sz ns ext sym gi im gr su pid modules).

#[export] Instance DaemonSocketAction_eq_dec : EqDecision Zygiskd.DaemonSocketAction.
Proof. solve_decision. Defined.

Definition action_of (c : connection) : option Zygiskd.DaemonSocketAction :=
  '(code, _) ← rs_read_int 1 (k_in c); Zygiskd.try_from code.

(** The connection was accepted, starts with a known action, and the monitor listens if it is to
    be told. *)
Definition proper (c : connection) : bool :=
  k_accepted c &&
  match action_of c with
  | None => false
  | Some Zygiskd.PingHeartbeat | Some Zygiskd.SystemServerStarted => k_sendto c
  | Some _ => true
  end.


(** A connection that is proper never ends the loop by a result. *)
Lemma proper_result c w r w' : proper c = true → serve_one c w = (Ret r, w') → r = ROk tt.
Proof.
  unfold proper, action_of, serve_connection, unix_datagram_sendto. destruct (k_accepted c); [|done]. cbn [andb negb].
  destruct (rs_read_int 1 (k_in c)) as [[code rx]|]; [|done]. cbn [mbind option_bind].
  assert (∀ A (m : prog cworld A), (m;; mret (ROk tt)) w = (Ret r, w') → r = ROk tt) as H.
  { intros A m. unfold mbind, prog_bind. destruct (m w) as [[] ?]; try done. by intros [= <- _]. }
  destruct (Zygiskd.try_from code) as [[]|]; try done; first [intros -> ; by intros [= <- _] | intros _; apply H].
Qed.









(** ** The monitor *)

Import MonitorState MonitorSocket MonitorSocket.SocketHandler.

Definition own_abi : abi := if (sz =? 8)%nat then abi64 else abi32.

(** What the daemon has to say, as the monitor's messages. *)
Definition first_message : message :=
  if root_works gi then SetInfo own_abi (info_text gi modules) else SetError own_abi (info_text gi modules).

Definition heartbeat : Command := match own_abi with abi64 => ZYGOTE64_INJECTED | abi32 => ZYGOTE32_INJECTED end.

Lemma announcement_encoded :
  Z.of_nat (length (info_text gi modules)) + 9 < 2 ^ 31 → announcement sz gi modules = encode first_message.
Proof.
  intros Hl. unfold announcement, first_message, DAEMON_SET_INFO, DAEMON_SET_ERROR_INFO, own_abi.
  rewrite !wrapu_small by (rewrite ?wrapu_small by lia; lia).
  destruct (root_works gi), (sz =? 8)%nat; reflexivity.
Qed.

(** The only messages behind the announcement are commands without a payload. *)
Definition bare (c : Command) : Prop := has_payload (command_code c) = false.

Definition told (w w' : cworld) : Prop :=
  ∃ cs, Forall bare cs ∧ cw_ctl w' = cw_ctl w ++ ((λ c, encode (Control c)) <$> cs).

#[local] Instance told_preorder : PreOrder told.
Proof.
  split.
  - intros w. exists []. cbn. by rewrite app_nil_r.
  - intros w1 w2 w3 (ms & H & E) (ms' & H' & E'). exists (ms ++ ms'). split; [by apply Forall_app|].
    by rewrite E', E, fmap_app, app_assoc.
Qed.

Lemma told_nothing w w' : cw_ctl w' = cw_ctl w → told w w'.
Proof. intros E. exists []. cbn. by rewrite app_nil_r. Qed.

(** Steps that send nothing. *)
Ltac quiet := walk; first [by apply moves_modify, told_nothing | by apply moves_put, told_nothing | idtac].

Lemma take_companion_told i w : Moves told (take_companion i) w.
Proof. unfold take_companion, drop_stream. quiet. Qed.

Lemma reply_u8_told open client b w : Moves told (reply_u8 open client b) w.
Proof. unfold reply_u8. quiet. Qed.

Lemma spawn_told e open client name lib w : Moves told (spawn_companion sz ns ext sym e open client name lib) w.
Proof. unfold spawn_companion, new_process, kill_proc, drop_stream. quiet; apply reply_u8_told. Qed.

Lemma send_fd_told e p client w : Moves told (send_fd e p client) w.
Proof. unfold send_fd, companion_round, kill_proc. quiet. apply reply_u8_told. Qed.

Lemma request_told e index client w : Moves told (request_companion sz ns ext sym modules e index client) w.
Proof.
  unfold request_companion, check_unix_socket, gets, set_companion. quiet;
    first [apply take_companion_told | apply spawn_told | apply send_fd_told | apply reply_u8_told | by eapply moves_to].
Qed.

Lemma reply_elems_told open client es w : Moves told (reply_elems open client es) w.
Proof. unfold reply_elems. quiet. Qed.

Lemma module_dir_told e index client w : Moves told (module_dir modules e index client) w.
Proof. unfold module_dir. quiet. apply reply_elems_told. Qed.

Lemma log_stream_told rx w : Moves told (log_stream sz rx) w.
Proof. unfold log_stream. quiet. Qed.

Lemma handle_told e a client rx w :
  Moves told (handle_daemon_action sz ns ext sym gi im gr su pid modules e a client rx) w.
Proof.
  destruct a; cbn [handle_daemon_action]; unfold rbind, from_client, or_panic; quiet;
    first [apply log_stream_told | apply reply_elems_told | apply request_told | apply module_dir_told].
Qed.

Lemma sendto_told ok c w : bare c → Moves told (unix_datagram_sendto ok (encode (Control c))) w.
Proof. intros Hm. unfold unix_datagram_sendto. walk. apply moves_modify. exists [c]. by split; [apply Forall_singleton|]. Qed.

Lemma serve_told c w : Moves told (serve_one c) w.
Proof.
  unfold serve_connection. quiet; try apply handle_told.
  - replace (le_bytes 4 (ZYGOTE_INJECTED sz)) with (encode (Control heartbeat)).
    { apply sendto_told. unfold heartbeat. by destruct own_abi. }
    unfold heartbeat, ZYGOTE_INJECTED, own_abi. by destruct (sz =? 8)%nat.
  - apply moves_for_each; [apply _|]. intros. apply take_companion_told.
  - by apply (sendto_told _ SYSTEM_SERVER_STARTED).
Qed.

Lemma accept_all_told cs w : Moves told (accept_all cs) w.
Proof.
  revert w. induction cs as [|c cs IH]; intros w; cbn [accept_loop]; unfold rbind; quiet; [apply serve_told | apply IH].
Qed.

(** C16 The daemon and the monitor agree on their messages: whatever the daemon is asked, the datagrams it
    sends are its announcement and then commands without a payload, which the monitor takes off
    its socket one by one and executes.  The announcement is a message of the monitor's
    protocol as well: its head gives its size, and the switch on its fields does what it asks for; but
    on its way there the monitor receives it into storage it has freed, which is undefined behaviour. *)
Theorem daemon_messages_understood announced cs w r w' :
  no_nul (info_text gi modules) → Z.of_nat (length (info_text gi modules)) + 9 < 2 ^ 31 → cw_ctl w = [] →
  daemon_main sz ns ext sym gi im gr su pid modules announced cs w = (r, w') →
  ∃ ms, cw_ctl w' = (if announced then encode first_message :: ((λ c, encode (Control c)) <$> ms) else []) ∧
    (∀ s, dgrams (kernel s) = (λ c, DMsg (encode (Control c))) <$> ms → recv_errs (kernel s) = [] →
       SocketHandler.HandleEvent (S (length ms)) s =
         for_each ms (λ c, modify drop_dgram;; dispatch (command_code c) 0 []) s) ∧
    (let b := encode first_message in
     real_size (take MsgHead_size b) = Some (Z.of_nat (length b)) ∧
     (∀ s, dispatch (msg_cmd b) (msg_length b) (drop MsgHead_size b) s = execute first_message s) ∧
     ∀ s q fuel, dgrams (kernel s) = DMsg b :: q → SocketHandler.HandleEvent (S fuel) s = (Crash UseAfterFree, s)).
Proof.
  intros Hn Hl Hw. unfold daemon_main, unix_datagram_sendto. rewrite announcement_encoded by done.
  assert (message_ok first_message) as Hf by (unfold first_message; by destruct (root_works gi)).
  assert (MsgHead_size < length (encode first_message))%nat as Hlen.
  { unfold first_message. destruct (root_works gi); cbn [encode]; rewrite length_encode_payload; unfold MsgHead_size; lia. }
  assert (let b := encode first_message in
     real_size (take MsgHead_size b) = Some (Z.of_nat (length b)) ∧
     (∀ s, dispatch (msg_cmd b) (msg_length b) (drop MsgHead_size b) s = execute first_message s) ∧
     ∀ s q fuel, dgrams (kernel s) = DMsg b :: q → SocketHandler.HandleEvent (S fuel) s = (Crash UseAfterFree, s)) as Hb.
  { cbv zeta. split_and!; [by apply real_size_encode | |].
    - intros s. rewrite <- dispatch_encode by done. unfold msg_cmd, msg_length, MsgHead_size.
      by rewrite take_take, skipn_firstn_comm, take_take.
    - intros s q fuel Hq. cbn [SocketHandler.HandleEvent]. unfold mbind, prog_bind.
      by rewrite (round_payload first_message q s Hf Hq Hlen). }
  destruct announced; cycle 1.
  { intros [= _ <-]. exists []. split_and!; [done | | apply Hb..]. intros s Hs He.
    by apply (HandleEvent_drains_fuel [] 1 s); [constructor | simpl; lia | |]. }
  step. rewrite prog_bind_assoc. step. rewrite prog_bind_ret. intros E.
  destruct (moves_run told _ _ _ _ E (accept_all_told cs _)) as (ms & Hms & Ec). cbn in Ec. rewrite Hw in Ec.
  exists ms. split_and!; [done | | apply Hb..]. intros s Hs He.
  rewrite (HandleEvent_drains_fuel (Control <$> ms)); [| by apply Forall_fmap | rewrite length_fmap; lia | by rewrite Hs, <- list_fmap_compose | done].
  clear. revert s. induction ms as [|c ms IH]; intros s; [done|]. rewrite fmap_cons. cbn [for_each serve].
  unfold mbind, prog_bind. cbn [modify]. destruct (execute (Control c) _) as [[]] eqn:E; cbn [execute] in E; rewrite E; done.
Qed.
End connections.

(** ** A daemon with two modules

    The library of the first has an entry, that of the second has none. *)

Definition demo_ns (path : bytes) : Z := 9.
Definition demo_dlopen (path : bytes) (flags n : Z) : Z := if bool_decide (path = txt "/proc/self/fd/40") then 400 else 410.
Definition demo_dlsym (handle : Z) (name : bytes) : Z := if handle =? 400 then 7777 else 0.

Definition demo_env : req_env := mkEnv (mkSpawn true true true 0) true false false (λ _, Some 33).

Definition demo_ask (a : SocketAction.t) (index client : Z) : connection :=
  mkConn true client (SB <$> index_request 8 a index) demo_env true.

Lemma demo_strings : Forall (λ m, rust_string 8 (Zygiskd.m_name m)) demo_modules.
Proof. repeat constructor; by vm_compute. Qed.

Lemma demo_asks a index client : (0 <= index < 256 ^ 8) → asks 8 a index (demo_ask a index client).
Proof. by constructor. Qed.

Local Abbreviation demo_step :=
  (cstep 8 demo_ns demo_dlopen demo_dlsym Zygiskd.Magisk (λ _, false) (λ _, true) (λ _, false) 812 demo_modules).
Local Abbreviation demo_serve :=
  (serve_connection 8 demo_ns demo_dlopen demo_dlsym Zygiskd.Magisk (λ _, false) (λ _, true) (λ _, false) 812 demo_modules).

(** A client has asked for each companion; the first companion has then died. *)
Definition demo_daemon : cworld :=
  killed 1 (demo_serve (demo_ask SocketAction.RequestCompanionSocket 1 51)
           (demo_serve (demo_ask SocketAction.RequestCompanionSocket 0 50) (fresh_daemon demo_modules)).2).2.

Lemma demo_reachable : rtc demo_step (fresh_daemon demo_modules) demo_daemon.
Proof.
  eapply rtc_l; [apply (step_connection _ _ _ _ _ _ _ _ _ _ (demo_ask SocketAction.RequestCompanionSocket 0 50))|].
  eapply rtc_l; [apply (step_connection _ _ _ _ _ _ _ _ _ _ (demo_ask SocketAction.RequestCompanionSocket 1 51))|].
  apply rtc_once, step_death.
Qed.

Lemma demo_new_client : ¬ has_client 52 demo_daemon.
Proof.
  intros (p & c & Hc & Hk).
  assert (map_Forall (λ _ c, 52 ∉ p_clients c) (cw_procs demo_daemon)) as F by (apply (bool_decide_unpack _); by vm_compute).
  exact (F p c Hc Hk).
Qed.

Lemma companions_isolated_witness :
  cw_slots demo_daemon = [Some (Some 1); Some None] ∧
  ∃ m c, demo_modules !! 0%nat = Some m ∧ cw_procs demo_daemon !! 1 = Some c ∧ holds_companion demo_ns demo_dlopen demo_dlsym m c.
Proof.
  split; [by vm_compute|].
  destruct (companions_isolated 8 demo_ns demo_dlopen demo_dlsym Zygiskd.Magisk (λ _, false) (λ _, true) (λ _, false) 812
    demo_modules demo_strings demo_daemon demo_reachable) as [H _].
  apply (H 0%nat 1). by vm_compute.
Defined.

(** The companion is started anew. *)
Lemma ConnectCompanion_protocol_witness :
  ∃ cw' w', demo_serve (demo_ask SocketAction.RequestCompanionSocket 0 52) demo_daemon = (Ret (ROk tt), cw') ∧
    ConnectCompanion 8 0 (demo_world [Intr; Data (le_bytes 1 1)]) = (Ret 7, w').
Proof.
  destruct (ConnectCompanion_protocol 8 demo_ns demo_dlopen demo_dlsym Zygiskd.Magisk (λ _, false) (λ _, true) (λ _, false) 812
    demo_modules demo_strings 0 (Zygiskd.mkModule (txt "shamiko") 40) (demo_ask SocketAction.RequestCompanionSocket 0 52)
    demo_daemon demo_reachable eq_refl) as (cw' & bs & E & Eo & H).
  - apply demo_asks. lia.
  - apply demo_new_client.
  - exists cw'.
    assert ((SB ∘ byte_of_Z <$> bs) = [SB (byte_of_Z 1)]) as Eb.
    { assert (cw_out cw' = cw_out demo_daemon ++ answers 52 [1]) as E1.
      { change cw' with ((Ret (ROk tt) : outcome (rres unit), cw').2). rewrite <- E. by vm_compute. }
      rewrite E1 in Eo. apply app_inv_head, (f_equal (fmap snd)) in Eo. unfold answers in Eo. by rewrite <- !list_fmap_compose in Eo. }
    destruct (H [Intr; Data (le_bytes 1 1)] [] (demo_world [Intr; Data (le_bytes 1 1)]) (demo_ready _)) as (fd & w' & Ec & _ & _ & Hcalm).
    { done. }
    { rewrite Eb. apply dl_intr, (dl_data (le_bytes 1 1) [] []); [done | constructor]. }
    exists w'. split; [exact E|]. rewrite Ec. do 2 f_equal. rewrite Hcalm by (by constructor). by vm_compute.
Defined.

Lemma GetModuleDir_protocol_witness :
  ∃ w', GetModuleDir 8 (0, 0, 0) 1 (demo_world [FdMsg 33]) = (Ret 33, w').
Proof.
  destruct (GetModuleDir_protocol 8 demo_ns demo_dlopen demo_dlsym Zygiskd.Magisk (λ _, false) (λ _, true) (λ _, false) 812
    demo_modules 1 (Zygiskd.mkModule (txt "lsposed") 41) (demo_ask SocketAction.GetModuleDir 1 60) demo_daemon 33 (0, 0, 0)
    [FdMsg 33] [] (demo_world [FdMsg 33])) as (_ & w' & E & _);
    [done | apply demo_asks; lia | done | apply demo_ready | apply dl_fd; constructor | by exists w'].
Defined.


Lemma daemon_messages_understood_witness :
  ∃ ms w', daemon_main 8 demo_ns demo_dlopen demo_dlsym Zygiskd.Magisk (λ _, false) (λ _, true) (λ _, false) 812 demo_modules true
      [mkConn true 50 [SB "000"%char] demo_env true] (fresh_daemon demo_modules) = (Ret (ROk tt), w') ∧
    cw_ctl w' = MonitorSocket.SocketHandler.encode
      (MonitorSocket.SocketHandler.SetInfo MonitorState.abi64 (txt "Root: Magisk,module(2): shamiko,lsposed")) ::
      ((λ c, MonitorSocket.SocketHandler.encode (MonitorSocket.SocketHandler.Control c)) <$> ms).
Proof.
  destruct (daemon_messages_understood 8 demo_ns demo_dlopen demo_dlsym Zygiskd.Magisk (λ _, false) (λ _, true) (λ _, false) 812
    demo_modules true [mkConn true 50 [SB "000"%char] demo_env true] (fresh_daemon demo_modules) _ _
    ltac:(unfold no_nul; by apply (bool_decide_unpack _)) ltac:(by vm_compute) eq_refl (surjective_pairing _))
    as (ms & E & _).
  exists ms. eexists. split; [|exact E]. vm_compute. reflexivity.
Defined.

(** A child that cannot start the program returns through the daemon's code with its copy of the
    stream: the client is answered twice. *)
Example failed_child_answers_twice :
  let e := mkEnv (mkSpawn true true false 0) true false false (λ _, None) in
  (cw_out (request_companion 8 demo_ns demo_dlopen demo_dlsym demo_modules e 0 50 (fresh_daemon demo_modules)).2) =
    answers 50 [0; 0].
Proof. by vm_compute. Qed.

(** A client that has left when the companion answers takes the companion down for all others; the
    next request starts it again. *)
Example departed_client_ends_companion :
  let e := mkEnv (mkSpawn true true true 0) false false false (λ _, None) in
  let w := (demo_serve (demo_ask SocketAction.RequestCompanionSocket 0 50) (fresh_daemon demo_modules)).2 in
  let w1 := (request_companion 8 demo_ns demo_dlopen demo_dlsym demo_modules e 0 51 w).2 in
  let w2 := (demo_serve (demo_ask SocketAction.RequestCompanionSocket 0 52) w1).2 in
  p_alive <$> cw_procs w !! 1 = Some true ∧ p_alive <$> cw_procs w1 !! 1 = Some false ∧
  cw_slots w1 = [Some (Some 1); None] ∧ cw_slots w2 = [Some (Some 2); None] ∧ p_clients <$> cw_procs w2 !! 2 = Some [52].
Proof. by vm_compute. Qed.

(** A restart of zygote drops the companions, and forgets which modules have none; a dropped companion
    may still run when the next one is started. *)
Example restart_drops_companions :
  let w := (demo_serve (mkConn true 53 [SB "007"%char] demo_env true)
             (demo_serve (demo_ask SocketAction.RequestCompanionSocket 0 50) (fresh_daemon demo_modules)).2).2 in
  let w1 := (demo_serve (demo_ask SocketAction.RequestCompanionSocket 0 54) w).2 in
  cw_slots w = [None; None] ∧ p_held <$> cw_procs w !! 1 = Some false ∧
  cw_slots w1 = [Some (Some 2); None] ∧ p_alive <$> cw_procs w1 !! 1 = Some true ∧ p_clients <$> cw_procs w1 !! 1 = Some [50].
Proof. by vm_compute. Qed.
