(* ===== verification/Installed.v ===== *)
(** * Installed: from the module directories to running modules

    [load_modules], [create_library_fd] and [get_arch] of [zygiskd/src/zygiskd.rs]: the daemon turns
    the libraries of the enabled modules into sealed memory files.  Joined with [Protocol],
    [Loading] and [Companion]: the loader opens these libraries under the indices the daemon has
    for them, so a module that asks for its companion reaches the process that runs its own library. *)

From Stdlib Require Import ZArith Lia Ascii.
From stdpp Require Import base tactics strings list gmap numbers relations.
From S2P Require Import Prelude Misc SocketUtils Logging.
From S2P Require Zygiskd.
From S2P Require Import Daemon Protocol Companion.
From S2P Require Context Loading.

(** ** Memory files *)

Inductive seal : Set := SealShrink | SealGrow | SealWrite | SealSeal.

#[export] Instance seal_eq_dec : EqDecision seal.
Proof. solve_decision. Defined.

Record memfile : Type := mkMemfile { mf_data : bytes; mf_seals : list seal }.

Definition sealed_with (s : seal) (f : memfile) : bool := bool_decide (s ∈ mf_seals f).

(** What a process with the descriptor may try, as memfd_create(2) and fcntl(2) describe it: a
    call that a seal forbids fails and changes nothing. *)
Inductive file_op : Type :=
| OpWrite (at_ : nat) (data : bytes)
| OpTruncate (size : nat)
| OpSeal (ss : list seal).

Definition overwrite (at_ : nat) (data old : bytes) : bytes :=
  take at_ (old ++ replicate (at_ - length old) NUL) ++ data ++ drop (at_ + length data) old.

Definition apply_op (op : file_op) (f : memfile) : memfile :=
  match op with
  | OpWrite i data =>
      if sealed_with SealWrite f || (sealed_with SealGrow f && bool_decide (length (mf_data f) < i + length data)%nat)
      then f else mkMemfile (overwrite i data (mf_data f)) (mf_seals f)
  | OpTruncate n =>
      if (sealed_with SealShrink f && bool_decide (n < length (mf_data f))%nat) ||
         (sealed_with SealGrow f && bool_decide (length (mf_data f) < n)%nat)
      then f else mkMemfile (take n (mf_data f ++ replicate (n - length (mf_data f)) NUL)) (mf_seals f)
  | OpSeal ss => if sealed_with SealSeal f then f else mkMemfile (mf_data f) (ss ++ mf_seals f)
  end.

(** ** The daemon *)

(** What the kernel does for one library: the memory file, opening, copying, sealing. *)
Record lib_env : Type := mkLib { l_create : bool; l_open : bool; l_copy : bool; l_seal : bool }.

Record mworld : Type := mkMw { mw_files : gmap Z memfile; mw_next : Z; mw_env : list lib_env }.

(** The directory of the modules, each entry a name or an error, and the files of the system. *)
Record fsys : Type := mkFsys { f_dir : option (list (option bytes)); f_file : bytes → option bytes }.

Definition file_exists (fs : fsys) (path : bytes) : bool := bool_decide (is_Some (f_file fs path)).

(** A script that has run out lets everything succeed. *)
Definition next_env : prog mworld lib_env :=
  w ← get;
  put (mkMw (mw_files w) (mw_next w) (tail (mw_env w)));;
  mret (default (mkLib true true true true) (head (mw_env w))).

Definition memfd_create : prog mworld Z :=
  w ← get;
  put (mkMw (<[mw_next w := mkMemfile [] []]> (mw_files w)) (mw_next w + 1) (mw_env w));;
  mret (mw_next w).

Definition set_file (fd : Z) (f : memfile) : prog mworld unit :=
  modify (λ w, mkMw (<[fd := f]> (mw_files w)) (mw_next w) (mw_env w)).

(** Dropping the owner of a descriptor. *)
Definition drop_fd (fd : Z) : prog mworld unit := modify (λ w, mkMw (delete fd (mw_files w)) (mw_next w) (mw_env w)).

Definition all_seals : list seal := [SealShrink; SealGrow; SealWrite; SealSeal].

Definition get_arch (sizeof_usize : nat) (abi : option bytes) : option bytes :=
  system_arch ← abi;
  if contains (txt "arm") system_arch then Some (if (sizeof_usize =? 8)%nat then txt "arm64-v8a" else txt "armeabi-v7a")
  else if contains (txt "x86") system_arch then Some (if (sizeof_usize =? 8)%nat then txt "x86_64" else txt "x86")
  else None.

Section load.
Context (fs : fsys) (arch : bytes).

Definition create_library_fd (so_path : bytes) : prog mworld (rres Z) :=
  e ← next_env;
  if negb (l_create e) then mret RErr
  else
    fd ← memfd_create;
    match f_file fs so_path with
    | Some data =>
        if negb (l_open e) || negb (l_copy e) then drop_fd fd;; mret RErr
        else
          set_file fd (mkMemfile data []);;
          if negb (l_seal e) then drop_fd fd;; mret RErr
          else set_file fd (mkMemfile data all_seals);; mret (ROk fd)
    | None => drop_fd fd;; mret RErr
    end.

Definition so_path (name : bytes) : bytes := PATH_MODULES_DIR ++ txt "/" ++ name ++ txt "/zygisk/" ++ arch ++ txt ".so".
Definition disable_path (name : bytes) : bytes := PATH_MODULES_DIR ++ txt "/" ++ name ++ txt "/disable".

Fixpoint load_entries (es : list (option bytes)) : prog mworld (rres (list Zygiskd.module)) :=
  match es with
  | [] => mret (ROk [])
  | None :: _ => mret RErr
  | Some name :: es =>
      if negb (from_utf8 name) then mret RPanic
      else if negb (file_exists fs (so_path name)) || file_exists fs (disable_path name) then load_entries es
      else
        lib_fd ← create_library_fd (so_path name);
        match lib_fd with
        | ROk fd => ms ←? load_entries es; mret (ROk (Zygiskd.mkModule name fd :: ms))
        | _ => load_entries es
        end
  end.

Definition load_modules : prog mworld (rres (list Zygiskd.module)) :=
  match f_dir fs with
  | None => mret (ROk [])
  | Some es => load_entries es
  end.

(** ** What is loaded *)

Definition enabled (name : bytes) : bool := file_exists fs (so_path name) && negb (file_exists fs (disable_path name)).

(** A module with its library in a sealed memory file. *)
Definition has_library (w : mworld) (m : Zygiskd.module) : Prop :=
  ∃ data, f_file fs (so_path (Zygiskd.m_name m)) = Some data ∧
    mw_files w !! Zygiskd.m_lib_fd m = Some (mkMemfile data all_seals).

(** What a step leaves of the memory files that are there. *)
Definition keeps_files (w w' : mworld) : Prop :=
  mw_next w <= mw_next w' ∧ ∀ fd, fd < mw_next w → mw_files w' !! fd = mw_files w !! fd.

#[export] Instance keeps_files_preorder : PreOrder keeps_files.
Proof.
  split; [by split|]. intros w1 w2 w3 [N1 H1] [N2 H2]. split; [lia|]. intros fd Hfd. rewrite H2 by lia. by apply H1.
Qed.

(** Nothing the kernel does stands in the way of the file of the [k]-th enabled module. *)
Definition can_make (env : list lib_env) (k : nat) : bool :=
  match env !! k with Some e => l_create e && l_open e && l_copy e && l_seal e | None => true end.

(** The modules that should be served: every enabled one whose file can be made. *)
Definition served (env : list lib_env) (names : list bytes) : list bytes :=
  mjoin (imap (λ k n, if can_make env k then [n] else []) (filter (λ n, enabled n = true) names)).

Lemma served_cons env n names :
  served env (n :: names) =
  if enabled n then (if can_make env 0 then [n] else []) ++ served (tail env) names else served env names.
Proof.
  unfold served. destruct (enabled n) eqn:En; [|by rewrite filter_cons_False by (by rewrite En)].
  rewrite filter_cons_True by done. change (imap ?f (n :: ?l)) with (f 0%nat n :: imap (f ∘ S) l). cbn [mjoin list_join].
  f_equal. f_equal. apply imap_ext. intros k m _. cbn. by destruct env.
Qed.

Lemma served_all names : served [] names = filter (λ n, enabled n = true) names.
Proof.
  unfold served. generalize (filter (λ n, enabled n = true) names). intros l. induction l as [|n l IH]; [done|].
  change (n :: mjoin (imap (λ k n, if can_make [] k then [n] else []) l) = n :: l). by rewrite IH.
Qed.

Lemma create_library_run path data w :
  f_file fs path = Some data →
  ∃ r w', create_library_fd path w = (Ret r, w') ∧ keeps_files w w' ∧ mw_env w' = tail (mw_env w) ∧
    if can_make (mw_env w) 0
    then r = ROk (mw_next w) ∧ mw_next w' = mw_next w + 1 ∧ mw_files w' !! mw_next w = Some (mkMemfile data all_seals)
    else r = RErr.
Proof.
  intros Hf. unfold create_library_fd. step. set (e := default _ _). set (w1 := mkMw _ _ _).
  assert (∀ fd, fd < mw_next w → mw_next w ≠ fd) as Hne by lia.
  replace (can_make (mw_env w) 0) with (l_create e && l_open e && l_copy e && l_seal e) by (unfold can_make, e; by destruct (mw_env w)).
  destruct (l_create e); cbn [negb andb].
  2:{ eexists _, _. split; [reflexivity|]. by split_and!. }
  step. rewrite Hf.
  destruct (l_open e), (l_copy e); cbn [negb andb orb].
  2-4: (eexists _, _; split; [reflexivity|]; split_and!; [|done|done];
    split; [cbn; lia|]; intros fd Hfd; cbn; by rewrite lookup_delete_ne, lookup_insert_ne by eauto).
  step. destruct (l_seal e); cbn [negb andb].
  - eexists _, _. split; [reflexivity|]. split_and!; [|done|done|done|cbn; by rewrite lookup_insert_eq].
    split; [cbn; lia|]. intros fd Hfd. cbn. by rewrite !lookup_insert_ne by eauto.
  - eexists _, _. split; [reflexivity|]. split_and!; [|done|done].
    split; [cbn; lia|]. intros fd Hfd. cbn. by rewrite lookup_delete_ne, !lookup_insert_ne by eauto.
Qed.

Lemma load_entries_run names w :
  Forall (λ n, from_utf8 n = true) names →
  ∃ ms w', load_entries (Some <$> names) w = (Ret (ROk ms), w') ∧ keeps_files w w' ∧
    Zygiskd.m_name <$> ms = served (mw_env w) names ∧ Forall (has_library w') ms ∧
    NoDup (Zygiskd.m_lib_fd <$> ms) ∧ Forall (λ m, mw_next w <= Zygiskd.m_lib_fd m < mw_next w') ms.
Proof.
  intros Hn. revert w. induction Hn as [|n names Hu _ IH]; intros w; cbn [fmap list_fmap load_entries].
  { exists [], w. split_and!; [done | done | done | constructor | constructor | constructor]. }
  rewrite Hu, served_cons. cbn [negb].
  replace (negb (file_exists fs (so_path n)) || file_exists fs (disable_path n)) with (negb (enabled n))
    by (unfold enabled; by destruct (file_exists _ _), (file_exists _ _)).
  destruct (enabled n) eqn:En; cbn [negb]; [|apply IH].
  assert (∃ data, f_file fs (so_path n) = Some data) as [data Hd].
  { unfold enabled in En. apply andb_prop in En as [En _]. by apply bool_decide_eq_true in En as [? ?]; eexists. }
  destruct (create_library_run (so_path n) data w Hd) as (r & w1 & E & K & Ee & Hr). step_with E.
  destruct (IH w1) as (ms & w' & El & K' & Hs & Hlib & Hnd & Hrange). clear IH. rewrite Ee in Hs. rewrite <-Hs.
  destruct (can_make (mw_env w) 0).
  - destruct Hr as (-> & N1 & Hfd).
    exists (Zygiskd.mkModule n (mw_next w) :: ms), w'. unfold rbind. split; [by step_with El|].
    destruct K as [K1 K2], K' as [K1' K2']. split_and!.
    + split; [lia|]. intros fd Hlt. rewrite K2' by lia. by apply K2.
    + done.
    + constructor; [|done]. exists data. split; [done|]. cbn. rewrite K2' by lia. done.
    + cbn. constructor; [|done]. intros (m & Em & Hm)%list_elem_of_fmap. rewrite list.Forall_forall in Hrange.
      specialize (Hrange m Hm). lia.
    + constructor; [cbn; lia|]. eapply Forall_impl; [exact Hrange|]. cbn. lia.
  - subst r. exists ms, w'. split_and!; [done | by transitivity w1 | done | done | done |].
    eapply Forall_impl; [exact Hrange|]. intros m [? ?]. destruct K. lia.
Qed.

(** A fully sealed file keeps its contents, whatever is tried with it. *)
Lemma sealed_keeps data ops : foldl (λ f op, apply_op op f) (mkMemfile data all_seals) ops = mkMemfile data all_seals.
Proof.
  induction ops as [|op ops IH]; [done|]. cbn [foldl].
  assert (apply_op op (mkMemfile data all_seals) = mkMemfile data all_seals) as ->; [|done].
  destruct op as [i d|n|ss]; [done | | done]. cbn [apply_op mf_data mf_seals sealed_with].
  change (bool_decide (SealShrink ∈ all_seals)) with true. change (bool_decide (SealGrow ∈ all_seals)) with true. cbn [andb].
  repeat case_bool_decide; try done. cbn [orb]. f_equal.
  assert (n = length data) as -> by lia. by rewrite Nat.sub_diag, app_nil_r, firstn_all.
Qed.

(** C15 The daemon serves exactly the enabled modules whose library file could be made, in the order of
    the directory (a module whose file fails is left out and the ones after it are still served),
    each with the contents of its library in a file of its own that nobody who gets the descriptor
    can change.  The directory is one that can be read, with names that are text. *)
Theorem installed_modules_sealed names w :
  f_dir fs = Some (Some <$> names) → Forall (λ n, from_utf8 n = true) names →
  ∃ ms w', load_modules w = (Ret (ROk ms), w') ∧
    Zygiskd.m_name <$> ms = served (mw_env w) names ∧
    NoDup (Zygiskd.m_lib_fd <$> ms) ∧
    ∀ m ops, m ∈ ms → ∃ f data, mw_files w' !! Zygiskd.m_lib_fd m = Some f ∧
      f_file fs (so_path (Zygiskd.m_name m)) = Some data ∧ mf_data (foldl (λ f op, apply_op op f) f ops) = data.
Proof.
  intros Hd Hn. destruct (load_entries_run names w Hn) as (ms & w' & E & _ & Hs & Hl & Hnd & _).
  exists ms, w'. unfold load_modules. rewrite Hd. split_and!; [done | done | done |].
  intros m ops Hm. rewrite list.Forall_forall in Hl. destruct (Hl m Hm) as (data & Hf & Hw).
  exists (mkMemfile data all_seals), data. split_and!; [done | done | by rewrite sealed_keeps].
Qed.

(** A directory entry that cannot be read, or a name that is no text, ends the daemon at its start. *)
Lemma bad_entry_ends names e es w :
  Forall (λ n, from_utf8 n = true) names → (e = None ∨ ∃ n, e = Some n ∧ from_utf8 n = false) →
  f_dir fs = Some ((Some <$> names) ++ e :: es) →
  ∃ r w', load_modules w = (Ret r, w') ∧ (r = RErr ∨ r = RPanic).
Proof.
  intros Hn He Hd. unfold load_modules. rewrite Hd. clear Hd. revert w.
  induction Hn as [|n names Hu _ IH]; intros w; cbn [fmap list_fmap app load_entries].
  - destruct He as [-> | (n & -> & ->)]; eexists _, _; (split; [reflexivity | tauto]).
  - rewrite Hu. cbn [negb]. destruct (negb _ || _) eqn:Ef; [apply IH|].
    assert (∃ data, f_file fs (so_path n) = Some data) as [data Hf].
    { apply orb_false_iff in Ef as [Ef%negb_false_iff _]. by apply bool_decide_eq_true in Ef as [? ?]; eexists. }
    destruct (create_library_run (so_path n) data w Hf) as (r & w1 & E & _ & _ & Hr). step_with E.
    destruct (IH w1) as (r' & w' & El & Hr'). destruct (can_make _ _); [destruct Hr as [-> _] | subst r; by exists r', w'].
    unfold rbind. step_with El. destruct Hr' as [-> | ->]; eexists _, _; (split; [reflexivity | tauto]).
Qed.
End load.

(** ** A module and its companion *)

(** A live process runs the library of the module [m], and [client] was the last handed to it. *)
Definition companion_got (m : Zygiskd.module) (client : Z) (cw : cworld) : Prop :=
  ∃ p r, cw_procs cw !! p = Some r ∧ p_alive r = true ∧ last (p_clients r) = Some client ∧
    p_lib r = Zygiskd.m_lib_fd m ∧ p_name r = Zygiskd.m_name m.

Section companion.
Context (sz : nat) (junk : nat → bytes) (jc : Z * Z * Z) (junk_len : ∀ n, length (junk n) = n).
(** The linkers of the companion process and of the application. *)
Context (ns : bytes → Z) (ext : bytes → Z → Z → Z) (sym : Z → bytes → Z).
Context (app_dlopen : bytes → Z → Loading.dlextinfo → Z) (app_dlsym : Z → bytes → Z).
Context (gi : Zygiskd.RootImpl) (im gr su : Z → bool) (pid : Z) (modules : list Zygiskd.module).
Context (names_ok : Forall (λ m, rust_string sz (Zygiskd.m_name m)) modules).

Lemma library_code codes m (f : nat → nat) :
  m ∈ mjoin (imap (λ k, Context.load (f k)) codes) →
  ∃ k c, Context.zm_id m = f k ∧ codes !! k = Some c ∧ Context.mc_handle c = Some (Context.zm_handle m).
Proof.
  revert f. induction codes as [|c codes IH]; intros f; [by intros ?%elem_of_nil|].
  change (mjoin (imap _ (c :: codes))) with (Context.load (f 0%nat) c ++ mjoin (imap (λ k, Context.load ((f ∘ S) k)) codes)).
  rewrite elem_of_app. intros [Hm|(k & c' & H1 & H2 & H3)%IH]; [|by exists (S k), c'].
  exists 0%nat, c. unfold Context.load in Hm. destruct (Context.mc_handle c) as [h|]; [|by apply elem_of_nil in Hm].
  destruct (Context.mc_entry c); [|by apply elem_of_nil in Hm]. apply list_elem_of_singleton in Hm. by subst m.
Qed.

(** C14 The loader and the daemon mean the same module by an index: a module that the loader has opened
    from the daemon's list, and that asks for its companion, gets the process that runs the library
    it was itself opened from, or a refusal; it gets the process, when nothing goes wrong,
    if the library has an entry for one. *)
Theorem module_gets_own_companion q es w :
  ready sz q w → Forall (λ m, wire_ok sz (Zygiskd.m_name m)) modules →
  Z.of_nat (length modules) < 256 ^ Z.of_nat sz →
  delivers q (Zygiskd.reply_read_modules sz modules ++ es) →
  ∃ l w', ReadModules sz junk jc w = (Ret l, w') ∧
    ∀ codes zm, Forall2 (Loading.stands_for app_dlopen app_dlsym) l codes → zm ∈ mjoin (imap Context.load codes) →
    ∃ m, modules !! Context.zm_id zm = Some m ∧ Context.zm_handle zm = Loading.opened app_dlopen (Zygiskd.m_lib_fd m) ∧
      ∀ cw c, rtc (cstep sz ns ext sym gi im gr su pid modules) (fresh_daemon modules) cw →
        asks sz SocketAction.RequestCompanionSocket (Z.of_nat (Context.zm_id zm)) c → ¬ has_client (k_client c) cw →
        ∃ cw' bs, serve_connection sz ns ext sym gi im gr su pid modules c cw = (Ret (ROk tt), cw') ∧
          cw_out cw' = cw_out cw ++ answers (k_client c) bs ∧
          ((bs = [1] ∧ companion_got m (k_client c) cw') ∨
           (1 ∉ bs ∧ ¬ has_client (k_client c) cw')) ∧
          (calm (k_env c) → bs = [if load_module ns ext sym (Zygiskd.m_lib_fd m) is Some (Some _) then 1 else 0]).
Proof.
  intros Hr Hms Hlen Hq. destruct (ReadModules_protocol sz junk jc junk_len modules q es w Hr Hms Hlen Hq) as (w' & E & _).
  eexists _, w'. split; [exact E|]. intros codes zm Hst Hzm.
  destruct (library_code codes zm id Hzm) as (k & code & Hk & Hc & Hh). change (id k) with k in Hk. rewrite Hk.
  destruct (Forall2_lookup_r _ _ _ _ _ Hst Hc) as (p & Hp & [Hopen _]).
  rewrite list_lookup_fmap in Hp. apply fmap_Some in Hp as (m & Hm & ->). exists m. split; [done|]. split.
  { cbn [snd] in Hopen. rewrite Hh in Hopen. by destruct (_ =? 0); [|injection Hopen]. }
  intros cw c Hcw Hask Hf. pose proof (reachable_ok sz ns ext sym gi im gr su pid modules names_ok cw Hcw) as Hok.
  destruct (request_spec sz ns ext sym modules (k_env c) (Z.of_nat k) (k_client c) m cw Hok) as (cw' & bs & Er & _ & Eo & Hbs & Hcalm);
    [by rewrite Nat2Z.id | by eapply Forall_lookup_1 in names_ok | apply Hask | done |].
  exists cw', bs. split.
  { rewrite (serve_index_request sz ns ext sym gi im gr su pid modules _ _ _ _ Hask) by by left. by step_with Er. }
  split; [done|]. split; [|done]. destruct Hbs as [[-> (x & r & _ & Hx & Ha & Hl & [N1 N2 _])]|[Hz Hno]].
  - left. split; [done|]. by exists x, r.
  - right. split; [|done]. destruct Hz as [->|[->| ->]]; set_solver by lia.
Qed.
End companion.

(** ** Examples *)

Definition demo_fs : fsys :=
  mkFsys (Some [Some (txt "shamiko"); Some (txt "off"); Some (txt "lsposed"); Some (txt "plain")])
    (λ p, if bool_decide (p = txt "../shamiko/zygisk/arm64-v8a.so") then Some (txt "S")
          else if bool_decide (p = txt "../off/zygisk/arm64-v8a.so") then Some (txt "O")
          else if bool_decide (p = txt "../off/disable") then Some []
          else if bool_decide (p = txt "../lsposed/zygisk/arm64-v8a.so") then Some (txt "L")
          else None).

(** One module is disabled, one has no library, and the file of the first enabled one cannot be sealed. *)
Lemma installed_modules_sealed_witness :
  ∃ ms w', load_modules demo_fs (txt "arm64-v8a") (mkMw ∅ 40 [mkLib true true true false]) = (Ret (ROk ms), w') ∧
    Zygiskd.m_name <$> ms = [txt "lsposed"].
Proof.
  destruct (installed_modules_sealed demo_fs (txt "arm64-v8a") [txt "shamiko"; txt "off"; txt "lsposed"; txt "plain"]
    (mkMw ∅ 40 [mkLib true true true false])) as (ms & w' & E & H & _); [done | by repeat constructor |].
  exists ms, w'. split; [exact E|]. rewrite H. by vm_compute.
Defined.

(** The daemon of the other examples. *)
Example demo_modules_loaded : (load_modules demo_fs (txt "arm64-v8a") (mkMw ∅ 40 [])).1 = Ret (ROk demo_modules).
Proof. by vm_compute. Qed.

Definition app_linker (path : bytes) (flags : Z) (info : Loading.dlextinfo) : Z := 4096 * Loading.x_fd info.

Definition demo_codes : list Context.module_code :=
  [Context.mkCode (Some (4096 * 40)) true (Some 4) [] [] []; Context.mkCode (Some (4096 * 41)) true (Some 4) [] [] []].

Lemma module_gets_own_companion_witness :
  ∃ cw' p r, (serve_connection 8 demo_ns demo_dlopen demo_dlsym Zygiskd.Magisk (λ _, false) (λ _, true) (λ _, false) 812 demo_modules
      (demo_ask SocketAction.RequestCompanionSocket 0 52) demo_daemon) = (Ret (ROk tt), cw') ∧
    cw_procs cw' !! p = Some r ∧ p_lib r = 40 ∧ last (p_clients r) = Some 52.
Proof.
  destruct (module_gets_own_companion 8 (λ n, replicate n NUL) (0, 0, 0) (λ n, length_replicate n NUL) demo_ns demo_dlopen demo_dlsym
    app_linker (λ h _, h) Zygiskd.Magisk (λ _, false) (λ _, true) (λ _, false) 812 demo_modules demo_strings
    demo_read_modules [] (demo_world demo_read_modules) (demo_ready _) demo_names ltac:(by vm_compute)) as (l & w' & E & H).
  { apply (dl_data (le_bytes 8 2 ++ le_bytes 8 7 ++ txt "shamiko")); [done|]. apply dl_fd, dl_intr.
    apply (dl_data (le_bytes 8 7 ++ txt "lsposed") [FdMsg 41] [SF 41]); [done|]. apply dl_fd. constructor. }
  assert (l = [(txt "shamiko", 40); (txt "lsposed", 41)]) as ->.
  { apply (f_equal fst) in E. vm_compute in E. by injection E as <-. }
  destruct (H demo_codes (Context.mkModule 0 false (4096 * 40) None (Context.mkCode (Some (4096 * 40)) true (Some 4) [] [] [])))
    as (m & Hm & _ & K); [by repeat constructor | by left |].
  injection Hm as <-.
  destruct (K demo_daemon (demo_ask SocketAction.RequestCompanionSocket 0 52) demo_reachable) as (cw' & bs & Es & Eo & Hbs & Hc).
  - apply demo_asks. cbn. lia.
  - apply demo_new_client.
  - assert (bs = [1]) as -> by (rewrite Hc by (by constructor); by vm_compute).
    destruct Hbs as [[_ (p & r & Hp & _ & Hl & Hlib & _)]|[Hno _]]; [by exists cw', p, r | by destruct Hno; left].
Defined.
