(* ===== verification/Denylist.v ===== *)
(** * Denylist: from the user's choice to the mounts of an application

    The parts of the program joined: the root implementation that is installed decides about a uid
    ([RootImpl]), the daemon answers with its flag word ([Companion], [Zygiskd]), the loader reads
    the word ([Daemon], [Protocol]), the context acts on it when the application gets its own
    mount namespace ([Context]), and the clean-up unmounts what the root solution mounted
    ([Unmount]). *)

From Stdlib Require Import ZArith Lia Ascii.
From stdpp Require Import base tactics strings list gmap numbers.
From S2P Require Import Prelude Misc SocketUtils.
From S2P Require Zygiskd RootImpl Companion.
From S2P Require Import Daemon Protocol MountInfo Unmount Maps Context ContextSpec.

Local Open Scope mach_scope.

(** What the events of [new_unshare] stand for: the clean-ups, on /proc/self/mountinfo as it is at
    their first and second reading. *)
Definition clean_up (file1 file2 : option bytes) (e : zevent) : prog (list bytes) unit :=
  match e with
  | ZRevertKsu => revert_unmount_ksu file1 file2
  | ZRevertApatch => revert_unmount_apatch file1 file2
  | ZRevertMagisk => revert_unmount_magisk file1
  | _ => mret tt
  end.

(** A mount that a root solution is answerable for. *)
Definition root_mount (gi : Zygiskd.RootImpl) (i : mount_info) : bool :=
  match gi with
  | Zygiskd.KernelSU => under_adb i || overlay_mount KSU_OVERLAY_SOURCE i || tmpfs_mount KSU_OVERLAY_SOURCE i
  | Zygiskd.APatch => under_adb i || overlay_mount AP_OVERLAY_SOURCE i || tmpfs_mount AP_OVERLAY_SOURCE i
  | Zygiskd.Magisk =>
      under_adb i || bool_decide (mi_source i = txt "magisk") || bool_decide (mi_source i = txt "worker")
      || starts_with (txt "/adb/modules") (mi_root i)
  | _ => false
  end.

(** A mount on the device that holds the modules, which only the overlay solutions use. *)
Definition module_device (gi : Zygiskd.RootImpl) (m1 : list mount_info) (i : mount_info) : Prop :=
  (gi = Zygiskd.KernelSU ∨ gi = Zygiskd.APatch) ∧ (mi_source i = loop_device m1 ∨ mi_target i = MODULE_DIR).

Lemma overlay_clean_up source file1 file2 m1 m2 :
  parse_mount_info file1 [] = (Ret tt, m1) → parse_mount_info file2 [] = (Ret tt, m2) →
  ∃ l, revert_unmount_overlay source file1 file2 [] = (Ret tt, l) ∧
    (∀ i, i ∈ m1 → under_adb i || overlay_mount source i || tmpfs_mount source i = true → mi_target i ∈ l) ∧
    (∀ t, t ∈ l → t = MODULE_DIR ∨
       (∃ i, i ∈ m1 ∧ mi_target i = t ∧ under_adb i || overlay_mount source i || tmpfs_mount source i = true) ∨
       (∃ i, i ∈ m2 ∧ mi_target i = t ∧ mi_source i = loop_device m1)).
Proof.
  intros H1 H2. rewrite (revert_overlay_run source file1 file2 m1 m2 [] H1 H2). eexists. split; [reflexivity|].
  cbn [app]. split.
  - intros i Hi Hr. rewrite !elem_of_app, !elem_of_reverse, !list_elem_of_bind.
    destruct (decide (mi_target i = MODULE_DIR)) as [->|Hne]; [right; right; by apply list_elem_of_singleton|].
    right. left. exists i. split; [|done]. apply first_adds_elem. split; [done|]. split; [done|].
    apply orb_true_iff in Hr as [[Hr|Hr]%orb_true_iff|Hr]; tauto.
  - intros t. rewrite !elem_of_app, !elem_of_reverse, !list_elem_of_bind, list_elem_of_singleton.
    intros [(i & (Ht & _ & Hs)%second_adds_elem & Hi)|[(i & (Ht & _ & Hs)%first_adds_elem & Hi)| ->]]; [| |by left].
    + right. right. by exists i.
    + right. left. exists i. split; [done|]. split; [done|]. rewrite !orb_true_iff. tauto.
Qed.

Lemma magisk_clean_up file m :
  parse_mount_info file [] = (Ret tt, m) →
  ∃ l, revert_unmount_magisk file [] = (Ret tt, l) ∧
    ∀ t, t ∈ l ↔ ∃ i, i ∈ m ∧ mi_target i = t ∧ root_mount Zygiskd.Magisk i = true.
Proof.
  intros H. destruct (revert_unmount_magisk_targets file m H) as [E _]. eexists. split; [exact E|].
  intros t. rewrite elem_of_reverse, list_elem_of_bind. apply exist_proper. intros i.
  unfold magisk_adds, root_mount. rewrite elem_of_app, !adds_elem, !orb_true_iff. tauto.
Qed.

(** The clean-up of an implementation unmounts its mounts, and nothing that is not its own or on
    the device of its modules. *)
Lemma clean_up_spec gi file1 file2 m1 m2 :
  gi = Zygiskd.KernelSU ∨ gi = Zygiskd.Magisk ∨ gi = Zygiskd.APatch →
  parse_mount_info file1 [] = (Ret tt, m1) → parse_mount_info file2 [] = (Ret tt, m2) →
  ∃ l, for_each (revert_of gi) (clean_up file1 file2) [] = (Ret tt, l) ∧
    (∀ i, i ∈ m1 → root_mount gi i = true → mi_target i ∈ l) ∧
    (∀ t, t ∈ l → (∃ i, i ∈ m1 ∧ mi_target i = t ∧ root_mount gi i = true) ∨
                  (gi ≠ Zygiskd.Magisk ∧ t = MODULE_DIR) ∨ (∃ i, i ∈ m2 ∧ mi_target i = t ∧ module_device gi m1 i)).
Proof.
  intros Hg H1 H2.
  assert (∀ source, (gi = Zygiskd.KernelSU ∨ gi = Zygiskd.APatch) →
    (∀ i, root_mount gi i = under_adb i || overlay_mount source i || tmpfs_mount source i) →
    (∀ s, for_each (revert_of gi) (clean_up file1 file2) s = (revert_unmount_overlay source file1 file2;; mret tt) s) →
    ∃ l, for_each (revert_of gi) (clean_up file1 file2) [] = (Ret tt, l) ∧
      (∀ i, i ∈ m1 → root_mount gi i = true → mi_target i ∈ l) ∧
      (∀ t, t ∈ l → (∃ i, i ∈ m1 ∧ mi_target i = t ∧ root_mount gi i = true) ∨
                    (gi ≠ Zygiskd.Magisk ∧ t = MODULE_DIR) ∨ (∃ i, i ∈ m2 ∧ mi_target i = t ∧ module_device gi m1 i))) as Hov.
  { intros source Ho Hr He. destruct (overlay_clean_up source file1 file2 m1 m2 H1 H2) as (l & E & A & B).
    exists l. split; [by rewrite He; step_with E|]. setoid_rewrite Hr. split; [done|].
    intros t [-> | [?|(i & Hi & Ht & Hs)]]%B; [right; left; split; [naive_solver | done] | by left |].
    right. right. exists i. split; [done|]. split; [done|]. split; [done | by left]. }
  destruct Hg as [-> | [-> | ->]].
  - by apply (Hov KSU_OVERLAY_SOURCE); [left| |].
  - destruct (magisk_clean_up file1 m1 H1) as (l & E & B). exists l. split; [|split].
    + change ((revert_unmount_magisk file1;; mret tt) [] = (Ret tt, l)). by step_with E.
    + intros i Hi Hr. apply B. by exists i.
    + intros t Ht%B. by left.
  - by apply (Hov AP_OVERLAY_SOURCE); [right| |].
Qed.

(** ** The question for the flags *)

Record asks_flags (uid : Z) (c : Companion.connection) : Prop := {
  af_accepted : Companion.k_accepted c = true;
  af_open : Companion.e_open (Companion.k_env c) = true;
  af_in : Companion.k_in c = SB <$> (le_bytes 1 (SocketAction.code SocketAction.GetProcessFlags) ++ le_bytes 4 uid);
  af_range : - 2 ^ 31 <= uid < 2 ^ 31
}.

Section daemon.
Context (sz : nat) (ns : bytes → Z) (ext : bytes → Z → Z → Z) (sym : Z → bytes → Z) (pid : Z) (modules : list Zygiskd.module).

(** The daemon, its questions answered by the root implementation. *)
Definition flags_daemon (o : RootImpl.os) (sel : RootImpl.selected) : Companion.connection → prog Companion.cworld (Companion.rres unit) :=
  Companion.serve_connection sz ns ext sym (RootImpl.ROOT_IMPL sel)
    (RootImpl.answer (RootImpl.root_impl.uid_is_manager o sel)) (RootImpl.answer (RootImpl.root_impl.uid_granted_root o sel))
    (RootImpl.answer (RootImpl.root_impl.uid_should_umount o sel)) pid modules.

Lemma read_uid uid :
  Companion.rs_read_int 4 (SB <$> le_bytes 4 uid) = Some (le_val (le_bytes 4 uid), []).
Proof.
  unfold Companion.rs_read_int. pose proof (Companion.rs_take_app (le_bytes 4 uid) []) as E.
  rewrite app_nil_r, length_le_bytes in E. by rewrite E.
Qed.

(** The reply the daemon has for a uid. *)
Definition flags_reply (o : RootImpl.os) (sel : RootImpl.selected) (uid : Z) : option (list elem) :=
  Zygiskd.reply_get_process_flags (RootImpl.ROOT_IMPL sel) (RootImpl.answer (RootImpl.root_impl.uid_is_manager o sel))
    (RootImpl.answer (RootImpl.root_impl.uid_granted_root o sel)) (RootImpl.answer (RootImpl.root_impl.uid_should_umount o sel))
    (le_val (le_bytes 4 uid)).

Lemma flags_reply_spec o sel uid f :
  - 2 ^ 31 <= uid < 2 ^ 31 → RootImpl.process_flags_rs o sel uid = Some f → flags_reply o sel uid = Some (wire_int 4 f).
Proof.
  intros Hu Hf%RootImpl.process_flags_rs_spec. unfold flags_reply, Zygiskd.reply_get_process_flags.
  rewrite wire_uid by done.
  by rewrite Hf.
Qed.

Lemma serve_flags o sel uid c cw f :
  asks_flags uid c → RootImpl.process_flags_rs o sel uid = Some f →
  ∃ cw', flags_daemon o sel c cw = (Ret (Companion.ROk tt), cw') ∧
    Companion.cw_out cw' = Companion.cw_out cw ++ ((λ x, (Companion.k_client c, x)) <$> wire_int 4 f).
Proof.
  intros [Ha Ho Hin Hu] Hf. pose proof (flags_reply_spec o sel uid f Hu Hf) as Hr. unfold flags_reply in Hr.
  unfold flags_daemon, Companion.serve_connection. rewrite Ha, Hin, fmap_app. cbn [negb].
  change (SB <$> le_bytes 1 (SocketAction.code SocketAction.GetProcessFlags)) with (wire_int 1 2).
  rewrite Companion.rs_read_int_wire by lia. change (Zygiskd.try_from 2) with (Some Zygiskd.GetProcessFlags). cbv iota.
  cbn [Companion.handle_daemon_action]. rewrite read_uid. unfold Companion.rbind, Companion.from_client. cbn [mbind].
  rewrite prog_bind_assoc. step. cbv iota. rewrite Hr, Ho. by eexists.
Qed.
End daemon.

(** ** The whole way *)

Section denylist.
Context (regcomp : bytes → bool) (regexec : bytes → bytes → bool) (N : Z).
Context (sz : nat) (ns : bytes → Z) (ext : bytes → Z → Z → Z) (sym : Z → bytes → Z) (pid : Z) (modules : list Zygiskd.module).

(** C5 An application that the installed root implementation wants to be kept from root, and that is
    not its manager, loses the mounts of the root solution: the daemon answers the loader,
    the loader reads the answer, and once the application has its own mount namespace every
    mount of the root solution is unmounted there, and nothing that is not its own or on the
    device of its modules, whatever the modules asked for. *)
Theorem denylisted_app_cleaned o sel uid c cw :
  Zygiskd.root_flag (RootImpl.ROOT_IMPL sel) ≠ None →
  RootImpl.root_impl.uid_is_manager o sel uid = Some false → RootImpl.root_impl.uid_should_umount o sel uid = Some true →
  asks_flags uid c →
  ∃ cw' r, flags_daemon sz ns ext sym pid modules o sel c cw = (Ret (Companion.ROk tt), cw') ∧
    Companion.cw_out cw' = Companion.cw_out cw ++ ((λ x, (Companion.k_client c, x)) <$> r) ∧
    ∀ q es w, ready sz q w → delivers q (r ++ es) →
    ∃ f w', GetProcessFlags sz uid w = (Ret f, w') ∧ (SB <$> sent (d_conn w')) = Companion.k_in c ∧
      ∀ s flags file1 file2 m1 m2,
        e_flags (z_env s) uid = f → has_ctx s = true → z_modules s = [] → Forall (well_behaved N) (e_libs (z_env s)) →
        flags &&& CLONE_NEWNS ≠ 0 → head (e_unshare (z_env s)) = Some 0 →
        parse_mount_info file1 [] = (Ret tt, m1) → parse_mount_info file2 [] = (Ret tt, m2) →
        ∃ s1 s2 events unmounted,
          app_specialize_pre regcomp regexec uid s = (Ret tt, s1) ∧ new_unshare flags s1 = (Ret 0, s2) ∧
          z_log s2 = z_log s1 ++ events ∧ for_each events (clean_up file1 file2) [] = (Ret tt, unmounted) ∧
          (∀ i, i ∈ m1 → root_mount (RootImpl.ROOT_IMPL sel) i = true → mi_target i ∈ unmounted) ∧
          (∀ t, t ∈ unmounted →
             (∃ i, i ∈ m1 ∧ mi_target i = t ∧ root_mount (RootImpl.ROOT_IMPL sel) i = true) ∨
             (RootImpl.ROOT_IMPL sel ≠ Zygiskd.Magisk ∧ t = MODULE_DIR) ∨
             (∃ i, i ∈ m2 ∧ mi_target i = t ∧ module_device (RootImpl.ROOT_IMPL sel) m1 i)).
Proof.
  intros Hroot Hman Hum Hask.
  set (gi := RootImpl.ROOT_IMPL sel) in *.
  assert (∃ f, RootImpl.process_flags_rs o sel uid = Some f) as [f Hf].
  { unfold RootImpl.process_flags_rs. rewrite Hman, Hum. cbn [mbind option_bind].
    assert (∃ g, RootImpl.root_impl.uid_granted_root o sel uid = Some g) as [g ->].
    { unfold RootImpl.root_impl.uid_granted_root. fold gi. destruct gi; first [by destruct Hroot | by eexists]. }
    cbn [mbind option_bind]. fold gi. destruct (Zygiskd.root_flag gi); [by eexists | done]. }
  destruct (serve_flags sz ns ext sym pid modules o sel uid c cw f Hask Hf) as (cw' & Es & Eo).
  exists cw', (wire_int 4 f). split; [done|]. split; [done|]. intros q es w Hr Hq.
  pose proof (RootImpl.process_flags_rs_spec o sel uid f Hf) as Hp. fold gi in Hp.
  destruct (GetProcessFlags_protocol sz gi _ _ _ uid (wire_int 4 f) q es w Hr (af_range _ _ Hask)
    (flags_reply_spec o sel uid f (af_range _ _ Hask) Hf) Hq) as (f' & w' & Ew & Hf' & [Hs _]).
  exists f', w'. split; [done|]. split; [by rewrite Hs, (af_in _ _ Hask)|].
  intros s flags file1 file2 m1 m2 Hfl Hc Hm Hw Hn Hu H1 H2. rewrite <- Hfl in Hf'.
  destruct (denylist_unmounts regcomp regexec N gi _ _ _ uid s flags Hf') as (s1 & s2 & E1 & E2 & El);
    [unfold RootImpl.answer; by rewrite Hman | unfold RootImpl.answer; by rewrite Hum | done.. |].
  assert (gi = Zygiskd.KernelSU ∨ gi = Zygiskd.Magisk ∨ gi = Zygiskd.APatch) as Hg by (destruct gi; auto; by destruct Hroot).
  destruct (clean_up_spec gi file1 file2 m1 m2 Hg H1 H2) as (l & Ecl & Hall & Honly).
  by exists s1, s2, (revert_of gi), l.
Qed.
End denylist.

(** ** An instance

    APatch is installed; a file manager with uid 10123 is excluded. *)

Definition demo_os : RootImpl.os :=
  RootImpl.mkOs None (λ _, None) (λ _, None) (λ _, None)
    (λ cmd, if bool_decide (cmd = [txt "/system/bin/su"; txt "-v"]) then Some (txt "10763:APatch" ++ [RootImpl.NL])
            else if bool_decide (cmd = [txt "/data/adb/apd"; txt "-V"]) then Some (txt "apd 10763" ++ [RootImpl.NL])
            else None)
    (λ f, if bool_decide (f = txt "/data/adb/ap/su_path") then Some (txt "/system/bin/su" ++ [RootImpl.NL]) else None)
    (Some [None; Some (RootImpl.mkPackage (txt "com.files") 1 0 10123 0 (txt "u:r:magisk:s0"))]).

Definition demo_selected : RootImpl.selected := RootImpl.mkSelected Zygiskd.APatch None.

(** It is what [setup] finds. *)
Example demo_setup : RootImpl.setup_with demo_os (RootImpl.mkSelected Zygiskd.NoImpl None) = (Ret tt, demo_selected).
Proof. by vm_compute. Qed.

Definition demo_question : Companion.connection :=
  Companion.mkConn true 50 (SB <$> (le_bytes 1 2 ++ le_bytes 4 10123)) Companion.demo_env true.

Lemma denylisted_app_cleaned_witness :
  ∃ s1 s2 events unmounted,
    app_specialize_pre (λ _, true) (λ _ _, false) 10123
      (ContextSpec.demo_zygote 0 (2 ^ 27 + 2) ContextSpec.demo_modules) = (Ret tt, s1) ∧
    new_unshare CLONE_NEWNS s1 = (Ret 0, s2) ∧ z_log s2 = z_log s1 ++ events ∧
    for_each events (clean_up (demo_file [demo_overlay; demo_tmpfs]) (demo_file [])) [] = (Ret tt, unmounted) ∧
    txt "/vendor" ∈ unmounted.
Proof.
  assert (asks_flags 10123 demo_question) as Ha by (constructor; [done | done | done | lia]).
  destruct (denylisted_app_cleaned (λ _, true) (λ _ _, false) 3 8 Companion.demo_ns Companion.demo_dlopen Companion.demo_dlsym 812
    Protocol.demo_modules demo_os demo_selected 10123 demo_question
    (Companion.fresh_daemon Protocol.demo_modules) ltac:(done) eq_refl eq_refl Ha) as (cw' & r & Es & Eo & H).
  assert (r = wire_int 4 (2 ^ 27 + 2)) as ->.
  { assert (Companion.cw_out cw' = (λ x, (50, x)) <$> wire_int 4 (2 ^ 27 + 2)) as E1.
    { change cw' with ((Ret (Companion.ROk tt) : outcome (Companion.rres unit), cw').2). rewrite <- Es. by vm_compute. }
    rewrite E1 in Eo. apply (f_equal (fmap snd)) in Eo. rewrite fmap_app, <- !list_fmap_compose in Eo. cbn in Eo.
    rewrite list_fmap_id in Eo. by symmetry. }
  destruct (H [Data (le_bytes 4 (2 ^ 27 + 2))] [] (demo_world [Data (le_bytes 4 (2 ^ 27 + 2))]) (demo_ready _)) as (f & w' & Ew & _ & Hz).
  { apply (dl_data (le_bytes 4 (2 ^ 27 + 2)) [] []); [done | constructor]. }
  assert (f = 2 ^ 27 + 2) as ->.
  { apply (f_equal fst) in Ew. vm_compute in Ew. by injection Ew as <-. }
  destruct (Hz (ContextSpec.demo_zygote 0 (2 ^ 27 + 2) ContextSpec.demo_modules) CLONE_NEWNS
    (demo_file [demo_overlay; demo_tmpfs]) (demo_file []) [mount_of demo_overlay; mount_of demo_tmpfs] [] eq_refl eq_refl eq_refl
    ContextSpec.demo_well_behaved ltac:(discriminate) eq_refl ltac:(by vm_compute) ltac:(by vm_compute))
    as (s1 & s2 & ev & um & E1 & E2 & E3 & E4 & Hall & _).
  exists s1, s2, ev, um. split_and!; try done. apply (Hall (mount_of demo_overlay)); [by left | by vm_compute].
Defined.
