(* ===== verification/HookLock.v ===== *)
(** * HookLock: PLT hook requests from several threads

    [mutex_guard] of [include/misc.hpp] and the three functions of [ZygiskContext] that hold
    [hook_info_lock], as threads whose steps interleave: constructing the guard, reading a vector,
    writing it back, destroying the guard.  Between the two, a request is anything but atomic; the
    claims: whatever the interleaving, the effect is that of the critical sections one after the
    other, in an order that respects every thread, and no thread is ever stuck.  A commit is a
    critical section, in which it collects the requests, and a call of lsplt behind it. *)

From Stdlib Require Import ZArith Lia Ascii.
From stdpp Require Import base tactics relations strings list gmap numbers.
From S2P Require Import Prelude Context.

Local Open Scope mach_scope.

(** ** mutex_guard *)

(** A guard: the mutex it will release, or null once it has. *)
Module mutex_guard.
Record t : Type := mk { holds : bool }.

(** The state is the mutex, with the thread that has locked it; locking a locked mutex waits. *)
Definition new (thread : nat) : prog (option nat) t :=
  owner ← get; match owner with Some _ => no_fuel | None => put (Some thread);; mret (mk true) end.

Definition unlock (g : t) : prog (option nat) t := put None;; mret (mk false).

Definition destroy (g : t) : prog (option nat) unit := when (holds g) (put None).
End mutex_guard.

(** Whether it was released early or not, the mutex is free when the guard is gone. *)
Lemma guard_releases (thread : nat) (early : bool) :
  (g ← mutex_guard.new thread; g ← (if early then mutex_guard.unlock g else mret g); mutex_guard.destroy g) None =
  (Ret tt, None).
Proof. by destruct early. Qed.

Lemma guard_new t lk g lk' : mutex_guard.new t lk = (Ret g, lk') → lk = None ∧ lk' = Some t ∧ mutex_guard.holds g = true.
Proof. destruct lk; [done|]. by intros [= <- <-]. Qed.

Lemma guard_destroy g lk lk' : mutex_guard.destroy g lk = (Ret tt, lk') → mutex_guard.holds g = true → lk' = None.
Proof. unfold mutex_guard.destroy. intros E H. rewrite H in E. by injection E. Qed.

(** ** The threads *)

Inductive op : Type :=
| OpRegister (regex symbol : bytes) (fn backup : Z)
| OpExclude (regex : bytes) (symbol : option bytes)
| OpCommit.

(** Where a thread is, and what it still has to do. *)
Inductive pc : Type :=
| Idle (ops : list op)
| Locked (g : mutex_guard.t) (o : op) (ops : list op)      (* the guard is constructed *)
| ReadRegister (g : mutex_guard.t) (r : RegisterInfo) (seen : list RegisterInfo) (ops : list op)
| ReadIgnore (g : mutex_guard.t) (i : IgnoreInfo) (seen : list IgnoreInfo) (ops : list op)
| Leaving (g : mutex_guard.t) (ops : list op)              (* the guard is about to be destroyed *)
| Processed (g : mutex_guard.t) (ops : list op)
| Cleared (g : mutex_guard.t) (ops : list op)
| CommitLeaving (g : mutex_guard.t) (ops : list op)
| Committing (ops : list op).                              (* outside the guard *)

(** The parts of a request that take effect at once. *)
Inductive action : Type :=
| ARegister (regex symbol : bytes) (fn backup : Z)
| AExclude (regex : bytes) (symbol : option bytes)
| AProcess
| ACommit.

Record cstate : Type := mkCs {
  cs_z : zygote;
  cs_lock : option nat;
  cs_threads : list pc;
  cs_hist : list (nat * action)     (* what has taken effect, and by whom *)
}.

Section threads.
Context (regcomp : bytes → bool) (regexec : bytes → bytes → bool).

(** Requests that return before they take the lock. *)
Definition takes_lock (o : op) : bool :=
  match o with
  | OpRegister re _ fn _ => negb (fn =? 0) && regcomp re
  | OpExclude re _ => regcomp re
  | OpCommit => true
  end.

Inductive step : cstate → cstate → Prop :=
| step_skip z lk ths h t o ops :
    ths !! t = Some (Idle (o :: ops)) → takes_lock o = false →
    step (mkCs z lk ths h) (mkCs z lk (<[t := Idle ops]> ths) h)
| step_lock z lk lk' g ths h t o ops :
    ths !! t = Some (Idle (o :: ops)) → takes_lock o = true → mutex_guard.new t lk = (Ret g, lk') →
    step (mkCs z lk ths h) (mkCs z lk' (<[t := Locked g o ops]> ths) h)
| step_read_register z lk ths h t g re sym fn backup ops :
    ths !! t = Some (Locked g (OpRegister re sym fn backup) ops) →
    step (mkCs z lk ths h)
         (mkCs z lk (<[t := ReadRegister g (mkRegister re sym fn backup) (register_info z) ops]> ths) h)
| step_write_register z lk ths h t g r seen ops :
    ths !! t = Some (ReadRegister g r seen ops) →
    step (mkCs z lk ths h)
         (mkCs (set_register_info (seen ++ [r]) z) lk (<[t := Leaving g ops]> ths)
            (h ++ [(t, ARegister (ri_regex r) (ri_symbol r) (ri_callback r) (ri_backup r))]))
| step_read_ignore z lk ths h t g re sym ops :
    ths !! t = Some (Locked g (OpExclude re sym) ops) →
    step (mkCs z lk ths h)
         (mkCs z lk (<[t := ReadIgnore g (mkIgnore re (default [] sym)) (ignore_info z) ops]> ths) h)
| step_write_ignore z lk ths h t g i seen ops :
    ths !! t = Some (ReadIgnore g i seen ops) →
    step (mkCs z lk ths h)
         (mkCs (set_ignore_info (seen ++ [i]) z) lk (<[t := Leaving g ops]> ths)
            (h ++ [(t, AExclude (ig_regex i) (Some (ig_symbol i)))]))
| step_unlock z lk lk' ths h t g ops :
    ths !! t = Some (Leaving g ops) → mutex_guard.destroy g lk = (Ret tt, lk') →
    step (mkCs z lk ths h) (mkCs z lk' (<[t := Idle ops]> ths) h)
| step_process z z' lk ths h t g ops :
    ths !! t = Some (Locked g OpCommit ops) → plt_hook_process_regex regexec z = (Ret tt, z') →
    step (mkCs z lk ths h) (mkCs z' lk (<[t := Processed g ops]> ths) (h ++ [(t, AProcess)]))
| step_clear_register z lk ths h t g ops :
    ths !! t = Some (Processed g ops) →
    step (mkCs z lk ths h) (mkCs (set_register_info [] z) lk (<[t := Cleared g ops]> ths) h)
| step_clear_ignore z lk ths h t g ops :
    ths !! t = Some (Cleared g ops) →
    step (mkCs z lk ths h) (mkCs (set_ignore_info [] z) lk (<[t := CommitLeaving g ops]> ths) h)
| step_unlock_commit z lk lk' ths h t g ops :
    ths !! t = Some (CommitLeaving g ops) → mutex_guard.destroy g lk = (Ret tt, lk') →
    step (mkCs z lk ths h) (mkCs z lk' (<[t := Committing ops]> ths) h)
| step_commit z z' b lk ths h t ops :
    ths !! t = Some (Committing ops) → CommitHook z = (Ret b, z') →
    step (mkCs z lk ths h) (mkCs z' lk (<[t := Idle ops]> ths) (h ++ [(t, ACommit)])).

(** ** One after the other *)

Definition apply (z : zygote) (a : action) : zygote :=
  match a with
  | ARegister re sym fn backup => (plt_hook_register regcomp re sym fn backup z).2
  | AExclude re sym => (plt_hook_exclude regcomp re sym z).2
  | AProcess =>
      ((plt_hook_process_regex regexec;; modify (λ s, set_ignore_info [] (set_register_info [] s))) z).2
  | ACommit => (CommitHook z).2
  end.

Definition actions_of (o : op) : list action :=
  if takes_lock o then
    match o with
    | OpRegister re sym fn backup => [ARegister re sym fn backup]
    | OpExclude re sym => [AExclude re (Some (default [] sym))]
    | OpCommit => [AProcess; ACommit]
    end
  else [].

Definition program (ops : list op) : list action := ops ≫= actions_of.

(** What a thread will still do. *)
Definition rest_of (p : pc) : list action :=
  match p with
  | Idle ops | Leaving _ ops => program ops
  | Locked _ o ops => program (o :: ops)
  | ReadRegister _ r _ ops => ARegister (ri_regex r) (ri_symbol r) (ri_callback r) (ri_backup r) :: program ops
  | ReadIgnore _ i _ ops => AExclude (ig_regex i) (Some (ig_symbol i)) :: program ops
  | Processed _ ops | Cleared _ ops | CommitLeaving _ ops | Committing ops => ACommit :: program ops
  end.

(** The thread holds the lock. *)
Definition critical (p : pc) : bool :=
  match p with Idle _ | Committing _ => false | _ => true end.

Definition finished (p : pc) : bool := match p with Idle [] => true | _ => false end.

Definition launch (z : zygote) (progs : list (list op)) : cstate := mkCs z None (Idle <$> progs) [].

Definition done_by (t : nat) (h : list (nat * action)) : list action :=
  (List.filter (λ p : nat * action, (p.1 =? t)%nat) h).*2.

(** ** The invariant *)

(** What a thread knows while it holds the lock. *)
Definition pc_ok (z : zygote) (p : pc) : Prop :=
  match p with
  | Locked g o _ => mutex_guard.holds g = true ∧ takes_lock o = true
  | ReadRegister g r seen _ =>
      mutex_guard.holds g = true ∧ seen = register_info z ∧ takes_lock (OpRegister (ri_regex r) (ri_symbol r) (ri_callback r) (ri_backup r)) = true
  | ReadIgnore g i seen _ => mutex_guard.holds g = true ∧ seen = ignore_info z ∧ regcomp (ig_regex i) = true
  | Leaving g _ | Processed g _ | Cleared g _ | CommitLeaving g _ => mutex_guard.holds g = true
  | _ => True
  end.

(** The state once the holder of the lock has cleared what it is about to clear. *)
Definition settle (p : pc) (z : zygote) : zygote :=
  match p with
  | Processed _ _ => set_ignore_info [] (set_register_info [] z)
  | Cleared _ _ => set_ignore_info [] z
  | _ => z
  end.

Definition settled (s : cstate) : zygote :=
  match cs_lock s with
  | Some t => match cs_threads s !! t with Some p => settle p (cs_z s) | None => cs_z s end
  | None => cs_z s
  end.

Record inv (z0 : zygote) (progs : list (list op)) (s : cstate) : Prop := {
  i_lock : ∀ t p, cs_threads s !! t = Some p → critical p = true → cs_lock s = Some t;
  i_holder : ∀ t, cs_lock s = Some t → ∃ p, cs_threads s !! t = Some p ∧ critical p = true;
  i_pc : ∀ t p, cs_threads s !! t = Some p → pc_ok (cs_z s) p;
  i_state : settled s = foldl apply z0 (cs_hist s).*2;
  i_order : ∀ t p ops, cs_threads s !! t = Some p → progs !! t = Some ops →
    done_by t (cs_hist s) ++ rest_of p = program ops
}.

Lemma process_run z :
  ∃ z', plt_hook_process_regex regexec z = (Ret tt, z') ∧ register_info z' = register_info z ∧ ignore_info z' = ignore_info z.
Proof.
  unfold plt_hook_process_regex. erewrite bind_run by reflexivity. cbv beta.
  destruct (register_info z) as [|r0 rs] eqn:Er; [exists z; by rewrite Er|]. rewrite <- Er.
  unfold Scan_maps, pop. rewrite prog_bind_assoc. erewrite bind_run by reflexivity. cbv beta.
  rewrite prog_bind_assoc. erewrite bind_run by reflexivity. cbv beta. rewrite prog_bind_ret.
  set (I := λ z' : zygote, register_info z' = register_info z ∧ ignore_info z' = ignore_info z).
  apply (for_each_inv I); [done|]. intros m s _ Hs. destruct (map_eligible m); [|by exists s].
  apply (for_each_inv I); [done|]. intros r s' _ Hs'. cbn [when]. destruct (_ && _); [|by exists s'].
  eexists. by split.
Qed.

Lemma done_by_app t h k : done_by t (h ++ k) = done_by t h ++ done_by t k.
Proof. unfold done_by. by rewrite List.filter_app, fmap_app. Qed.

(** One thread moves from [p] to [p'] and does [l]. *)
Lemma order_move (progs : list (list op)) (ths : list pc) h t p p' (l : list action) :
  ths !! t = Some p → rest_of p = l ++ rest_of p' →
  (∀ t p ops, ths !! t = Some p → progs !! t = Some ops → done_by t h ++ rest_of p = program ops) →
  ∀ t' q ops, <[t := p']> ths !! t' = Some q → progs !! t' = Some ops →
    done_by t' (h ++ ((t,.) <$> l)) ++ rest_of q = program ops.
Proof.
  intros Hp Hr Ho t' q ops Hq Hops. rewrite done_by_app.
  assert (∀ u, done_by u ((t,.) <$> l) = if (t =? u)%nat then l else []) as Hd.
  { intros u. unfold done_by. clear. induction l as [|a l IH]; [by destruct (t =? u)%nat|].
    rewrite fmap_cons. cbn [List.filter fst]. revert IH. by destruct (t =? u)%nat; cbn; intros ->. }
  apply list_lookup_insert_Some in Hq as [(-> & <- & _)|[Hne Hq]].
  - rewrite Hd, Nat.eqb_refl, <- app_assoc, <- Hr. by apply (Ho t' p).
  - rewrite Hd, (proj2 (Nat.eqb_neq _ _)), app_nil_r by done. by apply (Ho t').
Qed.

Lemma program_cons o ops : program (o :: ops) = actions_of o ++ program ops.
Proof. reflexivity. Qed.

Lemma rest_skip o ops : takes_lock o = false → program (o :: ops) = program ops.
Proof. intros H. rewrite program_cons. unfold actions_of. by rewrite H. Qed.

(** A thread that holds the lock is the only one. *)
Lemma only_holder (ths : list pc) (lk : option nat) t p t' q :
  (∀ t p, ths !! t = Some p → critical p = true → lk = Some t) →
  ths !! t = Some p → critical p = true → ths !! t' = Some q → critical q = true → t' = t.
Proof. intros H Ht Hp Ht' Hq. pose proof (H t p Ht Hp). pose proof (H t' q Ht' Hq). congruence. Qed.

(** The threads that do not hold the lock know nothing about the state. *)
Lemma pc_ok_idle z p : critical p = false → pc_ok z p.
Proof. by destruct p. Qed.

Lemma pc_ok_same z z' p : register_info z' = register_info z → ignore_info z' = ignore_info z → pc_ok z p → pc_ok z' p.
Proof. intros H1 H2. by destruct p; cbn [pc_ok]; rewrite ?H1, ?H2. Qed.

(** One thread [t] moves from [p] to [p'], does [l], and leaves the state [z'] and the lock [lk']. *)
Lemma inv_move z0 progs z lk (ths : list pc) h t p p' z' lk' l :
  inv z0 progs (mkCs z lk ths h) → ths !! t = Some p →
  lk' = (if critical p' then Some t else if critical p then None else lk) →
  (critical p' = true → critical p = false → lk = None) →
  pc_ok z' p' →
  critical p = true ∨ (register_info z' = register_info z ∧ ignore_info z' = ignore_info z) →
  rest_of p = l ++ rest_of p' →
  settled (mkCs z' lk' (<[t := p']> ths) (h ++ ((t,.) <$> l))) = foldl apply (settled (mkCs z lk ths h)) l →
  inv z0 progs (mkCs z' lk' (<[t := p']> ths) (h ++ ((t,.) <$> l))).
Proof.
  intros [Il Ih Ip Is Io] Hp Hlk Henter Hpc Hz Hr Hst. cbn [cs_z cs_lock cs_threads cs_hist] in *.
  constructor; cbn [cs_z cs_lock cs_threads cs_hist].
  - intros t' q [(-> & <- & _)|[Hne Hq]]%list_lookup_insert_Some Hc; [by rewrite Hlk, Hc|].
    pose proof (Il t' q Hq Hc) as E. destruct (critical p) eqn:Hcp; [pose proof (Il t p Hp Hcp); congruence|].
    destruct (critical p'); [by rewrite Henter in E | congruence].
  - intros u E. rewrite Hlk in E. destruct (critical p') eqn:Hcp'.
    { injection E as <-. exists p'. split; [|done]. apply list_lookup_insert_eq. by eapply lookup_lt_Some. }
    destruct (critical p) eqn:Hcp; [done|]. destruct (Ih u E) as (q & Hq & Hc). exists q. split; [|done].
    rewrite list_lookup_insert_ne; [done|]. intros ->. congruence.
  - intros t' q [(-> & <- & _)|[Hne Hq]]%list_lookup_insert_Some; [done|].
    destruct Hz as [Hcp|[H1 H2]]; [|by eapply pc_ok_same; eauto].
    destruct (critical q) eqn:Hcq; [|by apply pc_ok_idle].
    destruct Hne. symmetry. by eapply only_holder.
  - rewrite fmap_app, foldl_app, <- Is, Hst. f_equal. rewrite <- list_fmap_compose. symmetry. apply list_fmap_id.
  - by eapply order_move.
Qed.

(** With the lock, only the holder's own clearing is pending. *)
Lemma settled_holder z ths h t p : ths !! t = Some p → settled (mkCs z (Some t) ths h) = settle p z.
Proof. intros H. unfold settled. cbn. by rewrite H. Qed.

Lemma settled_insert z t ths h p : (t < length ths)%nat → settled (mkCs z (Some t) (<[t := p]> ths) h) = settle p z.
Proof. intros H. apply settled_holder. by apply list_lookup_insert_eq. Qed.

Lemma commit_settle p z : (CommitHook (settle p z)).2 = settle p (CommitHook z).2.
Proof. by destruct p. Qed.

(** A step of a thread without the lock, for any holder. *)
Lemma settled_other (f : zygote → zygote) z z' lk (ths : list pc) h h' t p p' :
  ths !! t = Some p → critical p = false → (∀ u, lk = Some u → ∃ q, ths !! u = Some q ∧ critical q = true) →
  (∀ q, settle q z' = f (settle q z)) →
  settled (mkCs z' lk (<[t := p']> ths) h') = f (settled (mkCs z lk ths h)).
Proof.
  intros Hp Hc Hh Hq. unfold settled. cbn [cs_z cs_lock cs_threads]. destruct lk as [u|]; [|exact (Hq (Idle []))].
  destruct (Hh u eq_refl) as (q & Hu & Hcq). rewrite list_lookup_insert_ne by (intros ->; congruence). by rewrite Hu.
Qed.

(** A step that does nothing yet. *)
Lemma inv_quiet z0 progs z lk (ths : list pc) h t p p' z' lk' :
  inv z0 progs (mkCs z lk ths h) → ths !! t = Some p →
  lk' = (if critical p' then Some t else if critical p then None else lk) →
  (critical p' = true → critical p = false → lk = None) →
  pc_ok z' p' →
  critical p = true ∨ (register_info z' = register_info z ∧ ignore_info z' = ignore_info z) →
  rest_of p = rest_of p' →
  settled (mkCs z' lk' (<[t := p']> ths) h) = settled (mkCs z lk ths h) →
  inv z0 progs (mkCs z' lk' (<[t := p']> ths) h).
Proof.
  intros Hi Hp Hlk He Hpc Hz Hr Hst. rewrite <- (app_nil_r h).
  by apply (inv_move z0 progs z lk ths h t p p' z' lk' []).
Qed.

Ltac in_section Il H :=
  let E := fresh "E" in pose proof (Il _ _ H eq_refl) as E; cbn [cs_lock] in E; subst.

Lemma inv_step z0 progs s s' : inv z0 progs s → step s s' → inv z0 progs s'.
Proof.
  intros Hi Hs. pose proof (i_lock _ _ _ Hi) as Il. pose proof (i_pc _ _ _ Hi) as Ip. pose proof (i_holder _ _ _ Hi) as Ih.
  destruct Hs as [z lk ths h t o ops H Hl|z lk lk' g ths h t o ops H Hl Hg|z lk ths h t g re sym fn bk ops H
    |z lk ths h t g r seen ops H|z lk ths h t g re sym ops H|z lk ths h t g i seen ops H|z lk lk' ths h t g ops H Hg
    |z z' lk ths h t g ops H Hrun|z lk ths h t g ops H|z lk ths h t g ops H|z lk lk' ths h t g ops H Hg
    |z z' b lk ths h t ops H Hrun]; cbn [cs_threads cs_lock cs_z] in *;
    pose proof (lookup_lt_Some _ _ _ H) as Hlt; pose proof (Ip _ _ H) as Hpc; cbn [pc_ok] in Hpc.
  - eapply inv_quiet; [exact Hi | exact H | done | done | done | by right | by apply rest_skip |].
    by eapply (settled_other id); [exact H | done | exact Ih | intros []].
  - apply guard_new in Hg as (-> & -> & Hg).
    eapply inv_quiet; [exact Hi | exact H | done | done | done | by right | done |]. by rewrite settled_insert.
  - in_section Il H. destruct Hpc as [Hg Hpc]. eapply inv_quiet; [exact Hi | exact H | done | done | done | by right | |].
    + cbn [rest_of ri_regex ri_symbol ri_callback ri_backup]. rewrite program_cons. unfold actions_of. by rewrite Hpc.
    + by rewrite settled_insert, (settled_holder _ _ _ _ _ H).
  - in_section Il H. destruct Hpc as (Hg & -> & Hl). eapply (inv_move _ _ _ _ _ _ _ _ _ _ _ [_]);
      [exact Hi | exact H | done | done | done | by left | done |].
    rewrite settled_insert, (settled_holder _ _ _ _ _ H) by done. cbn in Hl |- *. unfold plt_hook_register.
    apply andb_prop in Hl as [H1%negb_true_iff H2]. rewrite H1, H2. by destruct r.
  - in_section Il H. destruct Hpc as [Hg Hpc]. eapply inv_quiet; [exact Hi | exact H | done | done | done | by right | |].
    + cbn [rest_of ig_regex ig_symbol]. rewrite program_cons. unfold actions_of. by rewrite Hpc.
    + by rewrite settled_insert, (settled_holder _ _ _ _ _ H).
  - in_section Il H. destruct Hpc as (Hg & -> & Hl). eapply (inv_move _ _ _ _ _ _ _ _ _ _ _ [_]);
      [exact Hi | exact H | done | done | done | by left | done |].
    rewrite settled_insert, (settled_holder _ _ _ _ _ H) by done. cbn. unfold plt_hook_exclude. rewrite Hl. by destruct i.
  - in_section Il H. rewrite (guard_destroy _ _ _ Hg Hpc).
    eapply inv_quiet; [exact Hi | exact H | done | done | done | by right | done |].
    by rewrite (settled_holder _ _ _ _ _ H).
  - in_section Il H. destruct Hpc as [Hg _]. eapply (inv_move _ _ _ _ _ _ _ _ _ _ _ [_]);
      [exact Hi | exact H | done | done | done | by left | done |].
    rewrite settled_insert, (settled_holder _ _ _ _ _ H) by done. cbn [foldl apply settle].
    by rewrite (bind_run _ _ _ _ _ Hrun).
  - in_section Il H. eapply inv_quiet; [exact Hi | exact H | done | done | done | by left | done |].
    by rewrite settled_insert, (settled_holder _ _ _ _ _ H).
  - in_section Il H. eapply inv_quiet; [exact Hi | exact H | done | done | done | by left | done |].
    by rewrite settled_insert, (settled_holder _ _ _ _ _ H).
  - in_section Il H. rewrite (guard_destroy _ _ _ Hg Hpc).
    eapply inv_quiet; [exact Hi | exact H | done | done | done | by right | done |].
    by rewrite (settled_holder _ _ _ _ _ H).
  - assert (z' = (CommitHook z).2) as -> by by rewrite Hrun.
    eapply (inv_move _ _ _ _ _ _ _ _ _ _ _ [_]); [exact Hi | exact H | done | done | done | by right | done |].
    eapply (settled_other (λ z, (CommitHook z).2)); [exact H | done | exact Ih | intros q; symmetry; apply commit_settle].
Qed.

Lemma inv_launch z0 progs : inv z0 progs (launch z0 progs).
Proof.
  constructor; cbn; try done.
  - intros t p (ops & -> & _)%list_lookup_fmap_Some. done.
  - intros t p (ops & -> & _)%list_lookup_fmap_Some. done.
  - intros t p ops (ops' & -> & H)%list_lookup_fmap_Some H'. by simplify_eq.
Qed.

Lemma reachable_inv z0 progs s : rtc step (launch z0 progs) s → inv z0 progs s.
Proof.
  pose proof (inv_launch z0 progs) as Hi. revert Hi. generalize (launch z0 progs). intros x Hi H.
  induction H as [|x y z Hs _ IH]; [done|]. apply IH. by eapply inv_step.
Qed.


(** ** No thread is stuck *)

(** How many steps a thread has left at most. *)
Definition weight (p : pc) : nat :=
  match p with
  | Idle ops => 7 * length ops
  | Locked _ _ ops => 6 + 7 * length ops
  | ReadRegister _ _ _ ops | ReadIgnore _ _ _ ops => 5 + 7 * length ops
  | Processed _ ops => 5 + 7 * length ops
  | Cleared _ ops => 4 + 7 * length ops
  | CommitLeaving _ ops => 3 + 7 * length ops
  | Leaving _ ops | Committing ops => 2 + 7 * length ops
  end.

Definition total (ths : list pc) : nat := sum_list (weight <$> ths).

Lemma total_insert (ths : list pc) t p p' :
  ths !! t = Some p → (weight p' < weight p)%nat → (total (<[t := p']> ths) < total ths)%nat.
Proof.
  revert t. induction ths as [|q ths IH]; intros [|t] H Hw; try done.
  - injection H as ->. change (weight p' + total ths < weight p + total ths)%nat. lia.
  - specialize (IH t H Hw). change (weight q + total (<[t := p']> ths) < weight q + total ths)%nat. lia.
Qed.

Lemma step_total s s' : step s s' → (total (cs_threads s') < total (cs_threads s))%nat.
Proof. intros Hs. destruct Hs; cbn [cs_threads]; eapply total_insert; eauto; cbn; lia. Qed.

(** The holder of the lock, or else any thread that is not finished, can go on. *)
Lemma critical_steps z0 progs s t p :
  inv z0 progs s → cs_threads s !! t = Some p → critical p = true → ∃ s', step s s'.
Proof.
  destruct s as [z lk ths h]. intros Hi Hp Hc. cbn in *.
  destruct p as [|g [re sym fn bk|re sym|] ops| | |[[]] ops| | |[[]] ops|]; try done; try (eexists; by econstructor).
  destruct (process_run z) as (z' & E & _). eexists. by eapply step_process.
Qed.

Lemma idle_steps z ths h t p :
  ths !! t = Some p → critical p = false → finished p = false → ∃ s', step (mkCs z None ths h) s'.
Proof.
  intros Hp Hc Hf. destruct p as [[|o ops]| | | | | | | |ops]; try done.
  - destruct (takes_lock o) eqn:E; eexists; [by eapply step_lock | by eapply step_skip].
  - eexists. by eapply (step_commit z _ _ None ths h t ops).
Qed.

(** The threads are never stuck and never run for ever: as long as one is not finished some
    thread can take a step, and no run has more steps than seven for every request. *)
Theorem requests_finish (z0 : zygote) (progs : list (list op)) (n : nat) (s : cstate) :
  nsteps step n (launch z0 progs) s →
  (n <= 7 * sum_list (length <$> progs))%nat ∧
  (forallb finished (cs_threads s) = false → ∃ s', step s s').
Proof.
  intros Hn. assert (rtc step (launch z0 progs) s) as Hr by (apply rtc_nsteps; eauto).
  pose proof (reachable_inv z0 progs s Hr) as Hi. split.
  - assert (n + total (cs_threads s) <= total (cs_threads (launch z0 progs)))%nat as Hb.
    { clear -Hn. induction Hn as [|n x y z Hs _ IH]; [lia|]. pose proof (step_total _ _ Hs). lia. }
    assert (total (cs_threads (launch z0 progs)) = 7 * sum_list (length <$> progs))%nat as E; [|lia].
    cbn. unfold total. clear. induction progs as [|l progs IH]; cbn in *; lia.
  - intros Hf. destruct s as [z [t|] ths h].
    + destruct (i_holder _ _ _ Hi t eq_refl) as (p & Hp & Hc). by eapply critical_steps.
    + apply not_true_iff_false in Hf. cbn in Hf. rewrite forallb_forall in Hf.
      destruct (decide (Forall (λ p, finished p = true) ths)) as [Ha|Hn']; [|].
      { destruct Hf. intros p Hp. rewrite list.Forall_forall in Ha. apply Ha. by apply list_elem_of_In. }
      apply not_Forall_Exists in Hn'; [|solve_decision]. apply Exists_exists in Hn' as (p & Hp & Hnf).
      apply list_elem_of_In, list_elem_of_lookup in Hp as [t Hp]. apply not_true_iff_false in Hnf.
      destruct (critical p) eqn:Hc; [|by eapply idle_steps].
      by pose proof (i_lock _ _ _ Hi t p Hp Hc).
Qed.
End threads.
(** ** A run of two threads *)

Definition demo_threads : list (list op) := [[OpRegister (txt "libc") (txt "open") 77 0]; [OpCommit]].
Definition demo_shared : zygote :=
  mkZygote true (-1) ∅ 0 ∅ [] None [] [] [] false ∅ 4 (mkZenv [] [] [] [] (λ _, 0) [] [] [] [] [] []) [].

(** The first thread registers, the second one commits; the commit finds the request. *)
Lemma demo_threads_run :
  ∃ s, nsteps (step (λ _, true) (λ _ _, true)) 10 (launch demo_shared demo_threads) s ∧
    cs_lock s = None ∧ forallb finished (cs_threads s) = true ∧
    (cs_hist s).*2 = [ARegister (txt "libc") (txt "open") 77 0; AProcess; ACommit] ∧ register_info (cs_z s) = [].
Proof.
  eexists. split; [|split; [|split; [|split]]].
  { eapply nsteps_l; [by eapply (step_lock _ _ _ _ _ _ _ _ 0%nat)|].
    eapply nsteps_l; [by eapply (step_read_register _ _ _ _ _ _ 0%nat)|].
    eapply nsteps_l; [by eapply (step_write_register _ _ _ _ _ _ 0%nat)|].
    eapply nsteps_l; [by eapply (step_unlock _ _ _ _ _ _ _ 0%nat)|].
    eapply nsteps_l; [by eapply (step_lock _ _ _ _ _ _ _ _ 1%nat)|].
    eapply nsteps_l; [by eapply (step_process _ _ _ _ _ _ _ 1%nat)|].
    eapply nsteps_l; [by eapply (step_clear_register _ _ _ _ _ _ 1%nat)|].
    eapply nsteps_l; [by eapply (step_clear_ignore _ _ _ _ _ _ 1%nat)|].
    eapply nsteps_l; [by eapply (step_unlock_commit _ _ _ _ _ _ _ 1%nat)|].
    eapply nsteps_l; [by eapply (step_commit _ _ _ _ _ _ _ _ 1%nat)|]. apply nsteps_O. }
  all: reflexivity.
Qed.


Lemma requests_finish_witness :
  ∃ s, nsteps (step (λ _, true) (λ _ _, true)) 10 (launch demo_shared demo_threads) s ∧ (10 <= 7 * 2)%nat ∧
    (forallb finished (cs_threads s) = false → ∃ s', step (λ _, true) (λ _ _, true) s s').
Proof.
  destruct demo_threads_run as (s & Hn & _). exists s. split; [done|].
  apply (requests_finish (λ _, true) (λ _ _, true) demo_shared demo_threads 10 s Hn).
Defined.
