(* ===== verification/Hooks.v ===== *)
(** * Hooks: how the injected library installs itself and leaves again

    [entry] ([injector/entry.cpp]), [hook_functions], [hook_unloader], [unhook_functions], the hooks
    of [strdup] and [pthread_attr_destroy], the JNI hooks ([hookJniNativeMethods],
    [initialize_jni_hook], [do_hook_zygote]), the constructor and the destructor of
    [ZygiskContext], and the replacement methods of [jni_hooks.hpp] around the functions of
    [Context]. *)

From Stdlib Require Import ZArith Lia Ascii.
From stdpp Require Import base tactics strings list gmap functions numbers.
From S2P Require Import Prelude Misc Maps Jni Context.

Local Open Scope mach_scope.

(** ** Data *)

(** The functions of the C library that are hooked; each has its [new_] function and its [old_]
    pointer. *)
Inductive hookfn : Set := HFork | HUnshare | HStrdup | HAndroidLogClose | HPthreadAttrDestroy.

#[export] Instance hookfn_eq_dec : EqDecision hookfn.
Proof. solve_decision. Defined.
#[export] Instance kind_eq_dec : EqDecision kind.
Proof. solve_decision. Defined.

Definition hook_symbol (h : hookfn) : bytes :=
  match h with
  | HFork => txt "fork" | HUnshare => txt "unshare" | HStrdup => txt "strdup"
  | HAndroidLogClose => txt "__android_log_close" | HPthreadAttrDestroy => txt "pthread_attr_destroy"
  end.

(** An element of [plt_hook_list]: device, inode, symbol and the address of the [old_] pointer. *)
Record plt_entry : Type := mkPlt { pe_dev : Z; pe_inode : Z; pe_sym : bytes; pe_old : hookfn }.

(** A pointer to an object that can be deleted. *)
Inductive ptr (A : Type) : Type := PNull | PTo (a : A) | PDangling.
Arguments PNull {A}.
Arguments PTo {A} _.
Arguments PDangling {A}.

(** A function pointer of a JNI method: null, a replacement of this library, other code. *)
Inductive fnptr : Type := FNull | FOurs (v : variant) | FCode (addr : Z).

Record JNINativeMethod : Type := mkNative { nm_name : bytes; nm_sig : bytes; nm_fn : fnptr }.

Definition nm_set_fn (f : fnptr) (m : JNINativeMethod) : JNINativeMethod :=
  mkNative (nm_name m) (nm_sig m) f.

(** A method of the virtual machine: class, name, signature. *)
Abbreviation method_key := (bytes * bytes * bytes)%type.

Inductive hevent : Type :=
| HvRegisterHook (dev inode : Z) (sym : bytes) (h : hookfn)            (* the [new_] function *)
| HvRestoreHook (dev inode : Z) (sym : bytes) (old : option Z)         (* what the [old_] pointer holds *)
| HvCommit (ok : bool)
| HvRegisterNatives (clz : bytes) (ms : list JNINativeMethod) (ok : bool)
| HvClearApi (id : nat)
| HvCallOrig (f : fnptr) (args : list Z)
| HvCallOld (h : hookfn) (addr : Z)                                    (* through the [old_] pointer *)
| HvDlclose (handle : Z).

(** The process the library lives in.  The answers of lsplt: whether a hook can be registered,
    and for each commit its result and the [old_] pointers it fills.  The answers of
    [RegisterNatives]: success, or how many methods were registered before it failed. *)
Record hooks : Type := mkHooks {
  hk_z : zygote;
  self_handle : Z;
  plt_hook_list : ptr (list plt_entry);
  jni_hook_list : option (list (bytes * list JNINativeMethod));
  old_fn : hookfn → option Z;
  can_hook_jni : bool;
  MODIFIER_NATIVE : Z;
  member_getModifiers : bool;
  hk_tables : kind → list JNINativeMethod;     (* [<method>_methods] *)
  hk_orig : kind → fnptr;                      (* [<method>_orig] *)
  natives : method_key → fnptr;                (* the code of each native method *)
  hk_registers : list bool;
  hk_commits : list (bool * list (hookfn * Z));
  hk_regnat : list (option nat);
  hk_log : list hevent
}.

Definition set_hk_z v s := mkHooks v (self_handle s) (plt_hook_list s) (jni_hook_list s)
  (old_fn s) (can_hook_jni s) (MODIFIER_NATIVE s) (member_getModifiers s) (hk_tables s)
  (hk_orig s) (natives s) (hk_registers s) (hk_commits s) (hk_regnat s) (hk_log s).
Definition set_self_handle v s := mkHooks (hk_z s) v (plt_hook_list s) (jni_hook_list s)
  (old_fn s) (can_hook_jni s) (MODIFIER_NATIVE s) (member_getModifiers s) (hk_tables s)
  (hk_orig s) (natives s) (hk_registers s) (hk_commits s) (hk_regnat s) (hk_log s).
Definition set_plt_hook_list v s := mkHooks (hk_z s) (self_handle s) v (jni_hook_list s)
  (old_fn s) (can_hook_jni s) (MODIFIER_NATIVE s) (member_getModifiers s) (hk_tables s)
  (hk_orig s) (natives s) (hk_registers s) (hk_commits s) (hk_regnat s) (hk_log s).
Definition set_jni_hook_list v s := mkHooks (hk_z s) (self_handle s) (plt_hook_list s) v
  (old_fn s) (can_hook_jni s) (MODIFIER_NATIVE s) (member_getModifiers s) (hk_tables s)
  (hk_orig s) (natives s) (hk_registers s) (hk_commits s) (hk_regnat s) (hk_log s).
Definition set_old_fn v s := mkHooks (hk_z s) (self_handle s) (plt_hook_list s) (jni_hook_list s)
  v (can_hook_jni s) (MODIFIER_NATIVE s) (member_getModifiers s) (hk_tables s) (hk_orig s)
  (natives s) (hk_registers s) (hk_commits s) (hk_regnat s) (hk_log s).
Definition set_can_hook_jni v s := mkHooks (hk_z s) (self_handle s) (plt_hook_list s)
  (jni_hook_list s) (old_fn s) v (MODIFIER_NATIVE s) (member_getModifiers s) (hk_tables s)
  (hk_orig s) (natives s) (hk_registers s) (hk_commits s) (hk_regnat s) (hk_log s).
Definition set_MODIFIER_NATIVE v s := mkHooks (hk_z s) (self_handle s) (plt_hook_list s)
  (jni_hook_list s) (old_fn s) (can_hook_jni s) v (member_getModifiers s) (hk_tables s)
  (hk_orig s) (natives s) (hk_registers s) (hk_commits s) (hk_regnat s) (hk_log s).
Definition set_member_getModifiers v s := mkHooks (hk_z s) (self_handle s) (plt_hook_list s)
  (jni_hook_list s) (old_fn s) (can_hook_jni s) (MODIFIER_NATIVE s) v (hk_tables s) (hk_orig s)
  (natives s) (hk_registers s) (hk_commits s) (hk_regnat s) (hk_log s).
Definition set_hk_tables v s := mkHooks (hk_z s) (self_handle s) (plt_hook_list s)
  (jni_hook_list s) (old_fn s) (can_hook_jni s) (MODIFIER_NATIVE s) (member_getModifiers s) v
  (hk_orig s) (natives s) (hk_registers s) (hk_commits s) (hk_regnat s) (hk_log s).
Definition set_hk_orig v s := mkHooks (hk_z s) (self_handle s) (plt_hook_list s) (jni_hook_list s)
  (old_fn s) (can_hook_jni s) (MODIFIER_NATIVE s) (member_getModifiers s) (hk_tables s) v
  (natives s) (hk_registers s) (hk_commits s) (hk_regnat s) (hk_log s).
Definition set_natives v s := mkHooks (hk_z s) (self_handle s) (plt_hook_list s) (jni_hook_list s)
  (old_fn s) (can_hook_jni s) (MODIFIER_NATIVE s) (member_getModifiers s) (hk_tables s)
  (hk_orig s) v (hk_registers s) (hk_commits s) (hk_regnat s) (hk_log s).
Definition set_hk_registers v s := mkHooks (hk_z s) (self_handle s) (plt_hook_list s)
  (jni_hook_list s) (old_fn s) (can_hook_jni s) (MODIFIER_NATIVE s) (member_getModifiers s)
  (hk_tables s) (hk_orig s) (natives s) v (hk_commits s) (hk_regnat s) (hk_log s).
Definition set_hk_commits v s := mkHooks (hk_z s) (self_handle s) (plt_hook_list s)
  (jni_hook_list s) (old_fn s) (can_hook_jni s) (MODIFIER_NATIVE s) (member_getModifiers s)
  (hk_tables s) (hk_orig s) (natives s) (hk_registers s) v (hk_regnat s) (hk_log s).
Definition set_hk_regnat v s := mkHooks (hk_z s) (self_handle s) (plt_hook_list s)
  (jni_hook_list s) (old_fn s) (can_hook_jni s) (MODIFIER_NATIVE s) (member_getModifiers s)
  (hk_tables s) (hk_orig s) (natives s) (hk_registers s) (hk_commits s) v (hk_log s).
Definition set_hk_log v s := mkHooks (hk_z s) (self_handle s) (plt_hook_list s) (jni_hook_list s)
  (old_fn s) (can_hook_jni s) (MODIFIER_NATIVE s) (member_getModifiers s) (hk_tables s)
  (hk_orig s) (natives s) (hk_registers s) (hk_commits s) (hk_regnat s) v.

Definition h_emit (e : hevent) : prog hooks unit := modify (λ s, set_hk_log (hk_log s ++ [e]) s).

(** Running a function of [Context]. *)
Definition on_z {A} (m : prog zygote A) : prog hooks A := λ s,
  let '(r, z) := m (hk_z s) in (r, set_hk_z z s).

Definition use_ptr {A} (p : ptr A) : prog hooks A :=
  match p with PTo a => mret a | PNull => crash NullDeref | PDangling => crash UseAfterFree end.

(** ** Hooks in the procedure linkage tables *)

Definition sys_register (e : hevent) : prog hooks bool :=
  s ← get;
  put (set_hk_log (hk_log s ++ [e]) (set_hk_registers (tail (hk_registers s)) s));;
  mret (default true (head (hk_registers s))).

Definition fill_old (sets : list (hookfn * Z)) (old : hookfn → option Z) : hookfn → option Z :=
  foldl (λ old hv, <[hv.1 := Some hv.2]> old) old sets.

Definition hook_commit : prog hooks bool :=
  s ← get;
  let '(ok, sets) := default (true, []) (head (hk_commits s)) in
  put (set_hk_log (hk_log s ++ [HvCommit ok])
         (set_old_fn (fill_old sets (old_fn s)) (set_hk_commits (tail (hk_commits s)) s)));;
  mret ok.

Definition hook_register (dev inode : Z) (h : hookfn) : prog hooks unit :=
  ok ← sys_register (HvRegisterHook dev inode (hook_symbol h) h);
  if negb ok then mret tt
  else
    s ← get;
    l ← use_ptr (plt_hook_list s);
    modify (set_plt_hook_list (PTo (l ++ [mkPlt dev inode (hook_symbol h) h]))).

(** The first mapping whose path ends so; both numbers are 0 without one. *)
Definition find_map (suffix : bytes) : prog hooks (Z * Z) :=
  maps ← on_z Scan_maps;
  mret (match List.find (λ m, ends_with suffix (map_path m)) maps with
        | Some m => (map_dev m, map_inode m)
        | None => (0, 0)
        end).

Definition hook_functions : prog hooks unit :=
  modify (set_plt_hook_list (PTo []));;
  modify (set_jni_hook_list (Some []));;
  '(dev, inode) ← find_map (txt "libandroid_runtime.so");
  hook_register dev inode HFork;;
  hook_register dev inode HUnshare;;
  hook_register dev inode HStrdup;;
  hook_register dev inode HAndroidLogClose;;
  hook_commit;;
  s ← get;
  l ← use_ptr (plt_hook_list s);
  modify (set_plt_hook_list (PTo (List.filter (λ e, bool_decide (is_Some (old_fn s (pe_old e)))) l))).

Definition hook_unloader : prog hooks unit :=
  '(dev, inode) ← find_map (txt "/libart.so");
  hook_register dev inode HPthreadAttrDestroy;;
  hook_commit;;
  mret tt.

Definition unhook_functions : prog hooks unit :=
  s ← get;
  l ← use_ptr (plt_hook_list s);
  for_each l (λ e,
    s ← get;
    sys_register (HvRestoreHook (pe_dev e) (pe_inode e) (pe_sym e) (old_fn s (pe_old e)));;
    mret tt);;
  modify (set_plt_hook_list PDangling);;
  ok ← hook_commit;
  when (negb ok) (on_z (modify (set_should_unmap false))).

(** A call of the original function of a hook, which answers [res]. *)
Definition call_old (h : hookfn) (res : Z) : prog hooks Z :=
  s ← get;
  match old_fn s h with
  | None => crash NullDeref
  | Some addr => h_emit (HvCallOld h addr);; mret res
  end.

(** [main_thread]: [gettid() == getpid()]; [old_res] and [dlclose_res] are what the original and
    [dlclose] answer. *)
Definition new_pthread_attr_destroy (main_thread : bool) (old_res dlclose_res : Z) : prog hooks Z :=
  res ← call_old HPthreadAttrDestroy old_res;
  if negb main_thread then mret res
  else
    s ← get;
    if should_unmap (hk_z s) then
      unhook_functions;;
      s ← get;
      if should_unmap (hk_z s) then h_emit (HvDlclose (self_handle s));; mret dlclose_res
      else mret res
    else mret res.

(** [entry], once the daemon has answered or not: [alive] is the result of [PingHeartbeat]. *)
Definition entry (handle : Z) (alive : bool) : prog hooks unit :=
  modify (set_self_handle handle);;
  if negb alive then mret tt else hook_functions.

(** ** Hooks of native methods *)

Section jni.
(** The virtual machine: its classes, its instance and static methods, their modifiers. *)
Context (FindClass : bytes → bool) (GetMethodID GetStaticMethodID : method_key → bool).
Context (getModifiers : method_key → Z).

Definition register_all (clz : bytes) (ms : list JNINativeMethod) (n : method_key → fnptr)
  : method_key → fnptr :=
  foldl (λ n m, <[(clz, nm_name m, nm_sig m) := nm_fn m]> n) n ms.

Definition RegisterNatives (clz : bytes) (ms : list JNINativeMethod) : prog hooks bool :=
  s ← get;
  let r := default None (head (hk_regnat s)) in
  let done := match r with None => ms | Some k => take k ms end in
  let ok := bool_decide (r = None) in
  put (set_hk_log (hk_log s ++ [HvRegisterNatives clz ms ok])
         (set_natives (register_all clz done (natives s)) (set_hk_regnat (tail (hk_regnat s)) s)));;
  mret ok.

(** Whether the loop of [hookJniNativeMethods] finds the method and it is native. *)
Definition is_native (mask : Z) (clz : bytes) (m : JNINativeMethod) : bool :=
  let key := (clz, nm_name m, nm_sig m) in
  (GetMethodID key || GetStaticMethodID key) && negb (getModifiers key &&& mask =? 0).

(** The methods are updated in place; [ArtMethod::GetData] is the code the method has. *)
Definition hookJniNativeMethods (clz : bytes) (methods : list JNINativeMethod)
  : prog hooks (list JNINativeMethod) :=
  s ← get;
  if negb (can_hook_jni s) then mret methods
  else if negb (FindClass clz) then mret (nm_set_fn FNull <$> methods)
  else
    let native m := is_native (MODIFIER_NATIVE s) clz m in
    let hooks := List.filter native methods in
    let methods :=
      (λ m, nm_set_fn (if native m then natives s (clz, nm_name m, nm_sig m) else FNull) m) <$> methods in
    match hooks with
    | [] => mret methods
    | _ => RegisterNatives clz hooks;; mret methods
    end.

Definition Zygote_class : bytes := txt "com/android/internal/os/Zygote".

Definition non_null (f : fnptr) : bool := match f with FNull => false | _ => true end.

(** One of the three parts of [do_hook_zygote]: the method whose original was found, if any. *)
Definition hook_kind (k : kind) : prog hooks (list JNINativeMethod) :=
  s ← get;
  ms ← hookJniNativeMethods Zygote_class (hk_tables s k);
  modify (λ s, set_hk_tables (<[k := ms]> (hk_tables s)) s);;
  match List.find (λ m, non_null (nm_fn m)) ms with
  | Some m => modify (λ s, set_hk_orig (<[k := nm_fn m]> (hk_orig s)) s);; mret [m]
  | None => mret []
  end.

(** [jni_hook_list->emplace]: a class that is there already keeps its methods. *)
Definition emplace (clz : bytes) (ms : list JNINativeMethod) (l : list (bytes * list JNINativeMethod)) :=
  if existsb (λ p, bool_decide (p.1 = clz)) l then l else l ++ [(clz, ms)].

Definition do_hook_zygote : prog hooks unit :=
  h1 ← hook_kind KFork;
  h2 ← hook_kind KSpecialize;
  h3 ← hook_kind KServer;
  s ← get;
  match jni_hook_list s with
  | None => crash NullDeref
  | Some l => modify (set_jni_hook_list (Some (emplace Zygote_class (h1 ++ h2 ++ h3) l)))
  end.

(** What [initialize_jni_hook] finds on its way: [JNI_GetCreatedJavaVMs] among the loaded
    libraries, or in libnativehelper.so if that can be opened; a virtual machine and its
    environment; the reflection classes; [ArtMethod::Init]. *)
Record jni_start : Type := mkStart {
  js_global : bool;
  js_helper : bool;
  js_vm : bool;
  js_env : bool;
  js_getModifiers : option bool;    (* the class Member was found; whether it has the method *)
  js_native : option Z;             (* the value of Modifier.NATIVE, if it was found *)
  js_art : bool
}.

Definition initialize_jni_hook (js : jni_start) : prog hooks unit :=
  found ← (if js_global js then mret true
           else
             maps ← on_z Scan_maps;
             mret (existsb (λ m, ends_with (txt "/libnativehelper.so") (map_path m)) maps && js_helper js));
  if negb found then mret tt
  else if negb (js_vm js) then mret tt
  else if negb (js_env js) then mret tt
  else
    s ← get;
    put (set_MODIFIER_NATIVE (default (MODIFIER_NATIVE s) (js_native js))
           (set_member_getModifiers (default (member_getModifiers s) (js_getModifiers js)) s));;
    s ← get;
    if negb (member_getModifiers s) || (MODIFIER_NATIVE s =? 0) then mret tt
    else if negb (js_art js) then mret tt
    else modify (set_can_hook_jni true);; do_hook_zygote.

(** [copy]: the string the original [strdup] gives. *)
Definition new_strdup (js : jni_start) (str : bytes) (copy : Z) : prog hooks Z :=
  when (bool_decide (str = txt "com.android.internal.os.ZygoteInit")) (initialize_jni_hook js);;
  call_old HStrdup copy.

(** ** The context's beginning and end *)

(** [ZygiskContext ctx(env, &args)]; [ign] is the array [*args.app->fds_to_ignore]. *)
Definition new_context (ign : option (list Z)) : prog hooks unit := on_z (modify (λ s,
  mkZygote true (-1) ∅ 0 ∅ [] ign [] [] [] (should_unmap s) (open_fds s) (log_fd s) (z_env s) (z_log s))).

Fixpoint restore_natives (l : list (bytes * list JNINativeMethod)) : prog hooks unit :=
  match l with
  | [] => mret tt
  | (clz, methods) :: l =>
      (if bool_decide (methods = [])
       then mret tt
       else ok ← RegisterNatives clz methods;
            when (negb ok) (on_z (modify (set_should_unmap false))));;
      restore_natives l
  end.

(** [is_child]: [pid <= 0]. *)
Definition destructor : prog hooks unit :=
  on_z (modify (set_has_ctx false));;
  s ← get;
  if 0 <? z_pid (hk_z s) then mret tt
  else
    on_z (modify (set_should_unmap true));;
    s ← get;
    match jni_hook_list s with
    | None => crash NullDeref
    | Some l =>
        restore_natives l;;
        modify (set_jni_hook_list None);;
        s ← get;
        for_each (z_modules (hk_z s)) (λ m, h_emit (HvClearApi (zm_id m)));;
        hook_unloader
    end.

(** ** The replacement methods *)

Context (regcomp : bytes → bool) (regexec : bytes → bytes → bool) (rand : Z → nat → Z).

(** [sanitize_fds] with a null [args.app->fds_to_ignore]. *)
Definition sanitize_null : prog zygote unit :=
  s ← get; if flag SKIP_FD_SANITIZATION s then mret tt else crash NullDeref.

Definition pre (v : variant) (uid : Z) : prog zygote unit :=
  match v_kind v with
  | KFork =>
      match args_of v P.fds_to_ignore with
      | Some _ => nativeForkAndSpecialize_pre regcomp regexec uid
      | None => fork_and_specialize regcomp regexec sanitize_null uid
      end
  | KSpecialize => nativeSpecializeAppProcess_pre regcomp regexec uid
  | KServer => nativeForkSystemServer_pre regcomp regexec
  end.

Definition post (v : variant) : prog zygote unit :=
  match v_kind v with
  | KFork => nativeForkAndSpecialize_post regcomp regexec rand
  | KSpecialize => nativeSpecializeAppProcess_post regcomp regexec rand
  | KServer => nativeForkSystemServer_post regcomp regexec rand
  end.

(** Around a fork only [sanitize_fds] sets the flag, when it stores its new array [jarray]. *)
Definition made_array (v : variant) (jarray : Z) (z : zygote) : option Z :=
  match v_kind v with
  | KFork => if flag SKIP_FD_SANITIZATION z then Some jarray else None
  | _ => None
  end.

(** A call of the replacement [v] with the parameters [fr]; [es] is what the modules store through
    their arguments, [jarray] what [NewIntArray] gives, [orig] what the original method does in
    this process.  The result is [ctx.pid]. *)
Definition run_variant (v : variant) (fr : frame) (ign : option (list Z)) (es : list edit) (jarray : Z)
    (orig : prog zygote unit) : prog hooks Z :=
  new_context ign;;
  on_z (pre v (fr P.uid));;
  s ← get;
  h_emit (HvCallOrig (hk_orig s (v_kind v)) (forwarded v fr es (made_array v jarray (hk_z s))));;
  on_z orig;;
  on_z (post v);;
  s ← get;
  let pid := z_pid (hk_z s) in
  destructor;;
  mret pid.
End jni.

(** ** Leaving *)

(** What re-registers the original of an installed hook. *)
Definition restore_event (old : hookfn → option Z) (e : plt_entry) : hevent :=
  HvRestoreHook (pe_dev e) (pe_inode e) (pe_sym e) (old (pe_old e)).

Lemma set_hk_log_log l s : hk_log (set_hk_log l s) = l.
Proof. done. Qed.

Lemma restore_loop_run l s :
  ∃ s', for_each l (λ e, s ← get;
          sys_register (HvRestoreHook (pe_dev e) (pe_inode e) (pe_sym e) (old_fn s (pe_old e)));; mret tt) s
        = (Ret tt, s') ∧
    hk_log s' = hk_log s ++ (restore_event (old_fn s) <$> l) ∧ hk_z s' = hk_z s ∧
    hk_commits s' = hk_commits s ∧ self_handle s' = self_handle s ∧ natives s' = natives s.
Proof.
  revert s. induction l as [|e l IH]; intros s; cbn [for_each].
  - exists s. cbn. by rewrite app_nil_r.
  - rewrite prog_bind_assoc. step. rewrite prog_bind_assoc. unfold sys_register.
    rewrite prog_bind_assoc. step. rewrite prog_bind_assoc. step. step. step.
    set (s1 := set_hk_log _ _).
    destruct (IH s1) as (s' & E & L & Z' & C & H & N). exists s'. split; [done|].
    split_and!; try done. rewrite L. cbn. by rewrite <- app_assoc.
Qed.

(** The hook of [pthread_attr_destroy] calls the original first.  When the library may leave, on the
    main thread, it then puts back the original of every hook of the list, in order, commits, and
    closes its own library exactly when the commit succeeded; when it did not, the library stays for
    good.  On other threads, and when the library may not leave, it does nothing more. *)
Lemma unload_run (main_thread : bool) (res dl addr : Z) (l : list plt_entry) (s : hooks) :
  plt_hook_list s = PTo l → old_fn s HPthreadAttrDestroy = Some addr →
  ∃ r s', new_pthread_attr_destroy main_thread res dl s = (Ret r, s') ∧
    if main_thread && should_unmap (hk_z s) then
      let ok := from_option fst true (head (hk_commits s)) in
      hk_log s' = hk_log s ++ [HvCallOld HPthreadAttrDestroy addr] ++ (restore_event (old_fn s) <$> l) ++
                    [HvCommit ok] ++ (if ok then [HvDlclose (self_handle s)] else []) ∧
      r = (if ok then dl else res)
    else s' = set_hk_log (hk_log s ++ [HvCallOld HPthreadAttrDestroy addr]) s ∧ r = res.
Proof.
  intros Hl Ho. unfold new_pthread_attr_destroy, call_old. rewrite prog_bind_assoc. step. rewrite Ho.
  rewrite prog_bind_assoc. step. rewrite prog_bind_ret. set (s0 := set_hk_log _ s).
  destruct main_thread; cbn [negb andb]; [|by exists res, s0].
  step. change (should_unmap (hk_z s0)) with (should_unmap (hk_z s)).
  destruct (should_unmap (hk_z s)) eqn:Eu; [|by exists res, s0].
  destruct (restore_loop_run l s0) as (s1 & E1 & L1 & Z1 & C1 & H1 & _).
  unfold unhook_functions. rewrite prog_bind_assoc. step. change (plt_hook_list s0) with (plt_hook_list s).
  rewrite Hl. cbn [use_ptr].
  rewrite prog_bind_assoc, prog_bind_ret, prog_bind_assoc. step_with E1. rewrite prog_bind_assoc. step.
  set (s2 := set_plt_hook_list PDangling s1). rewrite prog_bind_assoc.
  unfold hook_commit. rewrite prog_bind_assoc. step. change (hk_commits s2) with (hk_commits s1). rewrite C1.
  change (hk_commits s0) with (hk_commits s).
  destruct (default (true, []) (head (hk_commits s))) as [ok sets] eqn:Ec.
  assert (from_option fst true (head (hk_commits s)) = ok) as ->
    by (destruct (head (hk_commits s)) as [[? ?]|]; cbn in *; congruence).
  rewrite prog_bind_assoc. step. rewrite prog_bind_ret.
  destruct ok; cbn [negb when]; step; step; cbn [hk_z set_hk_log set_old_fn set_hk_commits s2 set_plt_hook_list].
  - rewrite Z1. change (hk_z s0) with (hk_z s). rewrite Eu. step. eexists _, _. split; [reflexivity|].
    cbn. rewrite L1, H1. cbn. by rewrite <- !app_assoc.
  - cbn. eexists _, _. split; [reflexivity|]. cbn. rewrite L1. cbn. by rewrite <- !app_assoc.
Qed.

(** ** The life cycle *)

(** The hooks of [es] that lsplt has accepted, one after the other, under the script [rs]. *)
Definition accepted (rs : list bool) (es : list plt_entry) : list plt_entry :=
  mjoin (imap (λ k e, if default true (rs !! k) then [e] else []) es).

Lemma hook_register_run dev inode h l s :
  plt_hook_list s = PTo l →
  hook_register dev inode h s =
    (Ret tt, set_plt_hook_list (PTo (l ++ accepted (hk_registers s) [mkPlt dev inode (hook_symbol h) h]))
       (set_hk_log (hk_log s ++ [HvRegisterHook dev inode (hook_symbol h) h])
          (set_hk_registers (tail (hk_registers s)) s))).
Proof.
  intros Hl. unfold hook_register, sys_register. rewrite prog_bind_assoc. step. rewrite prog_bind_assoc. step.
  rewrite prog_bind_ret. unfold accepted. cbn [imap mjoin list_join app].
  replace (default true (hk_registers s !! 0%nat)) with (default true (head (hk_registers s))) by by destruct (hk_registers s).
  destruct (default true (head (hk_registers s))); cbn [negb].
  - step. cbn [plt_hook_list set_hk_log set_hk_registers]. rewrite Hl. cbn [use_ptr]. by rewrite prog_bind_ret.
  - rewrite app_nil_r, <- Hl. by destruct s.
Qed.

(** The numbers of the mapping the hooks go to. *)
Definition target (suffix : bytes) (s : hooks) : Z * Z :=
  match List.find (λ m, ends_with suffix (map_path m)) (default [] (head (e_maps (z_env (hk_z s))))) with
  | Some m => (map_dev m, map_inode m)
  | None => (0, 0)
  end.

Definition scanned (s : hooks) : hooks :=
  set_hk_z (set_z_env (env_maps (tail (e_maps (z_env (hk_z s)))) (z_env (hk_z s))) (hk_z s)) s.

Lemma find_map_run suffix s : find_map suffix s = (Ret (target suffix s), scanned s).
Proof. reflexivity. Qed.

Lemma hook_commit_run ok sets cs s :
  hk_commits s = (ok, sets) :: cs →
  hook_commit s = (Ret ok, set_hk_log (hk_log s ++ [HvCommit ok])
                             (set_old_fn (fill_old sets (old_fn s)) (set_hk_commits cs s))).
Proof. intros E. unfold hook_commit. step. by rewrite E. Qed.

(** The hooks [hook_functions] asks for, at the runtime library. *)
Definition runtime_hooks (t : Z * Z) : list plt_entry :=
  (λ h, mkPlt t.1 t.2 (hook_symbol h) h) <$> [HFork; HUnshare; HStrdup; HAndroidLogClose].

(** The hooks of [l] whose original is known, that is, which lsplt has installed. *)
Definition installed (old : hookfn → option Z) (l : list plt_entry) : list plt_entry :=
  List.filter (λ e, bool_decide (is_Some (old (pe_old e)))) l.

Lemma hook_functions_run ok sets cs s :
  hk_commits s = (ok, sets) :: cs →
  ∃ s', hook_functions s = (Ret tt, s') ∧
    plt_hook_list s' = PTo (installed (fill_old sets (old_fn s))
                              (accepted (hk_registers s) (runtime_hooks (target (txt "libandroid_runtime.so") s)))) ∧
    jni_hook_list s' = Some [] ∧ old_fn s' = fill_old sets (old_fn s) ∧ self_handle s' = self_handle s.
Proof.
  intros Hc. unfold hook_functions. step. step.
  set (s1 := set_jni_hook_list _ _). step_with (find_map_run (txt "libandroid_runtime.so") s1).
  change (target _ s1) with (target (txt "libandroid_runtime.so") s).
  destruct (target _ s) as [dev inode].
  do 4 (erewrite bind_run by (apply hook_register_run; reflexivity); cbv beta).
  erewrite bind_run by (eapply hook_commit_run; exact Hc). cbv beta. step.
  cbn [plt_hook_list set_hk_log set_old_fn set_hk_commits set_plt_hook_list use_ptr].
  rewrite prog_bind_ret. eexists. split; [reflexivity|]. split_and!; try done.
  cbn. do 2 f_equal. by destruct (hk_registers s) as [|[] [|[] [|[] [|[] ?]]]].
Qed.

(** What the restoring of JNI methods leaves alone: it only decides on [should_unmap_zygisk]. *)
Record same_plt (s s' : hooks) : Prop := {
  sp_z : hk_z s' = set_should_unmap (should_unmap (hk_z s')) (hk_z s);
  sp_list : plt_hook_list s' = plt_hook_list s;
  sp_old : old_fn s' = old_fn s;
  sp_registers : hk_registers s' = hk_registers s;
  sp_commits : hk_commits s' = hk_commits s;
  sp_self : self_handle s' = self_handle s
}.

#[export] Instance same_plt_preorder : PreOrder same_plt.
Proof.
  split; [intros s; constructor; [by destruct (hk_z s) | done..]|].
  intros s1 s2 s3 [H1] [H2]. constructor; [rewrite H2, H1; reflexivity | by etransitivity..].
Qed.

Lemma same_plt_z s s' z :
  hk_z s' = set_should_unmap z (hk_z s) → plt_hook_list s' = plt_hook_list s → old_fn s' = old_fn s →
  hk_registers s' = hk_registers s → hk_commits s' = hk_commits s → self_handle s' = self_handle s → same_plt s s'.
Proof. intros H ? ? ? ? ?. constructor; [by rewrite H | done..]. Qed.

Definition restored (js : list (bytes * list JNINativeMethod)) (n : method_key → fnptr) : method_key → fnptr :=
  foldl (λ n p, register_all p.1 p.2 n) n js.

(** Every [RegisterNatives] that restores the methods of a class succeeds under the script [rn]. *)
Definition all_restored (rn : list (option nat)) (js : list (bytes * list JNINativeMethod)) : bool :=
  forallb (λ r, bool_decide (r = None)) (take (length (filter (λ p, p.2 ≠ []) js)) rn).

Lemma all_restored_cons rn p js :
  all_restored rn (p :: js) =
  if bool_decide (p.2 = []) then all_restored rn js
  else bool_decide (default None (head rn) = None) && all_restored (tail rn) js.
Proof.
  unfold all_restored. case_bool_decide as E.
  - by rewrite filter_cons_False by tauto.
  - rewrite filter_cons_True by done. cbn [length]. destruct rn as [|r rn]; [|done]. cbn. by rewrite take_nil.
Qed.

Lemma restore_natives_run js s :
  ∃ s', restore_natives js s = (Ret tt, s') ∧ jni_hook_list s' = jni_hook_list s ∧ same_plt s s' ∧
        should_unmap (hk_z s') = should_unmap (hk_z s) && all_restored (hk_regnat s) js ∧
        (all_restored (hk_regnat s) js = true → natives s' = restored js (natives s)).
Proof.
  revert s. induction js as [|[clz ms] js IH]; intros s; cbn [restore_natives].
  { exists s. unfold all_restored. cbn. rewrite andb_true_r. by split_and!. }
  rewrite all_restored_cons. cbn [snd]. case_bool_decide as E.
  { subst ms. step. destruct (IH s) as (s' & E' & N). by exists s'. }
  unfold RegisterNatives. rewrite prog_bind_assoc. rewrite prog_bind_assoc. step. rewrite prog_bind_assoc. step.
  rewrite prog_bind_ret. set (s1 := set_hk_log _ _).
  destruct (bool_decide (default None (head (hk_regnat s)) = None)) eqn:Er; cbn [negb when andb].
  - step. destruct (IH s1) as (s' & E' & J & F & U & N). exists s'. split_and!; try done.
    + transitivity s1; [|done]. apply (same_plt_z _ _ (should_unmap (hk_z s))); try done. cbn. by destruct (hk_z s).
    + intros H. rewrite (N H). cbn. apply bool_decide_eq_true in Er. by rewrite Er.
  - step. set (s2 := set_hk_z _ s1). destruct (IH s2) as (s' & E' & J & F & U & N). exists s'. split_and!; try done.
    + transitivity s2; [|done]. by apply (same_plt_z _ _ false).
    + rewrite U, andb_false_r. done.
Qed.

Lemma restore_natives_ok js s :
  hk_regnat s = [] →
  ∃ s', restore_natives js s = (Ret tt, s') ∧ natives s' = restored js (natives s).
Proof.
  intros Hr. destruct (restore_natives_run js s) as (s' & E & _ & _ & _ & N). exists s'. split; [done|].
  apply N. unfold all_restored. by rewrite Hr, take_nil.
Qed.

Lemma clear_loop_run ms s :
  ∃ s', for_each ms (λ m, h_emit (HvClearApi (zm_id m))) s = (Ret tt, s') ∧ hk_z s' = hk_z s ∧
        natives s' = natives s ∧ jni_hook_list s' = jni_hook_list s ∧ same_plt s s'.
Proof.
  revert s. induction ms as [|m ms IH]; intros s; cbn [for_each]; [exists s; by split_and!|].
  step. set (s1 := set_hk_log _ s). destruct (IH s1) as (s' & E & Z' & N & J & F).
  exists s'. split_and!; try done. transitivity s1; [|done].
  apply (same_plt_z _ _ (should_unmap (hk_z s))); try done. cbn. by destruct (hk_z s).
Qed.

(** The destructor in a process that counts as a child. *)
Lemma destructor_run js l ok sets cs s :
  z_pid (hk_z s) <= 0 → jni_hook_list s = Some js → plt_hook_list s = PTo l → hk_commits s = (ok, sets) :: cs →
  ∃ s', destructor s = (Ret tt, s') ∧ has_ctx (hk_z s') = false ∧
    should_unmap (hk_z s') = all_restored (hk_regnat s) js ∧
    (all_restored (hk_regnat s) js = true → natives s' = restored js (natives s)) ∧ jni_hook_list s' = None ∧
    plt_hook_list s' = PTo (l ++ accepted (hk_registers s)
      [mkPlt (target (txt "/libart.so") s).1 (target (txt "/libart.so") s).2
         (hook_symbol HPthreadAttrDestroy) HPthreadAttrDestroy]) ∧
    old_fn s' = fill_old sets (old_fn s) ∧ hk_commits s' = cs ∧ self_handle s' = self_handle s.
Proof.
  intros Hp Hj Hl Hc. unfold destructor. step. step.
  rewrite (proj2 (Z.ltb_ge 0 (z_pid _))) by exact Hp. step. step.
  set (s1 := set_hk_z _ _). change (jni_hook_list s1) with (jni_hook_list s). rewrite Hj.
  destruct (restore_natives_run js s1) as (s2 & E2 & _ & F2 & U2 & N2). step_with E2. step.
  set (s3 := set_jni_hook_list None s2). step.
  destruct (clear_loop_run (z_modules (hk_z s3)) s3) as (s4 & E4 & Z4 & N4 & J4 & F4). step_with E4.
  assert (same_plt s1 s4) as F.
  { transitivity s2; [done|]. transitivity s3; [|done].
    apply (same_plt_z _ _ (should_unmap (hk_z s2))); try done. cbn. by destruct (hk_z s2). }
  unfold hook_unloader. step_with (find_map_run (txt "/libart.so") s4).
  assert (target (txt "/libart.so") s4 = target (txt "/libart.so") s) as Et
    by (unfold target; by rewrite (sp_z _ _ F)).
  rewrite Et. destruct (target _ s) as [dev inode]. cbn [fst snd].
  erewrite bind_run by (apply hook_register_run; exact (eq_trans (sp_list _ _ F) Hl)). cbv beta.
  erewrite bind_run by (eapply hook_commit_run; exact (eq_trans (sp_commits _ _ F) Hc)). cbv beta.
  eexists. split; [reflexivity|]. cbn. rewrite (sp_old _ _ F), (sp_self _ _ F), (sp_registers _ _ F), N4, J4.
  split_and!; try done.
  - rewrite (sp_z _ _ F). done.
  - rewrite Z4. exact U2.
Qed.

(** The hooks are as [hook_functions] left them. *)
Record hooks_kept (s s' : hooks) : Prop := {
  hkp_list : plt_hook_list s' = plt_hook_list s;
  hkp_old : old_fn s' = old_fn s;
  hkp_self : self_handle s' = self_handle s
}.

(** C22 The life of the library in a process, whatever lsplt and [RegisterNatives] answer.
    [hook_functions] keeps in its list exactly the hooks that lsplt accepted and installed.  When
    the destructor of the context runs in a process that counts as a child, with these hooks as they
    were, it re-registers the JNI methods and hooks [pthread_attr_destroy]; the library may leave if
    and only if every one of these [RegisterNatives] succeeded, and then every method has its
    original back.  The next call of [pthread_attr_destroy] on the main thread, if that hook was
    installed, calls the original.  If the library may not leave, that is all, and the caller gets
    the original's answer.  If it may, the call then re-registers, for every hook of the list and
    for itself, the original under the very device, inode and symbol it was hooked at, commits, and
    closes the library if and only if that commit succeeded: the caller gets the answer of
    [dlclose], else that of the original. *)
Theorem hooks_life_cycle (s s2 : hooks) (js : list (bytes * list JNINativeMethod)) (res dl addr : Z)
    (ok1 ok2 ok3 : bool) (sets1 sets2 sets3 : list (hookfn * Z)) (cs1 cs : list (bool * list (hookfn * Z))) :
  hk_commits s = (ok1, sets1) :: cs1 →
  ∃ s1, hook_functions s = (Ret tt, s1) ∧
    (hooks_kept s1 s2 → z_pid (hk_z s2) <= 0 → jni_hook_list s2 = Some js →
     hk_commits s2 = (ok2, sets2) :: (ok3, sets3) :: cs →
     let old1 := fill_old sets1 (old_fn s) in
     let old2 := fill_old sets2 old1 in
     old2 HPthreadAttrDestroy = Some addr →
     let art := target (txt "/libart.so") s2 in
     let hooked := installed old1 (accepted (hk_registers s) (runtime_hooks (target (txt "libandroid_runtime.so") s))) ++
                   accepted (hk_registers s2) [mkPlt art.1 art.2 (hook_symbol HPthreadAttrDestroy) HPthreadAttrDestroy] in
     let leaves := all_restored (hk_regnat s2) js in
     ∃ s3 s4, destructor s2 = (Ret tt, s3) ∧ (leaves = true → natives s3 = restored js (natives s2)) ∧
       new_pthread_attr_destroy true res dl s3 = (Ret (if leaves && ok3 then dl else res), s4) ∧
       hk_log s4 = hk_log s3 ++ [HvCallOld HPthreadAttrDestroy addr] ++
         (if leaves then
            (restore_event old2 <$> hooked) ++ [HvCommit ok3] ++ (if ok3 then [HvDlclose (self_handle s)] else [])
          else [])).
Proof.
  intros Hc. destruct (hook_functions_run ok1 sets1 _ s Hc) as (s1 & E1 & L1 & J1 & O1 & S1).
  exists s1. split; [exact E1|]. intros K Hp Hj Hc2. cbv zeta. intros Ha. set (art := target (txt "/libart.so") s2).
  set (hooked := installed _ _ ++ _).
  destruct (destructor_run js _ ok2 sets2 ((ok3, sets3) :: cs) s2 Hp Hj (eq_trans (hkp_list _ _ K) L1) Hc2)
    as (s3 & E3 & _ & U3 & N3 & _ & L3 & O3 & C3 & S3).
  rewrite (hkp_old _ _ K), O1 in O3. rewrite (hkp_self _ _ K), S1 in S3.
  destruct (unload_run true res dl addr hooked s3 L3) as (r & s4 & E4 & H4); [by rewrite O3|].
  rewrite U3, C3, O3, S3 in H4. cbn [from_option head fst] in H4.
  exists s3, s4. split; [done|]. split; [done|].
  destruct (all_restored (hk_regnat s2) js); cbn [andb] in H4 |- *; destruct H4 as [Hs Hr]; subst r.
  - split; [by destruct ok3 | exact Hs].
  - split; [done|]. by subst s4.
Qed.

(** A process with two libraries mapped, before the library enters. *)
Definition demo_map (dev inode : Z) (path : bytes) : MapInfo :=
  mkMap 4096 8192 PROT_READ true 0 dev inode path.
Definition demo_zenv : zenv :=
  mkZenv [] [] [] [] (λ _, 0) [[demo_map 1 10 (txt "/system/lib64/libandroid_runtime.so")];
                                [demo_map 1 20 (txt "/apex/lib64/libart.so")]] [] [] [] [] [].
Definition demo_process (z_pid : Z) : zygote :=
  mkZygote false z_pid ∅ 0 ∅ [] None [] [] [] false ∅ (-1) demo_zenv [].

Definition table (es : list table_entry) : list JNINativeMethod :=
  (λ e, mkNative (te_name e) (te_sig e) (FOurs (te_fn e))) <$> es.

Definition kind_entries (k : kind) : list table_entry :=
  match k with
  | KFork => nativeForkAndSpecialize_methods
  | KSpecialize => nativeSpecializeAppProcess_methods
  | KServer => nativeForkSystemServer_methods
  end.

(** The globals as the library is loaded, in a machine whose native methods have code. *)
Definition loaded_hooks (z : zygote) (n : method_key → fnptr)
    (commits : list (bool * list (hookfn * Z))) : hooks :=
  mkHooks z 77 PNull None (λ _, None) false 0 false (λ k, table (kind_entries k)) (λ _, FNull) n
    [] commits [] [].

Definition demo_hooks : hooks :=
  loaded_hooks (demo_process (-1)) (λ _, FCode 1)
    [(true, [(HFork, 100); (HUnshare, 101); (HStrdup, 102)]); (true, [(HPthreadAttrDestroy, 104)]); (true, [])].

(** lsplt does not accept the hook of [unshare]. *)
Definition demo_picky : hooks := set_hk_registers [true; false] demo_hooks.

Lemma hooks_life_cycle_witness :
  ∃ s1 s3 s4, hook_functions demo_picky = (Ret tt, s1) ∧ destructor s1 = (Ret tt, s3) ∧
    new_pthread_attr_destroy true 5 0 s3 = (Ret 0, s4) ∧
    hk_log s4 = hk_log s3 ++
      [HvCallOld HPthreadAttrDestroy 104; HvRestoreHook 1 10 (txt "fork") (Some 100);
       HvRestoreHook 1 10 (txt "strdup") (Some 102);
       HvRestoreHook 1 20 (txt "pthread_attr_destroy") (Some 104); HvCommit true; HvDlclose 77].
Proof.
  destruct (hooks_life_cycle demo_picky (hook_functions demo_picky).2 [] 5 0 104 true true true
              [(HFork, 100); (HUnshare, 101); (HStrdup, 102)] [(HPthreadAttrDestroy, 104)] []
              [(true, [(HPthreadAttrDestroy, 104)]); (true, [])] [])
    as (s1 & E & H); [reflexivity|].
  assert (s1 = (hook_functions demo_picky).2) as -> by by rewrite E.
  destruct H as (s3 & s4 & E3 & _ & E4 & L); [by constructor | by vm_compute | reflexivity | reflexivity | reflexivity |].
  exists (hook_functions demo_picky).2, s3, s4. split; [exact E|]. split; [exact E3|]. split; [exact E4|].
  rewrite L. reflexivity.
Defined.

(** ** Restoring the JNI methods *)

Definition key_of (clz : bytes) (m : JNINativeMethod) : method_key := (clz, nm_name m, nm_sig m).

Lemma register_all_not_in clz ms n k :
  k ∉ key_of clz <$> ms → register_all clz ms n k = n k.
Proof.
  unfold register_all. revert n. induction ms as [|m ms IH]; intros n; [done|].
  rewrite fmap_cons. intros [Hk Hr]%not_elem_of_cons. cbn [foldl]. rewrite IH by done.
  apply fn_lookup_insert_ne. unfold key_of in Hk. congruence.
Qed.

Lemma register_all_in clz ms n m :
  NoDup (key_of clz <$> ms) → m ∈ ms → register_all clz ms n (key_of clz m) = nm_fn m.
Proof.
  unfold register_all. revert n. induction ms as [|m' ms IH]; intros n; [by intros _ ?%elem_of_nil|].
  rewrite fmap_cons. intros [Hn Hd]%list.NoDup_cons [->|Hm]%elem_of_cons; cbn [foldl].
  - change (foldl _ ?x ms) with (register_all clz ms x). rewrite register_all_not_in by done.
    apply fn_lookup_insert.
  - by apply IH.
Qed.

Section jni_spec.
Context (FindClass : bytes → bool) (GetMethodID GetStaticMethodID : method_key → bool).
Context (getModifiers : method_key → Z).

Abbreviation hook_kind' := (hook_kind FindClass GetMethodID GetStaticMethodID getModifiers).
Abbreviation do_hook_zygote' := (do_hook_zygote FindClass GetMethodID GetStaticMethodID getModifiers).

Definition entry_key (e : table_entry) : method_key := (Zygote_class, te_name e, te_sig e).

(** The entries of a table that the class has as native methods. *)
Definition entry_native (mask : Z) (e : table_entry) : bool :=
  (GetMethodID (entry_key e) || GetStaticMethodID (entry_key e)) &&
  negb (getModifiers (entry_key e) &&& mask =? 0).

Definition hits (mask : Z) (k : kind) : list table_entry := List.filter (entry_native mask) (kind_entries k).

(** An entry with the code [n] has for it. *)
Definition with_orig (n : method_key → fnptr) (e : table_entry) : JNINativeMethod :=
  mkNative (te_name e) (te_sig e) (n (entry_key e)).

Lemma filter_table mask es :
  List.filter (is_native GetMethodID GetStaticMethodID getModifiers mask Zygote_class) (table es) =
  table (List.filter (entry_native mask) es).
Proof.
  induction es as [|e es IH]; [done|]. unfold table in *. rewrite fmap_cons. cbn [List.filter].
  change (is_native _ _ _ mask Zygote_class _) with (entry_native mask e).
  destruct (entry_native mask e); [rewrite fmap_cons; by f_equal | done].
Qed.

Lemma is_native_entry mask e f :
  is_native GetMethodID GetStaticMethodID getModifiers mask Zygote_class (mkNative (te_name e) (te_sig e) f) =
  entry_native mask e.
Proof. reflexivity. Qed.

Lemma find_original mask (n : method_key → fnptr) es :
  (∀ e, e ∈ es → entry_native mask e = true → non_null (n (entry_key e)) = true) →
  List.find (λ m, non_null (nm_fn m))
    ((λ m, nm_set_fn (if is_native GetMethodID GetStaticMethodID getModifiers mask Zygote_class m
                      then n (Zygote_class, nm_name m, nm_sig m) else FNull) m) <$> table es) =
  with_orig n <$> head (List.filter (entry_native mask) es).
Proof.
  intros Hn. induction es as [|e es IH]; [done|]. unfold table in *. rewrite !fmap_cons. cbn [List.find List.filter].
  rewrite is_native_entry. cbn [nm_set_fn nm_fn nm_name nm_sig].
  pose proof (Hn e (list_elem_of_here _ _)) as He.
  destruct (entry_native mask e); cbn [non_null].
  - change (n (Zygote_class, te_name e, te_sig e)) with (n (entry_key e)). by rewrite He.
  - apply IH. intros e' Hin. apply Hn. by right.
Qed.

(** What hooking one kind of method leaves alone. *)
Record jni_frame (k : kind) (s s' : hooks) : Prop := {
  jf_can : can_hook_jni s' = can_hook_jni s;
  jf_mask : MODIFIER_NATIVE s' = MODIFIER_NATIVE s;
  jf_list : jni_hook_list s' = jni_hook_list s;
  jf_tables : ∀ k', k' ≠ k → hk_tables s' k' = hk_tables s k'
}.

Lemma hook_kind_run k s :
  FindClass Zygote_class = true → can_hook_jni s = true → hk_regnat s = [] →
  hk_tables s k = table (kind_entries k) →
  (∀ e, e ∈ kind_entries k → entry_native (MODIFIER_NATIVE s) e = true → non_null (natives s (entry_key e)) = true) →
  let hs := hits (MODIFIER_NATIVE s) k in
  ∃ s', hook_kind' k s = (Ret (option_list (with_orig (natives s) <$> head hs)), s') ∧
    natives s' = register_all Zygote_class (table hs) (natives s) ∧
    hk_orig s' = from_option (λ e, <[k := natives s (entry_key e)]> (hk_orig s)) (hk_orig s) (head hs) ∧
    hk_regnat s' = [] ∧ jni_frame k s s'.
Proof.
  intros Hf Hc Hr Ht Hn. cbv zeta. unfold hook_kind. step. rewrite Ht.
  assert (∃ s1 ms, hookJniNativeMethods FindClass GetMethodID GetStaticMethodID getModifiers Zygote_class
            (table (kind_entries k)) s = (Ret ms, s1) ∧
          List.find (λ m, non_null (nm_fn m)) ms = with_orig (natives s) <$> head (hits (MODIFIER_NATIVE s) k) ∧
          natives s1 = register_all Zygote_class (table (hits (MODIFIER_NATIVE s) k)) (natives s) ∧
          hk_regnat s1 = [] ∧ hk_orig s1 = hk_orig s ∧ hk_tables s1 = hk_tables s ∧
          can_hook_jni s1 = can_hook_jni s ∧ MODIFIER_NATIVE s1 = MODIFIER_NATIVE s ∧
          jni_hook_list s1 = jni_hook_list s) as (s1 & ms & E1 & Hm & N1 & R1 & O1 & T1 & C1 & M1 & J1).
  { unfold hookJniNativeMethods. setoid_rewrite bind_run; [|reflexivity]. rewrite Hc, Hf. cbn [negb].
    rewrite filter_table. fold (hits (MODIFIER_NATIVE s) k). pose proof (find_original (MODIFIER_NATIVE s) (natives s) _ Hn) as Ho.
    fold (hits (MODIFIER_NATIVE s) k) in Ho.
    destruct (hits (MODIFIER_NATIVE s) k) as [|e hs] eqn:Eh; cbn [table fmap list_fmap].
    - eexists s, _. split; [reflexivity|]. by split_and!.
    - unfold RegisterNatives. setoid_rewrite prog_bind_assoc. setoid_rewrite bind_run; [|reflexivity].
      rewrite Hr. cbn [head default tail]. eexists _, _. split; [reflexivity|]. by split_and!. }
  step_with E1. step. rewrite Hm.
  destruct (head (hits (MODIFIER_NATIVE s) k)) as [e|]; cbn [fmap option_fmap option_map option_list from_option].
  - step. eexists. split; [reflexivity|]. cbn. rewrite O1. split_and!; try done.
    constructor; try done. intros k' Hk. cbn. rewrite fn_lookup_insert_ne by done. by rewrite T1.
  - eexists. split; [reflexivity|]. cbn. split_and!; try done.
    constructor; try done. intros k' Hk. cbn. rewrite fn_lookup_insert_ne by done. by rewrite T1.
Qed.

Definition all_hits (mask : Z) : list table_entry := List.filter (entry_native mask) all_entries.

Lemma all_hits_split mask : all_hits mask = hits mask KFork ++ hits mask KSpecialize ++ hits mask KServer.
Proof. unfold all_hits, all_entries. by rewrite !List.filter_app. Qed.

Lemma NoDup_fmap_filter {A B} (f : A → B) (p : A → bool) l :
  NoDup (f <$> l) → NoDup (f <$> List.filter p l).
Proof.
  induction l as [|a l IH]; [done|]. rewrite fmap_cons. intros [Ha Hd]%list.NoDup_cons. cbn [List.filter].
  destruct (p a); [|by apply IH]. rewrite fmap_cons. apply list.NoDup_cons. split; [|by apply IH].
  intros (b & E & Hb)%list_elem_of_fmap. apply Ha. apply list_elem_of_fmap. exists b. split; [done|].
  apply list_elem_of_In in Hb. apply List.filter_In in Hb as [Hb _]. by apply list_elem_of_In.
Qed.

Lemma keys_nodup mask : NoDup (entry_key <$> all_hits mask).
Proof.
  apply NoDup_fmap_filter. apply (NoDup_fmap_1 (λ k : method_key, (k.1.2, k.2))).
  rewrite <- list_fmap_compose. apply (bool_decide_unpack _). by vm_compute.
Qed.

Lemma keys_with_orig n (hs : list table_entry) : key_of Zygote_class <$> (with_orig n <$> hs) = entry_key <$> hs.
Proof. by rewrite <- list_fmap_compose. Qed.
Lemma keys_table hs : key_of Zygote_class <$> table hs = entry_key <$> hs.
Proof. unfold table. by rewrite <- list_fmap_compose. Qed.

Lemma registered n (hs : list table_entry) e :
  NoDup (entry_key <$> hs) → e ∈ hs →
  register_all Zygote_class (table hs) n (entry_key e) = FOurs (te_fn e).
Proof.
  intros Hd He. apply (register_all_in Zygote_class (table hs) n (mkNative (te_name e) (te_sig e) (FOurs (te_fn e)))).
  - by rewrite keys_table.
  - unfold table. apply list_elem_of_fmap. by exists e.
Qed.

(** Registering the originals over the replacements gives back what was there. *)
Lemma restored_identity n (hs : list table_entry) x :
  NoDup (entry_key <$> hs) →
  register_all Zygote_class (with_orig n <$> hs) (register_all Zygote_class (table hs) n) x = n x.
Proof.
  intros Hd. destruct (decide (x ∈ entry_key <$> hs)) as [Hx|Hx].
  - apply list_elem_of_fmap in Hx as (e & -> & He).
    apply (register_all_in Zygote_class _ _ (with_orig n e)); [by rewrite keys_with_orig|].
    apply list_elem_of_fmap. by exists e.
  - rewrite register_all_not_in by by rewrite keys_with_orig.
    apply register_all_not_in. by rewrite keys_table.
Qed.

Lemma single {A} (l : list A) : (length l <= 1)%nat → option_list (head l) = l.
Proof. destruct l as [|a [|b l]]; simpl; [done..|lia]. Qed.

Lemma option_list_fmap {A B} (f : A → B) (o : option A) : option_list (f <$> o) = f <$> option_list o.
Proof. by destruct o. Qed.

(** The code of a method of another kind is not touched. *)
Lemma other_kind mask k k' n e :
  k ≠ k' → e ∈ kind_entries k → register_all Zygote_class (table (hits mask k')) n (entry_key e) = n (entry_key e).
Proof.
  intros Hk He. apply register_all_not_in. rewrite keys_table.
  intros (e' & E & He')%list_elem_of_fmap. unfold hits in He'.
  apply list_elem_of_In, List.filter_In in He' as [He' _]. apply list_elem_of_In in He'.
  assert (∀ k e, e ∈ kind_entries k → te_name e = match k with KFork => txt "nativeForkAndSpecialize"
    | KSpecialize => txt "nativeSpecializeAppProcess" | KServer => txt "nativeForkSystemServer" end) as Hn.
  { intros k0 e0. destruct k0; cbn [kind_entries]; intros H0; repeat (apply elem_of_cons in H0 as [->|H0]; [done|]); by apply elem_of_nil in H0. }
  apply Hn in He, He'. injection E as E _. rewrite He, He' in E. by destruct k, k'.
Qed.

Lemma with_orig_ext (n n' : method_key → fnptr) (l : list table_entry) :
  (∀ e, e ∈ l → n (entry_key e) = n' (entry_key e)) → with_orig n <$> l = with_orig n' <$> l.
Proof.
  intros H. apply list_fmap_ext. intros i e He. unfold with_orig. f_equal. apply H. by eapply list_elem_of_lookup_2.
Qed.

Lemma single_in {A} (l : list A) a : (length l <= 1)%nat → a ∈ l → l = [a].
Proof.
  destruct l as [|b [|c l]]; simpl; intros H Ha; [by apply elem_of_nil in Ha| |lia].
  apply list_elem_of_singleton in Ha. by subst.
Qed.

Lemma orig_other (k k' : kind) (f : kind → fnptr) (v : table_entry → fnptr) o :
  k ≠ k' → from_option (λ e, <[k := v e]> f) f o k' = f k'.
Proof. intros H. destruct o; [by apply fn_lookup_insert_ne | done]. Qed.

(** The library is about to hook the class: the tables are as they were compiled, and the native
    methods it finds have code. *)
Record ready_to_hook (s : hooks) : Prop := {
  rh_class : FindClass Zygote_class = true;
  rh_can : can_hook_jni s = true;
  rh_regnat : hk_regnat s = [];
  rh_tables : ∀ k, hk_tables s k = table (kind_entries k);
  rh_list : jni_hook_list s = Some [];
  rh_code : ∀ k e, e ∈ kind_entries k → entry_native (MODIFIER_NATIVE s) e = true →
              non_null (natives s (entry_key e)) = true;
  rh_single : ∀ k, (length (hits (MODIFIER_NATIVE s) k) <= 1)%nat
}.

Lemma do_hook_zygote_run s :
  ready_to_hook s →
  let hs := all_hits (MODIFIER_NATIVE s) in
  ∃ s', do_hook_zygote' s = (Ret tt, s') ∧
    natives s' = register_all Zygote_class (table hs) (natives s) ∧
    jni_hook_list s' = Some [(Zygote_class, with_orig (natives s) <$> hs)] ∧
    ∀ k e, e ∈ hits (MODIFIER_NATIVE s) k → hk_orig s' k = natives s (entry_key e).
Proof.
  intros [Hf Hc Hr Ht Hl Hn Hs]. cbv zeta. set (mask := MODIFIER_NATIVE s) in *. unfold do_hook_zygote.
  destruct (hook_kind_run KFork s Hf Hc Hr (Ht KFork) (Hn KFork)) as (s1 & E1 & N1 & O1 & R1 & [C1 M1 J1 T1]).
  fold mask in E1, N1, O1. step_with E1.
  assert (∀ e, e ∈ kind_entries KSpecialize → natives s1 (entry_key e) = natives s (entry_key e)) as P1
    by (intros e He; rewrite N1; by apply (other_kind _ KSpecialize)).
  destruct (hook_kind_run KSpecialize s1 Hf) as (s2 & E2 & N2 & O2 & R2 & [C2 M2 J2 T2]);
    [by rewrite C1 | done | rewrite T1 by done; apply Ht | intros e He; rewrite P1, M1 by done; by apply (Hn KSpecialize) |].
  rewrite M1 in E2, N2, O2. fold mask in E2, N2, O2. step_with E2.
  assert (∀ e, e ∈ kind_entries KServer → natives s2 (entry_key e) = natives s (entry_key e)) as P2
    by (intros e He; rewrite N2, N1, !(other_kind _ KServer) by done; done).
  destruct (hook_kind_run KServer s2 Hf) as (s3 & E3 & N3 & O3 & R3 & [C3 M3 J3 T3]);
    [by rewrite C2, C1 | done | rewrite T2, T1 by done; apply Ht
    | intros e He; rewrite P2, M2, M1 by done; by apply (Hn KServer) |].
  rewrite M2, M1 in E3, N3, O3. fold mask in E3, N3, O3. step_with E3. step. rewrite J3, J2, J1, Hl.
  eexists. split; [reflexivity|]. cbn [natives set_jni_hook_list jni_hook_list hk_orig].
  assert (∀ k e, e ∈ hits mask k → e ∈ kind_entries k) as Hk.
  { intros k e He. apply list_elem_of_In, List.filter_In in He as [He _]. by apply list_elem_of_In. }
  split_and!.
  - rewrite N3, N2, N1, all_hits_split. unfold register_all, table. by rewrite !fmap_app, !foldl_app.
  - rewrite !option_list_fmap, !single by apply Hs. rewrite all_hits_split, !fmap_app.
    rewrite (with_orig_ext (natives s1) (natives s)) by (intros e He; apply P1; by apply Hk).
    by rewrite (with_orig_ext (natives s2) (natives s)) by (intros e He; apply P2; by apply Hk).
  - intros k e He. pose proof (single_in _ _ (Hs k) He) as Eh. apply Hk in He. rewrite O3.
    destruct k; rewrite ?Eh; rewrite ?orig_other by done; cbn [head from_option]; rewrite ?fn_lookup_insert;
      [rewrite O2, orig_other, O1, Eh by done; apply fn_lookup_insert
      | rewrite O2, Eh; cbn [head from_option]; rewrite fn_lookup_insert; by apply P1
      | by apply P2].
Qed.

(** C23 Where the class has at most one of the methods of each table, hooking it gives every method
    of a table the replacement of its entry, remembers as the original what the method had, and
    leaves every other method alone; and when the context of a child later registers what
    was remembered, every method of the machine has the code it had before. *)
Theorem jni_hooks_restored (s : hooks) :
  ready_to_hook s →
  ∃ s1 js, do_hook_zygote' s = (Ret tt, s1) ∧ jni_hook_list s1 = Some js ∧
    (∀ k e, e ∈ hits (MODIFIER_NATIVE s) k →
       natives s1 (entry_key e) = FOurs (te_fn e) ∧ hk_orig s1 k = natives s (entry_key e)) ∧
    (∀ x, x ∉ entry_key <$> all_hits (MODIFIER_NATIVE s) → natives s1 x = natives s x) ∧
    ∀ s2, natives s2 = natives s1 → hk_regnat s2 = [] →
      ∃ s3, restore_natives js s2 = (Ret tt, s3) ∧ ∀ x, natives s3 x = natives s x.
Proof.
  intros H. pose proof (keys_nodup (MODIFIER_NATIVE s)) as Hd.
  destruct (do_hook_zygote_run s H) as (s1 & E & N & J & O).
  exists s1, [(Zygote_class, with_orig (natives s) <$> all_hits (MODIFIER_NATIVE s))]. split_and!; try done.
  - intros k e He. split; [|by apply (O k)]. rewrite N. apply registered; [done|].
    rewrite all_hits_split, !elem_of_app. destruct k; auto.
  - intros x Hx. rewrite N. apply register_all_not_in. by rewrite keys_table.
  - intros s2 N2 R2. destruct (restore_natives_ok [(Zygote_class, with_orig (natives s) <$> all_hits (MODIFIER_NATIVE s))] s2 R2)
      as (s3 & E3 & N3). exists s3. split; [exact E3|]. intros x. rewrite N3, N2, N. cbn [restored foldl fst snd].
    by apply restored_identity.
Qed.
End jni_spec.

(** A machine with the three methods of Android 14, all native. *)
Definition demo_methods : list method_key :=
  entry_key <$> [mkEntry (txt "nativeForkAndSpecialize")
     (txt "(II[II[[IILjava/lang/String;Ljava/lang/String;[I[IZLjava/lang/String;Ljava/lang/String;Z[Ljava/lang/String;[Ljava/lang/String;ZZZ)I")
     nativeForkAndSpecialize_u;
   mkEntry (txt "nativeSpecializeAppProcess")
     (txt "(II[II[[IILjava/lang/String;Ljava/lang/String;ZLjava/lang/String;Ljava/lang/String;Z[Ljava/lang/String;[Ljava/lang/String;ZZZ)V")
     nativeSpecializeAppProcess_u;
   mkEntry (txt "nativeForkSystemServer") (txt "(II[II[[IJJ)I") nativeForkSystemServer_l].
Definition demo_has (k : method_key) : bool := bool_decide (k ∈ demo_methods).

Definition demo_jni : hooks :=
  set_can_hook_jni true (set_MODIFIER_NATIVE 256 (set_jni_hook_list (Some []) demo_hooks)).

Lemma demo_jni_ready : ready_to_hook (λ _, true) (λ _, false) demo_has (λ _, 264) demo_jni.
Proof.
  constructor; try reflexivity.
  intros []; apply (bool_decide_unpack _); by vm_compute.
Qed.

Lemma jni_hooks_restored_witness :
  ∃ s1, do_hook_zygote (λ _, true) (λ _, false) demo_has (λ _, 264) demo_jni = (Ret tt, s1) ∧
        natives s1 (Zygote_class, txt "nativeForkSystemServer", txt "(II[II[[IJJ)I") = FOurs nativeForkSystemServer_l.
Proof.
  destruct (jni_hooks_restored (λ _, true) (λ _, false) demo_has (λ _, 264) demo_jni demo_jni_ready)
    as (s1 & js & E & _ & H & _).
  exists s1. split; [exact E|].
  apply (H KServer (mkEntry (txt "nativeForkSystemServer") (txt "(II[II[[IJJ)I") nativeForkSystemServer_l)).
  assert (hits (λ _, false) demo_has (λ _, 264) (MODIFIER_NATIVE demo_jni) KServer =
          [mkEntry (txt "nativeForkSystemServer") (txt "(II[II[[IJJ)I") nativeForkSystemServer_l]) as ->
    by by vm_compute.
  apply list_elem_of_here.
Defined.
