(* ===== verification/HooksSpec.v ===== *)
(** * HooksSpec: the replacement methods in the zygote

    What the calls of the replaced native methods do to the hooks of [Hooks] in the process they
    return in: a zygote that keeps forking keeps its hooks, and a [fork] that fails makes it lose
    them. *)

From Stdlib Require Import ZArith Lia Ascii.
From stdpp Require Import base tactics relations strings list gmap functions numbers.
From S2P Require Import Prelude Misc Maps Jni Context ContextSpec Hooks.

Section spec.
Context (regcomp : bytes → bool) (regexec : bytes → bytes → bool) (rand : Z → nat → Z).

Abbreviation call := (run_variant regcomp regexec rand).

Lemma on_z_inv {A} (m : prog zygote A) s a s' :
  on_z m s = (Ret a, s') → ∃ z, m (hk_z s) = (Ret a, z) ∧ s' = set_hk_z z s.
Proof. unfold on_z. destruct (m (hk_z s)) as [r z]. intros [= -> <-]. eauto. Qed.

Lemma on_z_run {A} (m : prog zygote A) s a z : m (hk_z s) = (Ret a, z) → on_z m s = (Ret a, set_hk_z z s).
Proof. unfold on_z. by intros ->. Qed.

(** ** What happens in the process that returns the pid of a child *)

(** What a zygote may do: fork, hold back SIGCHLD, close the log.  Everything else that is recorded is
    a module at work, or the preparation of an application or of the system server. *)
Definition zygote_event (e : zevent) : Prop :=
  match e with ZOldFork | ZSigmask _ | ZLogClose => True | _ => False end.

(** No module is loaded, called or unloaded between two states, and the library does not decide to
    leave. *)
Record untouched (z z' : zygote) : Prop := {
  un_modules : z_modules z' = z_modules z;
  un_unmap : should_unmap z' = should_unmap z;
  un_log : ∃ evs, z_log z' = z_log z ++ evs ∧ Forall zygote_event evs
}.

Lemma untouched_nothing z z' :
  z_modules z' = z_modules z → should_unmap z' = should_unmap z → z_log z' = z_log z → untouched z z'.
Proof. intros ? ? H. constructor; [done..|]. exists []. by rewrite app_nil_r. Qed.

Lemma untouched_emit z e : zygote_event e → untouched z (set_z_log (z_log z ++ [e]) z).
Proof. intros H. constructor; [done..|]. exists [e]. by split; [|apply Forall_singleton]. Qed.

#[export] Instance untouched_preorder : PreOrder untouched.
Proof.
  split; [intros z; by apply untouched_nothing|].
  intros z1 z2 z3 [? ? (e1 & L1 & F1)] [? ? (e2 & L2 & F2)]. constructor; [congruence..|].
  exists (e1 ++ e2). rewrite L2, L1, <- app_assoc. split; [done | by apply Forall_app].
Qed.

(** [pid] stays what it is. *)
Definition same_pid (z z' : zygote) : Prop := z_pid z' = z_pid z.

#[export] Instance same_pid_preorder : PreOrder same_pid.
Proof. split; [done|]. unfold same_pid. intros z1 z2 z3. congruence. Qed.

Ltac quiet := walk; first
  [ by apply moves_modify, untouched_nothing | by apply moves_put, untouched_nothing
  | by apply moves_modify, untouched_emit | idtac ].

Lemma record_fds_untouched z : Moves untouched record_fds z.
Proof.
  unfold record_fds, open_dir, pop, for_each_fd, allow, close. quiet.
  apply moves_for_each; [apply _|]. intros. quiet.
Qed.

Lemma fork_pre_untouched z : Moves untouched fork_pre z.
Proof. unfold fork_pre, sigmask, z_emit, pop. quiet. apply record_fds_untouched. Qed.

Lemma allow_all_untouched l z : Moves untouched (for_each l (λ fd, when (in_range fd) (allow fd))) z.
Proof. apply moves_for_each; [apply _|]. intros. unfold allow. quiet. Qed.

Lemma sanitize_untouched z : Moves untouched sanitize_fds z.
Proof.
  unfold sanitize_fds, allow_exempted, update_fd_array, close_forbidden, open_dir, pop, for_each_fd, close. quiet;
    first [apply allow_all_untouched | apply moves_for_each; [apply _|]; intros; quiet].
Qed.

Lemma sanitize_null_untouched z : Moves untouched sanitize_null z.
Proof. unfold sanitize_null. quiet. Qed.

Ltac still := walk; first [ by apply moves_modify | by apply moves_put | idtac ].

Lemma for_each_pid {A} (l : list A) f z : (∀ a z, Moves same_pid (f a) z) → Moves same_pid (for_each l f) z.
Proof. intros H. apply moves_for_each; [apply _|]. intros. apply H. Qed.

Lemma sanitize_pid z : Moves same_pid sanitize_fds z.
Proof.
  unfold sanitize_fds, allow_exempted, update_fd_array, close_forbidden, open_dir, pop, for_each_fd, close, allow.
  still; apply for_each_pid; intros; still.
Qed.

Lemma perform_pid id c z : Moves same_pid (perform regcomp regexec id c) z.
Proof.
  unfold perform, api_fn, setOption, plt_hook_register, plt_hook_exclude, plt_hook_commit, CommitHook, RegisterHook,
    exempt_fd, z_emit, close, pop, plt_hook_process_regex, Scan_maps, pop.
  destruct c; still; apply for_each_pid; intros; still; apply for_each_pid; intros; still.
Qed.

Lemma performs_pid id l z : Moves same_pid (for_each l (perform regcomp regexec id)) z.
Proof. apply for_each_pid. intros. apply perform_pid. Qed.

Lemma call_app_pid pre id l z : Moves same_pid (call_app regcomp regexec pre id l) z.
Proof. unfold call_app, z_emit. still. apply performs_pid. Qed.

Lemma call_server_pid pre id l z : Moves same_pid (call_server regcomp regexec pre id l) z.
Proof. unfold call_server, z_emit. still. apply performs_pid. Qed.

Lemma run_modules_pre_pid z : Moves same_pid (run_modules_pre regcomp regexec) z.
Proof.
  unfold run_modules_pre, onLoad, RegisterModuleImpl. still. apply for_each_pid. intros.
  still; auto using call_app_pid, call_server_pid, performs_pid.
Qed.

Lemma app_specialize_pre_pid uid z : Moves same_pid (app_specialize_pre regcomp regexec uid) z.
Proof. unfold app_specialize_pre, z_emit. still. apply run_modules_pre_pid. Qed.

Lemma run_modules_post_pid z : Moves same_pid (run_modules_post regcomp regexec rand) z.
Proof.
  unfold run_modules_post, tryUnload, z_emit, pop, remap_jit_cache, remap_anonymous, copy_mapping, replace_mapping, Scan_maps, pop, z_emit.
  still; apply for_each_pid; intros; still; auto using call_app_pid, call_server_pid.
Qed.

Lemma app_specialize_post_pid z : Moves same_pid (app_specialize_post regcomp regexec rand) z.
Proof. unfold app_specialize_post, setfd, close. still. apply run_modules_post_pid. Qed.

Lemma fork_parent (sanitize : prog zygote unit) uid z z' :
  (∀ z, Moves untouched sanitize z) → (∀ z, Moves same_pid sanitize z) →
  fork_and_specialize regcomp regexec sanitize uid z = (Ret tt, z') → 0 < z_pid z' → untouched z z'.
Proof.
  intros Hs Hp H Hpid. unfold fork_and_specialize in H.
  apply bind_inv in H as (? & z1 & [= _ <-] & H). apply bind_inv in H as (? & z1 & [= <- <-] & H).
  apply bind_inv in H as (? & z2 & H2 & H). apply bind_inv in H as (? & z3 & H3 & H).
  apply bind_inv in H as (? & z4 & [= <- <-] & H). apply bind_inv in H as (? & z5 & H5 & H).
  pose proof (moves_run _ _ _ _ _ H (Hp z5)) as P. pose proof (moves_run _ _ _ _ _ H (Hs z5)) as U.
  assert (z5 = z3) as ->.
  { destruct (Z.eqb_spec (z_pid z3) 0) as [E|E]; [|by injection H5 as _ <-].
    pose proof (moves_run _ _ _ _ _ H5 (app_specialize_pre_pid uid z3)) as P5. unfold same_pid in *. lia. }
  transitivity z3; [|done]. transitivity z2; [|by apply (moves_run _ _ _ _ _ H3 (fork_pre_untouched z2))].
  destruct (negb _); injection H2 as _ <-; by apply untouched_nothing.
Qed.

Lemma server_parent z z' :
  nativeForkSystemServer_pre regcomp regexec z = (Ret tt, z') → 0 < z_pid z' → untouched z z'.
Proof.
  intros H Hpid. unfold nativeForkSystemServer_pre in H.
  apply bind_inv in H as (? & z1 & [= _ <-] & H). apply bind_inv in H as (? & z2 & H2 & H).
  apply bind_inv in H as (? & z3 & [= <- <-] & H).
  assert (untouched z z2) as U.
  { transitivity (set_flag SERVER_FORK_AND_SPECIALIZE z); [by apply untouched_nothing|].
    by apply (moves_run _ _ _ _ _ H2 (fork_pre_untouched _)). }
  destruct (Z.eqb_spec (z_pid z2) 0) as [E|E]; cbn [negb] in H; [|by injection H as <-].
  assert (Moves same_pid (run_modules_pre regcomp regexec;; z_emit ZServerStarted;; sanitize_fds) z2) as M
    by (unfold z_emit; still; [apply run_modules_pre_pid | apply sanitize_pid]).
  pose proof (moves_run _ _ _ _ _ H M) as P. unfold same_pid in P. lia.
Qed.

Lemma pre_parent v uid z z' :
  pre regcomp regexec v uid z = (Ret tt, z') → z_pid z = -1 → 0 < z_pid z' → v_kind v ≠ KSpecialize ∧ untouched z z'.
Proof.
  unfold pre. intros H Hz Hp. destruct (v_kind v); (split; [done|]) || exfalso.
  - destruct (args_of v P.fds_to_ignore).
    + by apply (fork_parent sanitize_fds (uid) z z' sanitize_untouched sanitize_pid).
    + apply (fork_parent sanitize_null uid z z' sanitize_null_untouched); [|done..].
      intros z0. unfold sanitize_null. still.
  - assert (Moves same_pid (nativeSpecializeAppProcess_pre regcomp regexec uid) z) as M
      by (unfold nativeSpecializeAppProcess_pre; still; apply app_specialize_pre_pid).
    pose proof (moves_run _ _ _ _ _ H M) as P. unfold same_pid in P. lia.
  - by apply server_parent.
Qed.

Lemma post_parent v z z' :
  post regcomp regexec rand v z = (Ret tt, z') → v_kind v ≠ KSpecialize → 0 < z_pid z →
  untouched z z' ∧ z_pid z' = z_pid z ∧ has_ctx z' = false.
Proof.
  intros H Hv Hp. assert (fork_post z = (Ret tt, z')) as H'.
  { unfold post, nativeForkAndSpecialize_post, nativeForkSystemServer_post in H.
    assert (z_pid z =? 0 = false) as E by lia.
    destruct (v_kind v); [| done |]; erewrite bind_run in H by reflexivity; cbv beta in H; rewrite E in H; exact H. }
  injection H' as <-. split; [|done].
  transitivity (set_z_log (z_log z ++ [ZSigmask false]) z); [by apply untouched_emit | by apply untouched_nothing].
Qed.

(** The original method, which is not part of the library: in the process of the zygote it may
    fork (through the hook, which answers the pid there is) and close the log, and it leaves the
    context alone. *)
Definition plain_orig (orig : prog zygote unit) : Prop := ∀ z, Moves untouched orig z ∧ Moves same_pid orig z.

(** The state after a call that only changed the context and called one original. *)
Definition called (f : fnptr) (args : list Z) (z : zygote) (s : hooks) : hooks :=
  set_hk_log (hk_log s ++ [HvCallOrig f args]) (set_hk_z z s).

(** A call that returns the pid of a child has left the hooks alone and has run no module. *)
Lemma call_parent v fr ign es jarray orig s pid s' :
  plain_orig orig → call v fr ign es jarray orig s = (Ret pid, s') → 0 < pid →
  ∃ args z, s' = called (hk_orig s (v_kind v)) args z s ∧ has_ctx z = false ∧ z_modules z = [] ∧
    should_unmap z = should_unmap (hk_z s) ∧ ∃ evs, z_log z = z_log (hk_z s) ++ evs ∧ Forall zygote_event evs.
Proof.
  unfold run_variant, new_context. intros Ho H Hp.
  apply bind_inv in H as (? & s1 & (z1 & [= _ <-] & ->)%on_z_inv & H).
  apply bind_inv in H as ([] & s2 & (z2 & H2 & ->)%on_z_inv & H).
  apply bind_inv in H as (? & s3 & [= <- <-] & H).
  apply bind_inv in H as (? & s4 & [= _ <-] & H).
  apply bind_inv in H as ([] & s5 & (z5 & H5 & ->)%on_z_inv & H).
  apply bind_inv in H as ([] & s6 & (z6 & H6 & ->)%on_z_inv & H).
  apply bind_inv in H as (? & s7 & [= <- <-] & H).
  apply bind_inv in H as (u & s8 & H8 & [= <- <-]). cbn [hk_z set_hk_z set_hk_log] in H2, H5, H6, H8, Hp.
  unfold destructor in H8. erewrite bind_run in H8 by reflexivity. cbv beta in H8.
  erewrite bind_run in H8 by reflexivity. cbv beta in H8. cbn [hk_z set_hk_z] in H8.
  change (z_pid (set_has_ctx false z6)) with (z_pid z6) in H8.
  rewrite (proj2 (Z.ltb_lt 0 (z_pid z6))) in H8 by exact Hp. injection H8 as _ <-.
  pose proof (moves_run _ _ _ _ _ H5 (proj1 (Ho _))) as U5. pose proof (moves_run _ _ _ _ _ H5 (proj2 (Ho _))) as P5.
  unfold same_pid in P5.
  assert (v_kind v ≠ KSpecialize) as Hk.
  { intros Hk. assert (Moves same_pid (post regcomp regexec rand v) z5) as M6
      by (unfold post; rewrite Hk; apply app_specialize_post_pid).
    assert (Moves same_pid (pre regcomp regexec v (fr P.uid)) (mkZygote true (-1) ∅ 0 ∅ [] ign [] [] [] (should_unmap (hk_z s))
       (open_fds (hk_z s)) (log_fd (hk_z s)) (z_env (hk_z s)) (z_log (hk_z s)))) as M2
      by (unfold pre; rewrite Hk; unfold nativeSpecializeAppProcess_pre; still; apply app_specialize_pre_pid).
    pose proof (moves_run _ _ _ _ _ H6 M6) as P6. pose proof (moves_run _ _ _ _ _ H2 M2) as P2.
    unfold same_pid in *. cbn in P2. lia. }
  assert (0 < z_pid z5) as Hp5.
  { destruct (Z.lt_ge_cases 0 (z_pid z5)) as [?|Hn]; [done|]. exfalso.
    assert (Moves same_pid (post regcomp regexec rand v) z5) as M6.
    { unfold post, nativeForkAndSpecialize_post, nativeForkSystemServer_post, fork_post, sigmask, z_emit.
      destruct (v_kind v); [|done|]; still; auto using app_specialize_post_pid, run_modules_post_pid. }
    pose proof (moves_run _ _ _ _ _ H6 M6) as P6. unfold same_pid in P6. lia. }
  destruct (pre_parent _ _ _ _ H2) as [_ U2]; [done | lia |].
  destruct (post_parent _ _ _ H6 Hk Hp5) as (U6 & _ & Hc).
  assert (untouched (mkZygote true (-1) ∅ 0 ∅ [] ign [] [] [] (should_unmap (hk_z s))
       (open_fds (hk_z s)) (log_fd (hk_z s)) (z_env (hk_z s)) (z_log (hk_z s))) z6) as [Um Uu Ul]
    by (transitivity z2; [done | by transitivity z5]).
  eexists _, (set_has_ctx false z6). split; [reflexivity|]. by split_and!.
Qed.

(** A step of the zygote: a replaced method returns the pid of a child. *)
Inductive zygote_step : hooks → hooks → Prop :=
| zs_call v fr ign es jarray orig pid s s' :
    plain_orig orig → call v fr ign es jarray orig s = (Ret pid, s') → 0 < pid → zygote_step s s'.

(** C24 However often the zygote forks successfully, with whatever modules the daemon has and whatever
    arguments, no module is loaded, called or unloaded in the zygote itself, and nothing that is
    meant for the child is done there (no environment, mounts, hooks or mappings are changed and the
    daemon is not told of a system server): it only forks, holds back SIGCHLD and closes the log.  It does
    not prepare to leave, its native methods, their originals and the lists for restoring them are the
    same, no hook was registered or restored, the library was not closed; only originals were
    called; and no context is left behind.  The original methods are assumed to leave the context alone,
    and the calls are those that return a pid: a failed [fork] is another matter. *)
Theorem zygote_keeps_hooks (s s' : hooks) :
  rtc zygote_step s s' →
  ∃ z evs zevs, s' = set_hk_log (hk_log s ++ evs) (set_hk_z z s) ∧
    Forall (λ e, ∃ k args, e = HvCallOrig (hk_orig s k) args) evs ∧
    z_log z = z_log (hk_z s) ++ zevs ∧ Forall zygote_event zevs ∧
    should_unmap z = should_unmap (hk_z s) ∧
    (z_modules (hk_z s) = [] → z_modules z = []) ∧ (has_ctx (hk_z s) = false → has_ctx z = false).
Proof.
  induction 1 as [s|? ? s3 [v fr ign es jarray orig pid s1 s2 Ho H Hp] _ (z & evs & zevs & -> & He & Hl & Hz & Hu & Hm & Hc)].
  - exists (hk_z s), [], []. rewrite !app_nil_r. split_and!; try done. by destruct s.
  - apply call_parent in H as (args & z' & -> & Hc' & Hm' & Hu' & zevs' & Hl' & Hz'); [|done..].
    exists z, (HvCallOrig (hk_orig s1 (v_kind v)) args :: evs), (zevs' ++ zevs).
    cbn [hk_z called set_hk_log set_hk_z hk_orig] in *. split_and!.
    + unfold called, set_hk_log, set_hk_z. cbn. rewrite <- app_assoc. reflexivity.
    + constructor; [eauto | done].
    + rewrite Hl, Hl', <- app_assoc. done.
    + by apply Forall_app.
    + congruence.
    + intros _. by apply Hm.
    + intros _. by apply Hc.
Qed.

(** The hooks of [s] are gone in [s']: the originals are back, the list of them is dropped, and the
    library waits to be unloaded. *)
Definition unhooked (js : list (bytes * list JNINativeMethod)) (s s' : hooks) : Prop :=
  natives s' = restored js (natives s) ∧ jni_hook_list s' = None ∧ should_unmap (hk_z s') = true ∧
  has_ctx (hk_z s') = false.

(** When the [fork] of an application fails, the destructor takes the zygote itself for a
    child: it puts back the original native methods, drops the list of them, and marks the library
    to be unloaded, so that no application is modified from then on.  The method answers -1. *)
Theorem failed_fork_unhooks v fr ign es jarray orig s js l ok sets cs :
  v_kind v = KFork → args_of v P.fds_to_ignore = Some P.fds_to_ignore →
  (∀ fd, fd ∈ open_fds (hk_z s) → 0 <= fd < 2 ^ 31) → head (e_forks (z_env (hk_z s))) = Some (-1) →
  (∀ z, ∃ z', orig z = (Ret tt, z') ∧ z_pid z' = z_pid z) →
  jni_hook_list s = Some js → hk_regnat s = [] → plt_hook_list s = PTo l →
  hk_commits s = (ok, sets) :: cs →
  ∃ s', call v fr ign es jarray orig s = (Ret (-1), s') ∧ unhooked js s s'.
Proof.
  intros Hk Ha Hfd Hf Ho Hj Hn Hl Hc. unfold run_variant, new_context.
  step. set (s1 := set_hk_z _ s). unfold pre, post. rewrite Hk, Ha.
  destruct (fork_parent_run regcomp regexec (fr P.uid) (hk_z s1) (-1)) as (z2 & E2 & P2 & _); try done.
  step_with (on_z_run _ s1 _ _ E2). step. step.
  set (s3 := set_hk_log _ _). destruct (Ho (hk_z s3)) as (z4 & E4 & P4).
  step_with (on_z_run _ s3 _ _ E4). change (hk_z s3) with z2 in P4. rewrite P2 in P4.
  assert (nativeForkAndSpecialize_post regcomp regexec rand z4 =
          (Ret tt, set_has_ctx false (set_z_log (z_log z4 ++ [ZSigmask false]) z4))) as E5.
  { unfold nativeForkAndSpecialize_post. step. by rewrite P4. }
  set (s5 := set_hk_z z4 s3). step_with (on_z_run (nativeForkAndSpecialize_post regcomp regexec rand) s5 _ _ E5).
  step. set (s6 := set_hk_z _ s5).
  destruct (destructor_run js l ok sets cs s6) as (s7 & E7 & X & U & N & J & _); try done.
  { change (z_pid z4 <= 0). lia. }
  change (hk_regnat s6) with (hk_regnat s) in U, N. assert (all_restored (hk_regnat s) js = true) as Hall
    by (unfold all_restored; by rewrite Hn, take_nil).
  rewrite Hall in U. specialize (N Hall).
  step_with E7. exists s7. change (z_pid (hk_z s6)) with (z_pid z4). rewrite P4. by unfold unhooked.
Qed.
End spec.

(** A hooked zygote whose next [fork] answers [pid]. *)
Definition demo_forking (pid : Z) : hooks :=
  set_hk_z (mkZygote false (-1) ∅ 0 ∅ [] None [] [] [] false (list_to_set [0; 1; 2]) (-1)
              (env_forks [pid] demo_zenv) [])
    (set_plt_hook_list (PTo []) (set_hk_orig (λ _, FCode 1) (set_natives (λ _, FOurs nativeForkAndSpecialize_u)
       (set_jni_hook_list (Some [(Zygote_class, [mkNative (txt "m") (txt "()V") (FCode 1)])]) demo_hooks)))).

Lemma mret_plain : plain_orig (mret tt).
Proof. intros z. split; apply moves_ret; apply _. Qed.

(** A daemon with a module: it is not loaded in the zygote. *)
Definition demo_busy : hooks :=
  set_hk_z (set_z_env (mkZenv [300] [] [] demo_modules (λ _, 0) [] [] [] [] [] []) (hk_z (demo_forking 300))) (demo_forking 300).

Lemma zygote_keeps_hooks_witness :
  ∃ s', rtc (zygote_step (λ _, true) (λ _ _, false) (λ _ _, 0)) demo_busy s' ∧
        natives s' = natives demo_busy ∧ jni_hook_list s' = jni_hook_list demo_busy ∧ z_modules (hk_z s') = [].
Proof.
  set (r := run_variant (λ _, true) (λ _ _, false) (λ _ _, 0) nativeForkAndSpecialize_u (λ _, 0) None [] 500
              (mret tt) demo_busy).
  assert (zygote_step (λ _, true) (λ _ _, false) (λ _ _, 0) demo_busy r.2) as H.
  { apply (zs_call _ _ _ nativeForkAndSpecialize_u (λ _, 0) None [] 500 (mret tt) 300); [apply mret_plain | | lia].
    change (r = (Ret 300, r.2)). rewrite (surjective_pairing r) at 1. f_equal. }
  exists r.2. pose proof (rtc_once _ _ H) as Hr. split; [exact Hr|].
  destruct (zygote_keeps_hooks (λ _, true) (λ _ _, false) (λ _ _, 0) _ _ Hr) as (z & evs & zevs & E & _ & _ & _ & _ & M & _).
  rewrite E. split; [reflexivity|]. split; [reflexivity|]. apply M. reflexivity.
Defined.

Lemma failed_fork_unhooks_witness :
  ∃ s', run_variant (λ _, true) (λ _ _, false) (λ _ _, 0) nativeForkAndSpecialize_u (λ _, 0) None [] 500 (mret tt)
          (demo_forking (-1)) = (Ret (-1), s') ∧
        natives s' (Zygote_class, txt "m", txt "()V") = FCode 1.
Proof.
  destruct (failed_fork_unhooks (λ _, true) (λ _ _, false) (λ _ _, 0) nativeForkAndSpecialize_u (λ _, 0) None [] 500
              (mret tt : prog zygote unit) (demo_forking (-1)) [(Zygote_class, [mkNative (txt "m") (txt "()V") (FCode 1)])] []
              true [(HFork, 100); (HUnshare, 101); (HStrdup, 102)] (tail (hk_commits demo_hooks)))
    as (s' & E & N & _); [reflexivity | reflexivity | | reflexivity | | reflexivity.. |].
  - intros fd Hfd. cbn in Hfd. set_unfold in Hfd. lia.
  - intros z. exists z. split; reflexivity.
  - exists s'. split; [exact E|]. rewrite N. reflexivity.
Defined.
