(* ===== verification/Hiding.v ===== *)
(** * Hiding: what [run_modules_post] does to the mappings of the process

    The last part of [run_modules_post] in [injector/hook.cpp]: the mappings of the library's memory
    file are replaced by shared copies, anonymous executable mappings get a random name and, where
    they are marked anonymous, are replaced as well.  The log of [Context] is read as changes to a
    map from addresses to protections. *)

From Stdlib Require Import ZArith Lia Ascii.
From stdpp Require Import base tactics strings list gmap numbers.
From S2P Require Import Prelude Misc Maps Context.

Local Open Scope mach_scope.

(** ** The effect of the system calls *)

(** The protection of each mapping, by its start, and whether it is a shared copy. *)
Abbreviation view := (gmap Z (Z * bool)).

Definition apply_event (v : view) (e : zevent) : view :=
  match e with
  | ZMprotect addr _ prot => alter (λ p, (prot, p.2)) addr v
  | ZReplaceByCopy addr _ => <[addr := (PROT_WRITE, true)]> v
  | _ => v
  end.

Definition apply_events (v : view) (es : list zevent) : view := foldl apply_event v es.

(** The copy is read with [memcpy]: the old mapping has to be readable then. *)
Definition readable_at (v : view) (addr : Z) : Prop := ∃ p b, v !! addr = Some (p, b) ∧ p &&& PROT_READ ≠ 0.

Inductive reads_ok : view → list zevent → Prop :=
| ro_nil v : reads_ok v []
| ro_cons v e es :
    (∀ addr size, e = ZReplaceByCopy addr size → readable_at v addr) →
    reads_ok (apply_event v e) es → reads_ok v (e :: es).

Definition view_of (maps : list MapInfo) : view :=
  list_to_map ((λ m, (map_start m, (map_perms m, false))) <$> maps).

(** ** The events *)

Definition size_of (m : MapInfo) : Z := map_end m - map_start m.

Definition replace_events (m : MapInfo) : list zevent :=
  (if map_perms m &&& PROT_READ =? 0 then [ZMprotect (map_start m) (size_of m) PROT_READ] else []) ++
  [ZReplaceByCopy (map_start m) (size_of m); ZMprotect (map_start m) (size_of m) (map_perms m)].

Lemma replace_mapping_run m s :
  replace_mapping m s = (Ret tt, set_z_log (z_log s ++ replace_events m) s).
Proof.
  unfold replace_mapping, replace_events, size_of, z_emit. destruct (_ =? 0); cbn [when].
  - step. step. unfold modify. cbn. by rewrite <- !app_assoc.
  - step. step. unfold modify. cbn. by rewrite <- !app_assoc.
Qed.

Definition is_jit (m : MapInfo) : bool := contains (txt "jit-cache-zygisk") (cstr (map_path m)).

(** The events for a list of mappings, given the answers of [mmap]. *)
Fixpoint jit_events (maps : list MapInfo) (oks : list bool) : list zevent :=
  match maps with
  | [] => []
  | m :: maps =>
      if is_jit m
      then (if default true (head oks) then replace_events m else []) ++ jit_events maps (tail oks)
      else jit_events maps oks
  end.

Lemma jit_loop_run maps s :
  ∃ s', for_each maps (λ m,
      when (contains (txt "jit-cache-zygisk") (cstr (map_path m)))
        (ok ← pop e_mmaps env_mmaps true; when ok (replace_mapping m))) s = (Ret tt, s') ∧
    z_log s' = z_log s ++ jit_events maps (e_mmaps (z_env s)).
Proof.
  revert s. induction maps as [|m maps IH]; intros s; cbn [for_each jit_events].
  - exists s. by rewrite app_nil_r.
  - unfold is_jit. destruct (contains _ _); cbn [when].
    + unfold pop. rewrite !prog_bind_assoc. step. rewrite !prog_bind_assoc. step. rewrite prog_bind_ret.
      set (s1 := set_z_env _ s). destruct (default true (head (e_mmaps (z_env s)))); cbn [when].
      * step_with (replace_mapping_run m s1). destruct (IH (set_z_log (z_log s1 ++ replace_events m) s1)) as (s' & E & L).
        exists s'. split; [exact E|]. rewrite L. cbn. by rewrite <- app_assoc.
      * step. destruct (IH s1) as (s' & E & L). by exists s'.
    + step. apply IH.
Qed.

(** ** Lemmas *)

Lemma apply_events_app v es1 es2 : apply_events v (es1 ++ es2) = apply_events (apply_events v es1) es2.
Proof. apply foldl_app. Qed.

Lemma reads_ok_app v es1 es2 : reads_ok v es1 → reads_ok (apply_events v es1) es2 → reads_ok v (es1 ++ es2).
Proof. induction 1; intros H2; [done|]. constructor; auto. Qed.

(** Replacing a mapping keeps its protection and touches no other. *)
Lemma replace_events_view v m b :
  v !! map_start m = Some (map_perms m, b) →
  reads_ok v (replace_events m) ∧
  apply_events v (replace_events m) !! map_start m = Some (map_perms m, true) ∧
  ∀ a, a ≠ map_start m → apply_events v (replace_events m) !! a = v !! a.
Proof.
  intros Hv. unfold replace_events. set (v1 := if map_perms m &&& PROT_READ =? 0
    then alter (λ p, (PROT_READ, p.2)) (map_start m) v else v).
  assert (apply_events v (if map_perms m &&& PROT_READ =? 0
            then [ZMprotect (map_start m) (size_of m) PROT_READ] else []) = v1) as E
    by (unfold v1; by destruct (_ =? 0)).
  assert (readable_at v1 (map_start m)) as Hr.
  { unfold v1, readable_at. destruct (Z.eqb_spec (map_perms m &&& PROT_READ) 0) as [H0|H0].
    - exists PROT_READ, b. rewrite lookup_alter_eq, Hv. by split.
    - by exists (map_perms m), b. }
  split_and!.
  - apply reads_ok_app.
    + destruct (_ =? 0); repeat constructor. by intros ? ? [=].
    + rewrite E. repeat constructor; [|by intros ? ? [=]]. by intros ? ? [= <- _].
  - rewrite apply_events_app, E. cbn. by rewrite lookup_alter_eq, lookup_insert_eq.
  - intros a Ha. rewrite apply_events_app, E. cbn. rewrite lookup_alter_ne, lookup_insert_ne by done.
    unfold v1. destruct (_ =? 0); [by apply lookup_alter_ne | done].
Qed.

Lemma jit_events_view maps oks v :
  NoDup (map_start <$> maps) → (∀ m, m ∈ maps → v !! map_start m = Some (map_perms m, false)) →
  reads_ok v (jit_events maps oks) ∧
  (∀ m, m ∈ maps → ∃ b, apply_events v (jit_events maps oks) !! map_start m = Some (map_perms m, b) ∧
                        (b = true → is_jit m = true) ∧ (oks = [] → b = is_jit m)) ∧
  ∀ a, a ∉ map_start <$> maps → apply_events v (jit_events maps oks) !! a = v !! a.
Proof.
  revert oks v. induction maps as [|m maps IH]; intros oks v Hd Hv; cbn [jit_events].
  { split_and!; [constructor | by intros ? ?%elem_of_nil | done]. }
  rewrite fmap_cons in Hd. apply list.NoDup_cons in Hd as [Hm Hd].
  assert (∀ es b oks', reads_ok v es → apply_events v es !! map_start m = Some (map_perms m, b) →
    (∀ a, a ≠ map_start m → apply_events v es !! a = v !! a) → (b = true → is_jit m = true) →
    (oks = [] → b = is_jit m) → (oks = [] → oks' = []) →
    reads_ok v (es ++ jit_events maps oks') ∧
    (∀ m0, m0 ∈ m :: maps → ∃ b0, apply_events v (es ++ jit_events maps oks') !! map_start m0 =
       Some (map_perms m0, b0) ∧ (b0 = true → is_jit m0 = true) ∧ (oks = [] → b0 = is_jit m0)) ∧
    ∀ a, a ∉ map_start <$> m :: maps → apply_events v (es ++ jit_events maps oks') !! a = v !! a) as Hgo.
  { intros es b oks' R1 V1 O1 B1 B2 B3. rewrite apply_events_app.
    destruct (IH oks' (apply_events v es) Hd) as (R2 & V2 & O2).
    { intros m0 H0. rewrite O1; [apply Hv; by right|]. intros E. apply Hm, list_elem_of_fmap. by exists m0. }
    split_and!.
    - by apply reads_ok_app.
    - intros m0 [->|H0]%elem_of_cons.
      + exists b. rewrite O2 by done. by split_and!.
      + destruct (V2 m0 H0) as (b0 & H1 & H2 & H3). exists b0. split_and!; [done..|]. auto.
    - intros a [Ha Hr]%not_elem_of_cons. rewrite O2 by done. by apply O1. }
  pose proof (Hv m (list_elem_of_here _ _)) as Hvm.
  destruct (is_jit m) eqn:Ej.
  - destruct (default true (head oks)) eqn:Eo.
    + destruct (replace_events_view v m false Hvm) as (R & V & O). apply (Hgo _ true (tail oks)); auto. by intros ->.
    + apply (Hgo [] false (tail oks)); [constructor | done | done | done | intros ->; discriminate Eo | by intros ->].
  - apply (Hgo [] false oks); [constructor | done..].
Qed.

(** ** Properties *)

(** Replacing the mappings of the library's memory file by shared copies keeps the protection of
    every mapping of the process, whether or not [mmap] succeeds; it never copies from a mapping
    that is not readable at that moment; with memory available exactly the mappings of the file
    have become shared copies. *)
Theorem remap_jit_cache_view (s : zygote) (maps : list MapInfo) :
  head (e_maps (z_env s)) = Some maps → NoDup (map_start <$> maps) →
  ∃ s' es, remap_jit_cache s = (Ret tt, s') ∧ z_log s' = z_log s ++ es ∧
    reads_ok (view_of maps) es ∧
    ∀ m, m ∈ maps →
      ∃ b, apply_events (view_of maps) es !! map_start m = Some (map_perms m, b) ∧
           (b = true → is_jit m = true) ∧ (e_mmaps (z_env s) = [] → b = is_jit m).
Proof.
  intros Hm Hd. unfold remap_jit_cache, Scan_maps.
  assert (∃ s1, pop e_maps env_maps [] s = (Ret maps, s1) ∧ z_log s1 = z_log s ∧
                e_mmaps (z_env s1) = e_mmaps (z_env s)) as (s1 & E1 & L1 & M1).
  { unfold pop. step. rewrite Hm. by eexists. }
  step_with E1. destruct (jit_loop_run maps s1) as (s' & E & L). rewrite M1, L1 in L.
  destruct (jit_events_view maps (e_mmaps (z_env s)) (view_of maps) Hd) as (R & V & _).
  { intros m Hin. unfold view_of. apply elem_of_list_to_map_1.
    - by rewrite <- list_fmap_compose.
    - apply list_elem_of_fmap. by exists m. }
  exists s', (jit_events maps (e_mmaps (z_env s))). by split_and!.
Qed.

Definition demo_maps_env (maps : list MapInfo) (mmaps : list bool) : zygote :=
  mkZygote true 0 ∅ 0 ∅ [] None [] [] [] false ∅ (-1)
    (mkZenv [] [] [] [] (λ _, 0) [maps] [] [] [] mmaps [7; 7]) [].

Definition demo_jit_maps : list MapInfo :=
  [mkMap 4096 8192 PROT_EXEC true 0 0 9 (txt "/memfd:jit-cache-zygisk (deleted)");
   mkMap 8192 12288 (PROT_READ ||| PROT_WRITE) true 0 0 0 []].

Lemma remap_jit_cache_view_witness :
  ∃ s' es, remap_jit_cache (demo_maps_env demo_jit_maps []) = (Ret tt, s') ∧ z_log s' = es ∧
    apply_events (view_of demo_jit_maps) es !! 4096 = Some (PROT_EXEC, true).
Proof.
  destruct (remap_jit_cache_view (demo_maps_env demo_jit_maps []) demo_jit_maps) as (s' & es & E & L & _ & V).
  - reflexivity.
  - apply (bool_decide_unpack _). by vm_compute.
  - exists s', es. split; [exact E|]. split; [exact L|].
    destruct (V _ (list_elem_of_here _ _)) as (b & Hv & _ & Hb).
    change (Some (PROT_EXEC, true)) with (Some (PROT_EXEC, is_jit (mkMap 4096 8192 PROT_EXEC true 0 0 9 (txt "/memfd:jit-cache-zygisk (deleted)")))).
    rewrite <- Hb by reflexivity. exact Hv.
Defined.

(** The mappings the last loop copies. *)
Definition is_anon_code (m : MapInfo) : bool :=
  negb (map_perms m &&& PROT_EXEC =? 0) && (map_dev m =? 0) && contains (txt "anon") (map_path m).

Section anonymous.
Context (rand : Z → nat → Z).

(** One round of the loop on a mapping that is not copied. *)
Definition name_mapping (m : MapInfo) : prog zygote unit :=
  when (negb (map_perms m &&& PROT_EXEC =? 0) && bool_decide (map_path m = []))
    (now ← pop e_times env_times 0;
     z_emit (ZNameVma (map_start m) (map_end m - map_start m) (generateRandomString rand now 10))).

Lemma name_mapping_run m s :
  ∃ s', name_mapping m s = (Ret tt, s') ∧ e_mmaps (z_env s') = e_mmaps (z_env s).
Proof.
  unfold name_mapping, when. destruct (_ && _); [|by exists s].
  unfold pop, z_emit. rewrite prog_bind_assoc. step. rewrite prog_bind_assoc. step. by eexists.
Qed.

Lemma remap_anonymous_loop s maps s1 :
  pop e_maps env_maps [] s = (Ret maps, s1) →
  remap_anonymous rand s =
  for_each maps (λ m, name_mapping m;;
    when (is_anon_code m) (copy_mapping m)) s1.
Proof. intros E. unfold remap_anonymous, Scan_maps. by step_with E. Qed.

(** The copying of anonymous executable mappings does not look at the result of [mmap]: if it
    fails for the first such mapping, the specialised process crashes copying to an invalid
    address, although the same failure is skipped for the mappings of the memory file. *)
Theorem remap_anonymous_crashes (s : zygote) (before after : list MapInfo) (m : MapInfo) :
  head (e_maps (z_env s)) = Some (before ++ m :: after) → head (e_mmaps (z_env s)) = Some false →
  Forall (λ x, is_anon_code x = false) before → is_anon_code m = true →
  (remap_anonymous rand s).1 = Crash OutOfBounds.
Proof.
  intros Hm Hf Hb Ha.
  assert (∃ s1, pop e_maps env_maps [] s = (Ret (before ++ m :: after), s1) ∧
                e_mmaps (z_env s1) = e_mmaps (z_env s)) as (s1 & E1 & M1).
  { unfold pop. step. rewrite Hm. by eexists. }
  rewrite (remap_anonymous_loop s _ s1 E1). rewrite <- M1 in Hf. clear E1 M1 Hm s.
  revert s1 Hf. induction Hb as [|x before Hx _ IH]; intros s1 Hf; cbn [app for_each].
  - destruct (name_mapping_run m s1) as (s2 & E & M). rewrite prog_bind_assoc. step_with E. rewrite Ha. cbn [when].
    unfold copy_mapping, pop. rewrite !prog_bind_assoc. step. rewrite M, Hf. cbn [default].
    rewrite !prog_bind_assoc. step. step. unfold when. by destruct (_ =? 0).
  - destruct (name_mapping_run x s1) as (s2 & E & M). rewrite prog_bind_assoc. step_with E. rewrite Hx. cbn [when].
    step. apply IH. by rewrite M.
Qed.
End anonymous.

Lemma remap_anonymous_crashes_witness :
  (remap_anonymous (λ _ _, 0)
     (demo_maps_env [mkMap 4096 8192 (PROT_READ ||| PROT_EXEC) true 0 0 0 (txt "[anon:dalvik-jit]")] [false])).1 =
  Crash OutOfBounds.
Proof.
  apply (remap_anonymous_crashes (λ _ _, 0) _ [] [] (mkMap 4096 8192 (PROT_READ ||| PROT_EXEC) true 0 0 0 (txt "[anon:dalvik-jit]")));
    [reflexivity | reflexivity | constructor | reflexivity].
Defined.

(** The names: ten characters of the alphabet, but all that are made in the same second are equal,
    since every call seeds the generator with the time. *)
Lemma random_name_charset rand seed n :
  (∀ s i, 0 <= rand s i) →
  length (generateRandomString rand seed n) = n ∧
  Forall (λ c, c ∈ charset) (generateRandomString rand seed n).
Proof.
  intros Hr. unfold generateRandomString. split; [by rewrite length_fmap, length_seq|].
  apply Forall_fmap, list.Forall_forall. intros i _.
  change (default NUL (charset !! Z.to_nat (rand seed i mod 62)) ∈ charset).
  assert (0 <= rand seed i mod 62 < 62) as Hi by (apply Z.mod_pos_bound; lia).
  destruct (charset !! Z.to_nat (rand seed i mod 62)) as [c|] eqn:E.
  - by eapply list_elem_of_lookup_2.
  - apply lookup_ge_None in E. assert (length charset = 62%nat) as El by reflexivity. lia.
Qed.
