(* ===== verification/Api.v ===== *)
(** * Api: the table of functions a module is given

    [ZygiskModule] of [injector/module.hpp] and [injector/hook.cpp] embeds a table of function
    pointers, which a module reads through [zygisk::Api] of [include/api.hpp].  The two sides
    declare the table each on their own: here it is a list of words, the declarations are layouts,
    and a pointer that is called at another type than its function has ends the process.  The
    claims: what [RegisterModuleImpl] writes agrees with the declaration of every version, a call
    through the table does what [Context] says of the module's actions, and a table that was
    cleared does nothing. *)

From Stdlib Require Import ZArith Lia Ascii.
From stdpp Require Import base tactics strings list gmap numbers.
From S2P Require Import Prelude Context.
From S2P Require SocketUtils Daemon Jni Hooks.

Local Open Scope mach_scope.

(** ** Declarations *)

(** Types of arguments and results.  A pointer goes by what it points to; the module's
    [void * /* impl */] is the [ZygiskModule *] of the other side. *)
Inductive ctype : Set :=
| CVoid | CBool | CInt | CUint32 | CDev | CIno | COption | CStr | CPtr | CPtrPtr | CEnv | CNatives
| CThis | CTable | CModuleAbi.

#[export] Instance ctype_eq_dec : EqDecision ctype.
Proof. solve_decision. Defined.

Record csig : Set := mkSig { sig_ret : ctype; sig_args : list ctype }.

#[export] Instance csig_eq_dec : EqDecision csig.
Proof. solve_decision. Defined.

Inductive field : Set :=
| Impl | RegisterModule | HookJniNativeMethods | PltHookRegister | PltHookExclude | PltHookCommit
| ConnectCompanion | SetOption | GetModuleDir | GetFlags | ExemptFd.

#[export] Instance field_eq_dec : EqDecision field.
Proof. solve_decision. Defined.

(** A member: a function pointer of some type, or [None] for a pointer to data. *)
Abbreviation layout := (list (field * option csig)).

Definition api_abi_base : layout :=
  [(Impl, None);
   (RegisterModule, Some (mkSig CBool [CTable; CModuleAbi]))].

Definition api_abi_v1 : layout := api_abi_base ++
  [(HookJniNativeMethods, Some (mkSig CVoid [CEnv; CStr; CNatives; CInt]));
   (PltHookRegister, Some (mkSig CVoid [CStr; CStr; CPtr; CPtrPtr]));
   (PltHookExclude, Some (mkSig CVoid [CStr; CStr]));
   (PltHookCommit, Some (mkSig CBool []));
   (ConnectCompanion, Some (mkSig CInt [CThis]));
   (SetOption, Some (mkSig CVoid [CThis; COption]))].

Definition api_abi_v2 : layout := api_abi_v1 ++
  [(GetModuleDir, Some (mkSig CInt [CThis]));
   (GetFlags, Some (mkSig CUint32 [CThis]))].

Definition api_abi_v4 : layout := api_abi_base ++
  [(HookJniNativeMethods, Some (mkSig CVoid [CEnv; CStr; CNatives; CInt]));
   (PltHookRegister, Some (mkSig CVoid [CDev; CIno; CStr; CPtr; CPtrPtr]));
   (ExemptFd, Some (mkSig CBool [CInt]));
   (PltHookCommit, Some (mkSig CBool []));
   (ConnectCompanion, Some (mkSig CInt [CThis]));
   (SetOption, Some (mkSig CVoid [CThis; COption]));
   (GetModuleDir, Some (mkSig CInt [CThis]));
   (GetFlags, Some (mkSig CUint32 [CThis]))].

(** The declaration a module is compiled with, of version 4. *)
Definition api_table : layout :=
  [(Impl, None);
   (RegisterModule, Some (mkSig CBool [CTable; CModuleAbi]));
   (HookJniNativeMethods, Some (mkSig CVoid [CEnv; CStr; CNatives; CInt]));
   (PltHookRegister, Some (mkSig CVoid [CDev; CIno; CStr; CPtr; CPtrPtr]));
   (ExemptFd, Some (mkSig CBool [CInt]));
   (PltHookCommit, Some (mkSig CBool []));
   (ConnectCompanion, Some (mkSig CInt [CThis]));
   (SetOption, Some (mkSig CVoid [CThis; COption]));
   (GetModuleDir, Some (mkSig CInt [CThis]));
   (GetFlags, Some (mkSig CUint32 [CThis]))].

(** What a module of version [v] declares: [api_table] now, and what [module.hpp] keeps of the
    earlier versions; version 3 has the members of version 2. *)
Definition declared (v : Z) : layout :=
  if 4 <=? v then api_table else if 2 <=? v then api_abi_v2 else api_abi_v1.

(** The position of a member; every member is one pointer. *)
Fixpoint offsetOf (l : layout) (f : field) : option nat :=
  match l with
  | [] => None
  | (g, _) :: l => if decide (f = g) then Some O else S <$> offsetOf l f
  end.

Definition sizeof_ApiTable : nat :=
  foldr max O (length <$> [api_abi_base; api_abi_v1; api_abi_v2; api_abi_v4]).

(** ** Memory *)

(** The functions whose addresses [RegisterModuleImpl] stores, by the member and version they are
    stored for. *)
Inductive host_fn : Set :=
| FnRegisterModuleImpl | FnHookJni | FnPltRegister | FnPltExclude | FnPltCommit | FnConnectCompanion
| FnSetOption | FnGetModuleDir | FnGetFlags | FnCommitHook | FnPltRegister4 | FnExemptFd.

Definition host_sig (h : host_fn) : csig :=
  match h with
  | FnRegisterModuleImpl => mkSig CBool [CTable; CModuleAbi]
  | FnHookJni => mkSig CVoid [CEnv; CStr; CNatives; CInt]
  | FnPltRegister => mkSig CVoid [CStr; CStr; CPtr; CPtrPtr]
  | FnPltExclude => mkSig CVoid [CStr; CStr]
  | FnPltCommit | FnCommitHook => mkSig CBool []
  | FnConnectCompanion | FnGetModuleDir => mkSig CInt [CThis]
  | FnSetOption => mkSig CVoid [CThis; COption]
  | FnGetFlags => mkSig CUint32 [CThis]
  | FnPltRegister4 => mkSig CVoid [CDev; CIno; CStr; CPtr; CPtrPtr]
  | FnExemptFd => mkSig CBool [CInt]
  end.

Inductive word : Set := WNull | WThis (id : nat) | WFn (h : host_fn).

(** [module_abi], in the memory of the module: pointers as addresses, 0 is null. *)
Record module_abi : Type := mkAbi {
  ab_api_version : Z;
  ab_impl : Z;
  ab_preAppSpecialize : Z;
  ab_postAppSpecialize : Z;
  ab_preServerSpecialize : Z;
  ab_postServerSpecialize : Z
}.

(** A [ZygiskModule], known by its index, as far as the table goes: [api] and [mod]; the other
    members are in [Context]. *)
Record zobject : Type := mkObject { zo_api : list word; zo_mod : option Z }.

Record host : Type := mkHost {
  h_objects : gmap nat zobject;     (* the modules of the context *)
  h_abis : gmap Z module_abi;       (* what modules have allocated *)
  h_next : Z;                       (* the address of the next allocation *)
  h_hooks : Hooks.hooks;
  h_daemon : Daemon.dworld
}.

Definition set_objects o h := mkHost o (h_abis h) (h_next h) (h_hooks h) (h_daemon h).
Definition set_zygote z h :=
  mkHost (h_objects h) (h_abis h) (h_next h) (Hooks.set_hk_z z (h_hooks h)) (h_daemon h).
Definition h_zygote (h : host) : zygote := Hooks.hk_z (h_hooks h).

Definition on_hooks {A} (m : prog Hooks.hooks A) : prog host A := λ h,
  let '(r, s) := m (h_hooks h) in (r, mkHost (h_objects h) (h_abis h) (h_next h) s (h_daemon h)).
Definition on_zygote {A} (m : prog zygote A) : prog host A := λ h,
  let '(r, z) := m (h_zygote h) in (r, set_zygote z h).
Definition on_daemon {A} (m : prog Daemon.dworld A) : prog host A := λ h,
  let '(r, d) := m (h_daemon h) in (r, mkHost (h_objects h) (h_abis h) (h_next h) (h_hooks h) d).

(** The object a table is part of. *)
Definition object (id : nat) : prog host zobject :=
  h ← get; match h_objects h !! id with Some o => mret o | None => crash UseAfterFree end.

Definition update_object (id : nat) (f : zobject → zobject) : prog host unit :=
  o ← object id; modify (λ h, set_objects (<[id := f o]> (h_objects h)) h).

Definition abi_at (addr : Z) : prog host module_abi :=
  h ← get; match h_abis h !! addr with Some a => mret a | None => crash UseAfterFree end.

(** A member of a table, read and written by a declaration. *)
Definition load (l : layout) (f : field) (t : list word) : word := default WNull (offsetOf l f ≫= (t !!.)).
Definition store (l : layout) (f : field) (w : word) (t : list word) : list word :=
  match offsetOf l f with Some i => <[i := w]> t | None => t end.

(** ** ZygiskModule *)

Module ZygiskModule.

Definition initial (id : nat) : list word :=
  store api_abi_base RegisterModule (WFn FnRegisterModuleImpl)
    (store api_abi_base Impl (WThis id) (replicate sizeof_ApiTable WNull)).

Definition new (id : nat) : prog host unit :=
  modify (λ h, set_objects (<[id := mkObject (initial id) None]> (h_objects h)) h).

Definition fill_v1 (t : list word) : list word :=
  store api_abi_v1 SetOption (WFn FnSetOption)
  (store api_abi_v1 ConnectCompanion (WFn FnConnectCompanion)
  (store api_abi_v1 PltHookCommit (WFn FnPltCommit)
  (store api_abi_v1 PltHookExclude (WFn FnPltExclude)
  (store api_abi_v1 PltHookRegister (WFn FnPltRegister)
  (store api_abi_v1 HookJniNativeMethods (WFn FnHookJni) t))))).

Definition fill_v2 (t : list word) : list word :=
  store api_abi_v2 GetFlags (WFn FnGetFlags)
  (store api_abi_v2 GetModuleDir (WFn FnGetModuleDir) t).

Definition fill_v4 (t : list word) : list word :=
  store api_abi_v4 ExemptFd (WFn FnExemptFd)
  (store api_abi_v4 PltHookRegister (WFn FnPltRegister4)
  (store api_abi_v4 PltHookCommit (WFn FnCommitHook) t)).

Definition fill (api_version : Z) (t : list word) : list word :=
  let t := if 1 <=? api_version then fill_v1 t else t in
  let t := if 2 <=? api_version then fill_v2 t else t in
  if 4 <=? api_version then fill_v4 t else t.

(** A table is known by the object it is part of.  [mod] is kept here as an address and in
    [Context] as the version found there. *)
Definition RegisterModuleImpl (api : option nat) (module : option Z) : prog host bool :=
  match api, module with
  | Some id, Some addr =>
      a ← abi_at addr;
      if ZYGISK_API_VERSION <? ab_api_version a then mret false
      else
        o ← object id;
        match load api_abi_base Impl (zo_api o) with
        | WThis this =>
            update_object this (λ o, mkObject (zo_api o) (Some addr));;
            on_zygote (Context.RegisterModuleImpl this (ab_api_version a));;
            update_object id (λ o, mkObject (fill (ab_api_version a) (zo_api o)) (zo_mod o));;
            mret true
        | _ => crash NullDeref
        end
  | _, _ => mret false
  end.

Definition valid (id : nat) : prog host bool :=
  o ← object id;
  match zo_mod o with
  | None => mret false
  | Some addr =>
      a ← abi_at addr;
      mret ((1 <=? ab_api_version a) && (ab_api_version a <=? 4) &&
            negb (ab_impl a =? 0) && negb (ab_preAppSpecialize a =? 0) && negb (ab_postAppSpecialize a =? 0) &&
            negb (ab_preServerSpecialize a =? 0) && negb (ab_postServerSpecialize a =? 0))
  end.

Definition clearApi (id : nat) : prog host unit :=
  update_object id (λ o, mkObject (replicate sizeof_ApiTable WNull) (zo_mod o)).

Section daemon.
Context (sizeof_size_t : nat) (junk_cmsg : Z * Z * Z).

Definition connectCompanion (id : nat) : prog host Z := on_daemon (Daemon.ConnectCompanion sizeof_size_t (Z.of_nat id)).
Definition getModuleDir (id : nat) : prog host Z := on_daemon (Daemon.GetModuleDir sizeof_size_t junk_cmsg (Z.of_nat id)).
End daemon.
End ZygiskModule.

(** ** zygisk::Api, and the entry of a module *)

(** A call of a member of [Api] with its arguments; [pltHookRegister] has two shapes. *)
Inductive method : Type :=
| MHookJni (clz : bytes) (methods : list Hooks.JNINativeMethod)
| MPltRegister (regex symbol : bytes) (fn backup : Z)
| MPltExclude (regex : bytes) (symbol : option bytes)
| MPltCommit
| MConnectCompanion
| MSetOption (o : Option_)
| MGetModuleDir
| MGetFlags
| MPltRegister4 (dev inode : Z) (symbol : bytes) (fn backup : Z)
| MExemptFd (fd : Z).

Definition field_of (m : method) : field :=
  match m with
  | MHookJni _ _ => HookJniNativeMethods
  | MPltRegister _ _ _ _ | MPltRegister4 _ _ _ _ _ => PltHookRegister
  | MPltExclude _ _ => PltHookExclude
  | MPltCommit => PltHookCommit
  | MConnectCompanion => ConnectCompanion
  | MSetOption _ => SetOption
  | MGetModuleDir => GetModuleDir
  | MGetFlags => GetFlags
  | MExemptFd _ => ExemptFd
  end.

(** The type the arguments are passed at. *)
Definition method_sig (m : method) : csig :=
  match m with
  | MHookJni _ _ => mkSig CVoid [CEnv; CStr; CNatives; CInt]
  | MPltRegister _ _ _ _ => mkSig CVoid [CStr; CStr; CPtr; CPtrPtr]
  | MPltExclude _ _ => mkSig CVoid [CStr; CStr]
  | MPltCommit => mkSig CBool []
  | MConnectCompanion | MGetModuleDir => mkSig CInt [CThis]
  | MSetOption _ => mkSig CVoid [CThis; COption]
  | MGetFlags => mkSig CUint32 [CThis]
  | MPltRegister4 _ _ _ _ _ => mkSig CVoid [CDev; CIno; CStr; CPtr; CPtrPtr]
  | MExemptFd _ => mkSig CBool [CInt]
  end.

Inductive answer : Type := AVoid | AInt (z : Z) | ABool (b : bool) | AMethods (l : list Hooks.JNINativeMethod).

(** What [Api] returns when the pointer is null; the methods are left as they are. *)
Definition skipped (m : method) : answer :=
  match m with
  | MHookJni _ ms => AMethods ms
  | MPltRegister _ _ _ _ | MPltExclude _ _ | MSetOption _ | MPltRegister4 _ _ _ _ _ => AVoid
  | MPltCommit | MExemptFd _ => ABool false
  | MConnectCompanion | MGetModuleDir => AInt (-1)
  | MGetFlags => AInt 0
  end.

Definition declared_sig (l : layout) (f : field) : option csig :=
  i ← offsetOf l f; p ← l !! i; p.2.

Section api.
Context (regcomp : bytes → bool) (regexec : bytes → bytes → bool).
Context (FindClass : bytes → bool) (GetMethodID GetStaticMethodID : Hooks.method_key → bool).
Context (getModifiers : Hooks.method_key → Z).
Context (sizeof_size_t : nat) (junk_cmsg : Z * Z * Z).

(** The body of a function, for the arguments of [m]. *)
Definition run_fn (f : host_fn) (this : word) (m : method) : prog host answer :=
  match f, m with
  | FnHookJni, MHookJni clz ms =>
      ms ← on_hooks (Hooks.hookJniNativeMethods FindClass GetMethodID GetStaticMethodID getModifiers clz ms);
      mret (AMethods ms)
  | FnPltRegister, MPltRegister re sym fn backup =>
      on_zygote (s ← get; when (has_ctx s) (plt_hook_register regcomp re sym fn backup));; mret AVoid
  | FnPltExclude, MPltExclude re sym =>
      on_zygote (s ← get; when (has_ctx s) (plt_hook_exclude regcomp re sym));; mret AVoid
  | FnPltCommit, MPltCommit =>
      b ← on_zygote (s ← get; if has_ctx s then plt_hook_commit regexec else mret false); mret (ABool b)
  | FnConnectCompanion, MConnectCompanion =>
      match this with
      | WThis id => r ← ZygiskModule.connectCompanion sizeof_size_t id; mret (AInt r)
      | _ => crash NullDeref
      end
  | FnSetOption, MSetOption o =>
      match this with WThis id => on_zygote (setOption id o);; mret AVoid | _ => crash NullDeref end
  | FnGetModuleDir, MGetModuleDir =>
      match this with
      | WThis id => r ← ZygiskModule.getModuleDir sizeof_size_t junk_cmsg id; mret (AInt r)
      | _ => crash NullDeref
      end
  | FnGetFlags, MGetFlags => r ← on_zygote getFlags; mret (AInt r)
  | FnCommitHook, MPltCommit => b ← on_zygote CommitHook; mret (ABool b)
  | FnPltRegister4, MPltRegister4 dev inode sym fn backup =>
      on_zygote (when (negb (dev =? 0) && negb (inode =? 0) && negb (fn =? 0)) (RegisterHook dev inode sym fn));;
      mret AVoid
  | FnExemptFd, MExemptFd fd =>
      b ← on_zygote (s ← get; if has_ctx s then exempt_fd fd else mret false); mret (ABool b)
  | _, _ => crash BadCall
  end.

(** [tbl->f ? tbl->f(tbl->impl, ...) : ...] in a module compiled with the declaration [l]. *)
Definition call (l : layout) (id : nat) (m : method) : prog host answer :=
  o ← object id;
  match load l (field_of m) (zo_api o) with
  | WNull => mret (skipped m)
  | WFn f =>
      if decide (declared_sig l (field_of m) = Some (host_sig f))
      then run_fn f (load l Impl (zo_api o)) m else crash BadCall
  | WThis _ => crash BadCall
  end.

(** An action of [Context] as a call; opening and closing a descriptor is none. *)
Definition as_method (c : api_call) : option method :=
  match c with
  | AOpen _ | AClose _ => None
  | ASetOption o => Some (MSetOption o)
  | APltRegister re sym fn backup => Some (MPltRegister re sym fn backup)
  | APltExclude re sym => Some (MPltExclude re sym)
  | APltCommit | APltCommit4 => Some MPltCommit
  | APltRegister4 dev inode sym fn backup => Some (MPltRegister4 dev inode sym fn backup)
  | AExemptFd fd => Some (MExemptFd fd)
  end.

(** One action of a module compiled for version [v]. *)
Definition act (v : Z) (id : nat) (c : api_call) : prog host unit :=
  match as_method c with
  | None => on_zygote (perform regcomp regexec id c)
  | Some m => call (declared v) id m;; mret tt
  end.

(** [new]: an address that was not in use. *)
Definition allocate : prog host Z :=
  h ← get; put (mkHost (h_objects h) (h_abis h) (h_next h + 1) (h_hooks h) (h_daemon h));; mret (h_next h).

(** The constructor of [module_abi]; the addresses of its four functions are those of the module. *)
Record thunks : Type := mkThunks { th_pre_app : Z; th_post_app : Z; th_pre_server : Z; th_post_server : Z }.

Definition module_abi_new (t : thunks) (module : Z) : prog host Z :=
  addr ← allocate;
  let a := mkAbi ZYGISK_API_VERSION module (th_pre_app t) (th_post_app t) (th_pre_server t) (th_post_server t) in
  modify (λ h, mkHost (h_objects h) (<[addr := a]> (h_abis h)) (h_next h) (h_hooks h) (h_daemon h));;
  mret addr.

(** [table->registerModule(table, ...)]. *)
Definition registerModule (id : nat) (addr : Z) : prog host bool :=
  o ← object id;
  match load api_table RegisterModule (zo_api o) with
  | WFn FnRegisterModuleImpl => ZygiskModule.RegisterModuleImpl (Some id) (Some addr)
  | WNull => crash NullDeref
  | _ => crash BadCall
  end.

(** The module's [onLoad] makes the calls [on_load]. *)
Definition entry_impl (t : thunks) (id : nat) (on_load : list api_call) : prog host unit :=
  module ← allocate;
  addr ← module_abi_new t module;
  ok ← registerModule id addr;
  if negb ok then mret tt
  else allocate;; for_each on_load (act ZYGISK_API_VERSION id).
End api.

(** ** What the table holds *)

Lemma version_cases (v : Z) : v <= 4 → v <= 0 ∨ v = 1 ∨ v = 2 ∨ v = 3 ∨ v = 4.
Proof. lia. Qed.

Lemma fill_none v t : v <= 0 → ZygiskModule.fill v t = t.
Proof. intros H. unfold ZygiskModule.fill. by rewrite !(proj2 (Z.leb_gt _ _)) by lia. Qed.

(** A word as a declaration [l] has it at position [i]; positions the declaration lacks are null. *)
Definition word_typed (id : nat) (d : option (field * option csig)) (w : word) : Prop :=
  match d with
  | Some (_, Some sg) => ∃ f, w = WFn f ∧ host_sig f = sg
  | Some (_, None) => w = WThis id
  | None => w = WNull
  end.

Lemma fill_typed v id :
  1 <= v <= 4 →
  Forall2 (word_typed id) ((declared v !!.) <$> seq 0 sizeof_ApiTable) (ZygiskModule.fill v (ZygiskModule.initial id)).
Proof.
  intros Hv. destruct (version_cases v ltac:(lia)) as [?|[->|[->|[->| ->]]]]; [lia|..]; vm_compute;
    repeat (constructor; [solve [done | eexists; done]|]); constructor.
Qed.

Section registration.
Context (h : host) (id : nat) (addr : Z) (a : module_abi) (m0 : option Z).
Hypothesis Hobj : h_objects h !! id = Some (mkObject (ZygiskModule.initial id) m0).
Hypothesis Habi : h_abis h !! addr = Some a.

Definition registered : host :=
  set_zygote (Context.RegisterModuleImpl id (ab_api_version a) (h_zygote h)).2
    (set_objects (<[id := mkObject (ZygiskModule.fill (ab_api_version a) (ZygiskModule.initial id)) (Some addr)]> (h_objects h)) h).

Lemma Context_RegisterModuleImpl_true z :
  ab_api_version a <= 4 → (Context.RegisterModuleImpl id (ab_api_version a) z).1 = Ret true.
Proof.
  intros Hv. unfold Context.RegisterModuleImpl, ZYGISK_API_VERSION. by rewrite (proj2 (Z.ltb_ge _ _) Hv).
Qed.

Lemma object_run o (g : host) : h_objects g !! id = Some o → object id g = (Ret o, g).
Proof. intros H. unfold object. step. by rewrite H. Qed.

Lemma abi_at_run : abi_at addr h = (Ret a, h).
Proof. unfold abi_at. step. by rewrite Habi. Qed.

Lemma RegisterModuleImpl_accepts :
  ab_api_version a <= 4 → ZygiskModule.RegisterModuleImpl (Some id) (Some addr) h = (Ret true, registered).
Proof.
  intros Hv. unfold ZygiskModule.RegisterModuleImpl. step_with abi_at_run.
  unfold ZYGISK_API_VERSION. rewrite (proj2 (Z.ltb_ge _ _) Hv). step_with (object_run _ h Hobj).
  change (load api_abi_base Impl _) with (WThis id). cbv iota. unfold update_object.
  rewrite prog_bind_assoc. step_with (object_run _ h Hobj). step.
  set (h1 := set_objects _ h). pose proof (Context_RegisterModuleImpl_true (h_zygote h) Hv) as Ht.
  assert (on_zygote (Context.RegisterModuleImpl id (ab_api_version a)) h1 =
    (Ret true, set_zygote (Context.RegisterModuleImpl id (ab_api_version a) (h_zygote h)).2 h1)) as E1.
  { unfold on_zygote. change (h_zygote h1) with (h_zygote h). by destruct (Context.RegisterModuleImpl _ _ _) as [? z]; cbn in Ht |- *; subst. }
  step_with E1. rewrite prog_bind_assoc.
  erewrite bind_run by (apply object_run; apply lookup_insert_eq). step. unfold registered, set_zygote, set_objects.
  subst h1. unfold set_objects, h_zygote. cbn [h_objects h_abis h_next h_hooks h_daemon zo_api zo_mod].
  by rewrite insert_insert_eq.
Qed.

Lemma RegisterModuleImpl_refuses :
  4 < ab_api_version a → ZygiskModule.RegisterModuleImpl (Some id) (Some addr) h = (Ret false, h).
Proof.
  intros Hv. unfold ZygiskModule.RegisterModuleImpl. step_with abi_at_run.
  unfold ZYGISK_API_VERSION. by rewrite (proj2 (Z.ltb_lt _ _) Hv).
Qed.
End registration.

(** C37 A module of version 1 to 4 that registers finds in its table, at every position its
    declaration names, a function of the declared type, and null at every other position. *)
Theorem registered_table_typed (h : host) (id : nat) (addr : Z) (a : module_abi) (m0 : option Z) :
  h_objects h !! id = Some (mkObject (ZygiskModule.initial id) m0) → h_abis h !! addr = Some a →
  1 <= ab_api_version a <= 4 →
  ∃ h' t, ZygiskModule.RegisterModuleImpl (Some id) (Some addr) h = (Ret true, h') ∧
    h_objects h' !! id = Some (mkObject t (Some addr)) ∧ length t = sizeof_ApiTable ∧
    ∀ i w, t !! i = Some w → word_typed id (declared (ab_api_version a) !! i) w.
Proof.
  intros Ho Ha Hv. exists (registered h id addr a), (ZygiskModule.fill (ab_api_version a) (ZygiskModule.initial id)).
  pose proof (fill_typed (ab_api_version a) id Hv) as HF.
  split_and!.
  - by apply (RegisterModuleImpl_accepts h id addr a m0); [done..|lia].
  - apply lookup_insert_eq.
  - apply Forall2_length in HF. by rewrite length_fmap, length_seq in HF.
  - intros i w Hi. destruct (Forall2_lookup_r _ _ _ i w HF Hi) as (d & Hd & Hw).
    rewrite list_lookup_fmap in Hd. apply fmap_Some in Hd as (j & [-> _]%lookup_seq & ->). done.
Qed.

(** ** The table and the actions of [Context] *)

(** The registered version of every module. *)
Definition mods (s : zygote) : list (nat * option Z) := (λ m, (zm_id m, zm_mod m)) <$> z_modules s.

(** The table of a module that has registered version [v], or not registered. *)
Definition table_state (h : host) (id : nat) (reg : option Z) : Prop :=
  match reg with
  | None => h_objects h !! id = Some (mkObject (ZygiskModule.initial id) None)
  | Some v =>
      ∃ addr a, h_objects h !! id = Some (mkObject (ZygiskModule.fill v (ZygiskModule.initial id)) (Some addr)) ∧
        h_abis h !! addr = Some a ∧ ab_api_version a = v ∧ v <= 4
  end.

Record tables_ok (h : host) : Prop := {
  to_ids : NoDup (mods (h_zygote h)).*1;
  to_fresh : ∀ addr, is_Some (h_abis h !! addr) → addr < h_next h;
  to_tables : ∀ id reg, (id, reg) ∈ mods (h_zygote h) → table_state h id reg
}.

Lemma mod_of_mods s id reg : NoDup (mods s).*1 → (id, reg) ∈ mods s → mod_of id s = reg.
Proof.
  unfold mod_of, mods. induction (z_modules s) as [|m l IH]; [by intros _ ?%elem_of_nil|].
  rewrite !fmap_cons, list.NoDup_cons. cbn [fst]. intros [Hn Hd] [Heq|Hin]%elem_of_cons.
  - injection Heq as -> ->. cbn [List.find]. by rewrite Nat.eqb_refl.
  - cbn [List.find]. destruct (Nat.eqb_spec (zm_id m) id) as [E|_]; [|by apply IH].
    destruct Hn. rewrite E. change id with ((id, reg).1). by apply list_elem_of_fmap_2.
Qed.

(** A module compiled for version [v] only makes the calls its declaration has. *)
Definition said (v : Z) (c : api_call) : bool :=
  match c with
  | APltRegister _ _ _ _ | APltExclude _ _ | APltCommit => v <? 4
  | APltRegister4 _ _ _ _ _ | AExemptFd _ | APltCommit4 => 4 <=? v
  | _ => true
  end.

Lemma on_zygote_forget {A} (X : prog zygote A) (Y : prog zygote unit) (k : A → answer) h :
  (∀ z, (X;; mret tt) z = Y z) → ((a ← on_zygote X; mret (k a));; mret tt) h = on_zygote Y h.
Proof.
  intros E. specialize (E (h_zygote h)). unfold on_zygote, mbind, prog_bind in *. rewrite <- E.
  by destruct (X (h_zygote h)) as [[] z].
Qed.

Lemma bool_guard (Y : prog zygote bool) z :
  ((s ← get; if has_ctx s then Y else mret false);; mret tt) z = (s ← get; when (has_ctx s) (Y;; mret tt)) z.
Proof. rewrite prog_bind_assoc. unfold mbind, prog_bind, get. by destruct (has_ctx z). Qed.

Lemma unit_guard (Y : prog zygote unit) z : (Y;; mret tt) z = Y z.
Proof. unfold mbind, prog_bind. by destruct (Y z) as [[[]| | |] ?]. Qed.

Lemma on_zygote_id h : set_zygote (h_zygote h) h = h.
Proof. by destruct h as [? ? ? [] ?]. Qed.

Lemma initial_null v id m : load (declared v) (field_of m) (ZygiskModule.initial id) = WNull.
Proof. unfold declared. by destruct (4 <=? v), (2 <=? v), m. Qed.

Section refinement.
Context (regcomp : bytes → bool) (regexec : bytes → bytes → bool).
Context (FindClass : bytes → bool) (GetMethodID GetStaticMethodID : Hooks.method_key → bool).
Context (getModifiers : Hooks.method_key → Z).
Context (sizeof_size_t : nat) (junk_cmsg : Z * Z * Z).

Abbreviation act := (act regcomp regexec FindClass GetMethodID GetStaticMethodID getModifiers sizeof_size_t junk_cmsg).
Abbreviation call := (call regcomp regexec FindClass GetMethodID GetStaticMethodID getModifiers sizeof_size_t junk_cmsg).
Abbreviation perform := (perform regcomp regexec).

(** A null entry, and a module of which [Context] says it skips the call. *)
Lemma act_skips v id c m o h :
  as_method c = Some m → h_objects h !! id = Some o → load (declared v) (field_of m) (zo_api o) = WNull →
  filled (mod_of id (h_zygote h)) c = false → act v id c h = on_zygote (perform id c) h.
Proof.
  intros Hm Ho Hl Hf. unfold Api.act. rewrite Hm. unfold Api.call. rewrite prog_bind_assoc.
  step_with (object_run id o h Ho). rewrite Hl. step. unfold on_zygote.
  assert (perform id c (h_zygote h) = (Ret tt, h_zygote h)) as ->.
  { unfold Context.perform. destruct c; try done; step; by rewrite Hf. }
  by rewrite on_zygote_id.
Qed.

Lemma act_perform v id c reg h :
  tables_ok h → (id, reg) ∈ mods (h_zygote h) → reg = None ∨ reg = Some v → said v c = true →
  act v id c h = on_zygote (perform id c) h.
Proof.
  intros [Hi _ Ht] Hin Hv Hs. pose proof (mod_of_mods _ _ _ Hi Hin) as Hmod. specialize (Ht id reg Hin).
  destruct (as_method c) as [m|] eqn:Hm; [|unfold Api.act; by rewrite Hm].
  destruct Hv as [->| ->]; cbn [table_state] in Ht.
  { eapply act_skips; [done.. | apply initial_null | by rewrite Hmod]. }
  destruct Ht as (addr & a & Ho & _ & _ & Hv). destruct (decide (v <= 0)) as [Hle|Hgt].
  { eapply act_skips; [done.. | cbn [zo_api]; rewrite fill_none by done; apply initial_null |].
    rewrite Hmod. destruct c; try done; cbn in Hs |- *; lia. }
  assert (perform id c (h_zygote h) = api_fn regcomp regexec id c (h_zygote h)) as Hp.
  { unfold Context.perform. destruct c; try done; step; rewrite Hmod; cbn in Hs |- *;
      rewrite ?(proj2 (Z.leb_le 1 v)), ?Hs by lia; done. }
  unfold Api.act. rewrite Hm. unfold on_zygote at 1. rewrite Hp. fold (on_zygote (api_fn regcomp regexec id c) h).
  unfold Api.call. rewrite prog_bind_assoc. step_with (object_run id _ h Ho). cbn [zo_api].
  destruct (version_cases v Hv) as [?|Hcases]; [lia|].
  destruct c; try discriminate Hm; injection Hm as <-;
    destruct Hcases as [->|[->|[->| ->]]]; try discriminate Hs;
    (apply (on_zygote_forget _ _ (λ _, AVoid)); intros z; by rewrite unit_guard) ||
    (apply (on_zygote_forget _ _ ABool); intros z; first [apply bool_guard | reflexivity]).
Qed.

Lemma on_zygote_bind {A B} (m : prog zygote A) (k : A → prog zygote B) h :
  on_zygote (m ≫= k) h = (on_zygote m ≫= λ a, on_zygote (k a)) h.
Proof.
  unfold on_zygote, mbind, prog_bind. destruct (m (h_zygote h)) as [[a| | |] z]; done.
Qed.

Lemma set_unload_mods id s : mods (set_z_modules (set_unload id (z_modules s)) s) = mods s.
Proof.
  unfold mods, set_unload. cbn [z_modules set_z_modules]. rewrite <- list_fmap_compose. apply list_fmap_ext.
  intros i m _. cbn. by case_bool_decide.
Qed.

Definition same_mods (s s' : zygote) : Prop := mods s' = mods s.

#[local] Instance same_mods_preorder : PreOrder same_mods.
Proof. split; [done|]. unfold same_mods. intros ? ? ? ? ?. congruence. Qed.

Lemma CommitHook_mods s : Moves same_mods CommitHook s.
Proof. unfold CommitHook, z_emit, pop. walk; [by apply moves_modify | by apply moves_put]. Qed.

Lemma plt_hook_commit_mods s : Moves same_mods (plt_hook_commit regexec) s.
Proof.
  unfold plt_hook_commit. walk; [|by apply moves_modify | apply CommitHook_mods].
  unfold plt_hook_process_regex, Scan_maps, pop. walk; [by apply moves_put|].
  apply moves_for_each; [apply _|]. intros. walk. apply moves_for_each; [apply _|]. intros. walk. by apply moves_modify.
Qed.

Lemma perform_mods id c s : Moves same_mods (perform id c) s.
Proof.
  unfold Context.perform, api_fn, plt_hook_register, plt_hook_exclude, setOption, exempt_fd, close, RegisterHook, z_emit.
  destruct c; walk; auto using plt_hook_commit_mods, CommitHook_mods; apply moves_modify; try done.
  apply set_unload_mods.
Qed.

Lemma tables_ok_zygote z h : same_mods (h_zygote h) z → tables_ok h → tables_ok (set_zygote z h).
Proof.
  unfold same_mods. intros E [H1 H2 H3].
  constructor; change (h_zygote (set_zygote z h)) with z; rewrite ?E; auto.
Qed.

(** Any sequence of actions. *)
Lemma acts_perform v id l r h :
  tables_ok h → (id, r) ∈ mods (h_zygote h) → r = None ∨ r = Some v → Forall (λ c, said v c = true) l →
  for_each l (act v id) h = on_zygote (for_each l (perform id)) h ∧
  tables_ok (on_zygote (for_each l (perform id)) h).2.
Proof.
  intros Hok Hin Hr Hl. revert h Hok Hin. induction Hl as [|c l Hc _ IH]; intros h Hok Hin.
  { cbn [for_each]. unfold on_zygote. cbn. by rewrite on_zygote_id. }
  cbn [for_each]. rewrite on_zygote_bind. pose proof (act_perform v id c r h Hok Hin Hr Hc) as Ea.
  pose proof (perform_mods id c (h_zygote h)) as Hm. destruct (perform id c (h_zygote h)) as [o z] eqn:Ep.
  apply (moves_run _ _ _ _ _ Ep) in Hm.
  assert (on_zygote (perform id c) h = (o, set_zygote z h)) as Eo by (unfold on_zygote; by rewrite Ep).
  rewrite Eo in Ea. pose proof (tables_ok_zygote z h Hm Hok) as Hok'.
  destruct o as [[]| | |]; [|by unfold mbind, prog_bind; rewrite Ea, Eo..].
  step_with Ea. step_with Eo. apply IH; [done|]. change (h_zygote (set_zygote z h)) with z. by rewrite Hm.
Qed.

Lemma Context_register_mods id v s :
  v <= 4 → mods (Context.RegisterModuleImpl id v s).2 =
    (λ p : nat * option Z, if bool_decide (p.1 = id) then (p.1, Some v) else p) <$> mods s.
Proof.
  intros Hv. unfold Context.RegisterModuleImpl, ZYGISK_API_VERSION. rewrite (proj2 (Z.ltb_ge _ _) Hv).
  step. unfold mods. cbn [snd mret prog_ret z_modules set_z_modules]. rewrite <- !list_fmap_compose.
  apply list_fmap_ext. intros i m _. cbn. by case_bool_decide.
Qed.

(** What allocations and a registration do to the state. *)
Definition after_register (t : thunks) (id : nat) (h : host) : host :=
  let a := mkAbi 4 (h_next h) (th_pre_app t) (th_post_app t) (th_pre_server t) (th_post_server t) in
  let h := registered (mkHost (h_objects h) (<[h_next h + 1 := a]> (h_abis h)) (h_next h + 1 + 1) (h_hooks h) (h_daemon h))
             id (h_next h + 1) a in
  mkHost (h_objects h) (h_abis h) (h_next h + 1) (h_hooks h) (h_daemon h).

Lemma after_register_ok t id h : tables_ok h → tables_ok (after_register t id h).
Proof.
  intros [H1 H2 H3]. pose proof (Context_register_mods id 4 (h_zygote h) ltac:(lia)) as Hm.
  constructor; change (h_zygote (after_register t id h)) with (Context.RegisterModuleImpl id 4 (h_zygote h)).2; rewrite ?Hm.
  - rewrite <- list_fmap_compose. erewrite list_fmap_ext; [exact H1|]. intros i [j r] _. cbn. by case_bool_decide.
  - intros addr. cbn. rewrite lookup_insert_is_Some. intros [<-|[_ H]]; [lia|]. specialize (H2 addr H). lia.
  - intros j r ([j' r'] & E & Hin)%list_elem_of_fmap. specialize (H3 j' r' Hin). cbn in E. case_bool_decide as Hj.
    + injection E as -> ->. subst j'. exists (h_next h + 1). eexists.
      split_and!; [apply lookup_insert_eq | apply lookup_insert_eq | done | lia].
    + injection E as -> ->. destruct r' as [v|]; cbn [table_state] in *.
      * destruct H3 as (addr & a & Ho & Ha & Hv). exists addr, a. split; [|split; [|done]].
        -- cbn. by rewrite lookup_insert_ne.
        -- specialize (H2 addr (ex_intro _ a Ha)). cbn. by rewrite lookup_insert_ne by lia.
      * cbn. by rewrite lookup_insert_ne.
Qed.

Lemma entry_impl_run t id l h :
  tables_ok h → (id, None) ∈ mods (h_zygote h) →
  entry_impl regcomp regexec FindClass GetMethodID GetStaticMethodID getModifiers sizeof_size_t junk_cmsg t id l h =
  for_each l (act 4 id) (after_register t id h).
Proof.
  intros Hok Hin. unfold entry_impl. step. unfold module_abi_new. rewrite !prog_bind_assoc. step.
  cbv zeta. rewrite prog_bind_assoc. step. step. pose proof (to_tables h Hok id None Hin) as Ho. cbn [table_state] in Ho.
  unfold registerModule. rewrite prog_bind_assoc. cbn [h_objects h_abis h_next h_hooks h_daemon]. set (h2 := mkHost _ _ _ _ _).
  step_with (object_run id _ h2 Ho). change (load api_table RegisterModule _) with (WFn FnRegisterModuleImpl). cbv iota.
  assert (h_abis h2 !! (h_next h + 1) = Some (mkAbi 4 (h_next h) (th_pre_app t) (th_post_app t) (th_pre_server t) (th_post_server t)))
    as Ha by apply lookup_insert_eq.
  step_with (RegisterModuleImpl_accepts h2 id _ _ None Ho Ha ltac:(cbn; lia)). cbn [negb]. by step.
Qed.

(** C10 The entry of a module over the table, from its registration to the end of its [onLoad],
    does to the zygote what [Context] says of loading it, with the same outcome; every table
    still is what its module's version promises, and the module is valid. *)
Theorem entry_impl_refines t id code h :
  tables_ok h → (id, None) ∈ mods (h_zygote h) →
  mc_register code = Some ZYGISK_API_VERSION → Forall (λ c, said ZYGISK_API_VERSION c = true) (mc_on_load code) →
  let '(r, z') := onLoad regcomp regexec id code (h_zygote h) in
  ∃ h', entry_impl regcomp regexec FindClass GetMethodID GetStaticMethodID getModifiers sizeof_size_t junk_cmsg
          t id (mc_on_load code) h = (r, h') ∧
    h_zygote h' = z' ∧ tables_ok h' ∧
    (th_pre_app t ≠ 0 → th_post_app t ≠ 0 → th_pre_server t ≠ 0 → th_post_server t ≠ 0 → h_next h ≠ 0 →
     ZygiskModule.valid id h' = (Ret true, h')).
Proof.
  intros Hok Hin Hr Hl. set (h1 := after_register t id h).
  assert (onLoad regcomp regexec id code (h_zygote h) = for_each (mc_on_load code) (perform id) (h_zygote h1)) as ->.
  { unfold onLoad. rewrite Hr. by step_with (eq_refl (Context.RegisterModuleImpl id 4 (h_zygote h))). }
  rewrite (entry_impl_run t id _ h Hok Hin). fold h1.
  assert ((id, Some 4) ∈ mods (h_zygote h1)) as Hin1.
  { change (h_zygote h1) with (Context.RegisterModuleImpl id 4 (h_zygote h)).2.
    rewrite Context_register_mods by lia. apply list_elem_of_fmap. exists (id, None). cbn.
    by rewrite bool_decide_eq_true_2. }
  destruct (acts_perform 4 id (mc_on_load code) (Some 4) h1) as [E Hok'];
    [by apply after_register_ok | done | by right | done|].
  rewrite E. unfold on_zygote in *. destruct (for_each _ _ (h_zygote h1)) as [r z]. exists (set_zygote z h1).
  split_and!; [done | done | done|]. intros T1 T2 T3 T4 Hn. unfold ZygiskModule.valid.
  erewrite bind_run by (apply object_run; cbn; apply lookup_insert_eq). cbn [zo_mod].
  erewrite bind_run by (apply abi_at_run; cbn; apply lookup_insert_eq). cbn.
  by rewrite !(proj2 (Z.eqb_neq _ _)).
Qed.

(** Once the table of a module was cleared, whatever its declaration, every call returns what
    [Api] returns for a null pointer and changes nothing. *)
Theorem cleared_table_inert id v m h :
  is_Some (h_objects h !! id) →
  ∃ h1, ZygiskModule.clearApi id h = (Ret tt, h1) ∧ call (declared v) id m h1 = (Ret (skipped m), h1).
Proof.
  intros [o Ho]. unfold ZygiskModule.clearApi, update_object. step_with (object_run id o h Ho).
  eexists. split; [reflexivity|]. unfold Api.call.
  erewrite bind_run by (apply object_run; apply lookup_insert_eq). cbn [zo_api].
  replace (load _ _ _) with WNull; [done|]. unfold declared. by destruct (4 <=? v), (2 <=? v), m.
Qed.

(** The table is part of the module, and the modules go with the context: a call made after that
    reads memory that was freed. *)
Lemma call_after_context id l m h :
  call l id m (set_objects ∅ h) = (Crash UseAfterFree, set_objects ∅ h).
Proof. reflexivity. Qed.
End refinement.

(** ** The structures with the arguments *)

(** What a module of version 4 declares; every member is a reference or a pointer. *)
Definition AppSpecializeArgs : list Jni.P.t :=
  [Jni.P.uid; Jni.P.gid; Jni.P.gids; Jni.P.runtime_flags; Jni.P.rlimits; Jni.P.mount_external; Jni.P.se_info;
   Jni.P.nice_name; Jni.P.instruction_set; Jni.P.app_data_dir;
   Jni.P.fds_to_ignore; Jni.P.is_child_zygote; Jni.P.is_top_app; Jni.P.pkg_data_info_list;
   Jni.P.whitelisted_data_info_list; Jni.P.mount_data_dirs; Jni.P.mount_storage_dirs; Jni.P.mount_sysprop_overrides].

Definition ServerSpecializeArgs : list Jni.P.t :=
  [Jni.P.uid; Jni.P.gid; Jni.P.gids; Jni.P.runtime_flags; Jni.P.permitted_capabilities; Jni.P.effective_capabilities].

(** At every position the module finds the member it names, whichever native method was replaced. *)
Lemma args_layout k :
  (k = Jni.KServer → ServerSpecializeArgs = Jni.struct_fields k) ∧
  (k ≠ Jni.KServer → AppSpecializeArgs = Jni.struct_fields k).
Proof. by destruct k. Qed.

(** ** A zygote with one module *)

Definition demo_module_code : module_code :=
  mkCode (Some 4096) true (Some 4) [ASetOption DLCLOSE_MODULE_LIBRARY; APltRegister4 1 2 (txt "open") 77 0; APltCommit4] [] [].

Definition demo_context : zygote :=
  mkZygote true (-1) ∅ 0 ∅ [] None [] [] [mkModule 0 false 4096 None demo_module_code] false ∅ 4
    (mkZenv [] [] [] [demo_module_code] (λ _, 0) [] [] [] [] [] []) [].

Definition demo_host : host :=
  mkHost {[0%nat := mkObject (ZygiskModule.initial 0) None]} ∅ 1000 (Hooks.set_hk_z demo_context Hooks.demo_hooks)
    (Daemon.mkDworld [] 3 [] [] (SocketUtils.mkSock [] [] []) []).

Definition demo_thunks : thunks := mkThunks 1 2 3 4.

Lemma demo_host_ok : tables_ok demo_host ∧ (0%nat, None) ∈ mods (h_zygote demo_host).
Proof.
  split; [|apply list_elem_of_here]. constructor.
  - apply NoDup_singleton.
  - intros addr H. exfalso. exact (lookup_empty_is_Some addr H).
  - intros id r [= -> ->]%list_elem_of_singleton. reflexivity.
Qed.

Lemma entry_impl_refines_witness :
  let '(r, z') := onLoad (λ _, true) (λ _ _, true) 0 demo_module_code (h_zygote demo_host) in
  ∃ h', entry_impl (λ _, true) (λ _ _, true) (λ _, true) (λ _, false) (λ _, false) (λ _, 0) 8 (0, 0, 0)
          demo_thunks 0 (mc_on_load demo_module_code) demo_host = (r, h') ∧
    h_zygote h' = z' ∧ tables_ok h' ∧
    (th_pre_app demo_thunks ≠ 0 → th_post_app demo_thunks ≠ 0 → th_pre_server demo_thunks ≠ 0 →
     th_post_server demo_thunks ≠ 0 → h_next demo_host ≠ 0 → ZygiskModule.valid 0 h' = (Ret true, h')).
Proof.
  apply (entry_impl_refines (λ _, true) (λ _ _, true) (λ _, true) (λ _, false) (λ _, false) (λ _, 0) 8 (0, 0, 0)
           demo_thunks 0 demo_module_code demo_host);
    [apply demo_host_ok | apply demo_host_ok | done | by repeat constructor].
Defined.

(** A module of version 1: six functions, and none where version 2 has its two. *)
Definition demo_v1 : host :=
  mkHost (h_objects demo_host) {[2000 := mkAbi 1 5 1 2 3 4]} 3000 (h_hooks demo_host) (h_daemon demo_host).

Lemma registered_table_typed_witness :
  ∃ h' t, ZygiskModule.RegisterModuleImpl (Some 0%nat) (Some 2000) demo_v1 = (Ret true, h') ∧
    h_objects h' !! 0%nat = Some (mkObject t (Some 2000)) ∧ length t = sizeof_ApiTable ∧
    ∀ i w, t !! i = Some w → word_typed 0 (declared 1 !! i) w.
Proof. apply (registered_table_typed demo_v1 0 2000 (mkAbi 1 5 1 2 3 4) None); [done | done | cbn; lia]. Defined.

Lemma cleared_table_inert_witness :
  ∃ h1, ZygiskModule.clearApi 0 demo_host = (Ret tt, h1) ∧
    call (λ _, true) (λ _ _, true) (λ _, true) (λ _, false) (λ _, false) (λ _, 0) 8 (0, 0, 0) (declared 4) 0 MGetFlags h1 =
      (Ret (AInt 0), h1).
Proof.
  apply (cleared_table_inert (λ _, true) (λ _ _, true) (λ _, true) (λ _, false) (λ _, false) (λ _, 0) 8 (0, 0, 0)
           0 4 MGetFlags demo_host). eexists. reflexivity.
Defined.

(** A module that was compiled for version 4 but announces version 1 would call the version 1
    function at the type of version 4. *)
Example wrong_version_called :
  (call (λ _, true) (λ _ _, true) (λ _, true) (λ _, false) (λ _, false) (λ _, 0) 8 (0, 0, 0) api_table 0
     (MPltRegister4 1 2 (txt "open") 77 0)
     (registered demo_v1 0 2000 (mkAbi 1 5 1 2 3 4))).1 = Crash BadCall.
Proof. vm_compute. reflexivity. Qed.

(** A version above 4 is refused; a module that registered nothing finds no function. *)
Example version_5_refused :
  (ZygiskModule.RegisterModuleImpl (Some 0%nat) (Some 2000)
     (mkHost (h_objects demo_host) {[2000 := mkAbi 5 5 1 2 3 4]} 3000 (h_hooks demo_host) (h_daemon demo_host))).1 = Ret false.
Proof. vm_compute. reflexivity. Qed.
